(* ===== verification/_CoqProject ===== *)
-Q . S2P
Prelude.v
GoStd.v
Sha256.v
GoJson.v
GoText.v
Uuid.v
Observation.v
Memory.v
MemoryInv.v
MemorySafety.v
MemoryViews.v
OperationTypes.v
Transitions.v
TransitionFacts.v
Dispatch.v
Forward.v
Installations.v
Lifecycle.v
LifecycleWorker.v
OperationsInv.v
OperationsFrame.v
OperationsSteps.v
OperationsWorkers.v
OperationsBarrier.v
OperationsReach.v
LifecycleEffect.v
LifecycleSafety.v
OperationsSafety.v
DispatchProgress.v
DispatchFair.v
Identity.v
IdentityFacts.v
IdentitySafety.v
Catalog.v
SemVer.v
Market.v
AppSnapshot.v
AppSnapshotFacts.v
AppState.v
AppStateSteps.v
AppStateSafety.v
Notifications.v
AppFacts.v
AppFactsSafety.v
StrictJson.v
Egress.v
Probe.v
ProbeFacts.v
EgressService.v
EgressSteps.v
EgressSafety.v
Releases.v
Preinstalled.v
ReleasesSafety.v
Admission.v
AdmissionSafety.v
Program.v
GoHttp.v
Transport.v
GoFloat.v
TelemetryTypes.v
NamespaceMigration.v
Gateway.v
GatewayCalls.v
GatewayHandlers.v
GatewayInternal.v
GatewayServer.v
GatewayMonitor.v
GatewaySafety.v
GatewayDelegation.v
GatewayContract.v
GatewayTheorems.v
GatewayAccess.v
GatewayWitness.v
NamespaceMigrationFacts.v
NamespaceRewrite.v
Telemetry.v
TelemetryFacts.v
