(* ===== verification/Prelude.v ===== *)
(** * VerdantFlare Station Core: verification development

    A model of the Go program under src/ (module verdantflare-station-core) and the
    theorems that make its parts correct. Station Core is the local authority of one
    station: it authenticates administrators, accepts commands that install, upgrade
    or stop applications, hands them to a separate Runtime and records what Runtime
    reports, watches the workloads through collectors, and shows all of this to
    the organizations without leaking one to another.

    ** How the parts interact

    Requests enter through internal/gateway, which authenticates them with
    internal/identity. Commands go to internal/operations: a lifecycle command or a
    version transition is accepted in one transaction on the tables, a worker takes
    it from there, asks Runtime for one step at a time and commits what Runtime
    answered. Collectors stream observations of Kubernetes into the memory of
    internal/appstate; the views, the catalog and the facts of internal/appcenter
    join that memory with the tables and with internal/catalog (the registered
    applications and the market). A command admitted from the facts is checked again
    against live evidence and against the release material on disk.
    internal/egress manages and probes outbound proxies. The order of the files is
    the order of these dependencies.

    ** The files, by part

    Shared. [Prelude]: results, early returns, automation, lists. [GoStd], [GoText],
    [GoJson], [Sha256], [Uuid]: the Go standard library as the program uses it
    (byte strings, integers, sorting, regular expressions as derivatives, JSON text
    as encoding/json writes it, executable SHA-256, addresses and instants) and the
    interface of google/uuid.

    Observation memory (internal/appstate: memory.go, stream_http.go, state.go,
    collector_protocol.go, memory_validation.go, wire.generated.go). [Observation]
    has the wire records, their validation and the runtime view; [Memory] the state
    (record [Memory.Memory]), one definition per frame and per call, sessions as
    references into a store because the code compares session pointers. [MemoryInv]
    has the step relation and the well-formedness invariant, [MemorySafety] and
    [MemoryViews] the theorems and a concrete station.

    Snapshots of the memory (legacy.go, catalog.go, preinstalled.go, store.go,
    notifications.go). [AppSnapshot]: the operator's legacy registry, the joint
    projection, the catalog and the candidate inspection; [AppSnapshotFacts] what
    they disclose. [AppState]: the state API as one query over the tables and the
    memory, the triggers of migrations/0018 that raise its revision, the catalog
    synchronization; [AppStateSteps] one site under all its writers and
    [AppStateSafety] the theorem that the revision is a version of the facts.
    [Notifications]: the hints and their publisher. Witnesses at the end of
    [Notifications] and of [AppSnapshotFacts].

    Operations (internal/operations, internal/releasebinding). [OperationTypes]: the
    rows of the tables and transactions as functions [DB -> result OpError (A * DB)].
    [Transitions] (transitions.go, transition_admission.go), [Dispatch]
    (transition_dispatch.go, transition_worker.go), [Forward] (forward_recovery.go),
    [Installations] (installations.go, preinstalled.go, video_source_recovery.go),
    [Lifecycle] (service.go, appcenter_commands.go), [LifecycleWorker] (worker.go,
    appcenter_dispatch.go). [OperationsInv] puts them into one step relation
    [ostep], a dispatch being a read, Runtime's answer and a commit between which
    everybody else may act. [OperationsFrame], [OperationsSteps],
    [OperationsWorkers], [OperationsBarrier], [OperationsReach] prove the invariant,
    [LifecycleEffect] what one step does to the rows, [OperationsSafety],
    [LifecycleSafety], [TransitionFacts] the safety theorems, [DispatchProgress] and
    [DispatchFair] refinement, progress, fairness and a concrete station.
    [Transport] (transition_transport.go) is the HTTP transport to Runtime and what
    it makes of the progress theorem.

    Identity (internal/identity: service.go, mcp_token.go, delegation.go).
    [Identity], [IdentityFacts], [IdentitySafety].

    Catalog and versions (internal/catalog, internal/appcenter/version.go).
    [Catalog] (catalog.go, snapshot.go, discovery.go, kubernetes.go) and [Market]
    (market.go), each with its facts behind the definitions, [SemVer] (version.go).

    Application center (internal/appcenter/facts.go, internal/strictjson,
    internal/operations/appcenter*.go, dashboard_*.go, transition_releases.go).
    [AppFacts], [AppFactsSafety]: the facts of an actor. [StrictJson]: the strict
    decoder. [Releases], [ReleasesSafety]: registries and verification of release
    material. [Admission], [AdmissionSafety]: policies, live preflight, candidates.
    Witnesses at the end of [AdmissionSafety] and of [ReleasesSafety].

    Preinstalled applications (internal/releasebinding, operations/preinstalled.go):
    [Preinstalled], the registry of trusted releases and the inventory.

    Moving a namespace (operations/namespace_migration.go). [NamespaceMigration] the
    request, the rewriting of stored JSON, the transaction; [NamespaceMigrationFacts]
    its equivalence with one pass over the tables, [NamespaceRewrite] the rewriting.

    Outbound proxies (internal/egress). [Egress] (model.go), [Probe] (probe.go),
    [EgressService] (service.go), [EgressSteps] the interleaving of edits and
    probes, [ProbeFacts], [EgressSafety] the theorems and concrete proxies.

    Telemetry (internal/telemetry, the lists of catalog/kubernetes.go). [GoFloat]:
    float64, conversions, durations. [TelemetryTypes] the data and the lists of
    Kubernetes, [Telemetry] the methods as programs over readings of the clock, of
    Prometheus and of Kubernetes, [TelemetryFacts] the theorems and a station.

    HTTP gateway (internal/gateway). A handler is a program of [Program] over the
    calls of the services: it returns, panics, or makes a call and goes on with the
    answer. [GoHttp] is what net/http and net/url give it, [Gateway] requests,
    responses, errors and decode targets, [GatewayCalls] the calls ([Event]), the
    configuration and what the handlers share, [GatewayHandlers] the handlers of
    users, [GatewayInternal] those of services, [GatewayServer] the routes of
    server.go and the whole [exchange]. [GatewayMonitor] is a reference monitor: the
    permission of each call and the contract of each answer; [GatewaySafety],
    [GatewayDelegation] and [GatewayContract] carry it through the handlers and the
    router, [GatewayTheorems] has the theorems, with [IdentityWorld] as the interface
    of the identity service, [GatewayAccess] the theorems on credentials and bodies,
    [GatewayWitness] exchanges in a concrete world.

    ** What the groups of theorems show

    - Operations: no application ever has an unfinished lifecycle operation and an
      unfinished transition at once; a transition stands where its installation
      stands and ends only at its target, its source, or recovered forward; after
      its release a workload is never swapped; rows keep their input, finished ones
      everything; a worker pass refines the atomic steps; a compliant Runtime
      finishes every transition in a bounded number of passes, and the worker is
      fair: a run of as many passes as transitions are ever unfinished dispatches
      each of them or finds it finished, whatever happens meanwhile.
    - Memory and its readers: reachable memories are well formed; refused frames,
      which write in place, publish nothing; a known state rests on unexpired evidence of the same
      identity; catalog, candidates and facts disclose own workloads only; the
      revision of a snapshot versions its facts; every changed hint is published
      until it is accepted.
    - Identity: authorization rests on current rows, revocation is final, guessing
      locks an account, a refresh rotates the token.
    - Gateway: every call has the permission its kind needs, a session or an open
      delegation of a current member stands behind it, every answer keeps the
      contract of headers, errors and challenges (the collector's stream answers by
      its own handler over them), requests that the router refuses reach no service,
      or below the proxies only the session; bodies and the registry of credentials are accepted exactly as specified.
    - Moving a namespace: a move rewrites exactly the matching rows and what depends
      on them and answers with the exact account of it, or nothing; rewritten states
      are settled.
    - Application center: facts are a function of redacted inputs; what the page
      enables is backed, what admission lets through is bound to live evidence and
      content-addressed material; the market publishes verified releases or nothing.
    - Telemetry: a usage value was measured on the container it is shown for, a
      hardware figure is a recent unrivalled sample or what a stated formula makes of
      such samples, and none is older than the instant shown; the caches are used within their
      time, the summary is the summary of what is beside it.
    - Proxies: a stored probe was measured on what is stored beside it, probes are
      bounded and exclusive and connect to admitted addresses only.

    ** Conventions, bounds and fuel

    A Go string is a byte string; an int64 or uint64 is a [Z] with its wrap-around
    written out where the code can overflow. Instants are nanoseconds; each reading
    of a clock is an argument, and so is every drawn identifier, every answer of
    Runtime, of a collector, of HTTP or of a file, and whether a connection answers.
    A transaction is one atomic step, because the code serializes the transactions
    that touch a row by locks; where it does not (dispatch, probes), each statement
    is a step of its own. Recursion is structural; the few loops with
    a bound carry the one the code has: the eight groups of an IPv6 address, the 64
    words of a SHA-256 schedule, the blocks of a message.

    Parameters, each a type class or an argument: the parser of google/uuid
    ([UuidLib]), DNS names of apimachinery ([K8sLib]), bcrypt, the tokenizer and
    codecs of encoding/json, the cipher of the egress service, Unicode case tables,
    PostgreSQL's collation, media types and URLs, ParseFloat, ParseDuration and
    ParseQuantity, the order in which a map is ranged over, whether the inputs of a
    command fit their table. The witnesses instantiate them. A
    program of the gateway is inductive, so every exchange ends in any world that
    answers its calls.

    ** Not modelled

    The generated protobuf code, the gRPC transport,
    start-up (cmd/, internal/config, the migration runner, embedded schemas) and the
    test database are glue or I/O without logic of their own. Timer loops around a
    modelled pass, request logging and metrics are left out: they call the pass and
    nothing else. *)

From stdpp Require Export base tactics numbers option list gmap strings relations.
From Stdlib Require Export ZArith Lia.

(** Scope of the development's own notations. *)
Declare Scope station_scope.
Delimit Scope station_scope with station.
#[global] Open Scope station_scope.
#[global] Open Scope Z_scope.

(** ** Results

    A Go function that returns [(T, error)] is a function into
    [result E T]; [E] is the component's error type. *)
Inductive result (E A : Type) : Type :=
| Ok (a : A)
| Err (e : E).
Arguments Ok {E A} a.
Arguments Err {E A} e.

#[export] Instance result_ret {E} : MRet (result E) := fun A a => Ok a.
#[export] Instance result_bind {E} : MBind (result E) :=
  fun A B f m => match m with Ok a => f a | Err e => Err e end.
#[export] Instance result_eq_dec {E A} `{EqDecision E} `{EqDecision A} :
  EqDecision (result E A).
Proof. solve_decision. Defined.

(** Early return: [if cond { return ..., err }]. *)
Notation "'reject' e 'when' c ';;' k" := (if c then Err e else k)
  (at level 10, e at level 1, c at level 99, k at level 200,
   format "'[v' 'reject'  e  'when'  c  ';;' '/' k ']'") : station_scope.

Definition is_ok {E A} (r : result E A) : bool :=
  match r with Ok _ => true | Err _ => false end.

(** ** Go values *)

(** A nil-able pointer to an immutable value is an [option]. *)
Definition from_nil {A} (d : A) (o : option A) : A := default d o.

(** Does [slices.Contains] hold. *)
Definition slices_contains {A} `{EqDecision A} (l : list A) (x : A) : bool :=
  bool_decide (x ∈ l).

(** [seen] loops: every element passes [ok] and no key repeats; the loops of the
    code return at the first element that fails, and so does this scan. *)
Fixpoint scan_distinct {A K} `{EqDecision K} `{Countable K}
    (ok : A -> bool) (key : A -> K) (seen : gset K) (l : list A) : bool :=
  match l with
  | [] => true
  | x :: rest =>
      if negb (ok x) || bool_decide (key x ∈ seen) then false
      else scan_distinct ok key ({[ key x ]} ∪ seen) rest
  end.

(** ** Tactics *)

(** Split every boolean conjunction, disjunction and comparison of the context. *)
Ltac bool_norm :=
  repeat match goal with
  | H : _ && _ = true |- _ => apply andb_true_iff in H; destruct H
  | H : _ || _ = false |- _ => apply orb_false_iff in H; destruct H
  | H : negb _ = true |- _ => apply negb_true_iff in H
  | H : negb _ = false |- _ => apply negb_false_iff in H
  | H : bool_decide _ = true |- _ => apply bool_decide_eq_true in H
  | H : bool_decide _ = false |- _ => apply bool_decide_eq_false in H
  | H : (_ <? _) = true |- _ => apply Z.ltb_lt in H
  | H : (_ <? _) = false |- _ => apply Z.ltb_ge in H
  | H : (_ <=? _) = true |- _ => apply Z.leb_le in H
  | H : (_ <=? _) = false |- _ => apply Z.leb_gt in H
  | H : (_ =? _) = true |- _ => apply Z.eqb_eq in H
  | H : (_ =? _) = false |- _ => apply Z.eqb_neq in H
  | H : (_ =? _)%string = true |- _ => apply String.eqb_eq in H
  | H : (_ =? _)%string = false |- _ => apply String.eqb_neq in H
  end.

(** Case-split the early returns of a successful call in hypothesis [H]. *)
Ltac inv_ok H :=
  lazymatch type of H with
  | Err _ = Ok _ => discriminate H
  | Ok _ = Ok _ => injection H as H; subst
  | (if ?c then _ else _) = _ => let E := fresh "Hc" in destruct c eqn:E; inv_ok H
  | (match ?m with _ => _ end) = _ => let E := fresh "Hm" in destruct m eqn:E; inv_ok H
  | _ => idtac
  end.

(** ** Lemmas shared by the components *)

Lemma slices_contains_true {A} `{EqDecision A} (l : list A) x :
  slices_contains l x = true <-> x ∈ l.
Proof. unfold slices_contains. by rewrite bool_decide_eq_true. Qed.

Lemma slices_contains_false {A} `{EqDecision A} (l : list A) x :
  slices_contains l x = false <-> x ∉ l.
Proof. unfold slices_contains. by rewrite bool_decide_eq_false. Qed.

Lemma mbind_ok {E A B} (m : result E A) (f : A -> result E B) b :
  m ≫= f = Ok b <-> exists a, m = Ok a /\ f a = Ok b.
Proof.
  split.
  - destruct m; [by eauto | done].
  - intros (a & -> & Hf). exact Hf.
Qed.

Section ScanDistinct.
Context {A K : Type} `{EqDecision K} `{Countable K}.
Variables (ok : A -> bool) (key : A -> K).

Lemma scan_distinct_true seen (l : list A) :
  scan_distinct ok key seen l = true <->
  (forall x, x ∈ l -> ok x = true) /\ NoDup (key <$> l) /\
  (forall x, x ∈ l -> key x ∉ seen).
Proof.
  revert seen. induction l as [| y l IH]; intros seen; simpl.
  - split; [| done]. intros _. repeat split; try constructor; intros x Hx; by apply elem_of_nil in Hx.
  - destruct (negb (ok y) || bool_decide (key y ∈ seen)) eqn:E.
    + split; [done |]. intros (Hok & _ & Hseen).
      apply orb_true_iff in E as [E | E].
      * rewrite Hok in E by (left; done). done.
      * apply bool_decide_eq_true in E. exfalso. eapply Hseen; [left; done | done].
    + bool_norm. rewrite IH. split.
      * intros (Hok & Hnd & Hseen). split; [| split].
        -- intros x [-> | Hx]%elem_of_cons; [done | auto].
        -- constructor; [| done]. intros (x & Hx & Hin)%list_elem_of_fmap.
           apply (Hseen x Hin). set_solver.
        -- intros x [-> | Hx]%elem_of_cons; [done |]. specialize (Hseen x Hx). set_solver.
      * intros (Hok & Hnd & Hseen). apply NoDup_cons in Hnd as [Hni Hnd].
        split; [| split]; [by intros; apply Hok; right | done |].
        intros x Hx. assert (key x ∉ seen) by (apply Hseen; by right).
        assert (key x <> key y). { intros Heq. apply Hni. rewrite <- Heq. by apply list_elem_of_fmap_2. }
        set_solver.
Qed.
End ScanDistinct.

(** A filtered map keeps what holds of every entry. *)
Lemma map_Forall_filtered {K V} `{Countable K} (P : K -> V -> Prop) (Q : K * V -> Prop)
    `{forall kv, Decision (Q kv)} (m : gmap K V) :
  map_Forall P m -> map_Forall P (filter Q m).
Proof. intros Hm k v [Hk _]%map_lookup_filter_Some. by apply Hm. Qed.

(** ** Hint database of the development *)
Create HintDb station discriminated.
#[export] Hint Constructors NoDup : station.
