(* ===== verification/GoStd.v ===== *)
(** * The Go standard library as the program uses it

    Byte strings ([string] is a sequence of bytes, one [ascii] each), the
    [strings], [strconv], [sort], [slices] and [regexp] functions the modelled
    packages call, instants and fixed-width counters. *)
From S2P Require Import Prelude.
From stdpp Require Import pretty sorting.
From Stdlib Require Import Ascii.

Open Scope string_scope.
Open Scope Z_scope.

(** ** Strings *)

(** [len(s)]: the number of bytes. *)
Definition len (s : string) : Z := Z.of_nat (String.length s).

Definition byte_of (c : ascii) : Z := Z.of_N (N_of_ascii c).

(** [a < b] on Go strings: bytewise lexicographic order. *)
Fixpoint str_ltb (a b : string) : bool :=
  match a, b with
  | _, EmptyString => false
  | EmptyString, String _ _ => true
  | String x a', String y b' =>
      if byte_of x <? byte_of y then true
      else if byte_of y <? byte_of x then false
      else str_ltb a' b'
  end.

Definition str_le (a b : string) : Prop := str_ltb b a = false.
#[export] Instance str_le_dec a b : Decision (str_le a b).
Proof. unfold str_le. apply _. Defined.

Fixpoint has_prefix (s p : string) {struct p} : bool :=
  match p, s with
  | EmptyString, _ => true
  | String _ _, EmptyString => false
  | String x p', String y s' => bool_decide (x = y) && has_prefix s' p'
  end.

Fixpoint drop_str (n : nat) (s : string) : string :=
  match n, s with
  | O, _ => s
  | S n', EmptyString => EmptyString
  | S n', String _ s' => drop_str n' s'
  end.

(** [strings.TrimPrefix]. *)
Definition trim_prefix (s p : string) : string :=
  if has_prefix s p then drop_str (String.length p) s else s.

(** [strings.Contains]. *)
Fixpoint contains (s sub : string) : bool :=
  has_prefix s sub ||
  match s with EmptyString => false | String _ s' => contains s' sub end.

(** [strings.ReplaceAll] for a non-empty [old]: leftmost, non-overlapping. [skip]
    counts the bytes of a match still to be dropped. *)
Fixpoint replace_from (skip : nat) (s old new : string) : string :=
  match s with
  | EmptyString => EmptyString
  | String c s' =>
      match skip with
      | S k => replace_from k s' old new
      | O =>
          if has_prefix s old
          then new +:+ replace_from (String.length old - 1) s' old new
          else String c (replace_from 0 s' old new)
      end
  end.
Definition replace_all (s old new : string) : string := replace_from 0 s old new.

(** [strings.Split(s, sep)] for a one-byte separator: never empty. *)
Fixpoint split_byte (sep : ascii) (s : string) : list string :=
  match s with
  | EmptyString => [""]
  | String c s' =>
      if bool_decide (c = sep) then "" :: split_byte sep s'
      else match split_byte sep s' with
           | [] => [String c ""]
           | h :: t => String c h :: t
           end
  end.

(** [strings.Cut(s, sep)] for a one-byte separator: (before, after, found). *)
Fixpoint cut_byte (sep : ascii) (s : string) : string * string * bool :=
  match s with
  | EmptyString => ("", "", false)
  | String c s' =>
      if bool_decide (c = sep) then ("", s', true)
      else let '(b, a, f) := cut_byte sep s' in (String c b, a, f)
  end.

(** ASCII white space of [strings.TrimSpace]. *)
Definition is_space (c : ascii) : bool :=
  let b := byte_of c in (b =? 32) || ((9 <=? b) && (b <=? 13)).

Fixpoint trim_left (s : string) : string :=
  match s with
  | EmptyString => EmptyString
  | String c s' => if is_space c then trim_left s' else s
  end.
Fixpoint str_rev_app (s acc : string) : string :=
  match s with EmptyString => acc | String c s' => str_rev_app s' (String c acc) end.
Definition str_rev (s : string) : string := str_rev_app s "".

(** [strings.TrimSpace], on the ASCII subset (the inputs of the modelled code
    are then matched against ASCII patterns, so a string with other white space
    is rejected either way). *)
Definition trim_space (s : string) : string :=
  str_rev (trim_left (str_rev (trim_left s))).

(** [strings.TrimSpace] with the white space of Unicode, for the text that is kept or
    compared afterwards. *)
Definition bytes (l : list Z) : string := foldr (fun b s => String (ascii_of_N (Z.to_N b)) s) "" l.
Definition unicode_spaces : list string :=
  ((fun b => bytes [b]) <$> [9; 10; 11; 12; 13; 32]) ++ (bytes <$>
    [[194; 133]; [194; 160]; [225; 154; 128]; [226; 128; 168]; [226; 128; 169]; [226; 128; 175];
     [226; 129; 159]; [227; 128; 128]]) ++ ((fun b => bytes [226; 128; b]) <$> seqZ 128 11).
Fixpoint strip (tokens : list string) (skip : nat) (s : string) : string :=
  match s with
  | EmptyString => ""
  | String _ s' =>
      match skip with
      | S k => strip tokens k s'
      | O => match List.find (has_prefix s) tokens with
             | Some t => strip tokens (String.length t - 1) s'
             | None => s
             end
      end
  end.
Definition TrimSpace (s : string) : string :=
  str_rev (strip (str_rev <$> unicode_spaces) 0 (str_rev (strip unicode_spaces 0 s))).

(** [strings.ToLower] on ASCII letters. *)
Definition lower_byte (c : ascii) : ascii :=
  let b := byte_of c in
  if (65 <=? b) && (b <=? 90) then ascii_of_N (Z.to_N (b + 32)) else c.
Fixpoint to_lower (s : string) : string :=
  match s with EmptyString => "" | String c s' => String (lower_byte c) (to_lower s') end.

(** ** strconv *)

Definition is_digit (c : ascii) : bool := (48 <=? byte_of c) && (byte_of c <=? 57).

Fixpoint digits_value (acc : Z) (s : string) : option Z :=
  match s with
  | EmptyString => Some acc
  | String c s' => if is_digit c then digits_value (10 * acc + (byte_of c - 48)) s' else None
  end.

Definition max_int64 : Z := 9223372036854775807.
Definition min_int64 : Z := -9223372036854775808.

(** [strconv.Atoi] on a 64-bit platform: an optional sign, at least one digit,
    an error outside the range of [int]. *)
Definition atoi (s : string) : option Z :=
  let '(neg, body) :=
    match s with
    | String c s' =>
        if bool_decide (c = "-"%char) then (true, s')
        else if bool_decide (c = "+"%char) then (false, s') else (false, s)
    | EmptyString => (false, s)
    end in
  match body with
  | EmptyString => None
  | String _ _ =>
      match digits_value 0 body with
      | None => None
      | Some n =>
          let v := if neg then - n else n in
          if (min_int64 <=? v) && (v <=? max_int64) then Some v else None
      end
  end.

(** [strconv.FormatUint(n, 10)]. *)
Definition format_uint (n : Z) : string := pretty (Z.to_N n).
(** [strconv.FormatInt(n, 10)]. *)
Definition format_int (n : Z) : string :=
  if n <? 0 then "-" +:+ pretty (Z.to_N (- n)) else pretty (Z.to_N n).

(** ** Fixed-width counters: [x++] on a [uint64] wraps. *)
Definition u64_modulus : Z := 2 ^ 64.
Definition u64_incr (n : Z) : Z := (n + 1) mod u64_modulus.

(** ** Instants

    An instant is the number of nanoseconds since Go's zero time, so the zero
    [time.Time] is [0] and [IsZero], [Before], [Add] are integer operations. *)
Definition Time := Z.
Definition zero_time : Time := 0.
Definition is_zero (t : Time) : bool := t =? 0.
Definition time_before (a b : Time) : bool := a <? b.
Definition time_after (a b : Time) : bool := b <? a.
Definition second : Z := 1000000000.
Definition minute : Z := 60 * second.

(** ** sort *)

(** [sort.Strings] and the [sort.Slice] calls by a string key. *)
Definition sort_by {A} (key : A -> string) (l : list A) : list A :=
  merge_sort (fun a b => str_le (key a) (key b)) l.
Definition sort_strings (l : list string) : list string := sort_by (fun s => s) l.

(** [slices.Compact]: drops consecutive repetitions. *)
Fixpoint compact (l : list string) : list string :=
  match l with
  | [] => []
  | x :: rest =>
      match rest with
      | [] => [x]
      | y :: _ => if bool_decide (x = y) then compact rest else x :: compact rest
      end
  end.

(** ** regexp

    The anchored patterns of the program, as regular expressions matched by
    Brzozowski derivatives. All their classes are ASCII, so matching bytes and
    matching runes agree. *)
Module Regexp.
Inductive re : Type :=
| Nothing
| Empty
| Class (p : ascii -> bool)
| Cat (a b : re)
| Alt (a b : re)
| Star (a : re).

Fixpoint nullable (r : re) : bool :=
  match r with
  | Nothing | Class _ => false
  | Empty | Star _ => true
  | Cat a b => nullable a && nullable b
  | Alt a b => nullable a || nullable b
  end.

(** Smart constructors keep derivatives small. *)
Definition cat (a b : re) : re :=
  match a, b with
  | Nothing, _ => Nothing
  | _, Nothing => Nothing
  | Empty, _ => b
  | _, _ => Cat a b
  end.
Definition alt (a b : re) : re :=
  match a, b with
  | Nothing, _ => b
  | _, Nothing => a
  | _, _ => Alt a b
  end.

Fixpoint deriv (c : ascii) (r : re) : re :=
  match r with
  | Nothing | Empty => Nothing
  | Class p => if p c then Empty else Nothing
  | Cat a b =>
      let d := cat (deriv c a) b in
      if nullable a then alt d (deriv c b) else d
  | Alt a b => alt (deriv c a) (deriv c b)
  | Star a => cat (deriv c a) (Star a)
  end.

Fixpoint matches (r : re) (s : string) : bool :=
  match s with
  | EmptyString => nullable r
  | String c s' => matches (deriv c r) s'
  end.

Definition opt (a : re) : re := Alt Empty a.
Fixpoint times (n : nat) (a : re) : re :=
  match n with O => Empty | S n' => Cat a (times n' a) end.
Fixpoint upto (n : nat) (a : re) : re :=
  match n with O => Empty | S n' => opt (Cat a (upto n' a)) end.
(** [a{m,n}]. *)
Definition between (m n : nat) (a : re) : re := Cat (times m a) (upto (n - m) a).
Fixpoint lit (s : string) : re :=
  match s with
  | EmptyString => Empty
  | String c s' => Cat (Class (fun x => bool_decide (x = c))) (lit s')
  end.

(** Languages. *)
Inductive lang : re -> string -> Prop :=
| lang_empty : lang Empty ""
| lang_class p c : p c = true -> lang (Class p) (String c "")
| lang_cat a b s t : lang a s -> lang b t -> lang (Cat a b) (s +:+ t)
| lang_alt_l a b s : lang a s -> lang (Alt a b) s
| lang_alt_r a b s : lang b s -> lang (Alt a b) s
| lang_star_nil a : lang (Star a) ""
| lang_star_cons a c s t : lang a (String c s) -> lang (Star a) t ->
    lang (Star a) (String c s +:+ t).
End Regexp.

(** Character classes. *)
Definition in_range (lo hi : ascii) (c : ascii) : bool :=
  (byte_of lo <=? byte_of c) && (byte_of c <=? byte_of hi).
Definition one_of (s : string) (c : ascii) : bool :=
  (fix go s := match s with
               | EmptyString => false
               | String x s' => bool_decide (x = c) || go s'
               end) s.
Definition lower_class (c : ascii) : bool := in_range "a" "z" c.
Definition upper_class (c : ascii) : bool := in_range "A" "Z" c.
Definition lower_alnum (c : ascii) : bool := lower_class c || is_digit c.
Definition alnum (c : ascii) : bool := lower_alnum c || upper_class c.
Definition lower_hex (c : ascii) : bool := is_digit c || in_range "a" "f" c.

(** ** Lemmas *)

Lemma byte_of_inj a b : byte_of a = byte_of b -> a = b.
Proof.
  unfold byte_of. intros H. apply N2Z.inj in H.
  rewrite <- (ascii_N_embedding a), <- (ascii_N_embedding b). by f_equal.
Qed.

Lemma byte_of_range c : 0 <= byte_of c < 256.
Proof. unfold byte_of. pose proof (N_ascii_bounded c). lia. Qed.

Lemma str_ltb_irrefl s : str_ltb s s = false.
Proof. induction s as [| c s IH]; [done |]. simpl. by rewrite Z.ltb_irrefl. Qed.

Lemma str_ltb_trans a b c : str_ltb a b = true -> str_ltb b c = true -> str_ltb a c = true.
Proof.
  revert b c. induction a as [| x a IH]; intros [| y b] [| z c]; simpl; try done.
  destruct (byte_of x <? byte_of y) eqn:E1, (byte_of y <? byte_of x) eqn:E2; try done;
  destruct (byte_of y <? byte_of z) eqn:E3, (byte_of z <? byte_of y) eqn:E4; try done;
  bool_norm; intros; try lia;
  repeat match goal with
  | |- (if ?c then _ else _) = true => let E := fresh in destruct c eqn:E; bool_norm
  end; try done; try lia; eauto.
Qed.

(** Two strings neither of which is smaller are equal. *)
Lemma str_ltb_total a b : str_ltb a b = false -> str_ltb b a = false -> a = b.
Proof.
  revert b. induction a as [| x a IH]; intros [| y b]; simpl; try done.
  destruct (byte_of x <? byte_of y) eqn:E1, (byte_of y <? byte_of x) eqn:E2; try done.
  bool_norm. intros. assert (x = y) as -> by (apply byte_of_inj; lia). f_equal; eauto.
Qed.

Lemma str_ltb_asym a b : str_ltb a b = true -> str_ltb b a = false.
Proof.
  intros H. destruct (str_ltb b a) eqn:E; [| done].
  pose proof (str_ltb_trans _ _ _ H E) as Hc. by rewrite str_ltb_irrefl in Hc.
Qed.

#[export] Instance str_le_total_by {A} (key : A -> string) :
  Total (fun a b => str_le (key a) (key b)).
Proof.
  intros a b. unfold str_le. destruct (str_ltb (key b) (key a)) eqn:E; [right | by left].
  by apply str_ltb_asym.
Qed.
#[export] Instance str_le_trans_by {A} (key : A -> string) :
  Transitive (fun a b => str_le (key a) (key b)).
Proof.
  intros a b c. unfold str_le. intros H1 H2.
  destruct (str_ltb (key c) (key a)) eqn:E; [exfalso | done].
  destruct (str_ltb (key b) (key c)) eqn:E2.
  - rewrite (str_ltb_trans _ _ _ E2 E) in H1. done.
  - pose proof (str_ltb_total _ _ E2 H2) as Heq. congruence.
Qed.

Lemma sort_by_perm {A} (key : A -> string) (l : list A) : sort_by key l ≡ₚ l.
Proof. unfold sort_by. apply merge_sort_Permutation. Qed.

Lemma sort_by_sorted {A} (key : A -> string) (l : list A) :
  StronglySorted (fun a b => str_le (key a) (key b)) (sort_by key l).
Proof. unfold sort_by. apply StronglySorted_merge_sort; apply _. Qed.

Lemma elem_of_sort_by {A} (key : A -> string) (l : list A) x : x ∈ sort_by key l <-> x ∈ l.
Proof. by rewrite sort_by_perm. Qed.

Lemma length_sort_by {A} (key : A -> string) (l : list A) : length (sort_by key l) = length l.
Proof. by rewrite sort_by_perm. Qed.

Lemma app_cons_str c (s t : string) : String c s +:+ t = String c (s +:+ t).
Proof. done. Qed.

Lemma app_empty_r (s : string) : s +:+ "" = s.
Proof. induction s as [| c s IH]; [done |]. by rewrite app_cons_str, IH. Qed.

Lemma app_assoc_str (a b c : string) : (a +:+ b) +:+ c = a +:+ (b +:+ c).
Proof. induction a as [| x a IH]; [done |]. by rewrite !app_cons_str, IH. Qed.

Lemma app_inv_head_str (a b c : string) : a +:+ b = a +:+ c -> b = c.
Proof. induction a as [| x a IH]; [intros H; exact H |]. rewrite !app_cons_str. intros [= H]. by apply IH. Qed.

Lemma length_app_str (a b : string) : (String.length (a +:+ b) = String.length a + String.length b)%nat.
Proof. induction a as [| x a IH]; [done |]. rewrite app_cons_str. simpl. by rewrite IH. Qed.

Lemma has_prefix_app s p : has_prefix s p = true <-> exists t, s = p +:+ t.
Proof.
  revert s. induction p as [| x p IH]; intros s; simpl.
  - split; [intros _; by exists s | intros _; reflexivity].
  - destruct s as [| y s]; simpl.
    + split; [done | intros (t & Ht); rewrite app_cons_str in Ht; discriminate].
    + rewrite andb_true_iff, bool_decide_eq_true, IH. split.
      * intros (-> & t & ->). by exists t.
      * intros (t & Ht). rewrite app_cons_str in Ht. injection Ht as -> ->. split; [done | by exists t].
Qed.

Lemma u64_incr_range n : 0 <= u64_incr n < u64_modulus.
Proof. apply Z.mod_pos_bound. done. Qed.

Lemma u64_incr_ne n : 0 <= n < u64_modulus -> u64_incr n <> n.
Proof.
  unfold u64_incr. intros H Heq.
  destruct (decide (n = u64_modulus - 1)) as [-> | Hne].
  - replace (u64_modulus - 1 + 1) with u64_modulus in Heq by lia.
    rewrite Z_mod_same_full in Heq. done.
  - rewrite Z.mod_small in Heq; lia.
Qed.

Lemma u64_incr_small n : 0 <= n -> n + 1 < u64_modulus -> u64_incr n = n + 1.
Proof. intros. unfold u64_incr. apply Z.mod_small. lia. Qed.

Module RegexpFacts.
Import Regexp.

Lemma lang_cat_inv a b w : lang (Cat a b) w -> exists s t, w = s +:+ t /\ lang a s /\ lang b t.
Proof. inversion 1; subst. eauto. Qed.
Lemma lang_alt_inv a b w : lang (Alt a b) w -> lang a w \/ lang b w.
Proof. inversion 1; subst; auto. Qed.
Lemma lang_class_inv p w : lang (Class p) w -> exists c, w = String c "" /\ p c = true.
Proof. inversion 1; subst. eauto. Qed.
Lemma lang_nothing w : lang Nothing w -> False.
Proof. inversion 1. Qed.
Lemma lang_empty_inv w : lang Empty w -> w = "".
Proof. by inversion 1. Qed.
Lemma app_nil_inv s t : s +:+ t = "" -> s = "" /\ t = "".
Proof. destruct s; [done |]. by rewrite app_cons_str. Qed.

Lemma nullable_lang r : nullable r = true <-> lang r "".
Proof.
  split.
  - induction r as [| | p | a IHa b IHb | a IHa b IHb | a IHa]; simpl; intros H;
      try done; try (by constructor).
    + apply andb_true_iff in H as [Ha Hb]. change "" with ("" +:+ ""). constructor; tauto.
    + apply orb_true_iff in H as [H | H]; [apply lang_alt_l | apply lang_alt_r]; tauto.
  - induction r as [| | p | a IHa b IHb | a IHa b IHb | a IHa]; simpl; intros H; try done.
    + by apply lang_nothing in H.
    + by apply lang_class_inv in H as (? & ? & ?).
    + apply lang_cat_inv in H as (s & t & E & Hs & Ht).
      symmetry in E. apply app_nil_inv in E as [-> ->]. apply andb_true_iff. tauto.
    + apply lang_alt_inv in H. apply orb_true_iff. tauto.
Qed.

Lemma cat_lang a b w : lang (cat a b) w <-> lang (Cat a b) w.
Proof.
  destruct a, b; simpl; try reflexivity; split; intros H; try (by apply lang_nothing in H);
    try (apply lang_cat_inv in H as (s & t & -> & Hs & Ht);
         first [by apply lang_nothing in Hs | by apply lang_nothing in Ht |
                apply lang_empty_inv in Hs; subst s; exact Ht]);
    change w with ("" +:+ w); constructor; (exact H || constructor).
Qed.

Lemma alt_lang a b w : lang (alt a b) w <-> lang (Alt a b) w.
Proof.
  assert (Hl : lang (Alt Nothing b) w <-> lang b w).
  { split; [intros [H | H]%lang_alt_inv; [by apply lang_nothing in H | done] | apply lang_alt_r]. }
  assert (Hr : lang (Alt a Nothing) w <-> lang a w).
  { split; [intros [H | H]%lang_alt_inv; [done | by apply lang_nothing in H] | apply lang_alt_l]. }
  destruct a, b; simpl; first [reflexivity | by rewrite Hl | by rewrite Hr].
Qed.

Lemma cat_cons_split a b c w :
  lang (Cat a b) (String c w) ->
  (exists s t, w = s +:+ t /\ lang a (String c s) /\ lang b t) \/
  (lang a "" /\ lang b (String c w)).
Proof.
  intros H. apply lang_cat_inv in H as (s & t & E & Hs & Ht). destruct s as [| x s].
  - right. by rewrite E.
  - rewrite app_cons_str in E. injection E as -> ->. left. eauto.
Qed.

Lemma star_cons_split a c w :
  lang (Star a) (String c w) ->
  exists s t, w = s +:+ t /\ lang a (String c s) /\ lang (Star a) t.
Proof.
  inversion 1; subst. eauto.
Qed.

Lemma deriv_lang c r w : lang (deriv c r) w <-> lang r (String c w).
Proof.
  revert w. induction r as [| | p | a IHa b IHb | a IHa b IHb | a IHa]; intros w; simpl.
  - split; intros H; by apply lang_nothing in H.
  - split; intros H; [by apply lang_nothing in H | by apply lang_empty_inv in H].
  - destruct (p c) eqn:E; split; intros H.
    + apply lang_empty_inv in H as ->. by constructor.
    + apply lang_class_inv in H as (? & [= <- ->] & ?). constructor.
    + by apply lang_nothing in H.
    + apply lang_class_inv in H as (? & [= <- ->] & ?). congruence.
  - assert (Hcat : lang (cat (deriv c a) b) w <->
                   exists s t, w = s +:+ t /\ lang a (String c s) /\ lang b t).
    { rewrite cat_lang. split.
      - intros (s & t & -> & Hs & Ht)%lang_cat_inv. exists s, t. by rewrite <- IHa.
      - intros (s & t & -> & Hs & Ht). constructor; [by apply IHa | done]. }
    destruct (nullable a) eqn:En.
    + apply nullable_lang in En. rewrite alt_lang. split.
      * intros [H | H]%lang_alt_inv.
        -- apply Hcat in H as (s & t & -> & Hs & Ht). rewrite <- app_cons_str. by constructor.
        -- change (String c w) with ("" +:+ String c w). constructor; [done | by apply IHb].
      * intros [H | [_ H]]%cat_cons_split; [apply lang_alt_l; by apply Hcat |].
        apply lang_alt_r. by apply IHb.
    + split.
      * intros (s & t & -> & Hs & Ht)%Hcat. rewrite <- app_cons_str. by constructor.
      * intros [H | [H _]]%cat_cons_split; [by apply Hcat |].
        apply nullable_lang in H. congruence.
  - rewrite alt_lang. split.
    + intros [H | H]%lang_alt_inv; [apply lang_alt_l | apply lang_alt_r]; firstorder.
    + intros [H | H]%lang_alt_inv; [apply lang_alt_l | apply lang_alt_r]; firstorder.
  - rewrite cat_lang. split.
    + intros (s & t & -> & Hs & Ht)%lang_cat_inv. rewrite <- app_cons_str.
      constructor; [by apply IHa | done].
    + intros (s & t & -> & Hs & Ht)%star_cons_split. constructor; [by apply IHa | done].
Qed.

(** The derivative matcher decides the language of the expression. *)
Lemma matches_lang r w : matches r w = true <-> lang r w.
Proof.
  revert r. induction w as [| c w IH]; intros r; simpl.
  - apply nullable_lang.
  - by rewrite IH, deriv_lang.
Qed.
End RegexpFacts.
