(* ===== verification/Sha256.v ===== *)
(** * SHA-256 and hexadecimal text

    [crypto/sha256.Sum256] and [encoding/hex.EncodeToString], executable: the
    program binds releases, requests and workload identities by such digests. *)
From S2P Require Import Prelude GoStd.
From Stdlib Require Import Ascii.

Module Sha256.
Definition mask32 : Z := 0xffffffff.
Definition add32 (a b : Z) : Z := Z.land (a + b) mask32.
Definition rotr (n x : Z) : Z :=
  Z.lor (Z.shiftr x n) (Z.land (Z.shiftl x (32 - n)) mask32).

(** The constants are the first 32 bits of the fractional parts of the cube and
    square roots of the first primes; the square root is the library's, the cube
    root a bisection on [2^bits] values. *)
Fixpoint cbrt_from (bits : nat) (r n : Z) : Z :=
  match bits with
  | O => r
  | S b => let r' := r + Z.shiftl 1 (Z.of_nat b) in
           cbrt_from b (if r' * r' * r' <=? n then r' else r) n
  end.
Definition primes : list Z :=
  filter (fun p => forallb (fun d => negb (p mod d =? 0)) (seqZ 2 (p - 2)) = true) (seqZ 2 310).
Definition K : list Z :=
  Eval vm_compute in map (fun p => Z.land (cbrt_from 36 0 (Z.shiftl p 96)) mask32) primes.
Definition H0 : list Z :=
  Eval vm_compute in map (fun p => Z.land (Z.sqrt (Z.shiftl p 64)) mask32) (take 8 primes).

Definition ch (x y z : Z) : Z := Z.lxor (Z.land x y) (Z.land (Z.lxor x mask32) z).
Definition maj (x y z : Z) : Z := Z.lxor (Z.lxor (Z.land x y) (Z.land x z)) (Z.land y z).
Definition bsig0 (x : Z) : Z := Z.lxor (Z.lxor (rotr 2 x) (rotr 13 x)) (rotr 22 x).
Definition bsig1 (x : Z) : Z := Z.lxor (Z.lxor (rotr 6 x) (rotr 11 x)) (rotr 25 x).
Definition ssig0 (x : Z) : Z := Z.lxor (Z.lxor (rotr 7 x) (rotr 18 x)) (Z.shiftr x 3).
Definition ssig1 (x : Z) : Z := Z.lxor (Z.lxor (rotr 17 x) (rotr 19 x)) (Z.shiftr x 10).

Fixpoint bytes_of (s : string) : list Z :=
  match s with EmptyString => [] | String c s' => byte_of c :: bytes_of s' end.

(** Big-endian [n]-byte encoding. *)
Fixpoint be_bytes (n : nat) (x : Z) : list Z :=
  match n with
  | O => []
  | S n' => Z.land (Z.shiftr x (8 * Z.of_nat n')) 255 :: be_bytes n' x
  end.

(** Message padding: [0x80], zeros up to 56 modulo 64, the length in bits. *)
Definition pad (m : list Z) : list Z :=
  let n := Z.of_nat (length m) in
  m ++ [0x80] ++ replicate (Z.to_nat ((55 - n) mod 64)) 0 ++ be_bytes 8 (8 * n).

Fixpoint words (l : list Z) : list Z :=
  match l with
  | a :: b :: c :: d :: rest =>
      Z.lor (Z.shiftl a 24) (Z.lor (Z.shiftl b 16) (Z.lor (Z.shiftl c 8) d)) :: words rest
  | _ => []
  end.

(** Message schedule; [rev_w] holds the words computed so far, last first. *)
Fixpoint schedule (fuel : nat) (rev_w : list Z) : list Z :=
  match fuel with
  | O => reverse rev_w
  | S f =>
      let at_ i := nth i rev_w 0 in
      schedule f (add32 (add32 (ssig1 (at_ 1%nat)) (at_ 6%nat))
                        (add32 (ssig0 (at_ 14%nat)) (at_ 15%nat)) :: rev_w)
  end.

Definition round (st : list Z) (kw : Z * Z) : list Z :=
  match st with
  | [a; b; c; d; e; f; g; h] =>
      let t1 := add32 (add32 (add32 h (bsig1 e)) (add32 (ch e f g) (fst kw))) (snd kw) in
      let t2 := add32 (bsig0 a) (maj a b c) in
      [add32 t1 t2; a; b; c; add32 d t1; e; f; g]
  | _ => st
  end.

Definition compress (st block : list Z) : list Z :=
  let w := schedule 48 (reverse (words block)) in
  zip_with add32 st (foldl round st (zip K w)).

(** [fuel] bounds the number of 64-byte blocks. *)
Fixpoint blocks (fuel : nat) (l : list Z) : list (list Z) :=
  match fuel, l with
  | S f, _ :: _ => take 64 l :: blocks f (drop 64 l)
  | _, _ => []
  end.

Definition sum (m : list Z) : list Z :=
  let p := pad m in
  concat (map (be_bytes 4) (foldl compress H0 (blocks (length p) p))).

Definition hex_digit (n : Z) : ascii :=
  ascii_of_N (Z.to_N (if n <? 10 then 48 + n else 87 + n)).
Fixpoint hex (l : list Z) : string :=
  match l with
  | [] => EmptyString
  | b :: rest => String (hex_digit (Z.shiftr b 4)) (String (hex_digit (Z.land b 15)) (hex rest))
  end.

(** [hex.EncodeToString(sha256.Sum256(raw)[:])]. *)
Definition hex_sum (s : string) : string := hex (sum (bytes_of s)).
End Sha256.

(** FIPS 180-4 test vectors. *)
Example sha256_abc : Sha256.hex_sum "abc" =
  "ba7816bf8f01cfea414140de5dae2223b00361a396177a9cb410ff61f20015ad"%string.
Proof. vm_compute. reflexivity. Qed.
Example sha256_two_blocks :
  Sha256.hex_sum "abcdbcdecdefdefgefghfghighijhijkijkljklmklmnlmnomnopnopq" =
  "248d6a61d20638b8e5c026930c3e6039a33ce45964ff2167f6ecedd419db06c1"%string.
Proof. vm_compute. reflexivity. Qed.
