(* ===== verification/GoJson.v ===== *)
(** * JSON text as [encoding/json] writes it

    The values the program marshals before hashing them, the escaping rules of
    [json.Marshal] (HTML escaping on), and the digest [appcenter.Digest]. *)
From S2P Require Import Prelude GoStd Sha256.
From Stdlib Require Import Ascii.

(** ** UTF-8

    [utf8_width s] is the number of bytes of the valid encoding at the head of
    [s]; [None] for an invalid or truncated one ([utf8.DecodeRuneInString]). *)
Definition cont_byte (lo hi : Z) (c : ascii) : bool := (lo <=? byte_of c) && (byte_of c <=? hi).

Definition utf8_width (s : string) : option nat :=
  match s with
  | EmptyString => None
  | String c0 r0 =>
      let b := byte_of c0 in
      if b <? 128 then Some 1%nat
      else match r0 with
      | EmptyString => None
      | String c1 r1 =>
          if (194 <=? b) && (b <=? 223) then
            if cont_byte 128 191 c1 then Some 2%nat else None
          else match r1 with
          | EmptyString => None
          | String c2 r2 =>
              if (224 <=? b) && (b <=? 239) then
                let lo := if b =? 224 then 160 else 128 in
                let hi := if b =? 237 then 159 else 191 in
                if cont_byte lo hi c1 && cont_byte 128 191 c2 then Some 3%nat else None
              else match r2 with
              | EmptyString => None
              | String c3 _ =>
                  if (240 <=? b) && (b <=? 244) then
                    let lo := if b =? 240 then 144 else 128 in
                    let hi := if b =? 244 then 143 else 191 in
                    if cont_byte lo hi c1 && cont_byte 128 191 c2 && cont_byte 128 191 c3
                    then Some 4%nat else None
                  else None
              end
          end
      end
  end.

(** [utf8.ValidString]; [skip] counts the bytes of the current rune. *)
Fixpoint utf8_valid_from (skip : nat) (s : string) : bool :=
  match s with
  | EmptyString => bool_decide (skip = O)
  | String _ s' =>
      match skip with
      | S k => utf8_valid_from k s'
      | O => match utf8_width s with
             | Some n => utf8_valid_from (n - 1) s'
             | None => false
             end
      end
  end.
Definition utf8_valid (s : string) : bool := utf8_valid_from 0 s.

(** [len([]rune(s))]: an invalid byte counts as one rune. *)
Fixpoint rune_count_from (skip : nat) (s : string) : Z :=
  match s with
  | EmptyString => 0
  | String _ s' =>
      match skip with
      | S k => rune_count_from k s'
      | O => 1 + rune_count_from (match utf8_width s with Some n => n - 1 | None => 0 end) s'
      end
  end.
Definition rune_count (s : string) : Z := rune_count_from 0 s.

(** ** Values *)
Inductive json : Type :=
| JNull
| JBool (b : bool)
| JInt (n : Z)
| JStr (s : string)
| JArr (l : list json)
| JObj (fields : list (string * json)).

Definition u_escape (b : Z) : string :=
  "\u00" +:+ String (Sha256.hex_digit (Z.shiftr b 4)) (String (Sha256.hex_digit (Z.land b 15)) "").

(** Escape of one ASCII byte by [json.Marshal]. *)
Definition escape_ascii (c : ascii) : string :=
  let b := byte_of c in
  if b =? 34 then "\" +:+ String c ""
  else if b =? 92 then "\\"
  else if b =? 8 then "\b" else if b =? 12 then "\f"
  else if b =? 10 then "\n" else if b =? 13 then "\r" else if b =? 9 then "\t"
  else if (b <? 32) || (b =? 60) || (b =? 62) || (b =? 38) then u_escape b
  else String c "".

(** U+2028 and U+2029 are the bytes E2 80 A8 and E2 80 A9. *)
Definition line_separator (s : string) : option string :=
  match s with
  | String a (String b (String c _)) =>
      if (byte_of a =? 226) && (byte_of b =? 128) then
        if byte_of c =? 168 then Some "\u2028"%string
        else if byte_of c =? 169 then Some "\u2029"%string else None
      else None
  | _ => None
  end.

(** [skip] bytes belong to the rune already written; [copy] tells whether they
    are copied (an ordinary rune) or dropped (an escaped one). *)
Fixpoint escape_from (skip : nat) (copy : bool) (s : string) : string :=
  match s with
  | EmptyString => ""
  | String c s' =>
      match skip with
      | S k => if copy then String c (escape_from k copy s') else escape_from k copy s'
      | O =>
          if byte_of c <? 128 then escape_ascii c +:+ escape_from 0 true s'
          else match utf8_width s with
               | None => "\ufffd" +:+ escape_from 0 true s'
               | Some n =>
                   match line_separator s with
                   | Some e => e +:+ escape_from (n - 1) false s'
                   | None => String c (escape_from (n - 1) true s')
                   end
               end
      end
  end.

Definition dquote : string := String (ascii_of_N 34) "".
Definition marshal_string (s : string) : string := dquote +:+ escape_from 0 true s +:+ dquote.

Definition join (sep : string) (l : list string) : string :=
  match l with
  | [] => ""
  | x :: rest => foldl (fun acc y => acc +:+ sep +:+ y) x rest
  end.

(** [json.Marshal]: struct fields in declaration order, map keys as given (the
    callers sort them). *)
Fixpoint marshal (v : json) : string :=
  match v with
  | JNull => "null"
  | JBool true => "true"
  | JBool false => "false"
  | JInt n => format_int n
  | JStr s => marshal_string s
  | JArr l => "[" +:+ join "," (map marshal l) +:+ "]"
  | JObj fs =>
      "{" +:+ join "," (map (fun '(k, x) => marshal_string k +:+ ":" +:+ marshal x) fs) +:+ "}"
  end.

Definition jstrs (l : list string) : json := JArr (map JStr l).
(** A nil-able string or pointer. *)
Definition jopt {A} (f : A -> json) (o : option A) : json :=
  match o with Some x => f x | None => JNull end.
(** A Go map of strings is written with its keys sorted. *)
Definition jmap {A} (f : A -> json) (m : gmap string A) : json :=
  JObj (map (fun '(k, x) => (k, f x)) (sort_by fst (map_to_list m))).

(** [appcenter.Digest]: ["sha256:"] and the hash of the JSON text. *)
Definition Digest (v : json) : string := "sha256:" +:+ Sha256.hex_sum (marshal v).

(** [Digest(v)[7:]]. *)
Definition digest_hex (v : json) : string := Sha256.hex_sum (marshal v).

(** ** Instants in JSON

    [time.Time.MarshalJSON] writes RFC 3339 with up to nine fractional digits; the
    instants of the program are in UTC. *)
Definition pad2 (n : Z) : string := (if n <? 10 then "0" else "") +:+ format_int n.
Definition pad4 (n : Z) : string :=
  (if n <? 10 then "000" else if n <? 100 then "00" else if n <? 1000 then "0" else "") +:+ format_int n.

(** (year, month, day) of a number of days since 0001-01-01, by 400-year eras
    that start on the first of March. *)
Definition civil (days : Z) : Z * Z * Z :=
  let z := days + 306 in
  let era := z / 146097 in
  let doe := z mod 146097 in
  let yoe := (doe - doe / 1460 + doe / 36524 - doe / 146096) / 365 in
  let doy := doe - (365 * yoe + yoe / 4 - yoe / 100) in
  let mp := (5 * doy + 2) / 153 in
  let m := if mp <? 10 then mp + 3 else mp - 9 in
  (yoe + era * 400 + (if m <=? 2 then 1 else 0), m, doy - (153 * mp + 2) / 5 + 1).

(** The fraction without trailing zeros; [n] has at most [width] digits. *)
Fixpoint fraction (width : nat) (n : Z) : string :=
  match width with
  | O => ""
  | S w => if n =? 0 then ""
           else format_int (n / 10 ^ Z.of_nat w) +:+ fraction w (n mod 10 ^ Z.of_nat w)
  end.

Definition rfc3339 (t : Time) : string :=
  let secs := t / second in
  let nanos := t mod second in
  let '(y, mo, d) := civil (secs / 86400) in
  let s := secs mod 86400 in
  pad4 y +:+ "-" +:+ pad2 mo +:+ "-" +:+ pad2 d +:+ "T" +:+ pad2 (s / 3600) +:+ ":"
    +:+ pad2 (s / 60 mod 60) +:+ ":" +:+ pad2 (s mod 60)
    +:+ (if nanos =? 0 then "" else "." +:+ fraction 9 nanos) +:+ "Z".
Definition jtime (t : Time) : json := JStr (rfc3339 t).

(** [time.Time{}] in JSON. *)
Definition zero_time_json : json := jtime zero_time.

Example rfc3339_zero : rfc3339 zero_time = "0001-01-01T00:00:00Z"%string.
Proof. vm_compute. reflexivity. Qed.
(** 2024-02-29T12:34:56.0789Z. *)
Example rfc3339_leap : rfc3339 (63844806896 * second + 78900000) = "2024-02-29T12:34:56.0789Z"%string.
Proof. vm_compute. reflexivity. Qed.

Example marshal_escapes :
  marshal (jstrs ["a<b"; "tab" +:+ String (ascii_of_N 9) ""; "x"])
  = "[" +:+ dquote +:+ "a\u003cb" +:+ dquote +:+ "," +:+ dquote +:+ "tab\t" +:+ dquote
    +:+ "," +:+ dquote +:+ "x" +:+ dquote +:+ "]".
Proof. vm_compute. reflexivity. Qed.
