(* ===== verification/GoText.v ===== *)
(** * Text of the Go standard library: case, addresses and instants

    What the egress and gateway packages use of strings and unicode (case of
    non-ASCII letters), net and net/netip (addresses, host:port pairs) and time
    (parsing RFC 3339). *)
From S2P Require Import Prelude GoStd GoJson.
From Stdlib Require Import Ascii.
#[local] Open Scope Z_scope.

(** ** Unicode case

    The tables of package unicode for the runes outside ASCII, each given by its
    UTF-8 encoding: the lower and the upper case, and a representative of the runes
    that are equal under simple folding (an ASCII letter is its own lower case
    there). *)
Class UnicodeLib := {
  unicode_lower : string -> string; unicode_upper : string -> string; unicode_fold : string -> string }.

Definition replacement : string := bytes [239; 191; 189].

Fixpoint take_str (n : nat) (s : string) : string :=
  match n, s with
  | S k, String c s' => String c (take_str k s')
  | _, _ => ""
  end.

(** [strings.Map] over the runes of [s], [g] on ASCII: an invalid byte is the
    replacement rune. *)
Fixpoint map_runes (g : ascii -> ascii) (f : string -> string) (skip : nat) (s : string) : string :=
  match s with
  | EmptyString => ""
  | String c s' =>
      match skip with
      | S k => map_runes g f k s'
      | O =>
          if byte_of c <? 128 then String (g c) (map_runes g f 0 s')
          else match utf8_width s with
               | Some n => f (take_str n s) +:+ map_runes g f (n - 1) s'
               | None => f replacement +:+ map_runes g f 0 s'
               end
      end
  end.
Definition upper_byte (c : ascii) : ascii :=
  let b := byte_of c in
  if (97 <=? b) && (b <=? 122) then ascii_of_N (Z.to_N (b - 32)) else c.
Definition ToLower {U : UnicodeLib} (s : string) : string := map_runes lower_byte unicode_lower 0 s.
Definition ToUpper {U : UnicodeLib} (s : string) : string := map_runes upper_byte unicode_upper 0 s.
(** [strings.EqualFold]. *)
Definition EqualFold {U : UnicodeLib} (a b : string) : bool :=
  (map_runes lower_byte unicode_fold 0 a =? map_runes lower_byte unicode_fold 0 b)%string.

(** [strings.ContainsAny] for ASCII characters. *)
Fixpoint contains_any (p : ascii -> bool) (s : string) : bool :=
  match s with EmptyString => false | String c s' => p c || contains_any p s' end.
(** The characters of the literal [\x00\r\n]. *)
Definition control_byte (c : ascii) : bool := bool_decide (byte_of c ∈ [0; 10; 13]).
Definition nul_byte (c : ascii) : bool := byte_of c =? 0.
Definition byte_is (b : ascii) (c : ascii) : bool := bool_decide (c = b).

(** [strings.TrimSuffix] of a dot. *)
Definition trim_dot (s : string) : string :=
  match str_rev s with
  | String "." r => str_rev r
  | _ => s
  end.

(** ** net/netip

    A valid [netip.Addr]: the 32 or 128 bits of the address, and the zone. *)
Inductive Addr : Type :=
| V4 (n : Z)
| V6 (n : Z) (zone : string).
#[export] Instance Addr_eq : EqDecision Addr.
Proof. solve_decision. Defined.

Definition octet (s : string) : option Z :=
  match s with
  | EmptyString => None
  | String c s' =>
      if byte_is "0" c && negb (s' =? "")%string then None
      else match digits_value 0 s with
           | Some n => if n <=? 255 then Some n else None
           | None => None
           end
  end.
(** [parseIPv4Fields]. *)
Definition ipv4_fields (s : string) : option (Z * Z * Z * Z) :=
  match split_byte "." s with
  | [a; b; c; d] => w ← octet a; x ← octet b; y ← octet c; z ← octet d; Some (w, x, y, z)
  | _ => None
  end.
Definition parse_v4 (s : string) : option Addr :=
  '(a, b, c, d) ← ipv4_fields s; Some (V4 (((a * 256 + b) * 256 + c) * 256 + d)).

Definition hex_digit (c : ascii) : option Z :=
  let b := byte_of c in
  if (48 <=? b) && (b <=? 57) then Some (b - 48)
  else if (97 <=? b) && (b <=? 102) then Some (b - 87)
  else if (65 <=? b) && (b <=? 70) then Some (b - 55)
  else None.
(** A group of hexadecimal digits: (digits read, value, rest); [None] beyond four. *)
Fixpoint hex_group (off : nat) (acc : Z) (s : string) : option (nat * Z * string) :=
  match s with
  | EmptyString => Some (off, acc, s)
  | String c s' =>
      match hex_digit c with
      | None => Some (off, acc, s)
      | Some v => if (3 <? off)%nat then None else hex_group (S off) (acc * 16 + v) s'
      end
  end.

(** The loop of [parseIPv6] over at most [fuel] more groups: the groups read so
    far (reversed), the position of the ellipsis, and what is left of the text. *)
Fixpoint v6_loop (fuel : nat) (groups : list Z) (ellipsis : option nat) (s : string)
    : option (list Z * option nat * string) :=
  match fuel with
  | O => Some (groups, ellipsis, s)
  | S fuel' =>
      '(off, acc, rest) ← hex_group 0 0 s;
      if bool_decide (off = O) then None
      else match rest with
      | String "." _ =>
          if negb (bool_decide (is_Some ellipsis)) && negb (bool_decide (length groups = 6%nat)) then None
          else if (6 <? length groups)%nat then None
          else '(a, b, c, d) ← ipv4_fields s;
               Some (c * 256 + d :: a * 256 + b :: groups, ellipsis, "")
      | EmptyString => Some (acc :: groups, ellipsis, "")
      | String ":" "" => None
      | String ":" (String ":" more) =>
          if bool_decide (is_Some ellipsis) then None
          else
            let at_ := S (length groups) in
            if (more =? "")%string then Some (acc :: groups, Some at_, "")
            else v6_loop fuel' (acc :: groups) (Some at_) more
      | String ":" more => v6_loop fuel' (acc :: groups) ellipsis more
      | _ => None
      end
  end.

Definition v6_value (groups : list Z) : Z := foldl (fun n g => n * 65536 + g) 0 groups.

(** The groups with the zeros the ellipsis stands for. *)
Definition expand (groups : list Z) (ellipsis : option nat) : option (list Z) :=
  match ellipsis with
  | None => if bool_decide (length groups = 8%nat) then Some groups else None
  | Some k =>
      if (length groups <? 8)%nat
      then Some (take k groups ++ replicate (8 - length groups) 0 ++ drop k groups)%list
      else None
  end.

Definition parse_v6 (text : string) : option Addr :=
  let '(s, zone, zoned) := cut_byte "%" text in
  if zoned && (zone =? "")%string then None
  else
    let '(ellipsis, body) :=
      match s with
      | String ":" (String ":" body) => (Some O, body)
      | _ => (None, s)
      end in
    if bool_decide (is_Some ellipsis) && (body =? "")%string then Some (V6 0 zone)
    else
      '(groups, at_, rest) ← v6_loop 8 [] ellipsis body;
      if negb (rest =? "")%string then None
      else full ← expand (rev groups) at_; Some (V6 (v6_value full) zone).

(** [netip.ParseAddr]: the first of the bytes . : % decides. *)
Fixpoint addr_kind (s : string) : option ascii :=
  match s with
  | EmptyString => None
  | String c s' => if byte_is "." c || byte_is ":" c || byte_is "%" c then Some c else addr_kind s'
  end.
Definition ParseAddr (s : string) : option Addr :=
  match addr_kind s with
  | Some "."%char => parse_v4 s
  | Some ":"%char => parse_v6 s
  | _ => None
  end.
(** [net.ParseIP(s) != nil]: an address without a zone. *)
Definition ParseIP_ok (s : string) : bool :=
  match ParseAddr s with
  | Some (V4 _) => true
  | Some (V6 _ zone) => (zone =? "")%string
  | None => false
  end.

(** [Addr.String]. *)
Definition dotted (n : Z) : string :=
  format_int (n / 16777216) +:+ "." +:+ format_int (n / 65536 mod 256) +:+ "."
    +:+ format_int (n / 256 mod 256) +:+ "." +:+ format_int (n mod 256).
Definition hex_char (v : Z) : ascii := ascii_of_N (Z.to_N (if v <? 10 then v + 48 else v + 87)).
Fixpoint hex_from (digits : nat) (n : Z) : string :=
  match digits with
  | O => ""
  | S d => String (hex_char (n / 16 ^ Z.of_nat d)) (hex_from d (n mod 16 ^ Z.of_nat d))
  end.
(** A group without leading zeros. *)
Definition hex_text (n : Z) : string :=
  hex_from (if n <? 16 then 1%nat else if n <? 256 then 2%nat else if n <? 4096 then 3%nat else 4%nat) n.
Definition v6_group (n : Z) (i : nat) : Z := n / 65536 ^ Z.of_nat (7 - i) mod 65536.
Definition v6_groups (n : Z) : list Z := v6_group n <$> seq 0 8.
Definition zero_run (groups : list Z) : nat :=
  (fix go l := match l with 0 :: l' => S (go l') | _ => O end) groups.
(** The first longest run of at least two zero groups: (start, length). *)
Fixpoint best_run (i : nat) (best : nat * nat) (groups : list Z) : nat * nat :=
  match groups with
  | [] => best
  | _ :: rest =>
      let l := zero_run groups in
      best_run (S i) (if (2 <=? l)%nat && (snd best <? l)%nat then (i, l) else best) rest
  end.
Definition colons (groups : list Z) : string := join ":" (hex_text <$> groups).
Definition string6 (n : Z) : string :=
  let groups := v6_groups n in
  let '(start, l) := best_run 0 (0, 0)%nat groups in
  if bool_decide (l = O) then colons groups
  else colons (take start groups) +:+ "::" +:+ colons (drop (start + l) groups).
Definition is_4in6 (a : Addr) : bool :=
  match a with V4 _ => false | V6 n _ => n / 4294967296 =? 65535 end.
Definition zone_suffix (zone : string) : string := if (zone =? "")%string then "" else "%" +:+ zone.
Definition addr_text (a : Addr) : string :=
  match a with
  | V4 n => dotted n
  | V6 n zone =>
      (if is_4in6 a then "::ffff:" +:+ dotted (n mod 4294967296) else string6 n) +:+ zone_suffix zone
  end.

(** [Unmap], and the classes of addresses. *)
Definition Unmap (a : Addr) : Addr :=
  match a with V6 n _ => if is_4in6 a then V4 (n mod 4294967296) else a | V4 _ => a end.
Definition IsLoopback (a : Addr) : bool :=
  match Unmap a with V4 n => n / 16777216 =? 127 | V6 n _ => n =? 1 end.
Definition IsMulticast (a : Addr) : bool :=
  match Unmap a with V4 n => n / 268435456 =? 14 | V6 n _ => n / 2 ^ 120 =? 255 end.
Definition IsLinkLocalUnicast (a : Addr) : bool :=
  match Unmap a with V4 n => n / 65536 =? 43518 | V6 n _ => n / 2 ^ 118 =? 1018 end.
Definition IsPrivate (a : Addr) : bool :=
  match Unmap a with
  | V4 n => (n / 16777216 =? 10) || (n / 1048576 =? 2753) || (n / 65536 =? 49320)
  | V6 n _ => n / 2 ^ 121 =? 126
  end.
Definition IsGlobalUnicast (a : Addr) : bool :=
  let a := Unmap a in
  negb (bool_decide (a = V4 0)) && negb (bool_decide (a = V4 4294967295))
  && negb (bool_decide (a = V6 0 "")) && negb (IsLoopback a) && negb (IsMulticast a) && negb (IsLinkLocalUnicast a).

(** A prefix, and [Prefix.Contains]: no address with a zone is in any prefix. *)
Inductive Prefix : Type := P4 (n : Z) (bits : Z) | P6 (n : Z) (bits : Z).
Definition Contains (p : Prefix) (a : Addr) : bool :=
  match p, a with
  | P4 n bits, V4 m => m / 2 ^ (32 - bits) =? n / 2 ^ (32 - bits)
  | P6 n bits, V6 m zone => (zone =? "")%string && (m / 2 ^ (128 - bits) =? n / 2 ^ (128 - bits))
  | _, _ => false
  end.

Example parse_examples :
  ParseAddr "127.0.0.1" = Some (V4 2130706433) /\ ParseAddr "1.2.3" = None /\ ParseAddr "01.2.3.4" = None
  /\ ParseAddr "::1" = Some (V6 1 "") /\ ParseAddr "fe80::1%eth0" = Some (V6 (65152 * 2 ^ 112 + 1) "eth0")
  /\ ParseAddr "1:2:3:4:5:6:7::" = Some (V6 (v6_value [1; 2; 3; 4; 5; 6; 7; 0]) "")
  /\ ParseAddr "1:2:3:4:5:6:7:8:9" = None /\ ParseAddr "::ffff:1.2.3.4" = Some (V6 (65535 * 4294967296 + 16909060) "")
  /\ ParseAddr "1::2::3" = None /\ ParseAddr "12345::" = None /\ ParseAddr "1:2:3:4:5:6:7:8" = Some (V6 (v6_value [1; 2; 3; 4; 5; 6; 7; 8]) "").
Proof. vm_compute. auto 20. Qed.
Example text_examples :
  addr_text (V4 16909060) = "1.2.3.4"%string /\ addr_text (V6 1 "") = "::1"%string
  /\ addr_text (V6 (v6_value [8193; 3512; 0; 0; 1; 0; 0; 1]) "") = "2001:db8::1:0:0:1"%string
  /\ addr_text (V6 0 "z") = "::%z"%string /\ addr_text (V6 (65535 * 4294967296 + 16909060) "") = "::ffff:1.2.3.4"%string
  /\ addr_text (V6 (v6_value [1; 0; 3; 4; 5; 6; 0; 0]) "") = "1:0:3:4:5:6::"%string.
Proof. vm_compute. auto 20. Qed.

(** ** host:port *)

(** The part up to the last [sep], and the part after it. *)
Fixpoint cut_last (sep : ascii) (s : string) : option (string * string) :=
  match s with
  | EmptyString => None
  | String c s' =>
      match cut_last sep s' with
      | Some (h, p) => Some (String c h, p)
      | None => if byte_is sep c then Some ("", s') else None
      end
  end.
(** [net.SplitHostPort]. *)
Definition SplitHostPort (s : string) : option (string * string) :=
  '(before, port) ← cut_last ":" s;
  match s with
  | String "[" body =>
      let '(host, rest, closed) := cut_byte "]" body in
      if negb closed || negb (rest =? ":" +:+ port)%string then None
      else if contains_any (byte_is "[") body || contains_any (byte_is "]") rest then None
      else Some (host, port)
  | _ =>
      if contains_any (byte_is ":") before then None
      else if contains_any (byte_is "[") s || contains_any (byte_is "]") s then None
      else Some (before, port)
  end.
(** [net.JoinHostPort]. *)
Definition JoinHostPort (host port : string) : string :=
  if contains_any (byte_is ":") host then "[" +:+ host +:+ "]:" +:+ port else host +:+ ":" +:+ port.

Example split_examples :
  SplitHostPort "[::1]:80" = Some ("::1", "80") /\ SplitHostPort "a:80" = Some ("a", "80")
  /\ SplitHostPort "::1" = None /\ SplitHostPort "a" = None /\ SplitHostPort "[a]b:1" = None.
Proof. vm_compute. auto. Qed.

(** ** url.PathEscape and url.QueryEscape *)

Definition hex_upper (v : Z) : ascii := ascii_of_N (Z.to_N (if v <? 10 then v + 48 else v + 55)).
Definition unreserved (c : ascii) : bool := alnum c || one_of "-_.~" c.
Fixpoint escape_url (keep : ascii -> bool) (space : string) (s : string) : string :=
  match s with
  | EmptyString => ""
  | String c s' =>
      (if keep c then String c "" else if byte_is " " c then space
       else String "%" (String (hex_upper (byte_of c / 16)) (String (hex_upper (byte_of c mod 16)) "")))
      +:+ escape_url keep space s'
  end.
Definition PathEscape : string -> string :=
  escape_url (fun c => unreserved c || one_of "$&+:=@" c) "%20".
Definition QueryEscape : string -> string := escape_url unreserved "+".

(** ** time.Parse(time.RFC3339, s) *)

Definition is_leap (y : Z) : bool := (y mod 4 =? 0) && (negb (y mod 100 =? 0) || (y mod 400 =? 0)).
Definition days_in (m y : Z) : Z :=
  if m =? 2 then (if is_leap y then 29 else 28)
  else if bool_decide (m ∈ [4; 6; 9; 11]) then 30 else 31.
(** Days from 0001-01-01 to the given date, counting years from March. *)
Definition days_from_civil (y m d : Z) : Z :=
  let y' := if m <=? 2 then y - 1 else y in
  let era := y' / 400 in
  let yoe := y' mod 400 in
  let doy := (153 * (if m <=? 2 then m + 9 else m - 3) + 2) / 5 + d - 1 in
  era * 146097 + yoe * 365 + yoe / 4 - yoe / 100 + doy - 306.

(** A character of the layout. *)
Definition expect (c : ascii) (s : string) : option string :=
  match s with String d s' => if byte_is c d then Some s' else None | EmptyString => None end.
Definition digit_at (s : string) : option (Z * string) :=
  match s with String c s' => if is_digit c then Some (byte_of c - 48, s') else None | EmptyString => None end.
Definition two_digits (s : string) : option (Z * string) :=
  '(a, s1) ← digit_at s; '(b, s2) ← digit_at s1; Some (10 * a + b, s2).
(** [getnum] without the leading zero being required. *)
Definition one_or_two (s : string) : option (Z * string) :=
  '(a, s1) ← digit_at s;
  match digit_at s1 with Some (b, s2) => Some (10 * a + b, s2) | None => Some (a, s1) end.
Fixpoint digits_split (s : string) : string * string :=
  match s with
  | String c s' => if is_digit c then let '(d, r) := digits_split s' in (String c d, r) else ("", s)
  | EmptyString => ("", "")
  end.
(** The first nine digits of a fraction, as nanoseconds. *)
Definition nanos_of (digits : string) : option Z :=
  v ← digits_value 0 (take_str 9 digits); Some (v * 10 ^ (9 - Z.min 9 (len digits))).
(** A fraction the layout does not mention is accepted after the seconds. *)
Definition parse_fraction (s : string) : option (Z * string) :=
  match s with
  | String c s' =>
      if byte_is "." c || byte_is "," c then
        let '(digits, rest) := digits_split s' in
        if (digits =? "")%string then Some (0, s) else n ← nanos_of digits; Some (n, rest)
      else Some (0, s)
  | EmptyString => Some (0, s)
  end.
(** [Z07:00]: the offset in seconds. *)
Definition parse_zone (s : string) : option (Z * string) :=
  match s with
  | String "Z" s' => Some (0, s')
  | String sign s1 =>
      '(hh, s2) ← two_digits s1; s3 ← expect ":" s2; '(mm, s4) ← two_digits s3;
      if (24 <? hh) || (60 <? mm) then None
      else if byte_is "+" sign then Some ((hh * 60 + mm) * 60, s4)
      else if byte_is "-" sign then Some (- ((hh * 60 + mm) * 60), s4)
      else None
  | EmptyString => None
  end.
Definition ParseRFC3339 (s : string) : option Time :=
  '(y1, s) ← two_digits s; '(y2, s) ← two_digits s; s ← expect "-" s;
  '(mo, s) ← two_digits s; s ← expect "-" s; '(d, s) ← two_digits s; s ← expect "T" s;
  '(h, s) ← one_or_two s; s ← expect ":" s; '(mi, s) ← two_digits s; s ← expect ":" s; '(sec, s) ← two_digits s;
  '(nanos, s) ← parse_fraction s; '(offset, s) ← parse_zone s;
  let y := 100 * y1 + y2 in
  if negb (s =? "")%string || (mo <? 1) || (12 <? mo) || (d <? 1) || (days_in mo y <? d)
     || (23 <? h) || (59 <? mi) || (59 <? sec) then None
  else Some ((days_from_civil y mo d * 86400 + h * 3600 + mi * 60 + sec - offset) * second + nanos).

Example parse_time_examples :
  ParseRFC3339 "0001-01-01T00:00:00Z" = Some 0
  /\ ParseRFC3339 "2024-02-29T23:59:59.5+01:30" = ParseRFC3339 "2024-02-29T22:29:59.500Z"
  /\ ParseRFC3339 "2023-02-29T00:00:00Z" = None
  /\ (rfc3339 <$> ParseRFC3339 "2026-07-14T08:09:10.001Z") = Some "2026-07-14T08:09:10.001Z"%string.
Proof. vm_compute. auto. Qed.
