(* ===== verification/Uuid.v ===== *)
(** * The [github.com/google/uuid] package

    A third-party package: its parser is a parameter of the development. A
    component that checks identifiers takes a [UuidLib] and uses only the parsed
    version, variant, nil test and canonical text. *)
From S2P Require Import Prelude GoStd.
From Stdlib Require Import Ascii.

(** What the code reads from a parsed [uuid.UUID]. *)
Record UUID := mkUUID {
  uuid_text : string;       (** [id.String()] *)
  uuid_version : Z;         (** [id.Version()] *)
  uuid_rfc4122 : bool;      (** [id.Variant() == uuid.RFC4122] *)
  uuid_nil : bool;          (** [id == uuid.Nil] *)
}.

Class UuidLib := uuid_parse : string -> option UUID.

(** Documented behaviour of [uuid.Parse]: parsing the canonical text of a parsed
    identifier gives that identifier again. *)
Class UuidLaws (L : UuidLib) := uuid_reparse :
  forall s u, uuid_parse s = Some u -> uuid_parse (uuid_text u) = Some u.

Section Checks.
Context {L : UuidLib}.

(** appstate.validID and operations.validUUIDString: the canonical text of a
    non-nil identifier. *)
Definition validID (value : string) : bool :=
  match uuid_parse value with
  | Some id => negb (uuid_nil id) && (uuid_text id =? value)%string
  | None => false
  end.

(** operations.canonicalInstallation. *)
Definition canonicalInstallation (id : string) : bool :=
  match uuid_parse id with
  | Some v => (uuid_version v =? 7) && uuid_rfc4122 v && (uuid_text v =? id)%string
  | None => false
  end.

(** identity.validUUIDv7. *)
Definition validUUIDv7 (value : string) : bool :=
  match uuid_parse value with
  | Some id => (uuid_version id =? 7) && (uuid_text id =? value)%string
  | None => false
  end.
End Checks.

(** A concrete parser for witnesses: the canonical 36-byte lowercase form. *)
Module CanonicalUuid.
Fixpoint shape_ok (n : nat) (s : string) : bool :=
  match s with
  | EmptyString => bool_decide (n = 36%nat)
  | String c s' =>
      (if bool_decide (n ∈ [8; 13; 18; 23]%nat) then bool_decide (c = "-"%char) else lower_hex c)
      && shape_ok (S n) s'
  end.
Definition hex_val (c : ascii) : Z :=
  let b := byte_of c in if b <? 58 then b - 48 else b - 87.
Definition parse (s : string) : option UUID :=
  if shape_ok 0 s then
    Some {| uuid_text := s;
            uuid_version := match String.get 14 s with Some c => hex_val c | None => 0 end;
            uuid_rfc4122 := match String.get 19 s with
                            | Some c => bool_decide (Z.shiftr (hex_val c) 2 = 2)
                            | None => false end;
            uuid_nil := (s =? "00000000-0000-0000-0000-000000000000")%string |}
  else None.
#[export] Instance lib : UuidLib := parse.
#[export] Instance laws : UuidLaws lib.
Proof.
  intros s u H. unfold uuid_parse, lib, parse in *.
  destruct (shape_ok 0 s) eqn:E; [| done]. injection H as <-. simpl. by rewrite E.
Qed.
End CanonicalUuid.

Lemma validID_text {L : UuidLib} s : validID s = true -> exists u, uuid_parse s = Some u /\ uuid_text u = s.
Proof.
  unfold validID. intros H. destruct (uuid_parse s) as [u |] eqn:E; [| done].
  exists u. bool_norm. done.
Qed.
