(* ===== verification/Observation.v ===== *)
(** * Collector observations and the runtime view

    The wire records of internal/appstate/wire.generated.go, the collector
    configuration and replica evaluation of collector_protocol.go, the frame
    validation of memory_validation.go, and the read-model view of state.go. *)
From S2P Require Import Prelude GoStd Sha256 GoJson Uuid.
From Stdlib Require Import Ascii.

(** ** Kubernetes' name validation

    [k8s.io/apimachinery/pkg/util/validation] is a third-party package:
    [isDNS1123Subdomain name] stands for
    [len(validation.IsDNS1123Subdomain(name)) == 0]. *)
Class K8sLib := isDNS1123Subdomain : string -> bool.

(** ** Wire records *)
Record ResourceImage := mkResourceImage { ri_Component : string; ri_Image : string }.
#[export] Instance ResourceImage_eq : EqDecision ResourceImage.
Proof. solve_decision. Defined.

Record ResourceDiscovery := mkResourceDiscovery {
  rd_Enabled : bool; rd_AppID : string; rd_GroupID : string; rd_Brand : string;
  rd_Version : string; rd_DisplayName : string; rd_Models : string; rd_Source : string }.
#[export] Instance ResourceDiscovery_eq : EqDecision ResourceDiscovery.
Proof. solve_decision. Defined.

(** [Images] is a slice: [None] is nil, which [validStreamResource] rejects and
    [json.Marshal] writes as [null]. *)
Record ResourceMetadata := mkResourceMetadata {
  rm_OwnershipMarked : bool; rm_TemplateHash : string; rm_ImagesComplete : bool;
  rm_Images : option (list ResourceImage); rm_Discovery : ResourceDiscovery }.
#[export] Instance ResourceMetadata_eq : EqDecision ResourceMetadata.
Proof. solve_decision. Defined.

Record ResourceObservation := mkResourceObservation {
  ro_Namespace : string; ro_Name : string; ro_UID : string; ro_ResourceVersion : string;
  ro_StationID : string; ro_OrganizationID : string; ro_InstallationID : string; ro_AppID : string;
  ro_Generation : Z; ro_ObservedGeneration : Z;
  ro_Desired : Z; ro_Replicas : Z; ro_Ready : Z; ro_Updated : Z; ro_Available : Z;
  ro_ProgressFailed : bool; ro_ReplicaFailed : bool; ro_Terminating : bool; ro_Deleted : bool;
  ro_Health : string; ro_InstanceID : string; ro_Metadata : option ResourceMetadata }.
#[export] Instance ResourceObservation_eq : EqDecision ResourceObservation.
Proof. solve_decision. Defined.

Definition set_Health (h : string) (o : ResourceObservation) : ResourceObservation :=
  let '(mkResourceObservation a b c d e f g i j k l m n p q r s t u _ v w) := o in
  mkResourceObservation a b c d e f g i j k l m n p q r s t u h v w.

Record Health := mkHealth {
  h_Namespace : string; h_Name : string; h_UID : string; h_ResourceVersion : string;
  h_Health : string }.

(** [json.Marshal(o.Metadata)]. *)
Definition image_json (i : ResourceImage) : json :=
  JObj [("component", JStr (ri_Component i)); ("image", JStr (ri_Image i))].
Definition discovery_json (d : ResourceDiscovery) : json :=
  JObj [("enabled", JBool (rd_Enabled d)); ("appId", JStr (rd_AppID d));
        ("groupId", JStr (rd_GroupID d)); ("brand", JStr (rd_Brand d));
        ("version", JStr (rd_Version d)); ("displayName", JStr (rd_DisplayName d));
        ("models", JStr (rd_Models d)); ("source", JStr (rd_Source d))].
Definition metadata_json (m : ResourceMetadata) : json :=
  JObj [("ownershipMarked", JBool (rm_OwnershipMarked m));
        ("templateHash", JStr (rm_TemplateHash m));
        ("imagesComplete", JBool (rm_ImagesComplete m));
        ("images", jopt (fun l => JArr (map image_json l)) (rm_Images m));
        ("discovery", discovery_json (rm_Discovery m))].

(** ** Names *)
Module Patterns.
Import Regexp.
Definition dash_alnum (c : ascii) : bool := lower_alnum c || bool_decide (c = "-"%char).
Definition ident_byte (c : ascii) : bool := lower_alnum c || one_of "._-" c.
(** [^[a-z0-9]([-a-z0-9]*[a-z0-9])?$] *)
Definition dns_label : re :=
  Cat (Class lower_alnum) (opt (Cat (Star (Class dash_alnum)) (Class lower_alnum))).
(** [^[a-z0-9][a-z0-9._-]{0,127}$] *)
Definition identifier : re := Cat (Class lower_alnum) (upto 127 (Class ident_byte)).
End Patterns.

Definition appIDPattern (s : string) : bool := Regexp.matches Patterns.dns_label s.
Definition appIdentifier (s : string) : bool := Regexp.matches Patterns.identifier s.

Definition dns (value : string) : bool :=
  (0 <? len value) && (len value <=? 63) && appIDPattern value.

(** ** Collector configuration *)
Record Collector := mkCollector {
  c_ID : string; c_Namespaces : list string; c_HealthRequiredApps : list string }.

Definition collector_valid (c : Collector) : bool :=
  if negb (dns (c_ID c)) || bool_decide (c_Namespaces c = [])
     || (128 <? Z.of_nat (length (c_Namespaces c)))
     || (1000 <? Z.of_nat (length (c_HealthRequiredApps c))) then false
  else scan_distinct dns (fun v => v) ∅ (c_Namespaces c)
       && scan_distinct appIdentifier (fun v => v) ∅ (c_HealthRequiredApps c).

(** ** Replica evaluation: (state, reason). *)
Definition evaluate (o : ResourceObservation) (healthRequired : bool) : string * string :=
  if ro_Deleted o then ("absent", "RESOURCE_ABSENT")
  else if ro_Terminating o then ("stopping", "RESOURCE_TERMINATING")
  else if ro_Generation o <? ro_ObservedGeneration o then ("unknown", "INVALID_OBSERVATION")
  else if ro_Desired o =? 0 then
    if ro_Replicas o =? 0 then ("stopped", "SCALED_TO_ZERO")
    else ("stopping", "REPLICAS_TERMINATING")
  else if ro_ProgressFailed o then ("degraded", "PROGRESS_DEADLINE_EXCEEDED")
  else if ro_ReplicaFailed o then ("degraded", "REPLICA_FAILURE")
  else if (ro_Health o =? "failed")%string then ("degraded", "HEALTH_CHECK_FAILED")
  else if (ro_Generation o <? 1) || (ro_ObservedGeneration o <? ro_Generation o)
          || negb (ro_Replicas o =? ro_Desired o) || negb (ro_Ready o =? ro_Desired o)
          || negb (ro_Updated o =? ro_Desired o) || negb (ro_Available o =? ro_Desired o)
  then ("starting", "REPLICAS_NOT_READY")
  else if healthRequired && negb (ro_Health o =? "ready")%string
  then ("unknown", "HEALTH_NOT_OBSERVED")
  else ("ready", "READY").

(** ** Frame validation *)
Section Validation.
Context {K : K8sLib}.

Definition validStreamLocation (namespace name uid : string) (c : Collector) : bool :=
  dns namespace && slices_contains (c_Namespaces c) namespace && isDNS1123Subdomain name
  && (0 <? len uid) && (len uid <=? 128).

Definition validImage (i : ResourceImage) : bool :=
  dns (ri_Component i) && negb (len (ri_Image i) =? 0) && (len (ri_Image i) <=? 2048).

Definition validMetadata (m : ResourceMetadata) : bool :=
  if 128 <? len (rm_TemplateHash m) then false
  else match rm_Images m with
  | None => false
  | Some images =>
      if (64 <? Z.of_nat (length images))
         || (negb (rm_ImagesComplete m) && negb (bool_decide (images = [])))
         || (rm_ImagesComplete m && bool_decide (images = [])) then false
      else if negb (scan_distinct validImage ri_Component ∅ images) then false
      else
        let d := rm_Discovery m in
        negb ((128 <? len (rd_AppID d)) || (128 <? len (rd_GroupID d)) || (128 <? len (rd_Brand d))
              || (128 <? len (rd_Version d)) || (512 <? len (rd_DisplayName d))
              || (4096 <? len (rd_Models d)) || (1024 <? len (rd_Source d)))
  end.

Definition validStreamResource (o : ResourceObservation) (c : Collector) : bool :=
  if negb (validStreamLocation (ro_Namespace o) (ro_Name o) (ro_UID o) c)
     || (len (ro_ResourceVersion o) =? 0) || (256 <? len (ro_ResourceVersion o))
     || (ro_Generation o <? 0) || (ro_ObservedGeneration o <? 0) || (ro_Desired o <? 0)
     || (ro_Replicas o <? 0) || (ro_Ready o <? 0) || (ro_Updated o <? 0) || (ro_Available o <? 0)
     || negb (slices_contains ["not_checked"; "ready"; "failed"] (ro_Health o)) then false
  else if existsb (fun id => 128 <? len id)
            [ro_StationID o; ro_OrganizationID o; ro_InstallationID o; ro_AppID o; ro_InstanceID o]
  then false
  else match ro_Metadata o with Some m => validMetadata m | None => true end.
End Validation.

(** ** The runtime read model *)
Record Runtime := mkRuntime {
  rt_State : string; rt_Quality : string; rt_ReasonCode : string;
  rt_ObservedAt : option Time; rt_ExpiresAt : option Time; rt_LastKnownState : option string }.
#[export] Instance Runtime_eq : EqDecision Runtime.
Proof. solve_decision. Defined.

(** [utcTime] copies the instant; an instant is location-free here. *)
Definition utcTime (value : option Time) : option Time := value.

Definition RuntimeView (now : Time) (state reason : option string)
    (received expires : option Time) (expired : bool) : Runtime :=
  let out r last := mkRuntime "unknown" "unknown" r (utcTime received) (utcTime expires) last in
  match state, reason, received, expires with
  | Some st, Some re, Some rcv, Some exp =>
      if negb (time_after exp rcv) || time_after rcv now then out "INVALID_OBSERVATION" None
      else
        let last := if negb (st =? "unknown")%string then Some st else None in
        if expired || negb (time_before now exp) then out "OBSERVATION_EXPIRED" last
        else mkRuntime st (if negb (st =? "unknown")%string then "known" else "unknown") re
                       (utcTime received) (utcTime expires) last
  | _, _, _, _ => out "NOT_OBSERVED" None
  end.

#[global] Arguments RuntimeView : simpl never.

(** ** Lemmas *)

Lemma dns_appIDPattern s : dns s = true -> appIDPattern s = true.
Proof. unfold dns. intros. by bool_norm. Qed.

Lemma collector_valid_namespaces c :
  collector_valid c = true ->
  NoDup (c_Namespaces c) /\ (forall ns, ns ∈ c_Namespaces c -> dns ns = true) /\ dns (c_ID c) = true.
Proof.
  unfold collector_valid. destruct (_ || _) eqn:E; [done |]. bool_norm. intros. bool_norm.
  match goal with H : scan_distinct dns _ _ _ = true |- _ =>
    apply scan_distinct_true in H as (Hok & Hnd & _) end.
  rewrite list_fmap_id in Hnd. auto.
Qed.

Section ValidationFacts.
Context {K : K8sLib}.
Lemma validStreamResource_location o c :
  validStreamResource o c = true ->
  validStreamLocation (ro_Namespace o) (ro_Name o) (ro_UID o) c = true.
Proof. unfold validStreamResource. destruct (_ || _) eqn:E; [done |]. by bool_norm. Qed.

Lemma validStreamLocation_namespace ns name uid c :
  validStreamLocation ns name uid c = true -> ns ∈ c_Namespaces c.
Proof. unfold validStreamLocation. intros. bool_norm. by apply slices_contains_true. Qed.
End ValidationFacts.

(** What a known view certifies about its evidence. *)
Lemma RuntimeView_known now st re rcv exp expired :
  rt_Quality (RuntimeView now st re rcv exp expired) = "known" ->
  exists s r a e,
    st = Some s /\ re = Some r /\ rcv = Some a /\ exp = Some e /\ expired = false /\
    s <> "unknown" /\ a <= now < e /\
    RuntimeView now st re rcv exp expired = mkRuntime s "known" r (Some a) (Some e) (Some s).
Proof.
  unfold RuntimeView. destruct st as [s |], re as [r |], rcv as [a |], exp as [e |]; try done.
  unfold time_after, time_before.
  destruct (negb (a <? e) || (now <? a)) eqn:E1; [done |].
  destruct (expired || negb (now <? e)) eqn:E2; [done |].
  destruct (s =? "unknown")%string eqn:E3; [done |]. simpl. intros _.
  bool_norm. exists s, r, a, e. repeat split; try done; lia.
Qed.

Lemma RuntimeView_quality now st re rcv exp expired :
  rt_Quality (RuntimeView now st re rcv exp expired) = "known" \/
  (rt_Quality (RuntimeView now st re rcv exp expired) = "unknown" /\
   rt_State (RuntimeView now st re rcv exp expired) = "unknown").
Proof.
  unfold RuntimeView. destruct st as [s |], re, rcv, exp; simpl; auto.
  destruct (_ || _); [auto |]. destruct (_ || _); [auto |]. simpl.
  destruct (s =? "unknown")%string eqn:E; simpl; [right | by left].
  by apply String.eqb_eq in E.
Qed.
