(* ===== verification/Memory.v ===== *)
(** * The observation memory and its collector streams

    internal/appstate/memory.go: one [Memory] per Core process holds the
    Kubernetes evidence of every collector, the location bindings of the
    installations and the derived runtime views. A collector feeds it through a
    [StreamSession], a capability tied to one live connection.

    Pointers. A [*StreamSession] is a reference [sref] into [m_sessions]: a
    handler may keep a session that was replaced, and the code compares session
    pointers ([s.collector.active == s]). A [*memoryCollector] is identified by
    its configured ID and a [*memoryBinding] by its installation: each lives in
    exactly one map and is never shared.

    The clock is an argument: each call of [m.now()] reads one instant. *)
From S2P Require Import Prelude GoStd Sha256 GoJson Uuid Observation.
From Stdlib Require Import Ascii.

Definition observationTTL : Z := 30 * second.
Definition fullSyncInterval : Z := 60 * second.
Definition maxInventory : Z := 10000.
Definition maxBindings : Z := 1000.

(** Errors of the package (memory.go, state.go and strictjson.ErrInvalid). *)
Inductive Fault : Type :=
| ErrCollectorBusy | ErrStreamClosed | ErrStreamFrame
| ErrUnavailable | ErrLimit | ErrNotFound | ErrInvalidJSON.
#[export] Instance Fault_eq : EqDecision Fault.
Proof. solve_decision. Defined.

(** ** State *)
Definition sref := nat.

Record memoryResource := mkResource {
  mr_obs : ResourceObservation;
  mr_received : Time; mr_expires : Time; mr_healthExpires : Time;
  mr_metadataDigest : string }.

Record memoryCollector := mkMC {
  mc_config : Collector;
  mc_active : option sref;
  mc_objects : gmap string memoryResource;
  mc_lastFull : Time;
  mc_inventoryAt : Time; mc_inventoryExpires : Time }.

Record Binding := mkBinding {
  b_InstallationID : string; b_OrganizationID : string; b_AppID : string }.
#[export] Instance Binding_eq : EqDecision Binding.
Proof. solve_decision. Defined.

Record memoryBinding := mkMB {
  mb_Binding : Binding;
  mb_collector : string; mb_namespace : string; mb_name : string; mb_uid : string;
  mb_absentAt : Time; mb_absentExpires : Time;
  mb_view : Runtime;
  mb_revision : Z;
  mb_semantic : string }.

Record StreamSession := mkSession {
  ss_collector : string;
  ss_id : string;
  ss_lastFrame : Time;
  ss_synced : bool; ss_closed : bool;
  ss_syncID : string;
  ss_started : Time;
  ss_staging : option (gmap string memoryResource) }.

Record legacyBinding := mkLegacy {
  lb_BindingID : string; lb_AppID : string; lb_OrganizationID : string; lb_StationID : string;
  lb_ObservationKey : string; lb_WorkloadUID : string;
  lb_namespace : string; lb_name : string }.

Record Memory := mkMemory {
  m_station : string; m_boot : string;
  m_collectors : gmap string memoryCollector;
  m_bindings : gmap string memoryBinding;
  m_scopeRevision : gmap string Z;
  m_legacy : list legacyBinding;
  m_sessions : gmap sref StreamSession }.

Record MemoryView := mkView {
  v_Runtime : Runtime; v_Revision : string; v_Resource : option ResourceObservation }.

(** ** Field updates *)
Definition mb_Org (b : memoryBinding) : string := b_OrganizationID (mb_Binding b).
Definition mb_App (b : memoryBinding) : string := b_AppID (mb_Binding b).

Definition with_active (a : option sref) (c : memoryCollector) : memoryCollector :=
  mkMC (mc_config c) a (mc_objects c) (mc_lastFull c) (mc_inventoryAt c) (mc_inventoryExpires c).
Definition with_objects (o : gmap string memoryResource) (c : memoryCollector) : memoryCollector :=
  mkMC (mc_config c) (mc_active c) o (mc_lastFull c) (mc_inventoryAt c) (mc_inventoryExpires c).
Definition with_inventory (at_ exp : Time) (c : memoryCollector) : memoryCollector :=
  mkMC (mc_config c) (mc_active c) (mc_objects c) (mc_lastFull c) at_ exp.
Definition with_lastFull (t : Time) (c : memoryCollector) : memoryCollector :=
  mkMC (mc_config c) (mc_active c) (mc_objects c) t (mc_inventoryAt c) (mc_inventoryExpires c).

Definition with_absent (at_ exp : Time) (b : memoryBinding) : memoryBinding :=
  mkMB (mb_Binding b) (mb_collector b) (mb_namespace b) (mb_name b) (mb_uid b) at_ exp
       (mb_view b) (mb_revision b) (mb_semantic b).
Definition with_location (c ns name uid : string) (b : memoryBinding) : memoryBinding :=
  mkMB (mb_Binding b) c ns name uid (mb_absentAt b) (mb_absentExpires b)
       (mb_view b) (mb_revision b) (mb_semantic b).
Definition with_semantic (v : Runtime) (rev : Z) (sem : string) (b : memoryBinding) : memoryBinding :=
  mkMB (mb_Binding b) (mb_collector b) (mb_namespace b) (mb_name b) (mb_uid b)
       (mb_absentAt b) (mb_absentExpires b) v rev sem.

Definition with_staging (st : option (gmap string memoryResource)) (s : StreamSession) : StreamSession :=
  mkSession (ss_collector s) (ss_id s) (ss_lastFrame s) (ss_synced s) (ss_closed s)
            (ss_syncID s) (ss_started s) st.
Definition with_lastFrame (t : Time) (s : StreamSession) : StreamSession :=
  mkSession (ss_collector s) (ss_id s) t (ss_synced s) (ss_closed s)
            (ss_syncID s) (ss_started s) (ss_staging s).

Definition with_collectors (cs : gmap string memoryCollector) (m : Memory) : Memory :=
  mkMemory (m_station m) (m_boot m) cs (m_bindings m) (m_scopeRevision m) (m_legacy m) (m_sessions m).
Definition with_bindings (bs : gmap string memoryBinding) (m : Memory) : Memory :=
  mkMemory (m_station m) (m_boot m) (m_collectors m) bs (m_scopeRevision m) (m_legacy m) (m_sessions m).
Definition with_scopes (sc : gmap string Z) (m : Memory) : Memory :=
  mkMemory (m_station m) (m_boot m) (m_collectors m) (m_bindings m) sc (m_legacy m) (m_sessions m).
Definition with_sessions (ss : gmap sref StreamSession) (m : Memory) : Memory :=
  mkMemory (m_station m) (m_boot m) (m_collectors m) (m_bindings m) (m_scopeRevision m) (m_legacy m) ss.
Definition with_legacy (l : list legacyBinding) (m : Memory) : Memory :=
  mkMemory (m_station m) (m_boot m) (m_collectors m) (m_bindings m) (m_scopeRevision m) l (m_sessions m).

Definition set_collector (id : string) (c : memoryCollector) (m : Memory) : Memory :=
  with_collectors (<[id := c]> (m_collectors m)) m.
Definition set_session (r : sref) (s : StreamSession) (m : Memory) : Memory :=
  with_sessions (<[r := s]> (m_sessions m)) m.

(** The [map] key of a workload location. *)
Definition loc_key (namespace name : string) : string := namespace +:+ "/" +:+ name.
Definition obs_key (o : ResourceObservation) : string := loc_key (ro_Namespace o) (ro_Name o).

(** ** Construction *)
Section NewMemory.
Context {U : UuidLib}.

(** The loop over [collectors]: [namespaces] is the set taken so far. *)
Fixpoint add_collectors (cs : list Collector) (namespaces : gset string)
    (acc : gmap string memoryCollector) : option (gmap string memoryCollector) :=
  match cs with
  | [] => Some acc
  | c :: rest =>
      if negb (collector_valid c) || bool_decide (is_Some (acc !! c_ID c)) then None
      else if existsb (fun ns => bool_decide (ns ∈ namespaces)) (c_Namespaces c) then None
      else add_collectors rest (list_to_set (c_Namespaces c) ∪ namespaces)
             (<[c_ID c := mkMC c None ∅ zero_time zero_time zero_time]> acc)
  end.

(** [boot] is the [uuid.NewString()] drawn by the process. *)
Definition NewMemory (station boot : string) (collectors : list Collector) : result Fault Memory :=
  if negb (validID station) || (128 <? Z.of_nat (length collectors)) then Err ErrStreamFrame
  else match add_collectors collectors ∅ ∅ with
  | None => Err ErrStreamFrame
  | Some cs => Ok (mkMemory station boot cs ∅ ∅ [] ∅)
  end.
End NewMemory.

(** ** Sessions *)

Definition live (m : Memory) (r : sref) (s : StreamSession) (now : Time) : bool :=
  negb (ss_closed s)
  && match m_collectors m !! ss_collector s with
     | Some c => bool_decide (mc_active c = Some r)
     | None => false
     end
  && time_before now (ss_lastFrame s + observationTTL)
  && match ss_staging s with
     | None => true
     | Some _ => time_before now (ss_started s + observationTTL)
     end.

(** [closeLocked]: close the session, drop its staging and release the collector. *)
Definition closed_session (s : StreamSession) : StreamSession :=
  mkSession (ss_collector s) (ss_id s) (ss_lastFrame s) (ss_synced s) true "" (ss_started s) None.

Definition release (r : sref) (c : memoryCollector) : memoryCollector :=
  if bool_decide (mc_active c = Some r) then with_active None c else c.

Definition closeLocked (r : sref) (m : Memory) : Memory :=
  match m_sessions m !! r with
  | None => m
  | Some s =>
      with_collectors (alter (release r) (ss_collector s) (m_collectors m))
        (set_session r (closed_session s) m)
  end.

(** [Open]: [fresh] is the reference and [id] the UUID of the new session. *)
Definition Open (m : Memory) (collector : string) (now : Time) (id : string)
    : Memory * result Fault sref :=
  match m_collectors m !! collector with
  | None => (m, Err ErrStreamFrame)
  | Some c =>
      let start m' :=
        let r := fresh (dom (m_sessions m')) in
        let s := mkSession collector id now false false "" zero_time None in
        (with_collectors (alter (with_active (Some r)) collector (m_collectors m'))
           (set_session r s m'), Ok r) in
      match mc_active c with
      | None => start m
      | Some old =>
          match m_sessions m !! old with
          | None => start m
          | Some s =>
              if live m old s now then (m, Err ErrCollectorBusy) else start (closeLocked old m)
          end
      end
  end.

(** ** Projection of the bindings *)
Record memoryCandidate := mkCandidate { cand_config : Collector; cand_o : memoryResource }.

(** The entries [projectAll] indexes under one installation. *)
Definition indexed (m : Memory) (inst : string) : list memoryCandidate :=
  '(_, c) ← map_to_list (m_collectors m);
  '(_, o) ← map_to_list (mc_objects c);
  if (ro_StationID (mr_obs o) =? m_station m)%string && (ro_InstanceID (mr_obs o) =? "")%string
     && negb (ro_InstallationID (mr_obs o) =? "")%string
     && (ro_InstallationID (mr_obs o) =? inst)%string
  then [mkCandidate (mc_config c) o] else [].

Definition unknown_runtime (reason : string) : Runtime :=
  mkRuntime "unknown" "unknown" reason None None None.

(** Health evidence past its own deadline is not evidence. *)
Definition current_fact (now : Time) (o : memoryResource) : ResourceObservation :=
  if time_before now (mr_expires o) && negb (time_before now (mr_healthExpires o))
  then set_Health "not_checked" (mr_obs o) else mr_obs o.

Definition object_at (m : Memory) (collector namespace name : string) : option memoryResource :=
  c ← m_collectors m !! collector; mc_objects c !! loc_key namespace name.

(** [project]: the binding after its location updates, and the runtime view. *)
Definition project (m : Memory) (b : memoryBinding) (now : Time) (resources : list memoryCandidate)
    : memoryBinding * Runtime :=
  let candidates := filter (fun r =>
    ro_OrganizationID (mr_obs (cand_o r)) = mb_Org b /\ ro_AppID (mr_obs (cand_o r)) = mb_App b) resources in
  match candidates with
  | _ :: _ :: _ => (b, unknown_runtime "IDENTITY_CONFLICT")
  | [k] =>
      let o := cand_o k in
      let obs := mr_obs o in
      let moved := negb (mb_collector b =? "")%string
        && (negb (mb_collector b =? c_ID (cand_config k))%string
            || negb (mb_namespace b =? ro_Namespace obs)%string
            || negb (mb_name b =? ro_Name obs)%string) in
      if moved && bool_decide (is_Some (object_at m (mb_collector b) (mb_namespace b) (mb_name b)))
      then (b, unknown_runtime "IDENTITY_CONFLICT")
      else
        let b' := with_absent zero_time zero_time
          (with_location (c_ID (cand_config k)) (ro_Namespace obs) (ro_Name obs) (ro_UID obs) b) in
        let required := slices_contains (c_HealthRequiredApps (cand_config k)) (mb_App b) in
        let '(state, reason) := evaluate (current_fact now o) required in
        (b', RuntimeView now (Some state) (Some reason) (Some (mr_received o)) (Some (mr_expires o)) false)
  | [] =>
      if negb (mb_collector b =? "")%string then
        match m_collectors m !! mb_collector b with
        | None => (b, unknown_runtime "COLLECTOR_SCOPE_CHANGED")
        | Some c =>
            if negb (slices_contains (c_Namespaces (mc_config c)) (mb_namespace b))
            then (b, unknown_runtime "COLLECTOR_SCOPE_CHANGED")
            else match mc_objects c !! loc_key (mb_namespace b) (mb_name b) with
            | Some o =>
                (b, RuntimeView now (Some "unknown") (Some "IDENTITY_CONFLICT")
                      (Some (mr_received o)) (Some (mr_expires o)) false)
            | None =>
                if negb (is_zero (mb_absentAt b)) then
                  (b, RuntimeView now (Some "absent") (Some "RESOURCE_ABSENT")
                        (Some (mb_absentAt b)) (Some (mb_absentExpires b)) false)
                else (b, unknown_runtime "NOT_SYNCED")
            end
        end
      else (b, unknown_runtime "NOT_SYNCED")
  end.

(** Is [o] the binding's own workload (the identity test before its metadata or
    resource is used). *)
Definition own_object (m : Memory) (b : memoryBinding) (o : memoryResource) : bool :=
  let r := mr_obs o in
  (ro_UID r =? mb_uid b)%string && (ro_StationID r =? m_station m)%string
  && (ro_OrganizationID r =? mb_Org b)%string && (ro_AppID r =? mb_App b)%string
  && (ro_InstallationID r =? b_InstallationID (mb_Binding b))%string
  && (ro_InstanceID r =? "")%string.

Definition binding_object (m : Memory) (b : memoryBinding) : option memoryResource :=
  match object_at m (mb_collector b) (mb_namespace b) (mb_name b) with
  | Some o => if own_object m b o then Some o else None
  | None => None
  end.

Definition set_last (l : option string) (v : Runtime) : Runtime :=
  mkRuntime (rt_State v) (rt_Quality v) (rt_ReasonCode v) (rt_ObservedAt v) (rt_ExpiresAt v) l.

(** A health gap keeps the last known state of the previous view. *)
Definition keep_last (b : memoryBinding) (v : Runtime) : Runtime :=
  if (rt_ReasonCode v =? "HEALTH_NOT_OBSERVED")%string
  then match rt_LastKnownState (mb_view b) with
       | Some x => set_last (Some x) v
       | None => v
       end
  else v.

Definition semantic_of (m : Memory) (b : memoryBinding) (v : Runtime) : string :=
  let last := from_nil "" (rt_LastKnownState v) in
  let base := mb_uid b +:+ "/" +:+ rt_State v +:+ "/" +:+ rt_Quality v +:+ "/"
              +:+ rt_ReasonCode v +:+ "/" +:+ last in
  match binding_object m b with
  | Some o => base +:+ "/" +:+ mr_metadataDigest o
  | None => base
  end.

(** One binding of [projectAll]: the new binding and whether its meaning changed. *)
Definition project_binding (m : Memory) (now : Time) (b : memoryBinding) : memoryBinding * bool :=
  let '(b1, v0) := project m b now (indexed m (b_InstallationID (mb_Binding b))) in
  let v := keep_last b1 v0 in
  let sem := semantic_of m b1 v in
  if (sem =? mb_semantic b1)%string
  then (with_semantic v (mb_revision b1) (mb_semantic b1) b1, false)
  else (with_semantic v (u64_incr (mb_revision b1)) sem b1, true).

Definition bump (org : string) (scopes : gmap string Z) : gmap string Z :=
  <[org := u64_incr (default 0 (scopes !! org))]> scopes.

Definition bump_changed (m : Memory) (now : Time) (scopes : gmap string Z) (b : memoryBinding)
    : gmap string Z :=
  if snd (project_binding m now b) then bump (mb_Org b) scopes else scopes.

Definition projectAll (now : Time) (m : Memory) : Memory :=
  with_scopes (foldl (bump_changed m now) (m_scopeRevision m) (snd <$> map_to_list (m_bindings m)))
    (with_bindings ((fun b => fst (project_binding m now b)) <$> m_bindings m) m).

(** ** Frames

    [apply] serializes the accepted frames: a dead session is refused and closed,
    a frame that fails closes its session, and an accepted one refreshes the
    session and recomputes every view. A frame function writes in place: it leaves
    a memory behind in any case, whether it fails or not. *)
Definition frame_fn := Memory -> StreamSession -> memoryCollector -> Time -> Memory * option Fault.

Definition refresh_session (r : sref) (now : Time) (m : Memory) : Memory :=
  with_sessions (alter (with_lastFrame now) r (m_sessions m)) m.

Definition apply (m : Memory) (r : sref) (now : Time) (fn : frame_fn) : Memory * option Fault :=
  match m_sessions m !! r with
  | None => (m, Some ErrStreamClosed)
  | Some s =>
      if negb (live m r s now) then (closeLocked r m, Some ErrStreamClosed)
      else match m_collectors m !! ss_collector s with
      | None => (closeLocked r m, Some ErrStreamClosed)
      | Some c =>
          match fn m s c now with
          | (m', Some e) => (closeLocked r m', Some e)
          | (m', None) => (projectAll now (refresh_session r now m'), None)
          end
      end
  end.

Definition sampled (o : ResourceObservation) (now : Time) : memoryResource :=
  mkResource o now (now + observationTTL) (now + observationTTL)
    (Sha256.hex_sum (marshal (jopt metadata_json (ro_Metadata o)))).

(** A relist is not a new probe: a matching earlier sample keeps its health and
    its health deadline. *)
Definition sample (s : StreamSession) (c : memoryCollector) (o : ResourceObservation) (now : Time)
    : memoryResource :=
  let next := sampled o now in
  if ss_synced s && (ro_Health o =? "not_checked")%string then
    match mc_objects c !! obs_key o with
    | Some old =>
        if bool_decide (set_Health "not_checked" (mr_obs old) = o)
        then mkResource (set_Health (ro_Health (mr_obs old)) (mr_obs next)) (mr_received next)
               (mr_expires next) (mr_healthExpires old) (mr_metadataDigest next)
        else next
    | None => next
    end
  else next.

Section Frames.
Context {U : UuidLib} {K : K8sLib}.

Definition begin_fn (r : sref) (syncID : string) : frame_fn := fun m s c now =>
  if negb (validID syncID) || bool_decide (is_Some (ss_staging s)) then (m, Some ErrStreamFrame)
  else (set_session r
    (mkSession (ss_collector s) (ss_id s) (ss_lastFrame s) (ss_synced s) (ss_closed s)
               syncID now (Some ∅)) m, None).
Definition Begin (m : Memory) (r : sref) (now : Time) (syncID : string) :=
  apply m r now (begin_fn r syncID).

(** The validation loop of [Objects]; [seen] holds the keys of this frame. *)
Definition valid_objects (cfg : Collector) (staging : gmap string memoryResource)
    (objects : list ResourceObservation) : bool :=
  scan_distinct (fun o => validStreamResource o cfg && negb (ro_Deleted o)
                          && negb (bool_decide (is_Some (staging !! obs_key o))))
                obs_key ∅ objects.

Definition stage_objects (s : StreamSession) (c : memoryCollector) (now : Time)
    (objects : list ResourceObservation) (staging : gmap string memoryResource)
    : gmap string memoryResource :=
  foldl (fun st o => <[obs_key o := sample s c o now]> st) staging objects.

Definition objects_fn (r : sref) (syncID : string) (objects : list ResourceObservation) : frame_fn :=
  fun m s c now =>
  match ss_staging s with
  | None => (m, Some ErrStreamFrame)
  | Some staging =>
      let n := Z.of_nat (length objects) in
      if negb (syncID =? ss_syncID s)%string || (n =? 0) || (500 <? n) then (m, Some ErrStreamFrame)
      else if maxInventory <? Z.of_nat (size staging) + n then (m, Some ErrLimit)
      else if negb (valid_objects (mc_config c) staging objects) then (m, Some ErrStreamFrame)
      else (set_session r
             (with_staging (Some (stage_objects s c now objects staging)) s) m, None)
  end.
Definition Objects (m : Memory) (r : sref) (now : Time) (syncID : string)
    (objects : list ResourceObservation) := apply m r now (objects_fn r syncID objects).

Definition health_fn (f : Health) : frame_fn := fun m s c now =>
  if negb (ss_synced s) || bool_decide (is_Some (ss_staging s))
     || negb (validStreamLocation (h_Namespace f) (h_Name f) (h_UID f) (mc_config c))
     || (len (h_ResourceVersion f) =? 0) || (256 <? len (h_ResourceVersion f))
     || (negb (h_Health f =? "ready")%string && negb (h_Health f =? "failed")%string)
  then (m, Some ErrStreamFrame)
  else
    let key := loc_key (h_Namespace f) (h_Name f) in
    match mc_objects c !! key with
    | None => (m, None)
    | Some o =>
        let r := mr_obs o in
        if ro_Deleted r || negb (ro_UID r =? h_UID f)%string
           || negb (ro_ResourceVersion r =? h_ResourceVersion f)%string
           || negb (ro_InstanceID r =? "")%string || ro_Terminating r || (ro_Desired r =? 0)
        then (m, None)
        else (set_collector (ss_collector s)
               (with_objects (<[key := mkResource (set_Health (h_Health f) r) (mr_received o)
                   (mr_expires o) (now + observationTTL) (mr_metadataDigest o)]> (mc_objects c)) c) m, None)
    end.
Definition HealthFrame (m : Memory) (r : sref) (now : Time) (f : Health) :=
  apply m r now (health_fn f).

(** A binding located in the collector whose place is missing from the new
    inventory becomes absent. *)
Definition end_absence (c : memoryCollector) (staging : gmap string memoryResource) (now : Time)
    (b : memoryBinding) : memoryBinding :=
  if negb (mb_collector b =? c_ID (mc_config c))%string || (mb_namespace b =? "")%string then b
  else match staging !! loc_key (mb_namespace b) (mb_name b) with
       | Some _ => b
       | None => with_absent now (now + observationTTL) b
       end.

Definition end_fn (r : sref) (syncID : string) (count : Z) : frame_fn := fun m s c now =>
  match ss_staging s with
  | None => (m, Some ErrStreamFrame)
  | Some staging =>
      if negb (ss_syncID s =? syncID)%string || negb (count =? Z.of_nat (size staging))
      then (m, Some ErrStreamFrame)
      else
        let c' := with_inventory (ss_started s) (ss_started s + observationTTL)
                    (with_lastFull (ss_started s) (with_objects staging c)) in
        let s' := mkSession (ss_collector s) (ss_id s) (ss_lastFrame s) true (ss_closed s)
                    "" (ss_started s) None in
        (set_session r s' (set_collector (ss_collector s) c'
             (with_bindings (end_absence c staging now <$> m_bindings m) m)), None)
  end.
Definition End (m : Memory) (r : sref) (now : Time) (syncID : string) (count : Z) :=
  apply m r now (end_fn r syncID count).

Definition upsert_fn (o : ResourceObservation) : frame_fn := fun m s c now =>
  if negb (ss_synced s) || bool_decide (is_Some (ss_staging s)) || ro_Deleted o
     || negb (validStreamResource o (mc_config c))
  then (m, Some ErrStreamFrame)
  else
    let key := obs_key o in
    if negb (bool_decide (is_Some (mc_objects c !! key)))
       && (maxInventory <=? Z.of_nat (size (mc_objects c)))
    then (m, Some ErrLimit)
    else (set_collector (ss_collector s)
           (with_objects (<[key := sample s c o now]> (mc_objects c)) c) m, None).
Definition Upsert (m : Memory) (r : sref) (now : Time) (o : ResourceObservation) :=
  apply m r now (upsert_fn o).

Definition delete_absence (c : memoryCollector) (ns name uid : string) (now : Time)
    (b : memoryBinding) : memoryBinding :=
  if (mb_collector b =? c_ID (mc_config c))%string && (mb_namespace b =? ns)%string
     && (mb_name b =? name)%string && (mb_uid b =? uid)%string
  then with_absent now (now + observationTTL) b else b.

Definition delete_fn (namespace name uid : string) : frame_fn := fun m s c now =>
  if negb (ss_synced s) || bool_decide (is_Some (ss_staging s))
     || negb (validStreamLocation namespace name uid (mc_config c))
  then (m, Some ErrStreamFrame)
  else
    let key := loc_key namespace name in
    match mc_objects c !! key with
    | None => (m, None)
    | Some o =>
        if negb (ro_UID (mr_obs o) =? uid)%string then (m, None)
        else (with_bindings (delete_absence c namespace name uid now <$> m_bindings m)
               (set_collector (ss_collector s) (with_objects (delete key (mc_objects c)) c) m), None)
    end.
Definition Delete (m : Memory) (r : sref) (now : Time) (namespace name uid : string) :=
  apply m r now (delete_fn namespace name uid).

Definition refresh_resource (now : Time) (o : memoryResource) : memoryResource :=
  mkResource (mr_obs o) now (now + observationTTL) (mr_healthExpires o) (mr_metadataDigest o).
Definition refresh_absence (c : memoryCollector) (now : Time) (b : memoryBinding) : memoryBinding :=
  if (mb_collector b =? c_ID (mc_config c))%string && negb (is_zero (mb_absentAt b))
  then with_absent now (now + observationTTL) b else b.

Definition heartbeat_fn : frame_fn := fun m s c now =>
  if negb (ss_synced s) || bool_decide (is_Some (ss_staging s))
     || negb (time_before now (mc_lastFull c + fullSyncInterval))
  then (m, Some ErrStreamFrame)
  else (with_bindings (refresh_absence c now <$> m_bindings m)
         (set_collector (ss_collector s)
           (with_inventory now (now + observationTTL)
             (with_objects (refresh_resource now <$> mc_objects c) c)) m), None).
Definition Heartbeat (m : Memory) (r : sref) (now : Time) := apply m r now heartbeat_fn.

(** ** Frame dispatch (stream_http.go [Receive])

    A decoded line; [FInvalid] is one whose discriminator or strict decoding
    failed. *)
Inductive Frame : Type :=
| FBegin (syncID : string)
| FObjects (syncID : string) (objects : list ResourceObservation)
| FEnd (syncID : string) (totalCount : Z)
| FUpsert (object : ResourceObservation)
| FDelete (namespace name uid : string)
| FHeartbeat
| FHealth (f : Health)
| FInvalid.

Definition Receive (m : Memory) (r : sref) (now : Time) (f : Frame) : Memory * option Fault :=
  match f with
  | FBegin syncID => Begin m r now syncID
  | FObjects syncID objects => Objects m r now syncID objects
  | FEnd syncID n => End m r now syncID n
  | FUpsert o => Upsert m r now o
  | FDelete ns name uid => Delete m r now ns name uid
  | FHeartbeat => Heartbeat m r now
  | FHealth h => HealthFrame m r now h
  | FInvalid => (closeLocked r m, Some ErrInvalidJSON)
  end.
End Frames.

Definition Live (m : Memory) (r : sref) (now : Time) : bool :=
  match m_sessions m !! r with Some s => live m r s now | None => false end.

Definition Deadline (s : StreamSession) : Time :=
  let deadline := ss_lastFrame s + observationTTL in
  match ss_staging s with
  | Some _ => if time_before (ss_started s + observationTTL) deadline
              then ss_started s + observationTTL else deadline
  | None => deadline
  end.

(** ** Views *)
Definition token (m : Memory) (revision : Z) : string := m_boot m +:+ ":" +:+ format_uint revision.

Section Views.
Context {U : UuidLib}.

Definition valid_binding (b : Binding) : bool :=
  validID (b_InstallationID b) && validID (b_OrganizationID b) && appIdentifier (b_AppID b).

(** The validation loop of [viewsLocked]: the bindings to add. *)
Fixpoint collect_bindings (m : Memory) (bs : list Binding) (add : gmap string Binding)
    : option (gmap string Binding) :=
  match bs with
  | [] => Some add
  | b :: rest =>
      let id := b_InstallationID b in
      if negb (valid_binding b) then None
      else if match add !! id with Some old => negb (bool_decide (old = b)) | None => false end
      then None
      else match m_bindings m !! id with
      | Some old => if bool_decide (mb_Binding old = b) then collect_bindings m rest add else None
      | None => collect_bindings m rest (<[id := b]> add)
      end
  end.

Definition wanted (bs : list Binding) : gset string := list_to_set (b_InstallationID <$> bs).

Definition new_binding (b : Binding) : memoryBinding :=
  mkMB b "" "" "" "" zero_time zero_time (mkRuntime "" "" "" None None None) 0 "".

(** Reclaim the history outside the caller's registry when the budget is exceeded. *)
Definition reclaim (m : Memory) (bs : list Binding) (add : gmap string Binding) : Memory :=
  if maxBindings <? Z.of_nat (size (m_bindings m)) + Z.of_nat (size add) then
    let gone := filter (fun kv => kv.1 ∉ wanted bs) (m_bindings m) in
    with_scopes (foldl (fun sc b => bump (mb_Org b) sc) (m_scopeRevision m) (snd <$> map_to_list gone))
      (with_bindings (filter (fun kv => kv.1 ∈ wanted bs) (m_bindings m)) m)
  else m.

Definition view_of (m : Memory) (stored : memoryBinding) : MemoryView :=
  mkView (mb_view stored) (token m (mb_revision stored))
    (if (rt_ReasonCode (mb_view stored) =? "IDENTITY_CONFLICT")%string then None
     else mr_obs <$> binding_object m stored).

Definition register_bindings (m : Memory) (bs : list Binding) (add : gmap string Binding) : Memory :=
  let m1 := reclaim m bs add in
  with_bindings ((new_binding <$> add) ∪ m_bindings m1) m1.

Definition collect_views (m : Memory) (bs : list Binding) : gmap string MemoryView :=
  foldl (fun vs b => match m_bindings m !! b_InstallationID b with
                     | Some stored => <[b_InstallationID b := view_of m stored]> vs
                     | None => vs
                     end) ∅ bs.
Definition collect_revisions (m : Memory) (bs : list Binding) : gmap string string :=
  foldl (fun rs b => <[b_OrganizationID b :=
            token m (default 0 (m_scopeRevision m !! b_OrganizationID b))]> rs) ∅ bs.

Definition viewsLocked (m : Memory) (bs : list Binding) (now : Time)
    : Memory * result Fault (gmap string MemoryView * gmap string string) :=
  match collect_bindings m bs ∅ with
  | None => (m, Err ErrStreamFrame)
  | Some add =>
      if maxBindings <? Z.of_nat (size (wanted bs)) then (m, Err ErrLimit)
      else
        let m' := projectAll now (register_bindings m bs add) in
        (m', Ok (collect_views m' bs, collect_revisions m' bs))
  end.
End Views.

(** ** Maintenance *)

(** [Expire]: close every session that is no longer live, then recompute. *)
Definition expire_collector (now : Time) (m : Memory) (id : string) : Memory :=
  match m_collectors m !! id with
  | Some c =>
      match mc_active c with
      | Some r => if Live m r now then m else closeLocked r m
      | None => m
      end
  | None => m
  end.
Definition Expire (m : Memory) (now : Time) : Memory :=
  projectAll now (foldl (expire_collector now) m (fst <$> map_to_list (m_collectors m))).

Definition reset_objects (appID target : string) (c : memoryCollector) : memoryCollector :=
  with_objects (filter (fun kv => ~ (ro_AppID (mr_obs kv.2) = appID /\
      (target = "" \/ ro_Namespace (mr_obs kv.2) <> target))) (mc_objects c)) c.
Definition reset_binding (appID target : string) (b : memoryBinding) : memoryBinding :=
  if (mb_App b =? appID)%string && ((target =? "")%string || negb (mb_namespace b =? target)%string)
  then with_absent zero_time zero_time (with_location "" "" "" "" b) else b.
Definition reset_legacy (appID target : string) (l : legacyBinding) : legacyBinding :=
  if (lb_AppID l =? appID)%string && negb (target =? "")%string && negb (lb_namespace l =? target)%string
  then mkLegacy (lb_BindingID l) (lb_AppID l) (lb_OrganizationID l) (lb_StationID l)
         (lb_ObservationKey l) (lb_WorkloadUID l) target (lb_name l)
  else l.

Definition ResetAppBindings (m : Memory) (appID target : string) (now : Time) : Memory :=
  if (appID =? "")%string then m
  else projectAll now
    (with_legacy (reset_legacy appID target <$> m_legacy m)
      (with_bindings (reset_binding appID target <$> m_bindings m)
        (with_collectors (reset_objects appID target <$> m_collectors m) m))).
