(* ===== verification/MemoryInv.v ===== *)
(** * Well-formedness of the observation memory

    The invariant of [Memory], the step relation of its public operations, and
    the proof that every reachable memory is well formed. *)
From S2P Require Import Prelude GoStd Uuid Observation Memory.

(** ** Invariant *)

(** An inventory: each entry sits under its own location key, inside the
    collector's namespaces, is not a deletion, and expires one TTL after receipt. *)
Definition entry_wf (cfg : Collector) (k : string) (o : memoryResource) : Prop :=
  k = obs_key (mr_obs o) /\ ro_Namespace (mr_obs o) ∈ c_Namespaces cfg /\
  ro_Deleted (mr_obs o) = false /\ mr_expires o = mr_received o + observationTTL.

Definition inventory_wf (cfg : Collector) (objs : gmap string memoryResource) : Prop :=
  map_Forall (entry_wf cfg) objs /\ Z.of_nat (size objs) <= maxInventory.

Definition collector_wf (id : string) (c : memoryCollector) : Prop :=
  c_ID (mc_config c) = id /\ collector_valid (mc_config c) = true /\
  inventory_wf (mc_config c) (mc_objects c) /\
  (is_zero (mc_inventoryAt c) = false ->
   mc_inventoryExpires c = mc_inventoryAt c + observationTTL).

(** A session is open exactly while its collector points to it; only an open
    session stages objects. *)
Definition session_wf (cs : gmap string memoryCollector) (r : sref) (s : StreamSession) : Prop :=
  exists c, cs !! ss_collector s = Some c /\
    (ss_closed s = false <-> mc_active c = Some r) /\
    (ss_closed s = true -> ss_staging s = None) /\
    (forall st, ss_staging s = Some st -> inventory_wf (mc_config c) st).

Definition binding_wf (k : string) (b : memoryBinding) : Prop :=
  b_InstallationID (mb_Binding b) = k /\
  (is_zero (mb_absentAt b) = false -> mb_absentExpires b = mb_absentAt b + observationTTL) /\
  0 <= mb_revision b < u64_modulus.

(** Two collectors never share a namespace. *)
Definition namespaces_disjoint (cs : gmap string memoryCollector) : Prop :=
  forall i j ci cj ns, cs !! i = Some ci -> cs !! j = Some cj ->
    ns ∈ c_Namespaces (mc_config ci) -> ns ∈ c_Namespaces (mc_config cj) -> i = j.

Record memory_wf (m : Memory) : Prop := {
  wf_collectors : map_Forall collector_wf (m_collectors m);
  wf_active : forall id c r, m_collectors m !! id = Some c -> mc_active c = Some r ->
    exists s, m_sessions m !! r = Some s /\ ss_collector s = id;
  wf_sessions : map_Forall (session_wf (m_collectors m)) (m_sessions m);
  wf_bindings : map_Forall binding_wf (m_bindings m);
  wf_namespaces : namespaces_disjoint (m_collectors m);
}.

(** ** Steps of the public operations *)
Section Steps.
Context {U : UuidLib} {K : K8sLib}.

Inductive mstep : Memory -> Memory -> Prop :=
| step_open m c now id : mstep m (fst (Open m c now id))
| step_frame m r now f : mstep m (fst (Receive m r now f))
| step_close m r : mstep m (closeLocked r m)
| step_views m bs now : mstep m (fst (viewsLocked m bs now))
| step_expire m now : mstep m (Expire m now)
| step_reset m app target now : mstep m (ResetAppBindings m app target now).

(** Reachable from a freshly constructed memory. *)
Definition reachable (m : Memory) : Prop :=
  exists station boot cs m0, NewMemory station boot cs = Ok m0 /\ rtc mstep m0 m.
End Steps.

(** ** Projection only rewrites bindings and scope revisions *)

Lemma projectAll_collectors now m : m_collectors (projectAll now m) = m_collectors m.
Proof. done. Qed.
Lemma projectAll_sessions now m : m_sessions (projectAll now m) = m_sessions m.
Proof. done. Qed.
Lemma projectAll_lookup now m k :
  m_bindings (projectAll now m) !! k = (fun b => fst (project_binding m now b)) <$> m_bindings m !! k.
Proof. apply lookup_fmap. Qed.

Lemma project_static m b now rs b1 v :
  project m b now rs = (b1, v) ->
  mb_Binding b1 = mb_Binding b /\ mb_revision b1 = mb_revision b /\
  mb_view b1 = mb_view b /\ mb_semantic b1 = mb_semantic b /\
  ((mb_absentAt b1 = mb_absentAt b /\ mb_absentExpires b1 = mb_absentExpires b) \/
   mb_absentAt b1 = zero_time).
Proof.
  unfold project. intros H.
  repeat (case_match; simplify_eq/=; auto 10).
Qed.

Lemma project_binding_static m now b :
  mb_Binding (fst (project_binding m now b)) = mb_Binding b.
Proof.
  unfold project_binding. destruct (project _ _ _ _) as [b1 v] eqn:E.
  apply project_static in E as (? & _). by destruct (_ =? _)%string.
Qed.

Lemma project_binding_wf m now k b : binding_wf k b -> binding_wf k (fst (project_binding m now b)).
Proof.
  intros (Hid & Habs & Hrev). unfold project_binding.
  destruct (project _ _ _ _) as [b1 v] eqn:E.
  apply project_static in E as (HB & HR & _ & _ & HA).
  assert (Habs' : is_zero (mb_absentAt b1) = false -> mb_absentExpires b1 = mb_absentAt b1 + observationTTL).
  { destruct HA as [[-> ->] | ->]; [exact Habs | done]. }
  destruct (_ =? _)%string; (split; [| split]); simpl; rewrite ?HB, ?HR; auto using u64_incr_range.
Qed.

(** Changing only bindings and scope revisions keeps the rest of the invariant. *)
Lemma wf_with_bindings m bs : memory_wf m -> map_Forall binding_wf bs -> memory_wf (with_bindings bs m).
Proof. intros [H1 H2 H3 H4 H5] Hb. by split. Qed.
Lemma wf_with_scopes m sc : memory_wf m -> memory_wf (with_scopes sc m).
Proof. intros [H1 H2 H3 H4 H5]. by split. Qed.
Lemma wf_with_legacy m l : memory_wf m -> memory_wf (with_legacy l m).
Proof. intros [H1 H2 H3 H4 H5]. by split. Qed.
#[export] Hint Resolve wf_with_scopes wf_with_legacy : station.

Lemma wf_fmap_bindings m f :
  memory_wf m -> (forall k b, binding_wf k b -> binding_wf k (f b)) ->
  memory_wf (with_bindings (f <$> m_bindings m) m).
Proof.
  intros Hm Hf. apply wf_with_bindings; [done |].
  apply map_Forall_fmap. intros k b Hb. apply Hf. by apply (wf_bindings m Hm).
Qed.

Lemma wf_projectAll now m : memory_wf m -> memory_wf (projectAll now m).
Proof.
  intros Hm. unfold projectAll. apply wf_with_scopes, wf_fmap_bindings; [done |].
  intros. by apply project_binding_wf.
Qed.
#[export] Hint Resolve wf_projectAll : station.

Lemma with_absent_wf k b now :
  binding_wf k b -> binding_wf k (with_absent now (now + observationTTL) b).
Proof. by intros (? & ? & ?). Qed.
#[export] Hint Resolve with_absent_wf : station.

(** ** Writes to one collector or one session *)

Lemma wf_set_collector m id c c' :
  memory_wf m -> m_collectors m !! id = Some c ->
  mc_config c' = mc_config c -> mc_active c' = mc_active c -> collector_wf id c' ->
  memory_wf (set_collector id c' m).
Proof.
  intros [H1 H2 H3 H4 H5] Hc Hcfg Hact Hwf. split; simpl; try done.
  - by apply map_Forall_insert_2.
  - intros i ci r Hi Ha. rewrite lookup_insert in Hi. case_decide as E; simplify_eq; [| eauto].
    eapply H2; [exact Hc | congruence].
  - intros r s Hs. destruct (H3 r s Hs) as (d & Hd & Hrest).
    destruct (decide (id = ss_collector s)) as [-> | Hne].
    + exists c'. split; [by simplify_map_eq |]. simplify_eq. by rewrite Hcfg, Hact.
    + exists d. by simplify_map_eq.
  - intros i j ci cj ns Hi Hj. rewrite lookup_insert in Hi, Hj.
    repeat case_decide; simplify_eq; rewrite ?Hcfg; eauto.
Qed.

Lemma wf_set_session m r s s' :
  memory_wf m -> m_sessions m !! r = Some s ->
  ss_collector s' = ss_collector s -> ss_closed s' = ss_closed s ->
  (ss_closed s' = true -> ss_staging s' = None) ->
  (forall c st, m_collectors m !! ss_collector s = Some c -> ss_staging s' = Some st ->
     inventory_wf (mc_config c) st) ->
  memory_wf (set_session r s' m).
Proof.
  intros [H1 H2 H3 H4 H5] Hs Hcol Hcl Hnone Hst. split; simpl; try done.
  - intros i ci r' Hi Ha. destruct (H2 i ci r' Hi Ha) as (t & Ht & <-).
    destruct (decide (r = r')) as [<- | Hne]; simplify_map_eq; eauto.
  - apply map_Forall_insert_2; [| done].
    destruct (H3 r s Hs) as (c & Hc & Hact & _ & _). exists c.
    rewrite Hcol, Hcl. split; [done |]. split; [done |]. split; [by rewrite <- Hcl | eauto].
Qed.

Lemma wf_refresh_session m r now : memory_wf m -> memory_wf (refresh_session r now m).
Proof.
  intros Hm. unfold refresh_session. destruct (m_sessions m !! r) as [s |] eqn:Hs.
  - assert (alter (with_lastFrame now) r (m_sessions m) = <[r := with_lastFrame now s]> (m_sessions m)) as ->.
    { apply map_eq. intros i. destruct (decide (r = i)) as [<- |]; by simplify_map_eq. }
    destruct (wf_sessions m Hm r s Hs) as (c & Hc & _ & Hnone & Hst).
    apply (wf_set_session m r s); try done. intros c' st Hc'. simplify_eq. apply Hst.
  - assert (alter (with_lastFrame now) r (m_sessions m) = m_sessions m) as ->.
    { apply map_eq. intros i. rewrite lookup_alter. case_decide; simplify_map_eq; by rewrite ?Hs. }
    by destruct m.
Qed.
#[export] Hint Resolve wf_refresh_session : station.

(** ** Closing *)

Lemma closeLocked_collectors r m s :
  m_sessions m !! r = Some s ->
  m_collectors (closeLocked r m) = alter (release r) (ss_collector s) (m_collectors m).
Proof. unfold closeLocked. by intros ->. Qed.

Lemma closeLocked_sessions r m s :
  m_sessions m !! r = Some s ->
  m_sessions (closeLocked r m) = <[r := closed_session s]> (m_sessions m).
Proof. unfold closeLocked. by intros ->. Qed.

Lemma release_config r c : mc_config (release r c) = mc_config c.
Proof. unfold release. by case_bool_decide. Qed.
Lemma release_objects r c : mc_objects (release r c) = mc_objects c.
Proof. unfold release. by case_bool_decide. Qed.

Lemma release_active r r' c : mc_active (release r c) = Some r' <-> mc_active c = Some r' /\ r <> r'.
Proof.
  unfold release. case_bool_decide as Hd; simpl; rewrite ?Hd; split; try naive_solver.
Qed.

Lemma wf_release r id c : collector_wf id c -> collector_wf id (release r c).
Proof. intros H. unfold release. by case_bool_decide. Qed.

Lemma lookup_alter_Some {V} (f : V -> V) i j (cs : gmap string V) c' :
  alter f j cs !! i = Some c' ->
  exists c, cs !! i = Some c /\ ((i = j /\ c' = f c) \/ (i <> j /\ c' = c)).
Proof.
  rewrite lookup_alter. case_decide as E.
  - intros (c & Hc & ->)%fmap_Some. subst. eauto.
  - intros Hc. eauto 10.
Qed.

Lemma wf_closeLocked r m : memory_wf m -> memory_wf (closeLocked r m).
Proof.
  intros Hm. unfold closeLocked. destruct (m_sessions m !! r) as [s |] eqn:Hs; [| done].
  destruct Hm as [H1 H2 H3 H4 H5]. split; simpl; try done.
  - intros i c' (c & Hc & [[-> ->] | [_ ->]])%lookup_alter_Some; [apply wf_release |]; by apply H1.
  - intros i c' r' (c & Hc & [[-> ->] | [Hne ->]])%lookup_alter_Some Hact.
    + apply release_active in Hact as [Hact Hr]. rewrite lookup_insert_ne by done. eauto.
    + destruct (H2 i c r' Hc Hact) as (t & Ht & Hcol). destruct (decide (r = r')) as [<- | Hr].
      * congruence.
      * rewrite lookup_insert_ne by done. eauto.
  - intros r' t Ht. rewrite lookup_insert in Ht. case_decide as Er; simplify_eq/=.
    + destruct (H3 r' s Hs) as (c & Hc & _). exists (release r' c). simpl.
      rewrite lookup_alter_eq, Hc. repeat split; try done.
      intros [_ ?]%release_active. done.
    + destruct (H3 r' t Ht) as (c & Hc & Hact & Hrest).
      destruct (decide (ss_collector s = ss_collector t)) as [Heq | Hne].
      * exists (release r c). rewrite Heq, lookup_alter_eq, Hc, release_config. split; [done |].
        split; [| done]. rewrite release_active. naive_solver.
      * exists c. by rewrite lookup_alter_ne.
  - intros i j ci cj ns (c & Hc & Hci)%lookup_alter_Some (d & Hd & Hdj)%lookup_alter_Some.
    assert (mc_config ci = mc_config c) as -> by (destruct Hci as [[_ ->] | [_ ->]]; by rewrite ?release_config).
    assert (mc_config cj = mc_config d) as -> by (destruct Hdj as [[_ ->] | [_ ->]]; by rewrite ?release_config).
    eauto.
Qed.
#[export] Hint Resolve wf_closeLocked : station.

(** ** Opening *)

(** Starting a session on a collector with no active session. *)
Definition start_session (collector : string) (now : Time) (id : string) (m : Memory) : Memory * sref :=
  let r := fresh (dom (m_sessions m)) in
  (with_collectors (alter (with_active (Some r)) collector (m_collectors m))
     (set_session r (mkSession collector id now false false "" zero_time None) m), r).

Lemma wf_start_session m collector now id c :
  memory_wf m -> m_collectors m !! collector = Some c -> mc_active c = None ->
  memory_wf (fst (start_session collector now id m)).
Proof.
  intros [H1 H2 H3 H4 H5] Hc Hnone. unfold start_session.
  set (r := fresh (dom (m_sessions m))).
  assert (Hr : m_sessions m !! r = None) by apply not_elem_of_dom, is_fresh.
  clearbody r. split; simpl; try done.
  - intros i c' (d & Hd & [[-> ->] | [_ ->]])%lookup_alter_Some; by apply H1 in Hd.
  - intros i c' r' (d & Hd & [[-> ->] | [Hne ->]])%lookup_alter_Some Hact; simpl in *.
    + injection Hact as <-. rewrite lookup_insert_eq. eauto.
    + destruct (H2 i d r' Hd Hact) as (t & Ht & Hcol).
      rewrite lookup_insert_ne by congruence. eauto.
  - intros r' t Ht. rewrite lookup_insert in Ht. case_decide as Er; simplify_eq/=.
    + eexists. rewrite lookup_alter_eq, Hc. by split.
    + destruct (H3 r' t Ht) as (d & Hd & Hact & Hrest).
      destruct (decide (collector = ss_collector t)) as [Heq | Hneq].
      * exists (with_active (Some r) d). rewrite Heq, lookup_alter_eq, Hd. split; [done |].
        split; [| done]. simpl. simplify_eq. rewrite Hact, Hnone. naive_solver.
      * exists d. by rewrite lookup_alter_ne.
  - intros i j ci cj ns (d & Hd & Hci)%lookup_alter_Some (e & He & Hej)%lookup_alter_Some.
    assert (mc_config ci = mc_config d) as -> by (by destruct Hci as [[_ ->] | [_ ->]]).
    assert (mc_config cj = mc_config e) as -> by (by destruct Hej as [[_ ->] | [_ ->]]).
    eauto.
Qed.

(** What [Open] does on each branch. *)
Lemma Open_cases m collector now id :
  match m_collectors m !! collector with
  | None => Open m collector now id = (m, Err ErrStreamFrame)
  | Some c =>
      match mc_active c ≫= fun r => s ← m_sessions m !! r; Some (r, s) with
      | Some (r, s) =>
          if live m r s now then Open m collector now id = (m, Err ErrCollectorBusy)
          else Open m collector now id =
            (fst (start_session collector now id (closeLocked r m)),
             Ok (snd (start_session collector now id (closeLocked r m))))
      | None => Open m collector now id =
            (fst (start_session collector now id m), Ok (snd (start_session collector now id m)))
      end
  end.
Proof.
  unfold Open. destruct (m_collectors m !! collector) as [c |] eqn:Hc; [| done].
  destruct (mc_active c) as [r |]; [| done]. simpl.
  destruct (m_sessions m !! r) as [s |]; [| done]. simpl.
  by destruct (live m r s now).
Qed.

Lemma wf_Open m collector now id : memory_wf m -> memory_wf (fst (Open m collector now id)).
Proof.
  intros Hm. pose proof (Open_cases m collector now id) as H.
  destruct (m_collectors m !! collector) as [c |] eqn:Hc; [| by rewrite H].
  destruct (mc_active c) as [r |] eqn:Ha; simpl in H.
  - destruct (wf_active m Hm collector c r Hc Ha) as (s & Hs & Hcol). rewrite Hs in H. simpl in H.
    destruct (live m r s now); rewrite H; simpl; [done |].
    apply (wf_start_session _ _ _ _ (release r c)); [by apply wf_closeLocked | |].
    + rewrite (closeLocked_collectors r m s Hs), Hcol, lookup_alter_eq. by rewrite Hc.
    + unfold release. rewrite Ha. by rewrite bool_decide_true.
  - rewrite H. simpl. by apply (wf_start_session _ _ _ _ c).
Qed.

(** ** Samples *)

Lemma set_Health_key h o : obs_key (set_Health h o) = obs_key o.
Proof. by destruct o. Qed.
Lemma set_Health_namespace h o : ro_Namespace (set_Health h o) = ro_Namespace o.
Proof. by destruct o. Qed.
Lemma set_Health_deleted h o : ro_Deleted (set_Health h o) = ro_Deleted o.
Proof. by destruct o. Qed.

(** A sample is the reported observation, up to a kept health result. *)
Lemma sample_obs s c o now :
  exists h, mr_obs (sample s c o now) = set_Health h o /\
    mr_received (sample s c o now) = now /\ mr_expires (sample s c o now) = now + observationTTL.
Proof.
  unfold sample. assert (Ho : o = set_Health (ro_Health o) o) by (by destruct o).
  destruct (_ && _); [| by exists (ro_Health o)].
  destruct (mc_objects c !! obs_key o) as [old |]; [| by exists (ro_Health o)].
  case_bool_decide; [by eexists | by exists (ro_Health o)].
Qed.

Section FrameWf.
Context {U : UuidLib} {K : K8sLib}.

Lemma sample_entry cfg s c o now :
  validStreamResource o cfg = true -> ro_Deleted o = false ->
  entry_wf cfg (obs_key o) (sample s c o now).
Proof.
  intros Hv Hd. destruct (sample_obs s c o now) as (h & Ho & Hr & He). unfold entry_wf.
  rewrite Ho, Hr, He, set_Health_key, set_Health_namespace, set_Health_deleted.
  repeat split; try done.
  by eapply validStreamLocation_namespace, validStreamResource_location.
Qed.

Lemma size_insert_le {V} k (v : V) (mp : gmap string V) :
  (size (<[k := v]> mp) <= S (size mp))%nat.
Proof.
  destruct (mp !! k) as [x |] eqn:E.
  - rewrite map_size_insert_Some by eauto. lia.
  - rewrite map_size_insert_None by done. lia.
Qed.

Lemma stage_objects_wf cfg s c now objects staging :
  (forall o, o ∈ objects -> validStreamResource o cfg = true /\ ro_Deleted o = false) ->
  map_Forall (entry_wf cfg) staging ->
  map_Forall (entry_wf cfg) (stage_objects s c now objects staging) /\
  (size (stage_objects s c now objects staging) <= size staging + length objects)%nat.
Proof.
  revert staging. induction objects as [| o objects IH]; intros staging Hall Hst; simpl.
  - split; [done | lia].
  - destruct (IH (<[obs_key o := sample s c o now]> staging)) as [H1 H2].
    + intros x Hx. apply Hall. by right.
    + apply map_Forall_insert_2; [| done]. apply sample_entry; apply Hall; by left.
    + split; [done |]. pose proof (size_insert_le (obs_key o) (sample s c o now) staging).
      unfold stage_objects in *. simpl. lia.
Qed.

Lemma valid_objects_spec cfg staging objects :
  valid_objects cfg staging objects = true ->
  (forall o, o ∈ objects -> validStreamResource o cfg = true /\ ro_Deleted o = false /\
     staging !! obs_key o = None) /\ NoDup (obs_key <$> objects).
Proof.
  unfold valid_objects. intros (Hok & Hnd & _)%scan_distinct_true. split; [| done].
  intros o Ho. specialize (Hok o Ho). bool_norm. repeat split; try done.
  by apply eq_None_not_Some.
Qed.

(** A frame function is sound when it keeps the invariant of a live session's
    memory, refused or not. *)
Definition fn_sound (r : sref) (fn : frame_fn) : Prop := forall m s c now,
  memory_wf m -> m_sessions m !! r = Some s -> m_collectors m !! ss_collector s = Some c ->
  ss_closed s = false -> memory_wf (fst (fn m s c now)).

Lemma live_open m r s now : live m r s now = true -> ss_closed s = false.
Proof. unfold live. intros. by bool_norm. Qed.

Lemma wf_apply m r now fn : fn_sound r fn -> memory_wf m -> memory_wf (fst (apply m r now fn)).
Proof.
  intros Hfn Hm. unfold apply. destruct (m_sessions m !! r) as [s |] eqn:Hs; [| done].
  destruct (live m r s now) eqn:Hl; simpl; auto with station.
  destruct (m_collectors m !! ss_collector s) as [c |] eqn:Hc; simpl; auto with station.
  pose proof (Hfn m s c now Hm Hs Hc (live_open _ _ _ _ Hl)) as Hm'.
  destruct (fn m s c now) as [m' [e |]]; simpl in *; auto with station.
Qed.

(** The branches of a frame function that write. *)
Ltac frame_branches :=
  repeat match goal with
  | |- context [if ?b then _ else _] => destruct b eqn:?
  | |- context [match ?x with Some _ => _ | None => _ end] => destruct x eqn:?
  end; simpl; try done.

Lemma begin_sound r syncID : fn_sound r (begin_fn r syncID).
Proof.
  intros m s c now Hm Hs Hc Hcl. unfold begin_fn. frame_branches.
  apply (wf_set_session m r s); try done; simpl; [congruence |].
  intros c' st _ [= <-]. split; [apply map_Forall_empty |]. rewrite map_size_empty. done.
Qed.

Lemma objects_sound r syncID objects : fn_sound r (objects_fn r syncID objects).
Proof.
  intros m s c now Hm Hs Hc Hcl. unfold objects_fn.
  destruct (ss_staging s) as [st |] eqn:Hst; [| done].
  frame_branches. bool_norm.
  apply (wf_set_session m r s); try done; simpl; [congruence |].
  intros c' st' Hc' [= <-]. simplify_eq.
  destruct (wf_sessions m Hm r s Hs) as (d & Hd & _ & _ & Hinv). simplify_eq.
  destruct (Hinv st Hst) as [Hf Hsz].
  match goal with H : valid_objects _ _ _ = true |- _ => apply valid_objects_spec in H as [Hv _] end.
  destruct (stage_objects_wf (mc_config c) s c now objects st) as [Hent Hlen]; [| done |].
  - intros o Ho. specialize (Hv o Ho). naive_solver.
  - split; [done | lia].
Qed.

Lemma wf_objects_update m id c objs :
  memory_wf m -> m_collectors m !! id = Some c -> inventory_wf (mc_config c) objs ->
  memory_wf (set_collector id (with_objects objs c) m).
Proof.
  intros Hm Hc Hinv. apply (wf_set_collector m id c); try done.
  destruct (wf_collectors m Hm id c Hc) as (? & ? & _ & ?). by split_and!.
Qed.

Lemma collector_inventory m id c :
  memory_wf m -> m_collectors m !! id = Some c -> inventory_wf (mc_config c) (mc_objects c).
Proof. intros Hm Hc. by destruct (wf_collectors m Hm id c Hc) as (_ & _ & ? & _). Qed.

Lemma health_sound r f : fn_sound r (health_fn f).
Proof.
  intros m s c now Hm Hs Hc Hcl. unfold health_fn. frame_branches.
  apply wf_objects_update; [done | done |].
  destruct (collector_inventory m _ c Hm Hc) as [Hf Hsz].
  match goal with H : mc_objects c !! _ = Some ?o |- _ => pose proof (Hf _ _ H) as Ho; rename H into Hlk end.
  split.
  - apply map_Forall_insert_2; [| done]. unfold entry_wf in *. simpl.
    by rewrite set_Health_key, set_Health_namespace, set_Health_deleted.
  - rewrite map_size_insert_Some; eauto.
Qed.

Lemma upsert_sound r o : fn_sound r (upsert_fn o).
Proof.
  intros m s c now Hm Hs Hc Hcl. unfold upsert_fn. frame_branches. bool_norm.
  apply wf_objects_update; [done | done |].
  destruct (collector_inventory m _ c Hm Hc) as [Hf Hsz]. split.
  - apply map_Forall_insert_2; [by apply sample_entry | done].
  - match goal with H : negb _ && _ = false |- _ => apply andb_false_iff in H as [H | H] end; bool_norm.
    + rewrite map_size_insert_Some by done. done.
    + pose proof (size_insert_le (obs_key o) (sample s c o now) (mc_objects c)). lia.
Qed.

Lemma end_sound r syncID count : fn_sound r (end_fn r syncID count).
Proof.
  intros m s c now Hm Hs Hc Hcl. unfold end_fn.
  destruct (ss_staging s) as [st |] eqn:Hst; [| done]. frame_branches.
  set (m1 := with_bindings _ m).
  assert (H1 : memory_wf m1).
  { apply wf_fmap_bindings; [done |]. intros k b Hb. unfold end_absence.
    repeat case_match; auto with station. }
  destruct (wf_sessions m Hm r s Hs) as (d & Hd & _ & _ & Hinv). simplify_eq.
  apply (wf_set_session _ r s); try done.
  apply (wf_set_collector m1 _ c); try done.
  destruct (wf_collectors m Hm _ c Hc) as (? & ? & _ & ?). split_and!; try done; simpl; auto.
Qed.

Lemma delete_sound r ns name uid : fn_sound r (delete_fn ns name uid).
Proof.
  intros m s c now Hm Hs Hc Hcl. unfold delete_fn. frame_branches.
  apply (wf_fmap_bindings (set_collector _ _ m)).
  - apply wf_objects_update; [done | done |].
    destruct (collector_inventory m _ c Hm Hc) as [Hf Hsz]. split.
    + by apply map_Forall_delete.
    + rewrite map_size_delete_Some; [lia | eauto].
  - intros k b Hb. unfold delete_absence. case_match; auto with station.
Qed.

Lemma heartbeat_sound r : fn_sound r heartbeat_fn.
Proof.
  intros m s c now Hm Hs Hc Hcl. unfold heartbeat_fn. frame_branches.
  apply (wf_fmap_bindings (set_collector _ _ m)).
  - apply (wf_set_collector m _ c); try done.
    destruct (wf_collectors m Hm _ c Hc) as (? & ? & [Hf Hsz] & ?). split_and!; try done.
    split; simpl; [| by rewrite map_size_fmap].
    apply map_Forall_fmap. intros k o Ho. specialize (Hf k o Ho). unfold entry_wf in *. naive_solver.
  - intros k b Hb. unfold refresh_absence. case_match; auto with station.
Qed.

Lemma wf_Receive m r now f : memory_wf m -> memory_wf (fst (Receive m r now f)).
Proof.
  intros Hm. destruct f; simpl; unfold Begin, Objects, End, Upsert, Delete, Heartbeat, HealthFrame;
    auto using wf_apply, begin_sound, objects_sound, end_sound, upsert_sound, delete_sound,
      heartbeat_sound, health_sound with station.
Qed.
End FrameWf.

(** ** Construction, views and maintenance *)

(** Every collector configured so far is idle, empty and keyed by its ID, its
    namespaces are recorded, and no two of them overlap. *)
Definition fresh_collectors (namespaces : gset string) (acc : gmap string memoryCollector) : Prop :=
  map_Forall (fun id c => c_ID (mc_config c) = id /\ collector_valid (mc_config c) = true /\
    c = mkMC (mc_config c) None ∅ zero_time zero_time zero_time /\
    (forall ns, ns ∈ c_Namespaces (mc_config c) -> ns ∈ namespaces)) acc /\
  namespaces_disjoint acc.

Lemma add_collectors_fresh cs namespaces acc acc' :
  fresh_collectors namespaces acc -> add_collectors cs namespaces acc = Some acc' ->
  exists namespaces', fresh_collectors namespaces' acc'.
Proof.
  revert namespaces acc. induction cs as [| c cs IH]; intros nss acc Hf H; simpl in H.
  - simplify_eq. eauto.
  - destruct (negb (collector_valid c) || _) eqn:E1; [done |].
    destruct (existsb _ _) eqn:E2; [done |]. bool_norm. apply IH in H; [done |]. clear IH H acc'.
    destruct Hf as [Hf Hd].
    assert (Hfresh : forall ns, ns ∈ c_Namespaces c -> ns ∉ nss).
    { intros ns Hns Hin. apply not_true_iff_false in E2. apply E2, existsb_exists.
      exists ns. split; [by apply list_elem_of_In | by apply bool_decide_eq_true]. }
    split.
    + apply map_Forall_insert_2; simpl.
      * repeat split; [done |]. intros ns Hns. set_solver.
      * intros id d Hd'. destruct (Hf id d Hd') as (? & ? & ? & Hin). repeat split; try done. set_solver.
    + intros i j ci cj ns. rewrite !lookup_insert.
      repeat case_decide; intros; simplify_eq; try done; simpl in *.
      * destruct (Hf _ _ ltac:(eassumption)) as (_ & _ & _ & Hin). exfalso. by eapply Hfresh, Hin.
      * destruct (Hf _ _ ltac:(eassumption)) as (_ & _ & _ & Hin). exfalso. by eapply Hfresh, Hin.
      * eauto.
Qed.

Section Reachable.
Context {U : UuidLib} {K : K8sLib}.

Lemma wf_NewMemory station boot cs m : NewMemory station boot cs = Ok m -> memory_wf m.
Proof.
  unfold NewMemory. intros H. inv_ok H.
  match goal with H : add_collectors _ _ _ = Some ?acc |- _ => rename acc into a; rename H into Ha end.
  apply add_collectors_fresh in Ha as (nss & Hf & Hd).
  2: { split; [apply map_Forall_empty |]. intros i j ci cj ns Hi. by rewrite lookup_empty in Hi. }
  split; simpl; try apply map_Forall_empty; try done.
  - intros id c Hlk. destruct (Hf id c Hlk) as (? & ? & Hidle & _). rewrite Hidle. split_and!; try done.
  - intros id c r Hlk Ha. destruct (Hf id c Hlk) as (_ & _ & Hidle & _). rewrite Hidle in Ha. done.
Qed.

Lemma collect_bindings_key m bs add add' :
  map_Forall (fun k b => b_InstallationID b = k) add -> collect_bindings m bs add = Some add' ->
  map_Forall (fun k b => b_InstallationID b = k) add'.
Proof.
  revert add. induction bs as [| b bs IH]; intros add Hadd H; simpl in H; [by simplify_eq |].
  destruct (negb _); [done |]. destruct (match add !! b_InstallationID b with Some old => negb (bool_decide (old = b)) | None => false end); [done |].
  destruct (m_bindings m !! _) as [old |].
  - case_bool_decide; [by eauto | done].
  - apply IH in H; [done |]. by apply map_Forall_insert_2.
Qed.

Lemma wf_reclaim m bs add : memory_wf m -> memory_wf (reclaim m bs add).
Proof.
  intros Hm. unfold reclaim. case_match; [| done].
  apply wf_with_scopes, wf_with_bindings; [done |].
  apply map_Forall_filtered, (wf_bindings m Hm).
Qed.

Lemma wf_register m bs add add0 :
  memory_wf m -> collect_bindings m add0 ∅ = Some add -> memory_wf (register_bindings m bs add).
Proof.
  intros Hm Hadd. unfold register_bindings. apply wf_with_bindings; [by apply wf_reclaim |].
  apply map_Forall_union_2; [| apply (wf_bindings _ (wf_reclaim m bs add Hm))].
  apply map_Forall_fmap. intros k b Hb. split; simpl; [| done].
  eapply (collect_bindings_key m add0 ∅ add) in Hadd; [| apply map_Forall_empty]. by apply Hadd.
Qed.

Lemma wf_viewsLocked m bs now : memory_wf m -> memory_wf (fst (viewsLocked m bs now)).
Proof.
  intros Hm. unfold viewsLocked. destruct (collect_bindings m bs ∅) as [add |] eqn:E; [| done].
  case_match; [done |]. simpl. apply wf_projectAll. by eapply wf_register.
Qed.

Lemma wf_expire_collector now m id : memory_wf m -> memory_wf (expire_collector now m id).
Proof. intros. unfold expire_collector. repeat case_match; auto with station. Qed.

Lemma wf_Expire m now : memory_wf m -> memory_wf (Expire m now).
Proof.
  intros Hm. unfold Expire. apply wf_projectAll.
  generalize (fst <$> map_to_list (m_collectors m)). intros ids. revert m Hm.
  induction ids as [| id ids IH]; intros m Hm; simpl; [done |].
  apply IH. by apply wf_expire_collector.
Qed.

Lemma wf_reset_objects m app target :
  memory_wf m -> memory_wf (with_collectors (reset_objects app target <$> m_collectors m) m).
Proof.
  intros [H1 H2 H3 H4 H5]. split; simpl; try done.
  - apply map_Forall_fmap. intros id c Hc. destruct (H1 id c Hc) as (? & ? & [Hf Hsz] & ?).
    split_and!; try done. split; simpl.
    + by apply map_Forall_filtered.
    + pose proof (map_size_filter (fun kv => ~ (ro_AppID (mr_obs kv.2) = app /\
        (target = "" \/ ro_Namespace (mr_obs kv.2) <> target))) (mc_objects c)). lia.
  - intros id c r. rewrite lookup_fmap. intros (d & Hd & ->)%fmap_Some. apply (H2 id d r Hd).
  - intros r s Hs. destruct (H3 r s Hs) as (c & Hc & Hrest).
    exists (reset_objects app target c). by rewrite lookup_fmap, Hc.
  - intros i j ci cj ns. rewrite !lookup_fmap.
    intros (c & Hc & ->)%fmap_Some (d & Hd & ->)%fmap_Some. apply (H5 i j c d ns Hc Hd).
Qed.

Lemma wf_ResetAppBindings m app target now :
  memory_wf m -> memory_wf (ResetAppBindings m app target now).
Proof.
  intros Hm. unfold ResetAppBindings. case_match; [done |].
  apply wf_projectAll, wf_with_legacy.
  apply (wf_fmap_bindings (with_collectors _ m)); [by apply wf_reset_objects |].
  intros k b (? & ? & ?). unfold reset_binding.
  case_match; (split; [done | split; simpl; [try done; auto | lia]]).
Qed.

Lemma wf_step m m' : mstep m m' -> memory_wf m -> memory_wf m'.
Proof.
  destruct 1; eauto using wf_Open, wf_Receive, wf_closeLocked, wf_viewsLocked, wf_Expire,
    wf_ResetAppBindings.
Qed.

Lemma wf_steps m m' : rtc mstep m m' -> memory_wf m -> memory_wf m'.
Proof. induction 1; eauto using wf_step. Qed.

Lemma wf_reachable m : reachable m -> memory_wf m.
Proof. intros (station & boot & cs & m0 & H0 & Hs). eapply wf_steps, wf_NewMemory; eauto. Qed.
End Reachable.
