(* ===== verification/MemorySafety.v ===== *)
(** * Safety of the observation memory

    What the collector protocol guarantees to the readers of the memory: no
    partial inventory, no frame from a dead session, no stale evidence, no view
    across organizations, bounded state. *)
From S2P Require Import Prelude GoStd Sha256 GoJson Uuid Observation Memory MemoryInv.

(** ** Observable parts *)

(** The published inventory of a collector. *)
Definition inventory (m : Memory) (id : string) : option (gmap string memoryResource) :=
  mc_objects <$> m_collectors m !! id.

(** All of a collector but the session that feeds it: its inventory and the instants
    of its observation. *)
Definition evidence (m : Memory) (id : string) : option memoryCollector := with_active None <$> m_collectors m !! id.
Lemma evidence_inventory m id : inventory m id = mc_objects <$> evidence m id.
Proof. unfold inventory, evidence. by destruct (m_collectors m !! id). Qed.

(** Nothing a reader can see differs: evidence, bindings and revisions. *)
Definition same_evidence (m m' : Memory) : Prop :=
  (forall id, evidence m' id = evidence m id) /\
  m_bindings m' = m_bindings m /\ m_scopeRevision m' = m_scopeRevision m /\ m_legacy m' = m_legacy m.

Definition session_closed (m : Memory) (r : sref) : Prop :=
  exists s, m_sessions m !! r = Some s /\ ss_closed s = true /\ ss_staging s = None.

(** ** Closing and failing frames *)

Lemma closeLocked_evidence r m : same_evidence m (closeLocked r m).
Proof.
  unfold same_evidence, closeLocked. destruct (m_sessions m !! r) as [s |] eqn:Hs; [| by split_and!].
  split_and!; [| done..]. intros id. unfold evidence. simpl.
  rewrite lookup_alter. case_decide as E; [| done]. rewrite E.
  destruct (m_collectors m !! id); simpl; [| reflexivity]. unfold release. by case_bool_decide.
Qed.

Lemma closeLocked_closed r m s : m_sessions m !! r = Some s -> session_closed (closeLocked r m) r.
Proof.
  intros Hs. exists (closed_session s). rewrite (closeLocked_sessions r m s Hs).
  by rewrite lookup_insert_eq.
Qed.

(** A frame function that validates before it writes: what it refuses, it leaves. *)
Definition refuses_cleanly (fn : frame_fn) : Prop := forall m s c now m' e, fn m s c now = (m', Some e) -> m' = m.

Lemma apply_error m r now fn m' e : refuses_cleanly fn ->
  apply m r now fn = (m', Some e) -> m' = closeLocked r m.
Proof.
  intros Hfn. unfold apply. destruct (m_sessions m !! r) as [s |] eqn:Hs.
  - destruct (negb (live m r s now)); [by intros [= <- _] |].
    destruct (m_collectors m !! ss_collector s) as [c |]; [| by intros [= <- _]].
    destruct (fn m s c now) as [m1 [e1 |]] eqn:E; [| done]. apply Hfn in E as ->. by intros [= <- _].
  - intros [= <- _]. unfold closeLocked. by rewrite Hs.
Qed.

Lemma apply_accepted m r now fn m' :
  apply m r now fn = (m', None) ->
  exists s c m1, m_sessions m !! r = Some s /\ m_collectors m !! ss_collector s = Some c /\
    live m r s now = true /\ fn m s c now = (m1, None) /\ m' = projectAll now (refresh_session r now m1).
Proof.
  unfold apply. destruct (m_sessions m !! r) as [s |] eqn:Hs; [| done].
  destruct (live m r s now) eqn:Hl; [| done]. simpl.
  destruct (m_collectors m !! ss_collector s) as [c |] eqn:Hc; [| done].
  destruct (fn m s c now) as [m1 [e |]] eqn:Hf; [done |]. intros [= <-]. eauto 10.
Qed.

Lemma live_not_closed m r s now : ss_closed s = true -> live m r s now = false.
Proof. unfold live. by intros ->. Qed.

Section FrameSafety.
Context {U : UuidLib} {K : K8sLib}.

Lemma FInvalid_or (f : Frame) : f = FInvalid \/ f <> FInvalid.
Proof. destruct f; auto; by right. Qed.

Definition frame_fn_of (r : sref) (f : Frame) : frame_fn :=
  match f with
  | FBegin x => begin_fn r x | FObjects x l => objects_fn r x l | FEnd x n => end_fn r x n
  | FUpsert o => upsert_fn o | FDelete a b d => delete_fn a b d
  | FHeartbeat => heartbeat_fn | FHealth h => health_fn h
  | FInvalid => fun m _ _ _ => (m, Some ErrInvalidJSON)
  end.

Lemma Receive_frame_fn m r now f :
  f <> FInvalid -> Receive m r now f = apply m r now (frame_fn_of r f).
Proof. by destruct f. Qed.

(** Each of the seven frames checks everything it can refuse before its first write. *)
Lemma frames_refuse_cleanly r f : refuses_cleanly (frame_fn_of r f).
Proof.
  intros m s c now m' e. destruct f; simpl;
    unfold begin_fn, objects_fn, end_fn, upsert_fn, delete_fn, heartbeat_fn, health_fn; repeat case_match; congruence.
Qed.

Lemma Receive_error m r now f m' e :
  Receive m r now f = (m', Some e) -> m' = closeLocked r m.
Proof.
  destruct (FInvalid_or f) as [-> | Hne]; [by intros [= <- _] |].
  rewrite Receive_frame_fn by done. apply apply_error, frames_refuse_cleanly.
Qed.

(** C37: a frame that is refused (invalid, out of order, over a limit, or sent on
    a dead session) changes nothing a reader can observe, although the frames write
    in place: the evidence of every collector, the bindings and the revisions are as
    they were. Its session is closed and what it had staged is discarded; no other
    session is touched. *)
Theorem refused_frame_publishes_nothing m r now f m' e s :
  m_sessions m !! r = Some s ->
  Receive m r now f = (m', Some e) ->
  same_evidence m m' /\ session_closed m' r /\ forall r', r' <> r -> m_sessions m' !! r' = m_sessions m !! r'.
Proof.
  intros Hs H. apply Receive_error in H as ->.
  split; [apply closeLocked_evidence |]. split; [by eapply closeLocked_closed |].
  intros r' Hne. rewrite (closeLocked_sessions r m s Hs). by apply lookup_insert_ne.
Qed.

(** ** Sessions that are closed stay closed *)

Definition closed_at (m : Memory) (r : sref) : Prop :=
  exists s, m_sessions m !! r = Some s /\ ss_closed s = true.

Lemma closeLocked_keeps_closed m r r' : closed_at m r -> closed_at (closeLocked r' m) r.
Proof.
  intros (s & Hs & Hc). unfold closeLocked, closed_at. destruct (m_sessions m !! r') as [t |] eqn:Ht; [| eauto].
  simpl. destruct (decide (r' = r)) as [-> |]; simplify_map_eq; eauto.
Qed.

Lemma start_keeps_closed m r c now id : closed_at m r -> closed_at (fst (start_session c now id m)) r.
Proof.
  intros (s & Hs & Hc). exists s. split; [| done]. simpl. rewrite lookup_insert_ne; [done |].
  intros <-. apply elem_of_dom_2 in Hs. by apply is_fresh in Hs.
Qed.

Lemma refresh_lookup m r r' now :
  m_sessions (refresh_session r now m) !! r' =
  (if decide (r = r') then with_lastFrame now <$> m_sessions m !! r' else m_sessions m !! r').
Proof. unfold refresh_session. simpl. rewrite lookup_alter. repeat case_decide; by subst. Qed.

(** A frame function only writes the session it runs on. *)
Lemma frame_sessions m r now f s c m1 :
  f <> FInvalid -> frame_fn_of r f m s c now = (m1, None) ->
  forall r', r' <> r -> m_sessions m1 !! r' = m_sessions m !! r'.
Proof.
  intros Hf Hok r' Hne. destruct f; try done; revert Hok; simpl;
    unfold begin_fn, objects_fn, end_fn, upsert_fn, delete_fn, heartbeat_fn, health_fn;
    repeat (case_match; simplify_eq); intros; simplify_eq; simpl;
    rewrite ?lookup_insert_ne by done; done.
Qed.

Lemma Receive_keeps_closed m r r' now f :
  closed_at m r -> closed_at (fst (Receive m r' now f)) r.
Proof.
  intros Hcl. destruct (Receive m r' now f) as [m' [e |]] eqn:E; simpl.
  - apply Receive_error in E as ->. by apply closeLocked_keeps_closed.
  - destruct (FInvalid_or f) as [-> | Hne]; [done |].
    pose proof E as E0. rewrite Receive_frame_fn in E by done.
    apply apply_accepted in E as (s & c & m1 & Hs & Hc & Hl & Hok & ->).
    destruct Hcl as (t & Ht & Hcl).
    destruct (decide (r' = r)) as [-> | Hrr].
    { simplify_eq. rewrite live_not_closed in Hl by done. done. }
    exists t. split; [| done]. rewrite projectAll_sessions, refresh_lookup, decide_False by done.
    rewrite <- Ht. by eapply frame_sessions.
Qed.

Lemma expire_keeps_closed m r now : closed_at m r -> closed_at (Expire m now) r.
Proof.
  intros H. unfold Expire, closed_at. rewrite projectAll_sessions. change (closed_at (foldl (expire_collector now) m
    (fst <$> map_to_list (m_collectors m))) r).
  generalize (fst <$> map_to_list (m_collectors m)). intros ids. revert m H.
  induction ids as [| id ids IH]; intros m H; simpl; [done |]. apply IH.
  unfold expire_collector. repeat case_match; auto using closeLocked_keeps_closed.
Qed.

Lemma views_sessions m bs now : m_sessions (fst (viewsLocked m bs now)) = m_sessions m.
Proof. unfold viewsLocked, register_bindings, reclaim. by repeat case_match. Qed.

Lemma Open_keeps_closed m r c now id : closed_at m r -> closed_at (fst (Open m c now id)) r.
Proof.
  intros H. pose proof (Open_cases m c now id) as Ho.
  repeat case_match; rewrite Ho; cbn [fst];
    solve [exact H | by apply start_keeps_closed | by apply start_keeps_closed, closeLocked_keeps_closed].
Qed.

Lemma step_keeps_closed m m' r : mstep m m' -> closed_at m r -> closed_at m' r.
Proof.
  destruct 1; intros Hc; auto using Open_keeps_closed, Receive_keeps_closed,
    closeLocked_keeps_closed, expire_keeps_closed.
  - unfold closed_at. by rewrite views_sessions.
  - unfold ResetAppBindings. by case_match.
Qed.

Lemma steps_keep_closed m m' r : rtc mstep m m' -> closed_at m r -> closed_at m' r.
Proof. induction 1; eauto using step_keeps_closed. Qed.

(** A session capability that was closed or replaced is revoked for good:
    whatever the memory did since, no frame sent on it is accepted and none
    changes an inventory, a binding or a revision. *)
Theorem closed_session_is_revoked m m' r now f :
  closed_at m r -> rtc mstep m m' ->
  exists m'' e, Receive m' r now f = (m'', Some e) /\ same_evidence m' m''.
Proof.
  intros Hc Hs. destruct (steps_keep_closed m m' r Hs Hc) as (s & Hr & Hcl).
  destruct (Receive m' r now f) as [m'' [e |]] eqn:E.
  - exists m'', e. split; [done |]. apply Receive_error in E as ->. apply closeLocked_evidence.
  - exfalso. destruct (FInvalid_or f) as [-> | Hne]; [done |].
    rewrite Receive_frame_fn in E by done.
    apply apply_accepted in E as (t & c & m1 & Ht & _ & Hl & _). simplify_eq.
    by rewrite live_not_closed in Hl.
Qed.
End FrameSafety.
