(* ===== verification/MemoryViews.v ===== *)
(** * What the readers of the observation memory see

    Theorems about the inventories, the projected views and the maintenance
    operations of [Memory]: publication is atomic, a known state is backed by
    unexpired evidence of the same identity, a resource never crosses an
    organization, projection is idempotent, and the registry is bounded. *)
From S2P Require Import Prelude GoStd Sha256 GoJson Uuid Observation Memory MemoryInv MemorySafety.

(** ** Inventories *)

Lemma inventory_projectAll now m id : inventory (projectAll now m) id = inventory m id.
Proof. done. Qed.
Lemma inventory_refresh r now m id : inventory (refresh_session r now m) id = inventory m id.
Proof. done. Qed.

Lemma inventory_closeLocked r m id : inventory (closeLocked r m) id = inventory m id.
Proof. rewrite !evidence_inventory. by destruct (closeLocked_evidence r m) as [-> _]. Qed.

Lemma inventory_set_collector cid c m id :
  inventory (set_collector cid c m) id = (if decide (cid = id) then Some (mc_objects c) else inventory m id).
Proof. unfold inventory. simpl. rewrite lookup_insert. by case_decide. Qed.

Section Publication.
Context {U : UuidLib} {K : K8sLib}.

Lemma Receive_private m r now f id :
  (match f with FBegin _ | FObjects _ _ => True | _ => False end) ->
  inventory (fst (Receive m r now f)) id = inventory m id.
Proof.
  intros Hf. destruct (Receive m r now f) as [m' [e |]] eqn:E; simpl.
  - apply Receive_error in E as ->. apply inventory_closeLocked.
  - rewrite Receive_frame_fn in E by (intros ->; done).
    apply apply_accepted in E as (s & c & m1 & Hs & Hc & Hl & Hok & ->).
    rewrite inventory_projectAll, inventory_refresh.
    destruct f; try done; revert Hok; simpl; unfold begin_fn, objects_fn;
      repeat (case_match; simplify_eq); intros; by simplify_eq.
Qed.

(** Objects of a full sync stay private until its End: neither [Begin] nor
    [Objects], accepted or refused, changes any collector's inventory. *)
Theorem staging_is_private m r now syncID objects id :
  inventory (fst (Receive m r now (FBegin syncID))) id = inventory m id /\
  inventory (fst (Receive m r now (FObjects syncID objects))) id = inventory m id.
Proof. by split; apply Receive_private. Qed.

(** An accepted [End] publishes exactly the staged set: the collector's
    inventory becomes the staging (whose size is the announced count), the
    session is synced with nothing staged, and no other inventory changes. *)
Theorem end_publishes_staging m r now syncID n m' :
  Receive m r now (FEnd syncID n) = (m', None) ->
  exists s staging, m_sessions m !! r = Some s /\ ss_staging s = Some staging /\
    ss_syncID s = syncID /\ n = Z.of_nat (size staging) /\
    inventory m' (ss_collector s) = Some staging /\
    (forall id, id <> ss_collector s -> inventory m' id = inventory m id) /\
    (exists s', m_sessions m' !! r = Some s' /\ ss_synced s' = true /\ ss_staging s' = None).
Proof.
  intros E. simpl in E. apply apply_accepted in E as (s & c & m1 & Hs & Hc & Hl & Hok & ->).
  revert Hok. unfold end_fn. destruct (ss_staging s) as [st |] eqn:Hst; [| done].
  destruct (_ || _) eqn:Hc0; [done |]. intros [= <-]. bool_norm. exists s, st. split_and!; try done.
  - rewrite inventory_projectAll, inventory_refresh. unfold inventory. simpl.
    by rewrite lookup_insert_eq.
  - intros id Hne. rewrite inventory_projectAll, inventory_refresh. unfold inventory. simpl.
    by rewrite lookup_insert_ne.
  - eexists. rewrite projectAll_sessions, refresh_lookup, decide_True by done. simpl.
    by rewrite lookup_insert_eq.
Qed.
End Publication.

(** ** Sessions and time *)

(** [Deadline] is the instant at which a session stops being live: an open
    session its collector points to is live exactly before it. *)
Theorem deadline_is_liveness_bound m r s c now :
  m_sessions m !! r = Some s -> ss_closed s = false ->
  m_collectors m !! ss_collector s = Some c -> mc_active c = Some r ->
  Live m r now = true <-> now < Deadline s.
Proof.
  intros Hs Hcl Hc Ha. unfold Live, live, Deadline, time_before.
  rewrite Hs, Hcl, Hc, Ha, bool_decide_true by done. simpl.
  destruct (ss_staging s); [| rewrite andb_true_r; apply Z.ltb_lt].
  rewrite andb_true_iff, !Z.ltb_lt. destruct (_ <? _) eqn:E; bool_norm; lia.
Qed.

(** ** Evidence behind a view *)

(** A stored workload that carries the identity of binding [b]. *)
Definition identity_matches (m : Memory) (b : Binding) (o : ResourceObservation) : Prop :=
  ro_StationID o = m_station m /\ ro_InstanceID o = "" /\
  ro_InstallationID o = b_InstallationID b /\
  ro_OrganizationID o = b_OrganizationID b /\ ro_AppID o = b_AppID b.

(** The evidence a known view rests on: a fresh workload of the same identity in
    some inventory, or a fresh absence of the binding's own location. *)
Definition backed (m : Memory) (now : Time) (b : memoryBinding) (v : Runtime) : Prop :=
  exists at_ exp, rt_ObservedAt v = Some at_ /\ rt_ExpiresAt v = Some exp /\ at_ <= now < exp /\
    ((exists id c k o, m_collectors m !! id = Some c /\ mc_objects c !! k = Some o /\
        identity_matches m (mb_Binding b) (mr_obs o) /\
        mr_received o = at_ /\ mr_expires o = exp /\
        rt_State v = fst (evaluate (current_fact now o)
          (slices_contains (c_HealthRequiredApps (mc_config c)) (mb_App b)))) \/
     (rt_State v = "absent" /\ mb_absentAt b = at_ /\ mb_absentExpires b = exp /\
      object_at m (mb_collector b) (mb_namespace b) (mb_name b) = None)).

Lemma indexed_elem m inst k :
  k ∈ indexed m inst -> exists id c key, m_collectors m !! id = Some c /\
    mc_objects c !! key = Some (cand_o k) /\ cand_config k = mc_config c /\
    ro_StationID (mr_obs (cand_o k)) = m_station m /\ ro_InstanceID (mr_obs (cand_o k)) = "" /\
    ro_InstallationID (mr_obs (cand_o k)) = inst.
Proof.
  unfold indexed. intros ([id c] & H & Hid)%list_elem_of_bind.
  apply list_elem_of_bind in H as ([key o] & H & Hkey).
  apply elem_of_map_to_list in Hid, Hkey.
  destruct (_ && _) eqn:E; [| by apply elem_of_nil in H]. apply list_elem_of_singleton in H as ->.
  bool_norm. exists id, c, key. by split_and!.
Qed.

Lemma unknown_not_known r : rt_Quality (unknown_runtime r) <> "known".
Proof. done. Qed.

Lemma keep_last_fields b v :
  rt_State (keep_last b v) = rt_State v /\ rt_Quality (keep_last b v) = rt_Quality v /\
  rt_ObservedAt (keep_last b v) = rt_ObservedAt v /\ rt_ExpiresAt (keep_last b v) = rt_ExpiresAt v /\
  rt_ReasonCode (keep_last b v) = rt_ReasonCode v.
Proof. unfold keep_last. repeat case_match; by split_and!. Qed.

Lemma project_backed m now b b1 v :
  project m b now (indexed m (b_InstallationID (mb_Binding b))) = (b1, v) ->
  rt_Quality v = "known" -> backed m now b1 v.
Proof.
  unfold project. destruct (filter _ _) as [| k [| k2 rest]] eqn:Ef.
  - destruct (negb _); [| by intros [= <- <-] ?].
    destruct (m_collectors m !! mb_collector b) as [c |] eqn:Hc; [| by intros [= <- <-] ?].
    destruct (negb _); [by intros [= <- <-] ?|].
    destruct (mc_objects c !! _) as [o |] eqn:Ho.
    + intros [= <- <-] (s & r & a & e & ? & _ & _ & _ & _ & Hs & _)%RuntimeView_known. congruence.
    + destruct (negb _); [| by intros [= <- <-] ?].
      intros [= <- <-] (s & r & a & e & [= <-] & [= <-] & [= <-] & [= <-] & _ & _ & Ht & ->)%RuntimeView_known.
      eexists _, _. split_and!; try done; try lia. right. split_and!; try done.
      unfold object_at. by rewrite Hc.
  - destruct (_ && _); [by intros [= <- <-] ?|].
    destruct (evaluate _ _) as [st re] eqn:Ev.
    intros [= <- <-] (s & r & a & e & [= <-] & [= <-] & [= <-] & [= <-] & _ & _ & Ht & ->)%RuntimeView_known.
    eexists _, _. split_and!; try done; try lia. left.
    assert (Hk : k ∈ filter (fun r : memoryCandidate =>
      ro_OrganizationID (mr_obs (cand_o r)) = mb_Org b /\ ro_AppID (mr_obs (cand_o r)) = mb_App b)
      (indexed m (b_InstallationID (mb_Binding b)))) by (rewrite Ef; left).
    apply list_elem_of_filter in Hk as [[Horg Happ] Hk].
    apply indexed_elem in Hk as (id & c & key & Hc & Ho & Hcfg & Hst & Hin & Hi).
    exists id, c, key, (cand_o k). simpl. split_and!; try done.
    unfold mb_App in *. simpl. by rewrite <- Hcfg, Ev.
  - by intros [= <- <-] ?.
Qed.

Lemma project_binding_backed m now b :
  rt_Quality (mb_view (fst (project_binding m now b))) = "known" ->
  backed m now (fst (project_binding m now b)) (mb_view (fst (project_binding m now b))).
Proof.
  unfold project_binding. destruct (project _ _ _ _) as [b1 v0] eqn:E.
  destruct (keep_last_fields b1 v0) as (Hs & Hq & Ho & He & _).
  destruct (_ =? _)%string; simpl; rewrite Hq; intros Hk; pose proof (project_backed m now b b1 v0 E Hk) as H;
    unfold backed in *; rewrite Hs, Ho, He; exact H.
Qed.

Section ViewFacts.
Context {U : UuidLib}.

Lemma collect_views_lookup m bs id v :
  collect_views m bs !! id = Some v ->
  exists stored, m_bindings m !! id = Some stored /\ v = view_of m stored /\ id ∈ wanted bs.
Proof.
  unfold collect_views.
  assert (H : forall vs : gmap string MemoryView, foldl (fun vs b => match m_bindings m !! b_InstallationID b with
                     | Some stored => <[b_InstallationID b := view_of m stored]> vs
                     | None => vs end) vs bs !! id = Some v ->
     vs !! id = Some v \/ exists stored, m_bindings m !! id = Some stored /\ v = view_of m stored /\
       id ∈ wanted bs).
  { unfold wanted. induction bs as [| b bs IH]; intros vs Hv; simpl in *; [by left |].
    apply IH in Hv as [Hv | (st & ? & ? & ?)]; [| right; exists st; set_solver].
    destruct (m_bindings m !! b_InstallationID b) as [stored |] eqn:Hb; [| by left].
    rewrite lookup_insert in Hv. case_decide as E; [| by left].
    simplify_eq. right. exists stored. set_solver. }
  intros Hv. destruct (H ∅ Hv) as [Hx | Hx]; [by rewrite lookup_empty in Hx | done].
Qed.

Lemma viewsLocked_ok m bs now m' vs rs :
  viewsLocked m bs now = (m', Ok (vs, rs)) ->
  exists add, collect_bindings m bs ∅ = Some add /\ Z.of_nat (size (wanted bs)) <= maxBindings /\
    m' = projectAll now (register_bindings m bs add) /\
    vs = collect_views m' bs /\ rs = collect_revisions m' bs.
Proof.
  unfold viewsLocked. destruct (collect_bindings m bs ∅) as [add |]; [| done].
  destruct (maxBindings <? _) eqn:E; [done |]. intros [= <- <- <-]. bool_norm. eauto 10.
Qed.

(** C36: a known state is never stale and never somebody else's: it is computed
    from a workload that carries the binding's station, organization, app and
    installation (or from the recorded absence of its own location), received no
    later than [now] and not expired at [now]. *)
Theorem known_view_is_backed m bs now m' vs rs id v :
  viewsLocked m bs now = (m', Ok (vs, rs)) -> vs !! id = Some v ->
  rt_Quality (v_Runtime v) = "known" ->
  exists b, m_bindings m' !! id = Some b /\ backed m' now b (v_Runtime v).
Proof.
  intros (add & _ & _ & -> & -> & _)%viewsLocked_ok Hv Hq.
  apply collect_views_lookup in Hv as (b & Hb & -> & _). exists b. split; [done |].
  rewrite projectAll_lookup in Hb. apply fmap_Some in Hb as (b0 & _ & ->).
  by apply project_binding_backed in Hq.
Qed.

(** Organization isolation: the workload a view exposes sits at the
    binding's location and carries its station, organization, app and
    installation, and a view in conflict exposes none. *)
Theorem view_resource_is_own m bs now m' vs rs id v o :
  viewsLocked m bs now = (m', Ok (vs, rs)) -> vs !! id = Some v -> v_Resource v = Some o ->
  rt_ReasonCode (v_Runtime v) <> "IDENTITY_CONFLICT" /\
  exists b, m_bindings m' !! id = Some b /\ identity_matches m' (mb_Binding b) o /\
    ro_UID o = mb_uid b /\ exists st, object_at m' (mb_collector b) (mb_namespace b) (mb_name b) = Some st /\ mr_obs st = o.
Proof.
  intros (add & _ & _ & -> & -> & _)%viewsLocked_ok Hv Ho.
  apply collect_views_lookup in Hv as (b & Hb & -> & _). revert Ho. simpl.
  destruct (_ =? _)%string eqn:E; [done |]. bool_norm. unfold binding_object.
  destruct (object_at _ _ _ _) as [st |] eqn:Hst; [| done].
  destruct (own_object _ b st) eqn:Hown; [| done]. intros [= <-]. split; [done |].
  exists b. unfold own_object in Hown. bool_norm. unfold identity_matches, mb_Org, mb_App in *.
  split_and!; try done. eauto.
Qed.
End ViewFacts.

(** ** Projection is idempotent *)

(** What [project] reads of a binding besides its absence and location. *)
Lemma project_again m b now rs b1 v :
  project m b now rs = (b1, v) -> forall v' rev sem,
  project m (with_semantic v' rev sem b1) now rs = (with_semantic v' rev sem b1, v).
Proof.
  unfold project. intros H v' rev sem.
  destruct (filter _ rs) as [| k [| k2 rest]] eqn:Ef.
  - assert (b1 = b) as -> by (repeat (case_match; simplify_eq/=; auto)).
    unfold mb_App, mb_Org in *. simpl. rewrite Ef.
    repeat (case_match; simplify_eq/=; auto).
  - destruct (_ && _) eqn:Em.
    + injection H as <- <-. unfold mb_App, mb_Org in *. simpl. rewrite Ef, Em. done.
    + destruct (evaluate _ _) as [st re] eqn:Ev. injection H as <- <-.
      unfold mb_App, mb_Org in *. simpl. rewrite Ef, !String.eqb_refl. simpl.
      rewrite andb_false_r. simpl. by rewrite Ev.
  - injection H as <- <-. unfold mb_App, mb_Org in *. simpl. by rewrite Ef.
Qed.

Lemma keep_last_again b v rev sem :
  keep_last (with_semantic (keep_last b v) rev sem b) v = keep_last b v.
Proof.
  unfold keep_last. destruct (_ =? _)%string; [| done]. simpl.
  destruct (rt_LastKnownState (mb_view b)) as [x |]; [done |].
  destruct v as [s q r o e [l |]]; done.
Qed.

Lemma semantic_of_again m b v v' rev sem :
  semantic_of m (with_semantic v' rev sem b) v = semantic_of m b v.
Proof. done. Qed.

Lemma project_binding_again m now b :
  project_binding m now (fst (project_binding m now b)) = (fst (project_binding m now b), false).
Proof.
  unfold project_binding at 2 3. destruct (project _ _ _ _) as [b1 v] eqn:E.
  pose proof (project_static _ _ _ _ _ _ E) as (HB & _).
  set (w := keep_last b1 v). set (sem := semantic_of m b1 w).
  assert (H : forall rev, project_binding m now (with_semantic w rev sem b1) = (with_semantic w rev sem b1, false)).
  { intros rev. unfold project_binding. simpl. rewrite HB, (project_again _ _ _ _ _ _ E). simpl.
    unfold w. rewrite keep_last_again. fold w. rewrite semantic_of_again. fold sem. by rewrite String.eqb_refl. }
  destruct (sem =? mb_semantic b1)%string eqn:Es; simpl; [| apply H].
  apply String.eqb_eq in Es. rewrite <- Es. apply H.
Qed.

Lemma project_binding_static_memory m m' now b :
  m_station m' = m_station m -> m_collectors m' = m_collectors m ->
  project_binding m' now b = project_binding m now b.
Proof.
  destruct m, m'. simpl. intros -> ->. done.
Qed.

Lemma bump_changed_none m now l sc :
  (forall b, b ∈ l -> snd (project_binding m now b) = false) -> foldl (bump_changed m now) sc l = sc.
Proof.
  intros H. induction l as [| b l IH]; [done |]. simpl. unfold bump_changed at 2.
  rewrite H by left. apply IH. intros x Hx. apply H. by right.
Qed.

(** Projection is idempotent: recomputing the views at the same instant
    changes no binding, no view and no revision, so a revision only moves when the
    meaning of a view did. *)
Theorem projectAll_idempotent m now : projectAll now (projectAll now m) = projectAll now m.
Proof.
  set (m1 := projectAll now m).
  assert (Hb : forall b, b ∈ (snd <$> map_to_list (m_bindings m1)) ->
    project_binding m1 now b = (b, false)).
  { intros b ([k b'] & -> & Hkb)%list_elem_of_fmap. apply elem_of_map_to_list in Hkb. simpl.
    unfold m1 in Hkb. rewrite projectAll_lookup in Hkb. apply fmap_Some in Hkb as (b0 & _ & ->).
    rewrite (project_binding_static_memory m) by done. apply project_binding_again. }
  unfold projectAll at 1. rewrite bump_changed_none by (intros b Hx; by rewrite (Hb b Hx)).
  replace ((fun b => fst (project_binding m1 now b)) <$> m_bindings m1) with (m_bindings m1); [done |].
  apply map_eq. intros k. rewrite lookup_fmap. destruct (m_bindings m1 !! k) as [b |] eqn:E; [| done].
  simpl. rewrite Hb; [done |]. apply list_elem_of_fmap. exists (k, b). split; [done |].
  by apply elem_of_map_to_list.
Qed.

(** ** The registry is bounded *)
Section Registry.
Context {U : UuidLib}.

Lemma collect_bindings_spec m bs add add' :
  collect_bindings m bs add = Some add' ->
  (forall id, id ∈ dom add' <-> id ∈ dom add \/ (id ∈ wanted bs /\ id ∉ dom (m_bindings m))) /\
  (forall b, b ∈ bs -> (exists old, m_bindings m !! b_InstallationID b = Some old /\ mb_Binding old = b) \/
                       add' !! b_InstallationID b = Some b) /\
  (forall id b, add !! id = Some b -> add' !! id = Some b).
Proof.
  revert add. induction bs as [| b bs IH]; intros add H; simpl in H.
  - simplify_eq. split_and!; [set_solver | | done]. intros b Hb. by apply elem_of_nil in Hb.
  - destruct (negb _); [done |].
    destruct (match add !! _ with Some old => _ | None => false end) eqn:Ea; [done |].
    assert (Hadd : forall b', add !! b_InstallationID b = Some b' -> b' = b).
    { intros b' Hb'. rewrite Hb' in Ea. by bool_norm. }
    destruct (m_bindings m !! b_InstallationID b) as [old |] eqn:Eb.
    + case_bool_decide as Eo; [| done]. apply IH in H as (H1 & H2 & H3). clear IH. split_and!; [| | done].
      * intros id. rewrite H1. unfold wanted. simpl. apply elem_of_dom_2 in Eb. set_solver.
      * intros b' [-> | Hb']%elem_of_cons; eauto.
    + apply IH in H as (H1 & H2 & H3). clear IH. apply not_elem_of_dom_2 in Eb. split_and!.
      * intros id. rewrite H1. unfold wanted. simpl. set_solver.
      * intros b' [-> | Hb']%elem_of_cons; [| auto]. right. apply H3. by rewrite lookup_insert_eq.
      * intros id b' Hid. apply H3. destruct (decide (b_InstallationID b = id)) as [<- | Hne].
        -- rewrite lookup_insert_eq. f_equal. symmetry. auto.
        -- by rewrite lookup_insert_ne.
Qed.

Lemma size_dom_bindings (bs : gmap string memoryBinding) : size bs = size (dom bs : gset string).
Proof. by rewrite size_dom. Qed.

Lemma register_bindings_dom m bs add :
  collect_bindings m bs ∅ = Some add ->
  dom (m_bindings (register_bindings m bs add)) = dom add ∪ dom (m_bindings (reclaim m bs add)) /\
  wanted bs ⊆ dom (m_bindings (register_bindings m bs add)).
Proof.
  intros (H1 & H2 & _)%collect_bindings_spec.
  assert (Hd : dom (m_bindings (register_bindings m bs add)) = dom add ∪ dom (m_bindings (reclaim m bs add))).
  { unfold register_bindings. simpl. by rewrite dom_union_L, dom_fmap_L. }
  split; [done |]. rewrite Hd. intros id Hid.
  destruct (decide (id ∈ dom (m_bindings m))) as [Hin | Hout]; [| set_solver].
  apply elem_of_union_r. unfold reclaim. case_match; [| done]. simpl.
  apply elem_of_dom in Hin as [b Hb]. apply elem_of_dom. exists b. by apply map_lookup_filter_Some.
Qed.

Lemma register_bindings_size m bs add :
  collect_bindings m bs ∅ = Some add -> Z.of_nat (size (wanted bs)) <= maxBindings ->
  Z.of_nat (size (m_bindings (register_bindings m bs add))) <= maxBindings.
Proof.
  intros Ha Hw. pose proof (collect_bindings_spec m bs ∅ add Ha) as (H1 & _).
  destruct (register_bindings_dom m bs add Ha) as [Hd _].
  rewrite size_dom_bindings, Hd. unfold reclaim. destruct (maxBindings <? _) eqn:E; simpl.
  - assert (dom add ∪ dom (filter (fun kv => kv.1 ∈ wanted bs) (m_bindings m)) ⊆ wanted bs) as Hsub.
    { intros id [Hid | Hid]%elem_of_union; [set_solver |].
      apply elem_of_dom in Hid as [b Hb]. by apply map_lookup_filter_Some in Hb as [_ ?]. }
    apply subseteq_size in Hsub. lia.
  - bool_norm. pose proof (size_union_alt (dom add) (dom (m_bindings m))) as Hs.
    assert (size (dom (m_bindings m) ∖ dom add) <= size (dom (m_bindings m)))%nat by (apply subseteq_size; set_solver).
    rewrite !size_dom in *. lia.
Qed.

Lemma collect_views_dom m bs : wanted bs ⊆ dom (m_bindings m) -> dom (collect_views m bs) = wanted bs.
Proof.
  unfold collect_views. intros Hw.
  enough (H : forall vs : gmap string MemoryView, dom (foldl (fun vs b => match m_bindings m !! b_InstallationID b with
     | Some stored => <[b_InstallationID b := view_of m stored]> vs | None => vs end) vs bs) =
     dom vs ∪ wanted bs) by (rewrite H; set_solver).
  unfold wanted in *. induction bs as [| b bs IH]; intros vs; simpl in *; [set_solver |].
  assert (b_InstallationID b ∈ dom (m_bindings m)) as [st Hst]%elem_of_dom by set_solver.
  rewrite Hst, IH by set_solver. rewrite dom_insert_L. set_solver.
Qed.

Lemma register_bindings_lookup m bs add b :
  collect_bindings m bs ∅ = Some add -> b ∈ bs ->
  mb_Binding <$> m_bindings (register_bindings m bs add) !! b_InstallationID b = Some b.
Proof.
  intros Ha Hb. pose proof (collect_bindings_spec m bs ∅ add Ha) as (H1 & H2 & _).
  unfold register_bindings. simpl. destruct (H2 b Hb) as [(old & Ho & HB) | Hadd].
  - rewrite lookup_union_r.
    + unfold reclaim. case_match; simpl; [| by rewrite Ho; simpl; rewrite HB].
      erewrite map_lookup_filter_Some_2; [by simpl; rewrite HB | exact Ho |]. simpl.
      unfold wanted. apply elem_of_list_to_set, list_elem_of_fmap. eauto.
    + rewrite lookup_fmap, fmap_None. apply not_elem_of_dom. rewrite H1.
      apply elem_of_dom_2 in Ho. set_solver.
  - erewrite lookup_union_Some_l; [| by rewrite lookup_fmap, Hadd]. done.
Qed.

(** The registry stays within its budget: a successful call leaves at most
    [maxBindings] bindings, returns a view for every requested installation under
    exactly the requested identity, and returns none besides. *)
Theorem registry_is_bounded m bs now m' vs rs :
  viewsLocked m bs now = (m', Ok (vs, rs)) ->
  Z.of_nat (size (m_bindings m')) <= maxBindings /\ dom vs = wanted bs /\
  (forall b, b ∈ bs -> mb_Binding <$> m_bindings m' !! b_InstallationID b = Some b).
Proof.
  intros (add & Ha & Hw & -> & -> & _)%viewsLocked_ok.
  assert (Hdom : wanted bs ⊆ dom (m_bindings (projectAll now (register_bindings m bs add)))).
  { simpl. rewrite dom_fmap_L. by destruct (register_bindings_dom m bs add Ha) as [_ ?]. }
  split_and!.
  - simpl. rewrite map_size_fmap. by apply register_bindings_size.
  - apply collect_views_dom, Hdom.
  - intros b Hb. rewrite projectAll_lookup, <- option_fmap_compose.
    transitivity (mb_Binding <$> m_bindings (register_bindings m bs add) !! b_InstallationID b).
    { destruct (m_bindings (register_bindings m bs add) !! b_InstallationID b); [| done]. simpl.
      by rewrite project_binding_static. }
    by apply register_bindings_lookup.
Qed.
End Registry.

(** ** Namespace migration and reset *)

Lemma project_location m b now rs b1 v :
  project m b now rs = (b1, v) ->
  mb_namespace b1 = mb_namespace b \/
  exists k, k ∈ rs /\ mb_namespace b1 = ro_Namespace (mr_obs (cand_o k)) /\
    ro_AppID (mr_obs (cand_o k)) = mb_App b.
Proof.
  unfold project. destruct (filter _ rs) as [| k [| k2 rest]] eqn:Ef; intros H.
  - left. repeat (case_match; simplify_eq/=; auto).
  - destruct (_ && _); [injection H as <- <-; auto |]. destruct (evaluate _ _) as [st re]. injection H as <- <-.
    right. exists k. assert (k ∈ [k]) as Hk by left. rewrite <- Ef in Hk.
    apply list_elem_of_filter in Hk as [[_ ?] ?]. auto.
  - injection H as <- <-. auto.
Qed.

Lemma project_binding_location m now b :
  mb_namespace (fst (project_binding m now b)) = mb_namespace b \/
  exists id c k o, m_collectors m !! id = Some c /\ mc_objects c !! k = Some o /\
    mb_namespace (fst (project_binding m now b)) = ro_Namespace (mr_obs o) /\ ro_AppID (mr_obs o) = mb_App b.
Proof.
  unfold project_binding. destruct (project _ _ _ _) as [b1 v] eqn:E.
  assert (Hns : forall x, mb_namespace (fst (if (semantic_of m b1 (keep_last b1 v) =? mb_semantic b1)%string
    then (with_semantic (keep_last b1 v) (mb_revision b1) (mb_semantic b1) b1, false)
    else (with_semantic (keep_last b1 v) (u64_incr (mb_revision b1)) (semantic_of m b1 (keep_last b1 v)) b1, true))) = x
    <-> mb_namespace b1 = x) by (intros x; by destruct (_ =? _)%string).
  apply project_location in E as [E | (k & Hk & Hn & Ha)]; [left; by apply Hns |].
  right. apply indexed_elem in Hk as (id & c & key & Hc & Ho & _).
  exists id, c, key, (cand_o k). split_and!; try done. by apply Hns.
Qed.

Lemma reset_objects_lookup app target c k o :
  mc_objects (reset_objects app target c) !! k = Some o <->
  mc_objects c !! k = Some o /\ ~ (ro_AppID (mr_obs o) = app /\ (target = "" \/ ro_Namespace (mr_obs o) <> target)).
Proof. unfold reset_objects. simpl. apply map_lookup_filter_Some. Qed.

(** A reset forgets the old place of an application and nothing else: no
    workload of the app outside the target namespace survives it, every binding of
    the app is unlocated or located in the target, and the inventory of every other
    app is untouched. *)
Theorem reset_forgets_old_location m app target now :
  app <> "" ->
  let m' := ResetAppBindings m app target now in
  (forall id b, m_bindings m' !! id = Some b -> mb_App b = app ->
     mb_namespace b = "" \/ mb_namespace b = target) /\
  (forall id k, forall o, (c ← m_collectors m' !! id; mc_objects c !! k) = Some o <->
     (c ← m_collectors m !! id; mc_objects c !! k) = Some o /\
     (ro_AppID (mr_obs o) = app -> target <> "" /\ ro_Namespace (mr_obs o) = target)).
Proof.
  intros Happ m'. unfold m', ResetAppBindings. destruct (app =? "")%string eqn:E; [by bool_norm |].
  set (m1 := with_legacy _ _). split.
  - intros id b. rewrite projectAll_lookup. simpl. rewrite lookup_fmap.
    intros (b0 & (b1 & _ & ->)%fmap_Some & ->)%fmap_Some Hb.
    assert (HB : mb_App (reset_binding app target b1) = app).
    { unfold mb_App in *. by rewrite project_binding_static in Hb. }
    destruct (project_binding_location m1 now (reset_binding app target b1))
      as [-> | (cid & c & k & o & Hc & Ho & -> & Ha)].
    + unfold reset_binding in *. destruct (_ && _) eqn:Eb; [by left |]. right.
      rewrite HB in Eb. rewrite String.eqb_refl in Eb. simpl in Eb.
      apply orb_false_iff in Eb as [_ Eb]. by bool_norm.
    + right. simpl in Hc. rewrite lookup_fmap in Hc. apply fmap_Some in Hc as (c0 & _ & ->).
      apply reset_objects_lookup in Ho as [_ Hno]. rewrite HB in Ha.
      destruct (decide (ro_Namespace (mr_obs o) = target)); [done |]. tauto.
  - intros id k o. change (m_collectors (projectAll now m1)) with (reset_objects app target <$> m_collectors m).
    rewrite lookup_fmap. destruct (m_collectors m !! id) as [c |]; cbn [fmap option_fmap option_map mbind option_bind]; [| naive_solver].
    rewrite reset_objects_lookup. destruct (decide (ro_Namespace (mr_obs o) = target)),
      (decide (target = "")); naive_solver.
Qed.

(** ** Replica evaluation *)

(** [evaluate] reports [ready] exactly for a workload that is neither deleted
    nor terminating nor failing, whose controller observed its current generation,
    whose replicas are all present, ready, updated and available, and whose health
    was probed where the app requires it. *)
Theorem evaluate_ready_iff o required :
  evaluate o required = ("ready", "READY") <->
  ro_Deleted o = false /\ ro_Terminating o = false /\
  1 <= ro_Generation o /\ ro_ObservedGeneration o = ro_Generation o /\
  ro_Desired o <> 0 /\ ro_ProgressFailed o = false /\ ro_ReplicaFailed o = false /\
  ro_Replicas o = ro_Desired o /\ ro_Ready o = ro_Desired o /\
  ro_Updated o = ro_Desired o /\ ro_Available o = ro_Desired o /\
  ro_Health o <> "failed" /\ (required = true -> ro_Health o = "ready").
Proof.
  unfold evaluate. split.
  - intros H. inv_ok H. all: try discriminate.
    repeat match goal with H : (_, _) = (_, _) |- _ => clear H | H : _ || _ = false |- _ => apply orb_false_iff in H; destruct H end.
    bool_norm. split_and!; try done; try lia. intros ->. simpl in *. by bool_norm.
  - intros (-> & -> & H1 & -> & H2 & -> & -> & -> & -> & -> & -> & H3 & H4).
    rewrite Z.ltb_irrefl. apply Z.eqb_neq in H2 as ->. apply String.eqb_neq in H3 as ->.
    rewrite !Z.eqb_refl. simpl. replace (ro_Generation o <? 1) with false by (symmetry; apply Z.ltb_ge; lia).
    simpl. destruct required; [| done]. by rewrite H4.
Qed.

(** ** The invariant of every reachable memory *)

(** C35: whatever opens, frames, closes, view requests, expiries and resets a
    station process runs, and in whatever order, its memory stays well formed:
    every inventory entry sits under its own key inside its collector's namespaces
    and lives exactly one TTL, inventories are bounded, a session is open exactly
    while its collector points to it, collectors never share a namespace, and
    bindings are keyed by their installation. *)
Theorem reachable_memory_wf {U : UuidLib} {K : K8sLib} m : reachable m -> memory_wf m.
Proof. apply wf_reachable. Qed.

(** ** A concrete station for the observation memory

    One collector with one namespace, one workload, driven through a full sync
    and read back: the hypotheses of the memory's theorems hold on it. *)

Module MemorySample.
Import CanonicalUuid.
#[export] Existing Instance CanonicalUuid.lib.
#[export] Instance names : K8sLib := appIDPattern.

Definition station : string := "11111111-1111-4111-8111-111111111111".
Definition boot : string := "22222222-2222-4222-8222-222222222222".
Definition org : string := "33333333-3333-4333-8333-333333333333".
Definition inst : string := "44444444-4444-7444-8444-444444444444".
Definition sync : string := "55555555-5555-4555-8555-555555555555".
Definition cfg : Collector := mkCollector "apps" ["media"] [].
Definition obs : ResourceObservation :=
  mkResourceObservation "media" "camera" "uid-1" "17" station org inst "camera"
    3 3 1 1 1 1 1 false false false false "not_checked" "" None.
Definition t0 : Time := 1000 * second.

Definition empty : Memory := mkMemory "" "" ∅ ∅ ∅ [] ∅.
Definition m0 : Memory := match NewMemory station boot [cfg] with Ok m => m | Err _ => empty end.
Definition m1 : Memory := fst (Open m0 "apps" t0 "session").
Definition r1 : sref := match snd (Open m0 "apps" t0 "session") with Ok r => r | Err _ => O end.
Definition m2 : Memory := fst (Receive m1 r1 t0 (FBegin sync)).
Definition m3 : Memory := fst (Receive m2 r1 t0 (FObjects sync [obs])).
Definition m4 : Memory := fst (Receive m3 r1 t0 (FEnd sync 1)).
Definition binding : Binding := mkBinding inst org "camera".
Definition m5 : Memory := fst (viewsLocked m4 [binding] (t0 + second)).
Definition views : gmap string MemoryView * gmap string string :=
  match snd (viewsLocked m4 [binding] (t0 + second)) with Ok v => v | Err _ => (∅, ∅) end.
Definition session : StreamSession := default (mkSession "" "" 0 false false "" 0 None) (m_sessions m4 !! r1).
Definition active : memoryCollector :=
  default (mkMC cfg None ∅ 0 0 0) (m_collectors m4 !! "apps").
Definition view : MemoryView :=
  default (mkView (mkRuntime "" "" "" None None None) "" None) (fst views !! inst).
End MemorySample.

Import MemorySample.

Lemma pair_of_snd {A B} (p : A * B) b : snd p = b -> p = (fst p, b).
Proof. by intros <-; destruct p. Qed.

Lemma refused_frame_publishes_nothing_witness :
  same_evidence m4 (fst (Receive m4 r1 t0 (FEnd sync 1))) /\
  session_closed (fst (Receive m4 r1 t0 (FEnd sync 1))) r1 /\
  forall r', r' <> r1 -> m_sessions (fst (Receive m4 r1 t0 (FEnd sync 1))) !! r' = m_sessions m4 !! r'.
Proof.
  apply (refused_frame_publishes_nothing m4 r1 t0 (FEnd sync 1) _ ErrStreamFrame session).
  - vm_compute. reflexivity.
  - apply pair_of_snd. vm_compute. reflexivity.
Defined.

Lemma closed_session_is_revoked_witness : exists m'' e,
  Receive (Expire (closeLocked r1 m4) t0) r1 t0 FHeartbeat = (m'', Some e) /\
  same_evidence (Expire (closeLocked r1 m4) t0) m''.
Proof.
  apply (closed_session_is_revoked (closeLocked r1 m4)).
  - exists (closed_session session). split; [vm_compute; reflexivity | reflexivity].
  - apply rtc_once, step_expire.
Defined.

Lemma end_publishes_staging_witness : exists s staging, m_sessions m3 !! r1 = Some s /\
  ss_staging s = Some staging /\ ss_syncID s = sync /\ 1 = Z.of_nat (size staging) /\
  inventory m4 (ss_collector s) = Some staging /\
  (forall id, id <> ss_collector s -> inventory m4 id = inventory m3 id) /\
  (exists s', m_sessions m4 !! r1 = Some s' /\ ss_synced s' = true /\ ss_staging s' = None).
Proof. apply (end_publishes_staging m3 r1 t0 sync 1), pair_of_snd. vm_compute. reflexivity. Defined.

Lemma deadline_is_liveness_bound_witness : Live m4 r1 (t0 + second) = true <-> t0 + second < Deadline session.
Proof.
  apply (deadline_is_liveness_bound m4 r1 session active); vm_compute; reflexivity.
Defined.

Lemma known_view_is_backed_witness :
  exists b, m_bindings m5 !! inst = Some b /\ backed m5 (t0 + second) b (v_Runtime view).
Proof.
  apply (known_view_is_backed m4 [binding] (t0 + second) m5 (fst views) (snd views) inst view).
  - apply pair_of_snd. vm_compute. reflexivity.
  - vm_compute. reflexivity.
  - vm_compute. reflexivity.
Defined.

Lemma view_resource_is_own_witness :
  rt_ReasonCode (v_Runtime view) <> "IDENTITY_CONFLICT" /\
  exists b, m_bindings m5 !! inst = Some b /\ identity_matches m5 (mb_Binding b) obs /\
    ro_UID obs = mb_uid b /\ exists st, object_at m5 (mb_collector b) (mb_namespace b) (mb_name b) = Some st /\ mr_obs st = obs.
Proof.
  apply (view_resource_is_own m4 [binding] (t0 + second) m5 (fst views) (snd views) inst view obs).
  - apply pair_of_snd. vm_compute. reflexivity.
  - vm_compute. reflexivity.
  - vm_compute. reflexivity.
Defined.

Lemma registry_is_bounded_witness :
  Z.of_nat (size (m_bindings m5)) <= maxBindings /\ dom (fst views) = wanted [binding] /\
  (forall b, b ∈ [binding] -> mb_Binding <$> m_bindings m5 !! b_InstallationID b = Some b).
Proof.
  apply (registry_is_bounded m4 [binding] (t0 + second) m5 (fst views) (snd views)).
  apply pair_of_snd. vm_compute. reflexivity.
Defined.


Lemma reachable_memory_wf_witness : memory_wf m5.
Proof.
  apply (reachable_memory_wf m5). exists station, boot, [cfg], m0. split; [vm_compute; reflexivity |].
  eapply rtc_l; [apply step_open |]. eapply rtc_l; [apply (step_frame m1 r1 t0) |].
  eapply rtc_l; [apply (step_frame m2 r1 t0) |]. eapply rtc_l; [apply (step_frame m3 r1 t0) |].
  apply rtc_once, step_views.
Defined.
