(* ===== verification/OperationTypes.v ===== *)
(** * Data of the operations component and the station tables it works on

    The structs of internal/operations and internal/releasebinding, and the rows
    of the PostgreSQL tables their statements read and write
    (migrations/0003, 0010, 0011, 0014, 0016 and 0022).

    The database. [DB] holds one finite map per table, keyed by the primary key;
    a jsonb column holds the value that was marshalled into it. A transaction is
    a function [DB -> result OpError (A * DB)]: an error rolls everything back.
    The advisory locks of the code serialize the transactions that share a key, so
    one transaction is one atomic step. [Pg] is the outcome of the connection: a
    statement, begin or commit that fails with a server error aborts the
    transaction, whichever it is. Columns the code never reads back (created_by,
    event ids) are not kept. *)
From S2P Require Import Prelude GoStd Sha256 GoJson Uuid.

(** ** Errors *)
Inductive OpError : Type :=
| Invalid | Unauthenticated | Revoked | Denied | Locked | Conflict
| ErrNoRows
| ErrTransitionProgress | ErrTransitionBusy | ErrTransitionRelease
| ErrTransitionAdmissionDisabled
| ErrAppCenterBinding | ErrAppCenterRelease | ErrAppCenterDispatch | ErrAppCenterUnsupported
| ErrAppCenterUnavailable         (** appcenter.ErrUnavailable *)
| ErrUntrusted
| ErrPlain (text : string)       (** [errors.New(text)] inside a function *)
| ErrConstraint                  (** a table constraint refused the row *)
| ErrExternal (text : string).   (** an error of the server or of a remote call *)
#[export] Instance OpError_eq : EqDecision OpError.
Proof. solve_decision. Defined.

(** identity.IdentityContext: the fields the operations read. *)
Record IdentityContext := mkActor {
  u_StationID : string; u_SessionID : string; u_UserID : string; u_OrganizationID : string;
  u_Roles : list string; u_Scopes : list string }.

(** ** Installations and lifecycle operations *)
Record Installation := mkInstallation {
  i_InstallationID : string; i_AppID : string; i_AppVersion : string; i_StationID : string;
  i_OrganizationID : string; i_State : string; i_Revision : Z; i_LastOperationID : string;
  i_CreatedAt : Time; i_UpdatedAt : Time }.
#[export] Instance Installation_eq : EqDecision Installation.
Proof. solve_decision. Defined.

Record Command := mkCommand {
  c_ExpectedWorkloadUID : string; c_RequestID : string; c_IdempotencyKey : string;
  c_OrganizationID : string; c_StationID : string; c_AppID : string; c_AppVersion : string;
  c_Action : string }.
#[export] Instance Command_eq : EqDecision Command.
Proof. solve_decision. Defined.

(** releasebinding.Binding. *)
Record ReleaseBinding := mkReleaseBinding {
  rb_ReleaseRef : string; rb_AppID : string; rb_AppVersion : string;
  rb_PackageDigest : string; rb_ChartDigest : string; rb_TemplateDigest : string }.
#[export] Instance ReleaseBinding_eq : EqDecision ReleaseBinding.
Proof. solve_decision. Defined.

Record AppCenterExpected := mkExpected {
  e_InstallationID : option string; e_InstallationRevision : option Z; e_AppVersion : string;
  e_ReleaseDigest : option string; e_WorkloadUID : option string; e_PolicyRevision : string }.
#[export] Instance AppCenterExpected_eq : EqDecision AppCenterExpected.
Proof. solve_decision. Defined.

Record AppCenterCommand := mkAppCenterCommand {
  ac_SchemaVersion : Z; ac_Command : Command; ac_Expected : AppCenterExpected }.
#[export] Instance AppCenterCommand_eq : EqDecision AppCenterCommand.
Proof. solve_decision. Defined.

(** [marketRelease] is not exported, so the stored JSON never carries it. *)
Record AppCenterExecution := mkExecution {
  x_AppID : string; x_AppVersion : string; x_Action : string; x_SchemaVersion : Z;
  x_ReleaseDigest : string; x_TemplateDigest : string; x_PolicyRevision : string;
  x_WorkloadUID : string; x_marketRelease : bool }.
#[export] Instance AppCenterExecution_eq : EqDecision AppCenterExecution.
Proof. solve_decision. Defined.

(** A row of station.app_operations. *)
Record OperationRow := mkOperation {
  o_OperationID : string; o_RequestID : string; o_UserID : string; o_OrganizationID : string;
  o_StationID : string; o_AppID : string; o_AppVersion : string; o_Action : string;
  o_Status : string; o_Phase : string; o_DownloadedBytes : Z; o_TotalBytes : option Z;
  o_ErrorCode : option string; o_ErrorMessage : option string;
  o_IdempotencyKey : string; o_RequestHash : list Z; o_ExpectedWorkloadUID : string;
  o_InstallationID : option string; o_UpdatedAt : Time }.

(** ** Version transitions *)
Record TransitionCommand := mkTransitionCommand {
  tc_RequestID : string; tc_IdempotencyKey : string; tc_InstallationID : string;
  tc_ExpectedRevision : Z; tc_SourceVersion : string; tc_TargetReleaseRef : string;
  tc_Action : string }.

(** [CompatibleWorkerVersions] is a slice: nil ([None]) and empty differ. *)
Record TransitionSnapshot := mkSnapshot {
  s_AppID : string; s_AppVersion : string; s_ReleaseRef : string; s_ReleaseDigest : string;
  s_ManifestDigest : string; s_TemplateDigest : string; s_DashboardDigest : string;
  s_DataContract : string; s_DefaultWorkerVersion : string;
  s_CompatibleWorkerVersions : option (list string);
  s_ReleaseKind : string; s_AppImageDigest : string }.
#[export] Instance TransitionSnapshot_eq : EqDecision TransitionSnapshot.
Proof. solve_decision. Defined.

Record Transition := mkTransition {
  t_OperationID : string; t_InstallationID : string; t_RequestID : string; t_Action : string;
  t_ExpectedRevision : Z; t_Source : TransitionSnapshot; t_Target : TransitionSnapshot;
  t_Status : string; t_Phase : string; t_CreatedAt : Time; t_UpdatedAt : Time }.
#[export] Instance Transition_eq : EqDecision Transition.
Proof. solve_decision. Defined.

(** A row of station.app_installation_transitions: the transition and the columns
    that are not part of it. *)
Record TransitionRow := mkTransitionRow {
  tr_T : Transition; tr_UserID : string; tr_OrganizationID : string; tr_StationID : string;
  tr_AppID : string; tr_IdempotencyKey : string; tr_RequestHash : list Z;
  tr_SourceVersion : string; tr_TargetVersion : string }.

(** ** Forward recoveries *)
Record ForwardRecovery := mkForward {
  f_RecoveryID : string; f_OperationID : string; f_ExpectedRevision : Z;
  f_InstalledVersion : string; f_ParentInputDigest : string; f_Target : TransitionSnapshot;
  f_InputDigest : string; f_State : string; f_Proof : option string }.

Record ForwardRow := mkForwardRow {
  fr_F : ForwardRecovery; fr_UserID : string; fr_OrganizationID : string; fr_StationID : string;
  fr_RequestID : string; fr_IdempotencyKey : string; fr_RequestHash : list Z }.

(** ** Audit *)
Record AuditEvent := mkAudit {
  a_RequestID : string; a_UserID : string; a_OrganizationID : string;
  a_SessionID : option string; a_Action : string; a_Outcome : string }.

(** ** The tables *)
Record DB := mkDB {
  app_installations : gmap string Installation;
  app_operations : gmap string OperationRow;
  app_installation_transitions : gmap string TransitionRow;
  forward_recoveries : gmap string ForwardRow;
  (** Written by Runtime: recovery id -> (input digest, proof). *)
  forward_proofs : gmap string (string * string);
  preinstalled_operation_bindings : gmap string ReleaseBinding;
  preinstalled_installation_bindings : gmap string ReleaseBinding;
  appcenter_operation_inputs : gmap string (AppCenterCommand * AppCenterExecution);
  audit_events : list AuditEvent }.

Definition set_installations x (db : DB) : DB :=
  mkDB x (app_operations db) (app_installation_transitions db) (forward_recoveries db)
    (forward_proofs db) (preinstalled_operation_bindings db) (preinstalled_installation_bindings db)
    (appcenter_operation_inputs db) (audit_events db).
Definition set_operations x (db : DB) : DB :=
  mkDB (app_installations db) x (app_installation_transitions db) (forward_recoveries db)
    (forward_proofs db) (preinstalled_operation_bindings db) (preinstalled_installation_bindings db)
    (appcenter_operation_inputs db) (audit_events db).
Definition set_transitions x (db : DB) : DB :=
  mkDB (app_installations db) (app_operations db) x (forward_recoveries db)
    (forward_proofs db) (preinstalled_operation_bindings db) (preinstalled_installation_bindings db)
    (appcenter_operation_inputs db) (audit_events db).
Definition set_recoveries x (db : DB) : DB :=
  mkDB (app_installations db) (app_operations db) (app_installation_transitions db) x
    (forward_proofs db) (preinstalled_operation_bindings db) (preinstalled_installation_bindings db)
    (appcenter_operation_inputs db) (audit_events db).
Definition set_operation_bindings x (db : DB) : DB :=
  mkDB (app_installations db) (app_operations db) (app_installation_transitions db) (forward_recoveries db)
    (forward_proofs db) x (preinstalled_installation_bindings db)
    (appcenter_operation_inputs db) (audit_events db).
Definition set_installation_bindings x (db : DB) : DB :=
  mkDB (app_installations db) (app_operations db) (app_installation_transitions db) (forward_recoveries db)
    (forward_proofs db) (preinstalled_operation_bindings db) x
    (appcenter_operation_inputs db) (audit_events db).
Definition set_inputs x (db : DB) : DB :=
  mkDB (app_installations db) (app_operations db) (app_installation_transitions db) (forward_recoveries db)
    (forward_proofs db) (preinstalled_operation_bindings db) (preinstalled_installation_bindings db)
    x (audit_events db).
Definition add_audit (e : AuditEvent) (db : DB) : DB :=
  mkDB (app_installations db) (app_operations db) (app_installation_transitions db) (forward_recoveries db)
    (forward_proofs db) (preinstalled_operation_bindings db) (preinstalled_installation_bindings db)
    (appcenter_operation_inputs db) (audit_events db ++ [e]).

Definition Tx (A : Type) := DB -> result OpError (A * DB).

(** Run a transaction body over a connection whose outcome is [pg]. *)
Definition Pg := option string.
Definition run_tx {A} (pg : Pg) (body : Tx A) (db : DB) : DB * result OpError A :=
  match pg with
  | Some e => (db, Err (ErrExternal e))
  | None => match body db with
            | Ok (a, db') => (db', Ok a)
            | Err e => (db, Err e)
            end
  end.

(** First row of a table that satisfies the WHERE clause, for clauses that a
    unique index makes match at most one row. *)
Definition select_row {A} (P : A -> bool) (m : gmap string A) : option A :=
  head (filter (fun a => P a = true) (snd <$> map_to_list m)).
Definition exists_row {A} (P : A -> bool) (m : gmap string A) : bool :=
  existsb P (snd <$> map_to_list m).

(** ** Field updates of rows *)
Definition i_with (version state : string) (revision : Z) (last : string) (now : Time)
    (i : Installation) : Installation :=
  mkInstallation (i_InstallationID i) (i_AppID i) version (i_StationID i) (i_OrganizationID i)
    state revision last (i_CreatedAt i) now.
Definition t_with (status phase : string) (now : Time) (t : Transition) : Transition :=
  mkTransition (t_OperationID t) (t_InstallationID t) (t_RequestID t) (t_Action t)
    (t_ExpectedRevision t) (t_Source t) (t_Target t) status phase (t_CreatedAt t) now.
Definition tr_with (status phase : string) (now : Time) (r : TransitionRow) : TransitionRow :=
  mkTransitionRow (t_with status phase now (tr_T r)) (tr_UserID r) (tr_OrganizationID r)
    (tr_StationID r) (tr_AppID r) (tr_IdempotencyKey r) (tr_RequestHash r)
    (tr_SourceVersion r) (tr_TargetVersion r).
Definition f_with_state (state : string) (f : ForwardRecovery) : ForwardRecovery :=
  mkForward (f_RecoveryID f) (f_OperationID f) (f_ExpectedRevision f) (f_InstalledVersion f)
    (f_ParentInputDigest f) (f_Target f) (f_InputDigest f) state (f_Proof f).
Definition fr_with_state (state : string) (r : ForwardRow) : ForwardRow :=
  mkForwardRow (f_with_state state (fr_F r)) (fr_UserID r) (fr_OrganizationID r) (fr_StationID r)
    (fr_RequestID r) (fr_IdempotencyKey r) (fr_RequestHash r).

(** ** JSON *)
Definition command_json (c : Command) : json :=
  JObj ((if (c_ExpectedWorkloadUID c =? "")%string then []
         else [("expected_workload_uid", JStr (c_ExpectedWorkloadUID c))]) ++
    [("request_id", JStr (c_RequestID c)); ("idempotency_key", JStr (c_IdempotencyKey c));
     ("organization_id", JStr (c_OrganizationID c)); ("station_id", JStr (c_StationID c));
     ("app_id", JStr (c_AppID c)); ("app_version", JStr (c_AppVersion c));
     ("action", JStr (c_Action c))]).
Definition binding_json (b : ReleaseBinding) : json :=
  JObj [("releaseRef", JStr (rb_ReleaseRef b)); ("appId", JStr (rb_AppID b));
        ("appVersion", JStr (rb_AppVersion b)); ("packageDigest", JStr (rb_PackageDigest b));
        ("chartDigest", JStr (rb_ChartDigest b)); ("templateDigest", JStr (rb_TemplateDigest b))].
Definition expected_json (e : AppCenterExpected) : json :=
  JObj [("installationId", jopt JStr (e_InstallationID e));
        ("installationRevision", jopt JInt (e_InstallationRevision e));
        ("appVersion", JStr (e_AppVersion e)); ("releaseDigest", jopt JStr (e_ReleaseDigest e));
        ("workloadUID", jopt JStr (e_WorkloadUID e)); ("policyRevision", JStr (e_PolicyRevision e))].
Definition appcenter_command_json (c : AppCenterCommand) : json :=
  JObj [("schemaVersion", JInt (ac_SchemaVersion c)); ("command", command_json (ac_Command c));
        ("expected", expected_json (ac_Expected c))].
Definition transition_command_json (c : TransitionCommand) : json :=
  JObj [("request_id", JStr (tc_RequestID c)); ("idempotency_key", JStr (tc_IdempotencyKey c));
        ("installation_id", JStr (tc_InstallationID c));
        ("expected_revision", JInt (tc_ExpectedRevision c));
        ("source_version", JStr (tc_SourceVersion c));
        ("target_release_ref", JStr (tc_TargetReleaseRef c)); ("action", JStr (tc_Action c))].
Definition snapshot_json (s : TransitionSnapshot) : json :=
  JObj ([("app_id", JStr (s_AppID s)); ("app_version", JStr (s_AppVersion s));
     ("release_ref", JStr (s_ReleaseRef s)); ("release_digest", JStr (s_ReleaseDigest s));
     ("manifest_digest", JStr (s_ManifestDigest s)); ("template_digest", JStr (s_TemplateDigest s));
     ("dashboard_digest", JStr (s_DashboardDigest s)); ("data_contract", JStr (s_DataContract s));
     ("default_worker_version", JStr (s_DefaultWorkerVersion s));
     ("compatible_worker_versions", jopt jstrs (s_CompatibleWorkerVersions s))]
    ++ (if (s_ReleaseKind s =? "")%string then [] else [("release_kind", JStr (s_ReleaseKind s))])
    ++ (if (s_AppImageDigest s =? "")%string then []
        else [("app_image_digest", JStr (s_AppImageDigest s))])).

Definition sha256_sum (text : string) : list Z := Sha256.sum (Sha256.bytes_of text).

(** ** Lemmas *)

Lemma run_tx_ok {A} pg (body : Tx A) db db' a :
  run_tx pg body db = (db', Ok a) -> pg = None /\ body db = Ok (a, db').
Proof. unfold run_tx. destruct pg; [done |]. destruct (body db) as [[a' d] |]; [| done]. by intros [= -> ->]. Qed.

Lemma run_tx_err {A} pg (body : Tx A) db db' e : run_tx pg body db = (db', Err e) -> db' = db.
Proof. unfold run_tx. destruct pg; [by intros [= <- _] |]. destruct (body db) as [[a' d] |]; by intros [= <- _]. Qed.

Lemma exists_row_true {A} (P : A -> bool) (m : gmap string A) :
  exists_row P m = true <-> exists k a, m !! k = Some a /\ P a = true.
Proof.
  unfold exists_row. rewrite existsb_exists. split.
  - intros (a & Ha & HP). apply list_elem_of_In, list_elem_of_fmap in Ha as ([k a'] & -> & Hk).
    apply elem_of_map_to_list in Hk. eauto.
  - intros (k & a & Hk & HP). exists a. split; [| done]. apply list_elem_of_In, list_elem_of_fmap.
    exists (k, a). split; [done |]. by apply elem_of_map_to_list.
Qed.

Lemma exists_row_false {A} (P : A -> bool) (m : gmap string A) :
  exists_row P m = false <-> forall k a, m !! k = Some a -> P a = false.
Proof.
  rewrite <- not_true_iff_false, exists_row_true. split.
  - intros H k a Hk. destruct (P a) eqn:E; [| done]. exfalso. eauto.
  - intros H (k & a & Hk & HP). by rewrite (H k a Hk) in HP.
Qed.

Lemma select_row_some {A} (P : A -> bool) (m : gmap string A) a :
  select_row P m = Some a -> exists k, m !! k = Some a /\ P a = true.
Proof.
  unfold select_row. intros H. assert (Ha : a ∈ filter (fun a => P a = true) (snd <$> map_to_list m)).
  { destruct (filter _ _); [done |]. injection H as ->. left. }
  apply list_elem_of_filter in Ha as [HP ([k a'] & -> & Hk)%list_elem_of_fmap].
  apply elem_of_map_to_list in Hk. eauto.
Qed.

Lemma select_row_none {A} (P : A -> bool) (m : gmap string A) :
  select_row P m = None -> forall k a, m !! k = Some a -> P a = false.
Proof.
  unfold select_row. intros H k a Hk. destruct (P a) eqn:E; [| done].
  assert (Ha : a ∈ filter (fun a => P a = true) (snd <$> map_to_list m)).
  { apply list_elem_of_filter. split; [done |]. apply list_elem_of_fmap. exists (k, a).
    split; [done |]. by apply elem_of_map_to_list. }
  destruct (filter _ _); [by apply elem_of_nil in Ha | done].
Qed.
