(* ===== verification/Transitions.v ===== *)
(** * Accepting a version transition

    internal/operations/transitions.go and transition_admission.go: the validity
    of commands and release snapshots, the compatibility rule, the durable
    acceptance of a transition with its idempotent replay, and the managed gate. *)
From S2P Require Import Prelude GoStd Sha256 GoJson Uuid OperationTypes.
From Stdlib Require Import Ascii.

Module TransitionPatterns.
Import Regexp.
(** [0|[1-9][0-9]*] *)
Definition number : re :=
  Alt (lit "0") (Cat (Class (in_range "1" "9")) (Star (Class is_digit))).
Definition version : re := Cat number (Cat (lit ".") (Cat number (Cat (lit ".") number))).
(** [^[a-z0-9][a-z0-9._-]{0,127}$] *)
Definition name_byte (c : ascii) : bool := lower_alnum c || one_of "._-" c.
Definition name : re := Cat (Class lower_alnum) (upto 127 (Class name_byte)).
(** [^sha256:[a-f0-9]{64}$] *)
Definition digest : re := Cat (lit "sha256:") (times 64 (Class lower_hex)).
End TransitionPatterns.

Definition transitionVersion (s : string) : bool := Regexp.matches TransitionPatterns.version s.
Definition transitionName (s : string) : bool := Regexp.matches TransitionPatterns.name s.
Definition transitionDigest (s : string) : bool := Regexp.matches TransitionPatterns.digest s.

Definition validTransitionVersion (v : string) : bool := (len v <=? 64) && transitionVersion v.

(** ** Validity *)

Definition snapshot_valid (s : TransitionSnapshot) : bool :=
  if negb (transitionName (s_AppID s)) || negb (validTransitionVersion (s_AppVersion s))
     || negb (transitionName (s_ReleaseRef s)) || negb (transitionDigest (s_ReleaseDigest s))
     || negb (transitionDigest (s_ManifestDigest s)) || negb (transitionDigest (s_TemplateDigest s))
     || negb (transitionDigest (s_DashboardDigest s)) then false
  else if (s_ReleaseKind s =? "dashboard-release")%string then
    (s_DataContract s =? "")%string && (s_DefaultWorkerVersion s =? "")%string
    && bool_decide (s_CompatibleWorkerVersions s = Some []) && transitionDigest (s_AppImageDigest s)
  else
    let workers := from_nil [] (s_CompatibleWorkerVersions s) in
    if negb (s_ReleaseKind s =? "")%string || negb (s_AppImageDigest s =? "")%string
       || negb (transitionName (s_DataContract s)) || (Z.of_nat (length workers) =? 0)
       || (128 <? Z.of_nat (length workers))
       || negb (slices_contains workers (s_DefaultWorkerVersion s)) then false
    else scan_distinct validTransitionVersion (fun v => v) ∅ workers.

(** [x[i]] and [y[i]] for every index of [x]; a missing [y[i]] panics. *)
Fixpoint compare_parts (x y : list string) : option Z :=
  match x, y with
  | [], _ => Some 0
  | _ :: _, [] => None
  | a :: x', b :: y' =>
      if len a <? len b then Some (-1)
      else if len b <? len a then Some 1
      else if str_ltb a b then Some (-1)
      else if str_ltb b a then Some 1
      else compare_parts x' y'
  end.
Definition compareTransitionVersions (a b : string) : option Z :=
  compare_parts (split_byte "." a) (split_byte "." b).

Definition compatibleTransition (c : TransitionCommand) (installed : Installation)
    (source target : TransitionSnapshot) : bool :=
  if negb (snapshot_valid source) || negb (snapshot_valid target)
     || negb (s_AppID source =? i_AppID installed)%string
     || negb (s_AppID target =? i_AppID installed)%string
     || negb (s_AppVersion source =? i_AppVersion installed)%string
     || negb (s_AppVersion source =? tc_SourceVersion c)%string
     || negb (s_ReleaseRef target =? tc_TargetReleaseRef c)%string
     || negb (s_DataContract source =? s_DataContract target)%string
     || negb (s_ReleaseKind source =? s_ReleaseKind target)%string
     || (s_ReleaseRef source =? s_ReleaseRef target)%string then false
  else match compareTransitionVersions (s_AppVersion target) (s_AppVersion source) with
  | None => false
  | Some direction =>
      if ((tc_Action c =? "upgrade")%string && (direction <=? 0))
         || ((tc_Action c =? "rollback")%string && (0 <=? direction)) then false
      else forallb (slices_contains (from_nil [] (s_CompatibleWorkerVersions target)))
             (from_nil [] (s_CompatibleWorkerVersions source))
  end.

Definition transitionHash (c : TransitionCommand) : list Z :=
  sha256_sum (marshal (transition_command_json
    (mkTransitionCommand "" (tc_IdempotencyKey c) (tc_InstallationID c) (tc_ExpectedRevision c)
       (tc_SourceVersion c) (tc_TargetReleaseRef c) (tc_Action c)))).

(** ** Statements *)

Definition terminal (status : string) : bool :=
  (status =? "succeeded")%string || (status =? "failed")%string.
Definition active_operation (station app : string) (o : OperationRow) : bool :=
  (o_StationID o =? station)%string && (o_AppID o =? app)%string
  && ((o_Status o =? "accepted")%string || (o_Status o =? "running")%string).
Definition owned_by (user org station : string) (r : TransitionRow) : bool :=
  (tr_UserID r =? user)%string && (tr_OrganizationID r =? org)%string
  && (tr_StationID r =? station)%string.

(** The CHECK constraints of the table on a row. *)
Definition transition_checks (r : TransitionRow) : bool :=
  let t := tr_T r in
  let s := t_Status t in let p := t_Phase t in
  slices_contains ["upgrade"; "rollback"] (t_Action t) && (0 <? t_ExpectedRevision t)
  && slices_contains ["accepted"; "running"; "succeeded"; "failed"; "recovery_required"] s
  && slices_contains ["accepted"; "checking"; "sealing"; "applying"; "verifying"; "publishing";
                      "releasing"; "restoring"; "recovery_required"; "completed"] p
  && negb (tr_SourceVersion r =? tr_TargetVersion r)%string
  && Bool.eqb (terminal s) (p =? "completed")%string
  && Bool.eqb (s =? "accepted")%string (p =? "accepted")%string
  && Bool.eqb (s =? "recovery_required")%string (p =? "recovery_required")%string.

(** INSERT: the primary key, both unique indexes and the checks. *)
Definition insert_transition (r : TransitionRow) (db : DB) : result OpError DB :=
  let m := app_installation_transitions db in
  let id := t_OperationID (tr_T r) in
  if bool_decide (is_Some (m !! id))
     || exists_row (fun x => owned_by (tr_UserID r) (tr_OrganizationID r) (tr_StationID r) x
                             && (tr_IdempotencyKey x =? tr_IdempotencyKey r)%string) m
     || exists_row (fun x => (t_InstallationID (tr_T x) =? t_InstallationID (tr_T r))%string
                             && negb (terminal (t_Status (tr_T x)))) m
     || negb (transition_checks r)
  then Err ErrConstraint
  else Ok (set_transitions (<[id := r]> m) db).

Section Accept.
Context {U : UuidLib}.

Definition command_valid (c : TransitionCommand) : bool :=
  (0 <? len (tc_RequestID c)) && (len (tc_RequestID c) <=? 128)
  && (8 <=? len (tc_IdempotencyKey c)) && (len (tc_IdempotencyKey c) <=? 128)
  && canonicalInstallation (tc_InstallationID c) && (0 <? tc_ExpectedRevision c)
  && validTransitionVersion (tc_SourceVersion c) && transitionName (tc_TargetReleaseRef c)
  && ((tc_Action c =? "upgrade")%string || (tc_Action c =? "rollback")%string).

Definition readTransition (db : DB) (user org station id : string) : result OpError Transition :=
  match app_installation_transitions db !! id with
  | None => Err ErrNoRows
  | Some r =>
      if negb (owned_by user org station r) then Err ErrNoRows
      else if negb (snapshot_valid (t_Source (tr_T r))) || negb (snapshot_valid (t_Target (tr_T r)))
      then Err (ErrPlain "invalid saved transition snapshots")
      else Ok (tr_T r)
  end.

Definition canReadInstallations (station : string) (u : IdentityContext) : bool :=
  (u_StationID u =? station)%string && slices_contains (u_Roles u) "admin"
  && slices_contains (u_Scopes u) "app:read".

Definition GetTransition (station : string) (u : IdentityContext) (id : string) (db : DB)
    : result OpError Transition :=
  if negb (canReadInstallations station u) then Err Denied
  else if negb (canonicalInstallation id) then Err ErrNoRows
  else readTransition db (u_UserID u) (u_OrganizationID u) station id.

Definition readInstallation (db : DB) (id station org : string) : result OpError Installation :=
  match app_installations db !! id with
  | Some i => if (i_StationID i =? station)%string && (i_OrganizationID i =? org)%string
              then Ok i else Err ErrNoRows
  | None => Err ErrNoRows
  end.

(** [retainTransitionReferences]: an accepted snapshot pins its release reference;
    the two references are visited in sorted order. *)
Definition reference_changed (db : DB) (s : TransitionSnapshot) : bool :=
  exists_row (fun r =>
    ((s_ReleaseRef (t_Source (tr_T r)) =? s_ReleaseRef s)%string && negb (bool_decide (t_Source (tr_T r) = s)))
    || ((s_ReleaseRef (t_Target (tr_T r)) =? s_ReleaseRef s)%string && negb (bool_decide (t_Target (tr_T r) = s))))
    (app_installation_transitions db).
Definition retainTransitionReferences (db : DB) (source target : TransitionSnapshot) : result OpError unit :=
  if existsb (reference_changed db) (sort_by s_ReleaseRef [source; target]) then Err Conflict else Ok tt.

(** A release reader: the verified source and target snapshots. *)
Definition TransitionReader :=
  IdentityContext -> Installation -> string -> result OpError (TransitionSnapshot * TransitionSnapshot).

Definition select_first (reader fallback : option TransitionReader) : option TransitionReader :=
  match reader with Some r => Some r | None => fallback end.

(** The body of the transaction: [id] is the drawn UUIDv7. *)
Definition submit_body (station : string) (u : IdentityContext) (c : TransitionCommand)
    (reader fallback : option TransitionReader) (id : string) (now : Time) : Tx Transition := fun db =>
  match select_row (fun r => owned_by (u_UserID u) (u_OrganizationID u) station r
                             && (tr_IdempotencyKey r =? tc_IdempotencyKey c)%string)
          (app_installation_transitions db) with
  | Some original =>
      if negb (bool_decide (tr_RequestHash original = transitionHash c)) then Err Conflict
      else t ← readTransition db (u_UserID u) (u_OrganizationID u) station (t_OperationID (tr_T original));
           Ok (t, db)
  | None =>
      installed ← readInstallation db (tc_InstallationID c) station (u_OrganizationID u);
      let app := i_AppID installed in
      if negb (i_State installed =? "installed")%string
         || negb (i_Revision installed =? tc_ExpectedRevision c)
         || negb (i_AppVersion installed =? tc_SourceVersion c)%string then Err Conflict
      else if exists_row (active_operation station app) (app_operations db)
           || exists_row (fun r => (t_InstallationID (tr_T r) =? tc_InstallationID c)%string
                                   && negb (terminal (t_Status (tr_T r)))) (app_installation_transitions db)
      then Err Conflict
      else match select_first reader fallback with
      | None => Err (ErrPlain "verified transition release reader unavailable")
      | Some read =>
          '(source, target) ← read u installed (tc_TargetReleaseRef c);
          if negb (compatibleTransition c installed source target) then Err Invalid
          else
            _ ← retainTransitionReferences db source target;
            let t := mkTransition id (tc_InstallationID c) (tc_RequestID c) (tc_Action c)
                       (tc_ExpectedRevision c) source target "accepted" "accepted" now now in
            db1 ← insert_transition (mkTransitionRow t (u_UserID u) (u_OrganizationID u) station app
                       (tc_IdempotencyKey c) (transitionHash c) (s_AppVersion source) (s_AppVersion target)) db;
            let db2 := add_audit (mkAudit (tc_RequestID c) (u_UserID u) (u_OrganizationID u)
                         (Some (u_SessionID u)) ("app." +:+ tc_Action c +:+ ".accepted") "succeeded") db1 in
            out ← readTransition db2 (u_UserID u) (u_OrganizationID u) station id;
            Ok (out, db2)
      end
  end.

Definition SubmitTransition (station : string) (pg : Pg) (u : IdentityContext) (c : TransitionCommand)
    (reader fallback : option TransitionReader) (id : string) (now : Time) (db : DB)
    : DB * result OpError Transition :=
  if negb (u_StationID u =? station)%string || negb (slices_contains (u_Roles u) "admin")
     || negb (slices_contains (u_Scopes u) "app:manage") then (db, Err Denied)
  else if negb (command_valid c) then (db, Err Invalid)
  else run_tx pg (submit_body station u c reader fallback id now) db.

(** ** The managed gate *)

(** What [ConfigureTransitionAdmission] reads of the service and the runtime. *)
Record AdmissionConfig := mkAdmission {
  ad_runtime : bool;           (** the runtime and its client are present *)
  ad_endpoint : string; ad_token : string;
  ad_hasReleases : bool }.     (** [hasTransitionReleases] *)

(** [hasTransitionReleases]: [None] is an absent source, the strings are paths. *)
Definition hasTransitionReleases (releases : option string)
    (appcenter : option (string * option string)) : bool :=
  match releases with Some p => negb (p =? "")%string | None => false end
  || match appcenter with
     | Some (p, Some d) => negb (p =? "")%string && negb (d =? "")%string
     | _ => false
     end.

(** The new value of [transitionAdmissionEnabled] and the error. *)
Definition ConfigureTransitionAdmission (value : string) (cfg : AdmissionConfig) : bool * option OpError :=
  if (value =? "")%string || (value =? "false")%string then (false, None)
  else if negb (value =? "true")%string || negb (ad_runtime cfg) || (ad_endpoint cfg =? "")%string
          || (ad_token cfg =? "")%string || negb (ad_hasReleases cfg)
  then (false, Some (ErrPlain "invalid transition admission configuration"))
  else (true, None).

Definition managed_reader (enabled : bool) (read : TransitionReader) : TransitionReader :=
  fun u installed ref => if negb enabled then Err ErrTransitionAdmissionDisabled else read u installed ref.

Definition SubmitManagedTransition (station : string) (enabled : bool) (read : TransitionReader)
    (pg : Pg) (u : IdentityContext) (c : TransitionCommand) (id : string) (now : Time) (db : DB) :=
  SubmitTransition station pg u c (Some (managed_reader enabled read)) None id now db.
End Accept.
