(* ===== verification/TransitionFacts.v ===== *)
(** * Facts about version transitions

    The version order of the code is the numeric order, acceptance is idempotent,
    and the managed gate admits nothing when it is closed. *)
From S2P Require Import Prelude GoStd Sha256 GoJson Uuid OperationTypes Transitions.
From Stdlib Require Import Ascii.

(** ** Version numbers *)

(** A canonical decimal: ["0"] or digits without a leading zero. *)
Fixpoint all_digits (s : string) : bool :=
  match s with EmptyString => true | String c s' => is_digit c && all_digits s' end.
Definition canonical_number (s : string) : Prop :=
  s = "0" \/ exists c t, s = String c t /\ in_range "1" "9" c = true /\ all_digits t = true.

Definition digit_of (c : ascii) : Z := byte_of c - 48.
(** The value of a digit string, most significant digit first. *)
Fixpoint number_value (s : string) : Z :=
  match s with
  | EmptyString => 0
  | String c s' => digit_of c * 10 ^ len s' + number_value s'
  end.
Definition version_numbers (v : string) : list Z := map number_value (split_byte "." v).

(** Lexicographic three-way comparison of number lists of equal length. *)
Fixpoint compare_numbers (x y : list Z) : Z :=
  match x, y with
  | a :: x', b :: y' => if a <? b then -1 else if b <? a then 1 else compare_numbers x' y'
  | _, _ => 0
  end.

Lemma len_cons c s : len (String c s) = len s + 1.
Proof. unfold len. simpl. lia. Qed.
Lemma len_nonneg s : 0 <= len s.
Proof. unfold len. lia. Qed.

Lemma digit_range c : is_digit c = true -> 0 <= digit_of c <= 9.
Proof. unfold is_digit, digit_of. intros. bool_norm. lia. Qed.

Lemma number_value_range s : all_digits s = true -> 0 <= number_value s < 10 ^ len s.
Proof.
  induction s as [| c s IH]; simpl; [done |]. intros. bool_norm. specialize (IH H0).
  apply digit_range in H. pose proof (len_nonneg s). rewrite len_cons, Z.pow_add_r by lia. nia.
Qed.

Lemma nonzero_digit c : in_range "1" "9" c = true -> is_digit c = true /\ 1 <= digit_of c.
Proof.
  unfold in_range, is_digit, digit_of. change (byte_of "1") with 49. change (byte_of "9") with 57.
  intros. bool_norm. rewrite andb_true_iff, !Z.leb_le. lia.
Qed.

Lemma canonical_digits s : canonical_number s -> all_digits s = true /\ 0 < len s /\
  (1 < len s -> 10 ^ (len s - 1) <= number_value s).
Proof.
  intros [-> | (c & t & -> & Hc & Ht)]; [done |].
  destruct (nonzero_digit c Hc) as [Hd H1].
  simpl. rewrite Hd, Ht, len_cons. pose proof (len_nonneg t). split_and!; [done | lia |]. intros _.
  replace (len t + 1 - 1) with (len t) by lia. pose proof (number_value_range t Ht).
  nia.
Qed.

(** Digit strings of one length compare as numbers exactly as they do as bytes. *)
Lemma same_length_order x y : len x = len y -> all_digits x = true -> all_digits y = true ->
  (str_ltb x y = true <-> number_value x < number_value y).
Proof.
  revert y. induction x as [| a x IH]; intros [| b y]; rewrite ?len_cons; intros Hl Hx Hy;
    try (pose proof (len_nonneg x)); try (pose proof (len_nonneg y)); try (unfold len in Hl; simpl in Hl; lia).
  - simpl. split; [done | lia].
  - simpl in Hx, Hy. apply andb_true_iff in Hx as [Ha Hx], Hy as [Hb Hy].
    assert (Hxy : len x = len y) by lia.
    pose proof (number_value_range x Hx). pose proof (number_value_range y Hy).
    cbn [str_ltb number_value]. rewrite Hxy in *. specialize (IH y eq_refl Hx Hy).
    unfold digit_of in *. destruct (byte_of a <? byte_of b) eqn:E1; bool_norm.
    { split; [nia | done]. }
    destruct (byte_of b <? byte_of a) eqn:E2; bool_norm.
    { split; [done | nia]. }
    assert (byte_of a = byte_of b) as -> by lia. rewrite IH. lia.
Qed.

Lemma canonical_order x y : canonical_number x -> canonical_number y ->
  (if len x <? len y then -1 else if len y <? len x then 1
   else if str_ltb x y then -1 else if str_ltb y x then 1 else 0) =
  (if number_value x <? number_value y then -1 else if number_value y <? number_value x then 1 else 0).
Proof.
  intros Hx Hy. destruct (canonical_digits x Hx) as (Dx & Lx & Bx).
  destruct (canonical_digits y Hy) as (Dy & Ly & By).
  pose proof (number_value_range x Dx). pose proof (number_value_range y Dy).
  assert (Hlt : forall a b, len a < len b -> 0 < len a -> number_value a < 10 ^ len a ->
    (1 < len b -> 10 ^ (len b - 1) <= number_value b) -> number_value a < number_value b).
  { intros a b Hab Ha Hva Hvb. specialize (Hvb ltac:(lia)).
    pose proof (Z.pow_le_mono_r 10 (len a) (len b - 1)). lia. }
  destruct (len x <? len y) eqn:E1; bool_norm.
  { specialize (Hlt x y E1 Lx ltac:(lia) By). by apply Z.ltb_lt in Hlt as ->. }
  destruct (len y <? len x) eqn:E2; bool_norm.
  { specialize (Hlt y x E2 Ly ltac:(lia) Bx). pose proof Hlt as Hlt'. apply Z.ltb_lt in Hlt as ->.
    destruct (number_value x <? number_value y) eqn:E; bool_norm; [lia | done]. }
  assert (Heq : len x = len y) by lia.
  pose proof (same_length_order x y Heq Dx Dy) as Hxy.
  pose proof (same_length_order y x (eq_sym Heq) Dy Dx) as Hyx.
  destruct (number_value x <? number_value y) eqn:E3; bool_norm.
  { by rewrite (proj2 Hxy E3). }
  destruct (str_ltb x y); [pose proof (proj1 Hxy eq_refl); lia |].
  destruct (number_value y <? number_value x) eqn:E5; bool_norm.
  { by rewrite (proj2 Hyx E5). }
  destruct (str_ltb y x); [pose proof (proj1 Hyx eq_refl); lia | done].
Qed.

Lemma canonical_equal x y : canonical_number x -> canonical_number y ->
  number_value x = number_value y -> x = y.
Proof.
  intros Hx Hy He. pose proof (canonical_order x y Hx Hy) as H. rewrite He, Z.ltb_irrefl in H.
  repeat match type of H with context [if ?c then _ else _] => destruct c eqn:? end; try done.
  by apply str_ltb_total.
Qed.

(** ** The version pattern *)
Section Pattern.
Import Regexp RegexpFacts.

Lemma lang_star_digits s : lang (Star (Class is_digit)) s -> all_digits s = true.
Proof.
  remember (Star (Class is_digit)) as r. induction 1; simplify_eq; [done |].
  apply lang_class_inv in H as (d & [= -> ->] & Hd). rewrite app_cons_str. simpl.
  rewrite Hd. by apply IHlang2.
Qed.

Lemma lang_number s : lang TransitionPatterns.number s -> canonical_number s.
Proof.
  intros [H | H]%lang_alt_inv.
  - left. apply lang_cat_inv in H as (a & b & -> & Ha & Hb).
    apply lang_class_inv in Ha as (c & -> & Hc). apply lang_empty_inv in Hb as ->.
    by apply bool_decide_eq_true in Hc as ->.
  - right. apply lang_cat_inv in H as (a & b & -> & Ha & Hb).
    apply lang_class_inv in Ha as (c & -> & Hc). apply lang_star_digits in Hb.
    exists c, b. by rewrite app_cons_str.
Qed.

Lemma lang_dot s : lang (lit ".") s -> s = ".".
Proof.
  intros (a & b & -> & Ha & Hb)%lang_cat_inv. apply lang_class_inv in Ha as (c & -> & Hc).
  apply lang_empty_inv in Hb as ->. by apply bool_decide_eq_true in Hc as ->.
Qed.

Lemma digit_not_dot c : is_digit c = true -> c <> "."%char.
Proof. intros H ->. done. Qed.

Lemma split_digits x rest : all_digits x = true ->
  split_byte "." (x +:+ String "." rest) = x :: split_byte "." rest.
Proof.
  induction x as [| c x IH]; intros H; [by rewrite (eq_refl : "" +:+ String "." rest = String "." rest) |].
  simpl in H. bool_norm. rewrite app_cons_str. simpl. rewrite bool_decide_false by by apply digit_not_dot.
  by rewrite IH.
Qed.
Lemma split_last x : all_digits x = true -> split_byte "." x = [x].
Proof.
  induction x as [| c x IH]; intros H; [done |]. simpl in H. bool_norm. simpl.
  rewrite bool_decide_false by by apply digit_not_dot. by rewrite IH.
Qed.

Lemma transitionVersion_parts v : transitionVersion v = true ->
  exists x y z, split_byte "." v = [x; y; z] /\
    canonical_number x /\ canonical_number y /\ canonical_number z.
Proof.
  unfold transitionVersion. rewrite matches_lang. intros H.
  apply lang_cat_inv in H as (x & v1 & -> & Hx & H). apply lang_cat_inv in H as (d & v2 & -> & ->%lang_dot & H).
  apply lang_cat_inv in H as (y & v3 & -> & Hy & H). apply lang_cat_inv in H as (d & z & -> & ->%lang_dot & Hz).
  apply lang_number in Hx, Hy, Hz. exists x, y, z. split; [| done].
  rewrite app_cons_str. change ("" +:+ ?s) with s. rewrite split_digits by by apply canonical_digits.
  change ("" +:+ ?s) with s. rewrite app_cons_str, split_digits by by apply canonical_digits.
  by rewrite split_last by by apply canonical_digits.
Qed.
End Pattern.

Lemma compare_parts_numbers xs ys : length xs = length ys ->
  Forall canonical_number xs -> Forall canonical_number ys ->
  compare_parts xs ys = Some (compare_numbers (map number_value xs) (map number_value ys)).
Proof.
  revert ys. induction xs as [| x xs IH]; intros [| y ys] Hl Hx Hy; try done.
  apply Forall_cons in Hx as [Hx Hxs]. apply Forall_cons in Hy as [Hy Hys].
  pose proof (canonical_order x y Hx Hy) as H. simpl. rewrite IH by (simpl in Hl; auto; lia).
  repeat match goal with |- context [if ?c then _ else _] => destruct c eqn:? end;
    repeat match type of H with context [if ?c then _ else _] => destruct c end; congruence.
Qed.

(** On versions that match the pattern the comparison never reads past a
    version's components, and comparing component lengths first and bytes second
    is the numeric comparison of the components, whatever their size. *)
Theorem compare_versions_is_numeric a b :
  transitionVersion a = true -> transitionVersion b = true ->
  compareTransitionVersions a b = Some (compare_numbers (version_numbers a) (version_numbers b)) /\
  (compareTransitionVersions a b = Some 0 <-> version_numbers a = version_numbers b).
Proof.
  intros (x & y & z & Ea & ? & ? & ?)%transitionVersion_parts (x' & y' & z' & Eb & ? & ? & ?)%transitionVersion_parts.
  unfold compareTransitionVersions, version_numbers. rewrite Ea, Eb.
  rewrite compare_parts_numbers by first [reflexivity | by repeat (apply Forall_cons_2; [done |]); apply Forall_nil_2]. split; [done |].
  simpl. split.
  - intros [= H5]. repeat match type of H5 with context [if ?c then _ else _] => destruct c eqn:? end; try done.
    bool_norm. assert (number_value x = number_value x') by lia.
    assert (number_value y = number_value y') by lia. assert (number_value z = number_value z') by lia.
    congruence.
  - intros [= -> -> ->]. by rewrite !Z.ltb_irrefl.
Qed.

(** ** Acceptance *)
Section Acceptance.
Context {U : UuidLib}.

Lemma insert_transition_ok r db db' : insert_transition r db = Ok db' ->
  let m := app_installation_transitions db in
  m !! t_OperationID (tr_T r) = None /\
  (forall k x, m !! k = Some x -> owned_by (tr_UserID r) (tr_OrganizationID r) (tr_StationID r) x
     && (tr_IdempotencyKey x =? tr_IdempotencyKey r)%string = false) /\
  (forall k x, m !! k = Some x -> t_InstallationID (tr_T x) = t_InstallationID (tr_T r) ->
     terminal (t_Status (tr_T x)) = true) /\
  transition_checks r = true /\ db' = set_transitions (<[t_OperationID (tr_T r) := r]> m) db.
Proof.
  unfold insert_transition. destruct (_ || _) eqn:E; [done |]. intros [= <-]. simpl.
  apply orb_false_iff in E as [E ?]. apply orb_false_iff in E as [E Ha]. apply orb_false_iff in E as [Hp Hk].
  bool_norm. split_and!; try done.
  - by apply eq_None_not_Some.
  - by rewrite exists_row_false in Hk.
  - intros k x Hx Hi. rewrite exists_row_false in Ha. specialize (Ha k x Hx). simpl in Ha.
    rewrite Hi, String.eqb_refl in Ha. simpl in Ha. by bool_norm.
Qed.

(** What a successful acceptance did: it replayed the original, or it inserted one
    accepted row, and one audit event, for an idle installation at the expected
    version and revision. *)
Lemma submit_body_cases station u c reader fallback id now db t db' :
  submit_body station u c reader fallback id now db = Ok (t, db') ->
  (db' = db /\ exists r, select_row (fun r => owned_by (u_UserID u) (u_OrganizationID u) station r
       && (tr_IdempotencyKey r =? tc_IdempotencyKey c)%string) (app_installation_transitions db) = Some r /\
     tr_RequestHash r = transitionHash c /\
     readTransition db (u_UserID u) (u_OrganizationID u) station (t_OperationID (tr_T r)) = Ok t) \/
  (exists installed source target read e,
     select_row (fun r => owned_by (u_UserID u) (u_OrganizationID u) station r
       && (tr_IdempotencyKey r =? tc_IdempotencyKey c)%string) (app_installation_transitions db) = None /\
     app_installations db !! tc_InstallationID c = Some installed /\
     i_StationID installed = station /\ i_OrganizationID installed = u_OrganizationID u /\
     i_State installed = "installed" /\ i_Revision installed = tc_ExpectedRevision c /\
     i_AppVersion installed = tc_SourceVersion c /\
     exists_row (active_operation station (i_AppID installed)) (app_operations db) = false /\
     select_first reader fallback = Some read /\ read u installed (tc_TargetReleaseRef c) = Ok (source, target) /\
     compatibleTransition c installed source target = true /\
     retainTransitionReferences db source target = Ok tt /\
     t = mkTransition id (tc_InstallationID c) (tc_RequestID c) (tc_Action c)
           (tc_ExpectedRevision c) source target "accepted" "accepted" now now /\
     (exists db1, insert_transition (mkTransitionRow t (u_UserID u) (u_OrganizationID u) station
         (i_AppID installed) (tc_IdempotencyKey c) (transitionHash c) (s_AppVersion source) (s_AppVersion target)) db = Ok db1 /\
       db' = add_audit e db1)).
Proof.
  unfold submit_body. destruct (select_row _ _) as [r |] eqn:Es.
  - destruct (negb _) eqn:Eh; [done |]. bool_norm. intros (x & Hx & [= <- <-])%mbind_ok. left. eauto.
  - intros (i & Hi & H)%mbind_ok. unfold readInstallation in Hi.
    destruct (app_installations db !! _) as [i' |] eqn:Ei; [| done]. inv_ok Hi.
    destruct (_ || _) eqn:E1 in H; [done |].
    destruct (_ || _) eqn:E2 in H; [done |].
    destruct (select_first reader fallback) as [read |] eqn:Er; [| done].
    apply mbind_ok in H as ([source target] & Hread & H).
    destruct (negb _) eqn:E3 in H; [done |].
    apply mbind_ok in H as ([] & Hret & H). apply mbind_ok in H as (db1 & Hins & H).
    apply mbind_ok in H as (out & Hout & [= <- <-]).
    bool_norm. right. exists i, source, target, read. eexists. split_and!; try done.
    + apply insert_transition_ok in Hins as Hd. destruct Hd as (_ & _ & _ & _ & ->).
      unfold readTransition in Hout. simpl in Hout. rewrite lookup_insert_eq in Hout.
      simpl in Hout. inv_ok Hout. done.
    + exists db1. split; [| done].
      apply insert_transition_ok in Hins as Hd. destruct Hd as (_ & _ & _ & _ & ->).
      unfold readTransition in Hout. simpl in Hout. rewrite lookup_insert_eq in Hout.
      simpl in Hout. inv_ok Hout. done.
Qed.

Lemma SubmitTransition_cases station pg u c reader fallback id now db db' t :
  SubmitTransition station pg u c reader fallback id now db = (db', Ok t) ->
  u_StationID u = station /\ slices_contains (u_Roles u) "admin" = true /\
  slices_contains (u_Scopes u) "app:manage" = true /\ command_valid c = true /\
  submit_body station u c reader fallback id now db = Ok (t, db').
Proof.
  unfold SubmitTransition. destruct (_ || _) eqn:E1; [done |].
  destruct (negb (command_valid c)) eqn:E2; [done |]. intros [_ H]%run_tx_ok. bool_norm. by split_and!.
Qed.

Lemma compatible_snapshots c i s t : compatibleTransition c i s t = true ->
  snapshot_valid s = true /\ snapshot_valid t = true.
Proof. unfold compatibleTransition. destruct (_ || _) eqn:E; [done |]. by bool_norm. Qed.

(** After a successful acceptance the row found under its key carries the hash of
    the command and reads back as the accepted transition. *)
Lemma accepted_row station u c reader fallback id now db db' t :
  submit_body station u c reader fallback id now db = Ok (t, db') ->
  exists r, select_row (fun r => owned_by (u_UserID u) (u_OrganizationID u) station r
       && (tr_IdempotencyKey r =? tc_IdempotencyKey c)%string) (app_installation_transitions db') = Some r /\
     tr_RequestHash r = transitionHash c /\
     readTransition db' (u_UserID u) (u_OrganizationID u) station (t_OperationID (tr_T r)) = Ok t.
Proof.
  intros [(-> & r & ? & ? & ?) | H]%submit_body_cases; [eauto |].
  destruct H as (i & source & target & read & e & _ & _ & _ & _ & _ & _ & _ & _ & _ & _ & Hc & _ & Ht & db1 & Hins & ->).
  apply insert_transition_ok in Hins as (_ & Hkey & _ & _ & ->). subst t. simpl in *.
  set (row := mkTransitionRow _ _ _ _ _ _ _ _ _) in *.
  destruct (select_row _ _) as [r |] eqn:Es.
  - apply select_row_some in Es as (k & Hk & HP). rewrite lookup_insert in Hk. case_decide; simplify_eq.
    + eexists. split_and!; [done | done |]. unfold readTransition, add_audit, set_transitions. simpl.
      rewrite lookup_insert_eq. unfold owned_by. simpl. rewrite !String.eqb_refl.
      destruct (compatible_snapshots _ _ _ _ Hc) as [-> ->]. done.
    + by rewrite (Hkey k r Hk) in HP.
  - exfalso. pose proof (select_row_none _ _ Es id row) as Hn. rewrite lookup_insert_eq in Hn.
    specialize (Hn eq_refl). unfold owned_by in Hn. simpl in Hn. by rewrite !String.eqb_refl in Hn.
Qed.

(** C14: acceptance is idempotent. Repeating an accepted command under its key, with
    any request id and whatever the release readers, the gate or the installation
    do meanwhile, returns the accepted transition and writes nothing; another
    command under that key is a conflict and writes nothing. *)
Theorem acceptance_is_idempotent station pg u c reader fallback id now db db1 t c' reader' fallback' id' now' :
  SubmitTransition station pg u c reader fallback id now db = (db1, Ok t) ->
  command_valid c' = true -> tc_IdempotencyKey c' = tc_IdempotencyKey c ->
  SubmitTransition station None u c' reader' fallback' id' now' db1 =
    (db1, if bool_decide (transitionHash c' = transitionHash c) then Ok t else Err Conflict).
Proof.
  intros (Hst & Hr & Hs & _ & Hb)%SubmitTransition_cases Hv Hk.
  apply accepted_row in Hb as (r & Hsel & Hh & Hread).
  unfold SubmitTransition. rewrite Hst, String.eqb_refl, Hr, Hs, Hv. simpl.
  unfold submit_body. rewrite Hk, Hsel, Hh.
  destruct (decide (transitionHash c = transitionHash c')) as [E | E].
  - rewrite !bool_decide_true by done. simpl. by rewrite Hread.
  - rewrite !bool_decide_false by (done || auto). done.
Qed.

(** The request id does not take part in the hash. *)
Lemma hash_ignores_request_id c rid :
  transitionHash (mkTransitionCommand rid (tc_IdempotencyKey c) (tc_InstallationID c) (tc_ExpectedRevision c)
    (tc_SourceVersion c) (tc_TargetReleaseRef c) (tc_Action c)) = transitionHash c.
Proof. done. Qed.

(** With the managed gate closed nothing is accepted: the tables stay as they
    are, and a transition is returned only as the durable replay of one accepted
    earlier under the same key and with the same content. *)
Theorem closed_gate_accepts_nothing station read pg u c id now db db' res :
  SubmitManagedTransition station false read pg u c id now db = (db', res) ->
  db' = db /\ (forall t, res = Ok t -> exists k r, app_installation_transitions db !! k = Some r /\
    tr_IdempotencyKey r = tc_IdempotencyKey c /\ tr_RequestHash r = transitionHash c /\
    owned_by (u_UserID u) (u_OrganizationID u) station r = true).
Proof.
  unfold SubmitManagedTransition. intros H. destruct res as [t | e].
  - apply SubmitTransition_cases in H as (_ & _ & _ & _ & H).
    apply submit_body_cases in H as [(-> & r & Hs & Hh & Ht) | H].
    + split; [done |]. intros _ _. apply select_row_some in Hs as (k & Hk & HP). bool_norm. eauto 10.
    + destruct H as (i & s & g & rd & e & _ & _ & _ & _ & _ & _ & _ & _ & Hsel & Hread & _).
      simpl in Hsel. by simplify_eq.
  - split; [| done]. unfold SubmitTransition in H. repeat case_match; simplify_eq; try done.
    by apply run_tx_err in H.
Qed.
End Acceptance.
