(* ===== verification/Dispatch.v ===== *)
(** * Dispatching an accepted transition

    internal/operations/transition_dispatch.go and transition_worker.go: one call
    reads the durable transition, asks Runtime to reconcile one step, and commits
    the next durable barrier in a second transaction that re-reads and compares
    everything the decision was based on. *)
From S2P Require Import Prelude GoStd Sha256 GoJson Uuid OperationTypes Transitions.

Record TransitionStep := mkStep {
  st_OperationID : string; st_RequestID : string; st_InputDigest : string; st_Mode : string }.
#[export] Instance TransitionStep_eq : EqDecision TransitionStep.
Proof. solve_decision. Defined.

Record TransitionProgress := mkProgress { pr_Step : TransitionStep; pr_Phase : string }.

Record dispatchTransition := mkDispatch {
  d_T : Transition; d_UserID : string; d_OrganizationID : string; d_Installed : Installation }.

(** [transitionBinding] in JSON. *)
Definition binding_of (r : dispatchTransition) : json :=
  let t := d_T r in
  JObj [("operation_id", JStr (t_OperationID t)); ("installation_id", JStr (t_InstallationID t));
        ("station_id", JStr (i_StationID (d_Installed r)));
        ("organization_id", JStr (d_OrganizationID r)); ("user_id", JStr (d_UserID r));
        ("expected_revision", JInt (t_ExpectedRevision t));
        ("source", snapshot_json (t_Source t)); ("target", snapshot_json (t_Target t))].
Definition inputDigest (r : dispatchTransition) : string := Digest (binding_of r).

Definition with_version (v : string) (i : Installation) : Installation :=
  mkInstallation (i_InstallationID i) (i_AppID i) v (i_StationID i) (i_OrganizationID i)
    (i_State i) (i_Revision i) (i_LastOperationID i) (i_CreatedAt i) (i_UpdatedAt i).

Definition readDispatchTransition (db : DB) (station operation : string) : result OpError dispatchTransition :=
  match app_installation_transitions db !! operation with
  | None => Err ErrNoRows
  | Some row =>
      if negb (tr_StationID row =? station)%string then Err ErrNoRows
      else
        t ← readTransition db (tr_UserID row) (tr_OrganizationID row) station operation;
        i ← readInstallation db (t_InstallationID t) station (tr_OrganizationID row);
        let command := mkTransitionCommand "" "" "" 0 (s_AppVersion (t_Source t))
                         (s_ReleaseRef (t_Target t)) (t_Action t) in
        let original := with_version (s_AppVersion (t_Source t)) i in
        if (max_int64 - 2 <? t_ExpectedRevision t)
           || negb (compatibleTransition command original (t_Source t) (t_Target t))
        then Err ErrTransitionProgress
        else Ok (mkDispatch t (tr_UserID row) (tr_OrganizationID row) i)
  end.

(** Where the installation stands relative to the transition; [""] is nowhere. *)
Definition dispatch_state (r : dispatchTransition) : string :=
  let i := d_Installed r in
  let t := d_T r in
  if negb (i_State i =? "installed")%string || negb (i_AppID i =? s_AppID (t_Source t))%string
     || (i_Revision i <? 1) then ""
  else if (i_AppVersion i =? s_AppVersion (t_Source t))%string && (i_Revision i =? t_ExpectedRevision t) then "original"
  else if (i_AppVersion i =? s_AppVersion (t_Target t))%string && (i_Revision i =? t_ExpectedRevision t + 1) then "target"
  else if (i_AppVersion i =? s_AppVersion (t_Source t))%string && (i_Revision i =? t_ExpectedRevision t + 2) then "restored"
  else "".

(** ** The decision *)

(** What a call does after its reads: return the terminal transition, commit a
    barrier without Runtime, or ask Runtime in [mode]. *)
Inductive Plan : Type :=
| PlanDone
| PlanCommit (status phase : string)
| PlanCall (mode : string).

Definition before_publication : list string :=
  ["accepted"; "checking"; "sealing"; "applying"; "verifying"; "publishing"].

Definition dispatch_mode (phase installed : string) : string :=
  if (phase =? "restoring")%string then "restore"
  else if (phase =? "releasing")%string then
    (if (installed =? "target")%string then "release_target" else "release_source")
  else "prepare".

Definition dispatch_plan (r : dispatchTransition) (forwardPending : bool) : result OpError Plan :=
  let phase := t_Phase (d_T r) in
  if slices_contains ["succeeded"; "failed"] (t_Status (d_T r)) then Ok PlanDone
  else if forwardPending then Err ErrTransitionBusy
  else
    let installed := dispatch_state r in
    if (installed =? "")%string
       || (slices_contains before_publication phase && negb (installed =? "original")%string)
    then Err ErrTransitionProgress
    else if (phase =? "accepted")%string then Ok (PlanCommit "running" "checking")
    else if (phase =? "recovery_required")%string then Ok (PlanCommit "running" "restoring")
    else Ok (PlanCall (dispatch_mode phase installed)).

(** [slices.Index]. *)
Fixpoint index_of (l : list string) (x : string) : Z :=
  match l with
  | [] => -1
  | y :: rest => if (y =? x)%string then 0
                 else let k := index_of rest x in if k <? 0 then -1 else k + 1
  end.

Definition stages : list string := ["checking"; "sealing"; "applying"; "verifying"; "publishing"].

(** The barrier (status, phase, version) a reported phase leads to; an empty
    version leaves the installation alone. *)
Definition dispatch_barrier (r : dispatchTransition) (mode reported : string)
    : result OpError (string * string * string) :=
  let phase := t_Phase (d_T r) in
  let installed := dispatch_state r in
  if (mode =? "release_source")%string || (mode =? "release_target")%string then
    if (reported =? "releasing")%string then Ok ("running", phase, "")
    else if negb (reported =? "released")%string then Err ErrTransitionProgress
    else Ok ((if (mode =? "release_target")%string then "succeeded" else "failed"), "completed", "")
  else if (mode =? "restore")%string then
    if (reported =? "restored")%string then
      Ok ("running", "releasing", if (installed =? "target")%string then s_AppVersion (t_Source (d_T r)) else "")
    else if (reported =? "restoring")%string then Ok ("running", phase, "")
    else if (reported =? "recovery_required")%string then Ok ("recovery_required", "recovery_required", "")
    else Err ErrTransitionProgress
  else if (mode =? "prepare")%string then
    if (reported =? "recovery_required")%string then Ok ("recovery_required", "recovery_required", "")
    else if (reported =? "rejected")%string then
      if negb (phase =? "checking")%string && negb (phase =? "sealing")%string then Err ErrTransitionProgress
      else Ok ("failed", "completed", "")
    else if (reported =? "prepared")%string then
      if (phase =? "publishing")%string then Ok ("running", "releasing", s_AppVersion (t_Target (d_T r)))
      else Ok ("running", "publishing", "")
    else
      let current := index_of stages phase in
      let next := index_of (take 4 stages) reported in
      if (current <? 0) || (next <? current) then Err ErrTransitionProgress
      else Ok ("running", reported, "")
  else Err ErrTransitionProgress.

(** ** The committing transaction *)

Definition transitionAudit (r : dispatchTransition) (outcome : string) (db : DB) : DB :=
  add_audit (mkAudit (t_RequestID (d_T r)) (d_UserID r) (d_OrganizationID r) None
    ("app." +:+ t_Action (d_T r) +:+ "." +:+ outcome) "succeeded") db.

(** UPDATE of a transition's status and phase, under the table's constraints. *)
Definition update_transition (id status phase : string) (now : Time) (db : DB) : result OpError DB :=
  match app_installation_transitions db !! id with
  | None => Ok db
  | Some row =>
      let row' := tr_with status phase now row in
      if negb (transition_checks row')
         || (negb (terminal status)
             && exists_row (fun x => negb (t_OperationID (tr_T x) =? id)%string
                  && (t_InstallationID (tr_T x) =? t_InstallationID (tr_T row))%string
                  && negb (terminal (t_Status (tr_T x)))) (app_installation_transitions db))
      then Err ErrConstraint
      else Ok (set_transitions (<[id := row']> (app_installation_transitions db)) db)
  end.

(** UPDATE of an installation's version when it still is what the code read; the
    number of affected rows decides. *)
Definition publish_version (id version prior : string) (revision : Z) (now : Time) (db : DB)
    : result OpError DB :=
  match app_installations db !! id with
  | Some i =>
      if (i_AppVersion i =? prior)%string && (i_Revision i =? revision) && (i_State i =? "installed")%string then
        if negb (transitionVersion version) || (max_int64 <? i_Revision i + 1) then Err ErrConstraint
        else Ok (set_installations (<[id := i_with version (i_State i) (i_Revision i + 1)
                   (i_LastOperationID i) now i]> (app_installations db)) db)
      else Err Conflict
  | None => Err Conflict
  end.

Section Dispatch.

(** The optional version change with its audit. *)
Definition commit_version (current : dispatchTransition) (version : string) (now : Time) (db : DB)
    : result OpError DB :=
  if (version =? "")%string then Ok db
  else
    db1 ← publish_version (t_InstallationID (d_T current)) version
            (i_AppVersion (d_Installed current)) (i_Revision (d_Installed current)) now db;
    let outcome := if (version =? s_AppVersion (t_Source (d_T current)))%string
                   then "restored"%string else "published"%string in
    Ok (transitionAudit current outcome db1).

Definition commit_body (station : string) (prior : dispatchTransition) (status phase version : string)
    (now : Time) : Tx Transition := fun db =>
  current ← readDispatchTransition db station (t_OperationID (d_T prior));
  if negb (t_Status (d_T current) =? t_Status (d_T prior))%string
     || negb (t_Phase (d_T current) =? t_Phase (d_T prior))%string
     || negb (inputDigest current =? inputDigest prior)%string
     || negb (bool_decide (d_Installed current = d_Installed prior)) then Err Conflict
  else
    db1 ← commit_version current version now db;
    let db2 := if (phase =? "completed")%string then transitionAudit current status db1 else db1 in
    db3 ← update_transition (t_OperationID (d_T current)) status phase now db2;
    out ← readTransition db3 (d_UserID current) (d_OrganizationID current) station (t_OperationID (d_T current));
    Ok (out, db3).

Definition commitTransition (station : string) (pg : Pg) (prior : dispatchTransition)
    (status phase version : string) (now : Time) (db : DB) : DB * result OpError Transition :=
  run_tx pg (commit_body station prior status phase version now) db.

Definition forward_pending (operation : string) (db : DB) : bool :=
  exists_row (fun r => (f_OperationID (fr_F r) =? operation)%string && (f_State (fr_F r) =? "pending")%string)
    (forward_recoveries db).

Context {U : UuidLib}.

(** Runtime's answer to one step. *)
Definition TransitionRuntime := TransitionStep -> result OpError TransitionProgress.

(** One call. [locked] is the outcome of the session advisory lock, [nonce] the
    drawn request id, and [env] what other transactions of the process and of
    Runtime do to the tables between the reads and the commit. *)
Definition DispatchTransition (station : string) (locked : bool) (operation : string)
    (runtime : option TransitionRuntime) (nonce : string) (env : DB -> DB) (pg : Pg) (now : Time)
    (db : DB) : DB * result OpError Transition :=
  match runtime with
  | None => (db, Err ErrTransitionProgress)
  | Some reconcile =>
      if negb (canonicalInstallation operation) || negb (canonicalInstallation station)
      then (db, Err ErrTransitionProgress)
      else if negb locked then (db, Err ErrTransitionBusy)
      else match readDispatchTransition db station operation with
      | Err e => (db, Err e)
      | Ok r =>
          match dispatch_plan r (forward_pending operation db) with
          | Err e => (db, Err e)
          | Ok PlanDone => (db, Ok (d_T r))
          | Ok (PlanCommit status phase) => commitTransition station pg r status phase "" now (env db)
          | Ok (PlanCall mode) =>
              let step := mkStep operation nonce (inputDigest r) mode in
              match reconcile step with
              | Err e => (env db, Err e)
              | Ok progress =>
                  if negb (bool_decide (pr_Step progress = step)) then (env db, Err ErrTransitionProgress)
                  else match dispatch_barrier r mode (pr_Phase progress) with
                  | Err e => (env db, Err e)
                  | Ok (status, phase, version) => commitTransition station pg r status phase version now (env db)
                  end
              end
          end
      end
  end.

(** ** The worker's cursor *)

Definition active_ids (station : string) (db : DB) : list string :=
  sort_strings ((fun r => t_OperationID (tr_T r)) <$>
    filter (fun r => tr_StationID r = station /\ terminal (t_Status (tr_T r)) = false)
      (snd <$> map_to_list (app_installation_transitions db))).

(** ORDER BY (after the cursor first), operation_id LIMIT 1. *)
Definition next_id (ids : list string) (after : string) : option string :=
  match filter (fun id => after = "" \/ str_ltb after id = true) ids with
  | id :: _ => Some id
  | [] => head ids
  end.

(** The selected operation is the new cursor, whatever its dispatch returns. *)
Definition DispatchNextTransition (station after : string) (dispatch : string -> DB -> DB * result OpError Transition)
    (db : DB) : DB * string * option OpError :=
  if negb (canonicalInstallation station) || (negb (after =? "")%string && negb (canonicalInstallation after))
  then (db, after, Some ErrTransitionProgress)
  else match next_id (active_ids station db) after with
  | None => (db, "", None)
  | Some operation =>
      let '(db', res) := dispatch operation db in
      (db', operation, match res with Ok _ => None | Err e => Some e end)
  end.
End Dispatch.
