(* ===== verification/Forward.v ===== *)
(** * Forward recovery of a failed transition

    internal/operations/forward_recovery.go: accept a recovery of one exact
    historical chain, let Runtime verify it, and publish the recovered version
    together with the failure of the parent transition in one transaction. *)
From S2P Require Import Prelude GoStd Sha256 GoJson Uuid OperationTypes Transitions Dispatch.

Record ForwardRecoveryCommand := mkForwardCommand {
  fc_RequestID : string; fc_IdempotencyKey : string; fc_OperationID : string;
  fc_ExpectedRevision : Z; fc_TargetReleaseRef : string }.

Definition forward_command_json (c : ForwardRecoveryCommand) : json :=
  JObj [("request_id", JStr (fc_RequestID c)); ("idempotency_key", JStr (fc_IdempotencyKey c));
        ("operation_id", JStr (fc_OperationID c)); ("expected_revision", JInt (fc_ExpectedRevision c));
        ("target_release_ref", JStr (fc_TargetReleaseRef c))].

(** [forwardBinding] in JSON. *)
Definition forward_binding_json (r : ForwardRecovery) : json :=
  JObj [("recovery_id", JStr (f_RecoveryID r)); ("parent_input_digest", JStr (f_ParentInputDigest r));
        ("expected_revision", JInt (f_ExpectedRevision r));
        ("installed_version", JStr (f_InstalledVersion r)); ("target", snapshot_json (f_Target r))].
Definition forward_digest (r : ForwardRecovery) : string := Digest (forward_binding_json r).

Definition forwardRequestHash (c : ForwardRecoveryCommand) : list Z :=
  sha256_sum (marshal (forward_command_json
    (mkForwardCommand "" (fc_IdempotencyKey c) (fc_OperationID c) (fc_ExpectedRevision c) (fc_TargetReleaseRef c)))).

Definition allowedWorldForward (parent : dispatchTransition) (target : TransitionSnapshot) : bool :=
  let s := t_Source (d_T parent) in
  let t := t_Target (d_T parent) in
  (s_AppID s =? "world")%string && (s_AppVersion s =? "0.1.4")%string
  && (s_AppVersion t =? "0.1.5")%string && (s_AppID target =? "world")%string
  && (s_AppVersion target =? "0.1.6")%string && (s_ReleaseKind s =? "dashboard-release")%string
  && (s_ReleaseKind t =? "dashboard-release")%string
  && (s_ReleaseKind target =? "dashboard-release")%string && snapshot_valid target
  && (dispatch_state parent =? "original")%string
  && slices_contains ["restoring"; "recovery_required"] (t_Phase (d_T parent))
  && slices_contains ["running"; "recovery_required"] (t_Status (d_T parent)).

Definition forward_owned (user org station : string) (r : ForwardRow) : bool :=
  (fr_UserID r =? user)%string && (fr_OrganizationID r =? org)%string && (fr_StationID r =? station)%string.

Definition with_proof (p : string) (f : ForwardRecovery) : ForwardRecovery :=
  mkForward (f_RecoveryID f) (f_OperationID f) (f_ExpectedRevision f) (f_InstalledVersion f)
    (f_ParentInputDigest f) (f_Target f) (f_InputDigest f) (f_State f) (Some p).

(** The proof Runtime stored for exactly this input. *)
Definition read_proof (db : DB) (id digest : string) : option string :=
  match forward_proofs db !! id with
  | Some (d, p) => if (d =? digest)%string then Some p else None
  | None => None
  end.

Definition readForward (db : DB) (user org station id : string) : result OpError ForwardRecovery :=
  match forward_recoveries db !! id with
  | None => Err ErrNoRows
  | Some row =>
      if negb (forward_owned user org station row) then Err ErrNoRows
      else
        let r := fr_F row in
        if negb (snapshot_valid (f_Target r)) || negb (forward_digest r =? f_InputDigest r)%string
        then Err ErrTransitionProgress
        else if (f_State r =? "succeeded")%string then
          match read_proof db id (f_InputDigest r) with
          | Some p => Ok (with_proof p r)
          | None => Err ErrNoRows
          end
        else Ok r
  end.

(** INSERT: the primary key, the idempotency index and the pending index. *)
Definition insert_recovery (row : ForwardRow) (db : DB) : result OpError DB :=
  let m := forward_recoveries db in
  let id := f_RecoveryID (fr_F row) in
  if bool_decide (is_Some (m !! id))
     || exists_row (fun x => forward_owned (fr_UserID row) (fr_OrganizationID row) (fr_StationID row) x
                             && (fr_IdempotencyKey x =? fr_IdempotencyKey row)%string) m
     || exists_row (fun x => (f_OperationID (fr_F x) =? f_OperationID (fr_F row))%string
                             && (f_State (fr_F x) =? "pending")%string) m
     || negb (0 <? f_ExpectedRevision (fr_F row))
  then Err ErrConstraint
  else Ok (set_recoveries (<[id := row]> m) db).

Definition update_recovery (id state : string) (db : DB) : DB :=
  set_recoveries (alter (fr_with_state state) id (forward_recoveries db)) db.

Section Forward.
Context {U : UuidLib}.

Definition forward_command_valid (c : ForwardRecoveryCommand) : bool :=
  match uuid_parse (fc_RequestID c) with
  | Some id =>
      (uuid_version id =? 4) && uuid_rfc4122 id && (uuid_text id =? fc_RequestID c)%string
      && canonicalInstallation (fc_OperationID c) && (0 <? fc_ExpectedRevision c)
      && (8 <=? len (fc_IdempotencyKey c)) && (len (fc_IdempotencyKey c) <=? 128)
      && transitionName (fc_TargetReleaseRef c)
  | None => false
  end.

Definition canRecover (station : string) (u : IdentityContext) : bool :=
  (u_StationID u =? station)%string && slices_contains (u_Roles u) "admin"
  && slices_contains (u_Scopes u) "app:read" && slices_contains (u_Scopes u) "app:manage".

Definition GetForwardRecovery (station : string) (u : IdentityContext) (id : string) (db : DB)
    : result OpError ForwardRecovery :=
  if negb (canRecover station u) then Err Denied
  else if negb (canonicalInstallation id) then Err ErrNoRows
  else readForward db (u_UserID u) (u_OrganizationID u) station id.

(** [acceptForward]; [read] is the service's release reader, [hasReleases] is
    [hasTransitionReleases], and [id] the drawn UUIDv7. *)
Definition accept_body (station : string) (u : IdentityContext) (c : ForwardRecoveryCommand)
    (hasReleases : bool) (read : TransitionReader) (id : string) : Tx ForwardRecovery := fun db =>
  match select_row (fun r => forward_owned (u_UserID u) (u_OrganizationID u) station r
                             && (fr_IdempotencyKey r =? fc_IdempotencyKey c)%string) (forward_recoveries db) with
  | Some original =>
      if negb (bool_decide (fr_RequestHash original = forwardRequestHash c)) then Err Conflict
      else r ← readForward db (u_UserID u) (u_OrganizationID u) station (f_RecoveryID (fr_F original));
           Ok (r, db)
  | None =>
      parent ← readDispatchTransition db station (fc_OperationID c);
      if negb (d_UserID parent =? u_UserID u)%string
         || negb (d_OrganizationID parent =? u_OrganizationID u)%string then Err ErrNoRows
      else if negb (i_Revision (d_Installed parent) =? fc_ExpectedRevision c) || negb hasReleases then Err Conflict
      else match read u (d_Installed parent) (fc_TargetReleaseRef c) with
      | Err _ => Err ErrTransitionRelease
      | Ok (source, target) =>
          if negb (marshal (snapshot_json source) =? marshal (snapshot_json (t_Source (d_T parent))))%string
             || negb (allowedWorldForward parent target) then Err Conflict
          else if exists_row (active_operation station (s_AppID (t_Source (d_T parent)))) (app_operations db)
               || forward_pending (t_OperationID (d_T parent)) db then Err Conflict
          else
            _ ← retainTransitionReferences db source target;
            let r0 := mkForward id (fc_OperationID c) (fc_ExpectedRevision c)
                        (i_AppVersion (d_Installed parent)) (inputDigest parent) target "" "pending" None in
            let r := mkForward id (fc_OperationID c) (fc_ExpectedRevision c)
                        (i_AppVersion (d_Installed parent)) (inputDigest parent) target
                        (forward_digest r0) "pending" None in
            db1 ← insert_recovery (mkForwardRow r (u_UserID u) (u_OrganizationID u) station
                     (fc_RequestID c) (fc_IdempotencyKey c) (forwardRequestHash c)) db;
            Ok (r, transitionAudit parent "forward_recovery.accepted" db1)
      end
  end.

(** The publication of a verified recovery: the proof must be stored. *)
Definition publish_recovery (parent : dispatchTransition) (r : ForwardRecovery) (now : Time) (db : DB)
    : result OpError DB :=
  match read_proof db (f_RecoveryID r) (f_InputDigest r) with
  | None => Err ErrTransitionProgress
  | Some _ =>
      db1 ← publish_version (t_InstallationID (d_T parent)) (s_AppVersion (f_Target r))
              (f_InstalledVersion r) (f_ExpectedRevision r) now db;
      update_transition (f_OperationID r) "failed" "completed" now db1
  end.

Definition finish_body (station : string) (u : IdentityContext) (r : ForwardRecovery) (verified : bool)
    (now : Time) : Tx ForwardRecovery := fun db =>
  _ ← readDispatchTransition db station (f_OperationID r);
  current ← readForward db (u_UserID u) (u_OrganizationID u) station (f_RecoveryID r);
  parent ← readDispatchTransition db station (f_OperationID r);
  if negb (f_State current =? "pending")%string
     || negb (f_InputDigest current =? f_InputDigest r)%string
     || negb (inputDigest parent =? f_ParentInputDigest r)%string
     || negb (i_Revision (d_Installed parent) =? f_ExpectedRevision r)
     || negb (allowedWorldForward parent (f_Target r)) then Err Conflict
  else
    db1 ← (if verified then publish_recovery parent r now db else Ok db);
    let state := if verified then "succeeded"%string else "failed"%string in
    let db2 := transitionAudit parent ("forward_recovery." +:+ state) (update_recovery (f_RecoveryID r) state db1) in
    out ← readForward db2 (u_UserID u) (u_OrganizationID u) station (f_RecoveryID r);
    Ok (out, db2).

(** The submitter holds the parent's session lock ([locked]) from before the
    acceptance until after the result is recorded; [env] is what others do to the
    tables while Runtime verifies. *)
Definition SubmitForwardRecovery (station : string) (locked : bool) (u : IdentityContext)
    (c : ForwardRecoveryCommand) (hasReleases : bool) (read : TransitionReader)
    (runtime : option TransitionRuntime) (id nonce : string) (env : DB -> DB) (pg pg' : Pg) (now : Time)
    (db : DB) : DB * result OpError ForwardRecovery :=
  if negb (canRecover station u) then (db, Err Denied)
  else if negb (forward_command_valid c) then (db, Err Invalid)
  else if negb locked then (db, Err ErrTransitionBusy)
  else match run_tx pg (accept_body station u c hasReleases read id) db with
  | (db1, Err e) => (db1, Err e)
  | (db1, Ok r) =>
      if negb (f_State r =? "pending")%string then (db1, Ok r)
      else match runtime with
      | None => (db1, Err ErrTransitionProgress)
      | Some reconcile =>
          let step := mkStep (f_RecoveryID r) nonce (f_InputDigest r) "verify_forward" in
          match reconcile step with
          | Err e => (env db1, Err e)
          | Ok out =>
              if negb (bool_decide (pr_Step out = step))
                 || negb (slices_contains ["verified"; "rejected"] (pr_Phase out))
              then (env db1, Err ErrTransitionProgress)
              else run_tx pg' (finish_body station u r (pr_Phase out =? "verified")%string now) (env db1)
          end
      end
  end.
End Forward.
