(* ===== verification/Installations.v ===== *)
(** * Installations, preinstalled releases and the Video source recovery

    internal/operations/installations.go, preinstalled.go, video_source_recovery.go
    and the validity test of internal/releasebinding: how an operation reserves an
    installation, binds a fixed release to it, and records Runtime's result. *)
From S2P Require Import Prelude GoStd Sha256 GoJson Uuid OperationTypes Transitions.
From Stdlib Require Import Ascii.

(** ** releasebinding.Binding.Valid *)
Module BindingPatterns.
Import Regexp.
(** [^[a-z0-9][a-z0-9._-]{0,62}$] *)
Definition ident : re := Cat (Class lower_alnum) (upto 62 (Class TransitionPatterns.name_byte)).
(** [^[a-z0-9][a-z0-9-]{0,62}$] *)
Definition app : re :=
  Cat (Class lower_alnum) (upto 62 (Class (fun c => lower_alnum c || bool_decide (c = "-"%char)))).
End BindingPatterns.

Definition binding_ident (s : string) : bool := Regexp.matches BindingPatterns.ident s.
Definition preinstalledApp (s : string) : bool := Regexp.matches BindingPatterns.app s.

Definition binding_Valid (b : ReleaseBinding) : bool :=
  binding_ident (rb_ReleaseRef b) && binding_ident (rb_AppID b) && transitionVersion (rb_AppVersion b)
  && transitionDigest (rb_PackageDigest b) && transitionDigest (rb_ChartDigest b)
  && transitionDigest (rb_TemplateDigest b).

(** ** The historical Video recovery *)
Definition videoOriginalSource : ReleaseBinding :=
  mkReleaseBinding "video-mcp-v0.17.28" "video-mcp" "0.17.28"
    "sha256:a40746cc6d6b8870c9351fe7607524cd83d0d3f3036ddbf810aa5b550db6e5e9"
    "sha256:cd27e2099c8bb07d878c51e8d07674505b4c0bcc96bf8f3b52881b3150ce7f8a"
    "sha256:b078c549f50e88b521842556f9dd92c728d0e430973429f623d0d1d84c9696f7".
Definition videoObservedSource : ReleaseBinding :=
  mkReleaseBinding "video-mcp-v0.17.30" "video-mcp" "0.17.30"
    "sha256:54668c7b6e57e57fb811240110550330fc931df80d3782fecf6d67e0d8f45a32"
    "sha256:bacdc4bfa638217075cec55097d86aac7fca374c7cd8733c9698ba0c65149113"
    "sha256:2fb074bf0cdaead891827f59869974c23db3c93375e626e864c656b9bfe8cfd0".
Definition videoParallelObservedSource : ReleaseBinding :=
  mkReleaseBinding "video-mcp-v0.17.35" "video-mcp" "0.17.35"
    "sha256:badeae0ce0ca1d1abeab20ffda1d15f98c28dafefc16e982d993459fa7a91340"
    "sha256:3bb879062371a320e890a69f92e3df5b8cae8ad07eb253aab9af6fa765f1db64"
    "sha256:6735cadfa908acb422fae9a04ff8a1e096f95487113bf69545bf4c8ce2650cd4".
Definition videoFalEgressObservedSource : ReleaseBinding :=
  mkReleaseBinding "video-mcp-v0.17.38" "video-mcp" "0.17.38"
    "sha256:e18c6689d681b6acade528aaa1b7fd382164ce0cfa9dff1884ecf41bd876858d"
    "sha256:71113d2193ba3e2722b6ce0149094881cf6f599e99f0c5ccded46b36e017b7ff"
    "sha256:edb4a393467e52dbfef30d8ceb2c5b0c09fca824c8f9c6d441ca5cbc7d469f56".
Definition videoCredentialSourceSnapshot : TransitionSnapshot :=
  mkSnapshot "video-mcp" "0.17.30" "video-mcp-v0.17.30"
    "sha256:62a455b0ac5dea6048f42dc1b7babd1d2b67d337ed9e09d8035ad7d9aeb93cb5"
    "sha256:c9c4f4e266a93a937997845f412735e202d7ea494a117f0625721ec42259f593"
    "sha256:2fb074bf0cdaead891827f59869974c23db3c93375e626e864c656b9bfe8cfd0"
    "sha256:08cb9f65c7733ab1ba43e3917aacda7a92a07934e3fc654fe9bfc354dfc5235c"
    "" "" (Some []) "dashboard-release"
    "sha256:4ad792a4756648008ecd479384d0f2c70c0ef20f437a15e1a030dc56fa9dba44".
Definition videoCredentialTargetSnapshot : TransitionSnapshot :=
  mkSnapshot "video-mcp" "0.17.31" "video-mcp-v0.17.31"
    "sha256:d8f6d5876fdf396a94d4b0168180c0c3c1d96acc3463d2bb66f4761c3c2dc5b8"
    "sha256:426cd81e411e2c7c34e6d0346ee09b9b53ae5b9aecc1db02c41a48145b84a1c6"
    "sha256:56a832f56000efa1b0185f56187293a221aa151f0afd17a5e2baffc72253c991"
    "sha256:08cb9f65c7733ab1ba43e3917aacda7a92a07934e3fc654fe9bfc354dfc5235c"
    "" "" (Some []) "dashboard-release"
    "sha256:67ebb4aa1901ac5d4ef83206c301c68c7922a91e617408fdb51c9e4d098cbe33".
Definition videoProjectLabelsSourceSnapshot : TransitionSnapshot :=
  mkSnapshot "video-mcp" "0.17.35" "video-mcp-v0.17.35"
    "sha256:da5cd14120338ba9f887f197aabac1cfa2c758fa1d88a917da7ae0b3fe96df64"
    "sha256:56ac1cbfef890455b6c74098aeb2d48edb462f3bf94b3021a6f383688f9c7e18"
    "sha256:6735cadfa908acb422fae9a04ff8a1e096f95487113bf69545bf4c8ce2650cd4"
    "sha256:e9c481418fcde62d8d10197ed12fa6f5949289a59beaed4b55ff1a580351d51d"
    "" "" (Some []) "dashboard-release"
    "sha256:8d053baf4ecc415c7468c73d84c2721ed5f20ea9076c9f9ad81543b14bb365b4".
Definition videoProjectLabelsTargetSnapshot : TransitionSnapshot :=
  mkSnapshot "video-mcp" "0.17.37" "video-mcp-v0.17.37"
    "sha256:d24c6ab68831fb1c1c0ae31ab2407220eb5b331cf5c323662021238d4904199c"
    "sha256:91ebf160aad2a827bad7a92b98371dde66fdf2b72f38b749672c6bfaf8474c85"
    "sha256:9cfb65261291dfc9d12038acf4bd7e08b9aa16494a33249b5c884e4b8da90856"
    "sha256:09a8423ebae9c4cd9535bf4b76f901b18f7180c5a38af518d0c0ae22e3d18fc6"
    "" "" (Some []) "dashboard-release"
    "sha256:20a58cea21e5a1742bc4843eab7995848a03ad7c05f6f805611f7c8e1f5bc9c2".

Definition videoSourceRecovery (from to : ReleaseBinding) (action state : string) : bool :=
  (action =? "adopt")%string && (state =? "installed")%string
  && bool_decide (from = videoOriginalSource) && bool_decide (to = videoObservedSource).

(** The completed managed transition between the two exact snapshots. *)
Definition proven_chain (db : DB) (installation : string) (source target : TransitionSnapshot) : bool :=
  exists_row (fun r =>
    (t_InstallationID (tr_T r) =? installation)%string && (tr_AppID r =? "video-mcp")%string
    && (t_Action (tr_T r) =? "upgrade")%string && (t_Status (tr_T r) =? "succeeded")%string
    && (t_Phase (tr_T r) =? "completed")%string
    && bool_decide (t_Source (tr_T r) = source) && bool_decide (t_Target (tr_T r) = target))
    (app_installation_transitions db).

Definition videoInstalledSourceRecovery (db : DB) (installation installed : string)
    (from to : ReleaseBinding) (action state : string) : bool :=
  if (rb_AppVersion from =? installed)%string && videoSourceRecovery from to action state then true
  else if negb (action =? "adopt")%string || negb (state =? "installed")%string then false
  else if (installed =? "0.17.31")%string && bool_decide (from = videoObservedSource)
          && bool_decide (to = videoParallelObservedSource)
  then proven_chain db installation videoCredentialSourceSnapshot videoCredentialTargetSnapshot
  else if (installed =? "0.17.37")%string && bool_decide (from = videoParallelObservedSource)
          && bool_decide (to = videoFalEgressObservedSource)
  then proven_chain db installation videoProjectLabelsSourceSnapshot videoProjectLabelsTargetSnapshot
  else false.

(** ** Commands bound to a preinstalled release *)
Record PreinstalledCommand := mkPreinstalled {
  p_Command : Command; p_Release : ReleaseBinding; p_InventoryRevision : string;
  p_ReinstallRemovedID : string }.

Record InstallationHistory := mkHistory {
  h_Installation : Installation; h_Release : option ReleaseBinding; h_Confirmed : bool }.

Definition without_request_id (c : Command) : Command :=
  mkCommand (c_ExpectedWorkloadUID c) "" (c_IdempotencyKey c) (c_OrganizationID c) (c_StationID c)
    (c_AppID c) (c_AppVersion c) (c_Action c).

Definition preinstalled_json (p : PreinstalledCommand) (c : Command) : json :=
  JObj [("command", command_json c); ("release", binding_json (p_Release p));
        ("inventoryRevision", JStr (p_InventoryRevision p));
        ("reinstallRemovedId", JStr (p_ReinstallRemovedID p))].

Definition commandHash (c : Command) (preinstalled : option PreinstalledCommand) : list Z :=
  let c' := without_request_id c in
  sha256_sum (marshal match preinstalled with
                      | None => command_json c'
                      | Some p => preinstalled_json p c'
                      end).

Definition installation_json (i : Installation) : json :=
  JObj [("installation_id", JStr (i_InstallationID i)); ("app_id", JStr (i_AppID i));
        ("app_version", JStr (i_AppVersion i)); ("station_id", JStr (i_StationID i));
        ("organization_id", JStr (i_OrganizationID i)); ("state", JStr (i_State i));
        ("revision", JInt (i_Revision i)); ("last_operation_id", JStr (i_LastOperationID i));
        ("created_at", jtime (i_CreatedAt i)); ("updated_at", jtime (i_UpdatedAt i))].
Definition history_json (h : InstallationHistory) : json :=
  JObj [("installation", installation_json (h_Installation h));
        ("release", jopt binding_json (h_Release h)); ("confirmed", JBool (h_Confirmed h))].
Definition inventoryRevision (items : list InstallationHistory) : string :=
  Digest (JArr (map history_json items)).

(** ORDER BY created_at, installation_id. *)
Definition created_before (a b : Installation) : bool :=
  (i_CreatedAt a <? i_CreatedAt b)
  || ((i_CreatedAt a =? i_CreatedAt b) && negb (str_ltb (i_InstallationID b) (i_InstallationID a))).
Fixpoint insert_created (x : Installation) (l : list Installation) : list Installation :=
  match l with
  | [] => [x]
  | y :: rest => if created_before x y then x :: l else y :: insert_created x rest
  end.
Definition by_creation (l : list Installation) : list Installation := foldr insert_created [] l.

Definition org_installations (db : DB) (P : Installation -> bool) : list Installation :=
  by_creation (filter (fun i => P i = true) (snd <$> map_to_list (app_installations db))).

(** A succeeded operation of the installation carries the installed binding. *)
Definition binding_confirmed (db : DB) (id : string) : bool :=
  match preinstalled_installation_bindings db !! id with
  | None => false
  | Some b => exists_row (fun o =>
      bool_decide (o_InstallationID o = Some id) && (o_Status o =? "succeeded")%string
      && bool_decide (preinstalled_operation_bindings db !! o_OperationID o = Some b)) (app_operations db)
  end.

Definition history_item (db : DB) (i : Installation) : result OpError InstallationHistory :=
  match preinstalled_installation_bindings db !! i_InstallationID i with
  | Some b => if binding_Valid b
              then Ok (mkHistory i (Some b) (binding_confirmed db (i_InstallationID i)))
              else Err (ErrPlain "invalid stored release binding")
  | None => Ok (mkHistory i None (binding_confirmed db (i_InstallationID i)))
  end.

Fixpoint history_items (db : DB) (l : list Installation) : result OpError (list InstallationHistory) :=
  match l with
  | [] => Ok []
  | i :: rest => h ← history_item db i; t ← history_items db rest; Ok (h :: t)
  end.

(** The query reads at most 1001 rows. *)
Definition readPreinstalledHistory (db : DB) (station org app : string)
    : result OpError (list InstallationHistory) :=
  items ← history_items db (take 1001 (org_installations db (fun i =>
    (i_StationID i =? station)%string && (i_OrganizationID i =? org)%string && (i_AppID i =? app)%string)));
  if 1000 <? Z.of_nat (length items) then Err (ErrPlain "installation history limit exceeded") else Ok items.

(** Scan of the history: (an unremoved one exists, the last removed one). *)
Fixpoint check_history (db : DB) (verify : ReleaseBinding -> bool) (p : PreinstalledCommand)
    (items : list InstallationHistory) (current : bool) (removed : string)
    : result OpError (bool * string) :=
  match items with
  | [] => Ok (current, removed)
  | item :: rest =>
      let i := h_Installation item in
      if (i_State i =? "removed")%string then check_history db verify p rest current (i_InstallationID i)
      else match h_Release item with
      | Some prior =>
          if negb (bool_decide (prior = p_Release p)) then
            if negb (h_Confirmed item)
               || negb (videoInstalledSourceRecovery db (i_InstallationID i) (i_AppVersion i) prior
                          (p_Release p) (c_Action (p_Command p)) (i_State i)) then Err Conflict
            else if negb (verify prior) then Err ErrUntrusted
            else check_history db verify p rest true removed
          else check_history db verify p rest true removed
      | None => check_history db verify p rest true removed
      end
  end.

(** [verify] is [Releases.Verify] when a source is configured. *)
Definition validatePreinstalled (db : DB) (station org : string) (verify : option (ReleaseBinding -> bool))
    (p : PreinstalledCommand) : result OpError unit :=
  match verify with
  | None => Err ErrUntrusted
  | Some verify =>
      if negb (verify (p_Release p)) then Err ErrUntrusted
      else
        items ← readPreinstalledHistory db station org (c_AppID (p_Command p));
        if negb (inventoryRevision items =? p_InventoryRevision p)%string then Err Conflict
        else
          '(current, removed) ← check_history db verify p items false "";
          if negb current && negb (removed =? "")%string && negb (p_ReinstallRemovedID p =? removed)%string
          then Err Conflict
          else if negb (p_ReinstallRemovedID p =? "")%string
                  && (current || negb (p_ReinstallRemovedID p =? removed)%string)
          then Err Invalid
          else Ok tt
  end.

(** ** Reservation *)

Definition legacyVersionAdoption (trusted : bool) (action state : string) (bound : bool) : bool :=
  trusted && (action =? "adopt")%string && (state =? "installed")%string && negb bound.

Definition current_installation (db : DB) (station app : string) : option Installation :=
  select_row (fun i => (i_StationID i =? station)%string && (i_AppID i =? app)%string
                       && negb (i_State i =? "removed")%string) (app_installations db).

Definition bounded_text (n : Z) (s : string) : bool := (1 <=? rune_count s) && (rune_count s <=? n).

(** INSERT: the primary key, the current-installation index and the checks. *)
Definition insert_installation (i : Installation) (db : DB) : result OpError DB :=
  let m := app_installations db in
  if bool_decide (is_Some (m !! i_InstallationID i))
     || (negb (i_State i =? "removed")%string
         && bool_decide (is_Some (current_installation db (i_StationID i) (i_AppID i))))
     || negb (bounded_text 128 (i_AppID i)) || negb (transitionVersion (i_AppVersion i))
     || negb (slices_contains ["pending"; "installed"; "failed"; "removed"] (i_State i))
  then Err ErrConstraint
  else Ok (set_installations (<[i_InstallationID i := i]> m) db).

Definition has_binding (db : DB) (id : string) : bool :=
  bool_decide (is_Some (preinstalled_installation_bindings db !! id)).

(** May an operation at another version proceed on the existing installation. *)
Definition reservation_allowed (db : DB) (c : Command) (preinstalled : option PreinstalledCommand)
    (i : Installation) : bool :=
  let bound := has_binding db (i_InstallationID i) in
  let trusted := bool_decide (is_Some preinstalled) in
  let base := legacyVersionAdoption trusted (c_Action c) (i_State i) bound
    || (negb trusted && (c_Action c =? "upgrade")%string && (i_State i =? "installed")%string) in
  match preinstalled, preinstalled_installation_bindings db !! i_InstallationID i with
  | Some p, Some prior =>
      if negb (i_AppVersion i =? c_AppVersion c)%string
      then videoInstalledSourceRecovery db (i_InstallationID i) (i_AppVersion i) prior (p_Release p)
             (c_Action c) (i_State i)
      else base
  | _, _ => base
  end.

(** The reserved installation, [""] when the action needs none; [id] is drawn. *)
Definition reserveInstallation (u : IdentityContext) (c : Command) (preinstalled : option PreinstalledCommand)
    (id : string) (now : Time) : Tx string := fun db =>
  match current_installation db (c_StationID c) (c_AppID c) with
  | Some i =>
      if negb (i_OrganizationID i =? u_OrganizationID u)%string
         || (negb (i_AppVersion i =? c_AppVersion c)%string && negb (reservation_allowed db c preinstalled i))
      then Err Conflict
      else Ok (i_InstallationID i, db)
  | None =>
      if negb (slices_contains ["install"; "start"; "adopt"] (c_Action c)) then Ok ("", db)
      else
        db1 ← insert_installation (mkInstallation id (c_AppID c) (c_AppVersion c) (c_StationID c)
                 (u_OrganizationID u) "pending" 1 "" now now) db;
        Ok (id, db1)
  end.

(** UPDATE of an installation by its key. *)
Definition update_installation (id : string) (f : Installation -> Installation) (db : DB) : result OpError DB :=
  match app_installations db !! id with
  | None => Ok db
  | Some i =>
      let i' := f i in
      if negb (transitionVersion (i_AppVersion i')) || (max_int64 <? i_Revision i')
         || (negb (i_State i' =? "removed")%string && (i_State i =? "removed")%string
             && bool_decide (is_Some (current_installation db (i_StationID i) (i_AppID i))))
      then Err ErrConstraint
      else Ok (set_installations (<[id := i']> (app_installations db)) db)
  end.

Definition o_with_installation (id : string) (o : OperationRow) : OperationRow :=
  mkOperation (o_OperationID o) (o_RequestID o) (o_UserID o) (o_OrganizationID o) (o_StationID o)
    (o_AppID o) (o_AppVersion o) (o_Action o) (o_Status o) (o_Phase o) (o_DownloadedBytes o)
    (o_TotalBytes o) (o_ErrorCode o) (o_ErrorMessage o) (o_IdempotencyKey o) (o_RequestHash o)
    (o_ExpectedWorkloadUID o) (Some id) (o_UpdatedAt o).

Definition bindInstallationOperation (installation operation : string) (now : Time) (db : DB)
    : result OpError DB :=
  if (installation =? "")%string then Ok db
  else update_installation installation
         (fun i => i_with (i_AppVersion i) (i_State i) (i_Revision i + 1) operation now i)
         (set_operations (alter (o_with_installation installation) operation (app_operations db)) db).

(** ** Results *)

Definition installationState (current action outcome : string) : string :=
  if (current =? "removed")%string then current
  else if (outcome =? "succeeded")%string && (action =? "delete")%string then "removed"
  else if (outcome =? "succeeded")%string
          && slices_contains ["install"; "upgrade"; "start"; "restart"; "adopt"; "stop"] action then "installed"
  else if (outcome =? "failed")%string && negb (current =? "installed")%string then "failed"
  else current.

(** The installation of an operation that is still its last one. *)
Definition operation_installation (db : DB) (operation : string) : option (Installation * OperationRow) :=
  o ← app_operations db !! operation;
  id ← o_InstallationID o;
  i ← app_installations db !! id;
  if (i_LastOperationID i =? operation)%string then Some (i, o) else None.

(** The release binding moves with a trusted adoption at another version. *)
Definition adopt_binding (operation : string) (i : Installation) (o : OperationRow) (action : string) (db : DB)
    : result OpError DB :=
  match preinstalled_operation_bindings db !! operation with
  | None => Err ErrNoRows
  | Some next =>
      match preinstalled_installation_bindings db !! i_InstallationID i with
      | Some prior =>
          if negb (rb_AppVersion next =? o_AppVersion o)%string
             || negb (videoInstalledSourceRecovery db (i_InstallationID i) (i_AppVersion i) prior next
                        action (i_State i)) then Err Conflict
          else Ok (set_installation_bindings (<[i_InstallationID i := next]> (preinstalled_installation_bindings db)) db)
      | None => Ok (set_installation_bindings (<[i_InstallationID i := next]> (preinstalled_installation_bindings db)) db)
      end
  end.

Definition recordInstallationProgress (operation action outcome : string) (now : Time) (db : DB)
    : result OpError DB :=
  match operation_installation db operation with
  | None => Ok db
  | Some (i, o) =>
      let boundAdoption := bool_decide (is_Some (preinstalled_operation_bindings db !! operation)) in
      let set_version := update_installation (i_InstallationID i) in
      if negb (i_AppVersion i =? o_AppVersion o)%string && (outcome =? "succeeded")%string then
        if (action =? "upgrade")%string && (i_State i =? "installed")%string && negb boundAdoption then
          set_version (fun x => i_with (o_AppVersion o) "installed" (i_Revision x + 1) (i_LastOperationID x) now x) db
        else if negb (legacyVersionAdoption boundAdoption action (i_State i) false) then Err Conflict
        else
          db1 ← adopt_binding operation i o action db;
          set_version (fun x => i_with (o_AppVersion o) (i_State x) (i_Revision x + 1) (i_LastOperationID x) now x) db1
      else
        let next := installationState (i_State i) action outcome in
        if (next =? i_State i)%string then Ok db
        else set_version (fun x => i_with (i_AppVersion x) next (i_Revision x + 1) (i_LastOperationID x) now x) db
  end.

(** Bind the fixed release to the operation and, at its own version, to the
    installation. *)
Definition bindPreinstalled (operation installation : string) (b : ReleaseBinding) (db : DB) : result OpError DB :=
  if bool_decide (is_Some (preinstalled_operation_bindings db !! operation)) then Err ErrConstraint
  else
    let db1 := set_operation_bindings (<[operation := b]> (preinstalled_operation_bindings db)) db in
    match app_installations db1 !! installation with
    | None => Err ErrNoRows
    | Some i =>
        if negb (i_AppVersion i =? rb_AppVersion b)%string then Ok db1
        else match preinstalled_installation_bindings db1 !! installation with
        | Some old => if bool_decide (old = b) then Ok db1 else Err Conflict
        | None => Ok (set_installation_bindings (<[installation := b]> (preinstalled_installation_bindings db1)) db1)
        end
    end.

(** ** Reads *)

Definition ListInstallations (station : string) (u : IdentityContext) (db : DB) : result OpError (list Installation) :=
  if negb (canReadInstallations station u) then Err Denied
  else
    let items := take 1001 (org_installations db (fun i =>
      (i_StationID i =? station)%string && (i_OrganizationID i =? u_OrganizationID u)%string
      && negb (i_State i =? "removed")%string)) in
    if 1000 <? Z.of_nat (length items) then Err (ErrPlain "installation listing limit exceeded") else Ok items.

Definition GetInstallation {U : UuidLib} (station : string) (u : IdentityContext) (id : string) (db : DB)
    : result OpError Installation :=
  if negb (canReadInstallations station u) then Err Denied
  else if negb (validUUIDv7 id) then Err ErrNoRows
  else readInstallation db id station (u_OrganizationID u).
