(* ===== verification/Lifecycle.v ===== *)
(** * Lifecycle operations

    internal/operations/service.go, worker.go, appcenter_commands.go and
    appcenter_dispatch.go: the acceptance of an AppCommand with its idempotent
    replay, the constrained (AppCenter) variant, and the worker that records
    Runtime's progress. *)
From S2P Require Import Prelude GoStd Sha256 GoJson Uuid OperationTypes Transitions Installations.
From Stdlib Require Import Ascii QArith.
Open Scope Z_scope.

(** ** Rows *)
Definition operation_actions : list string :=
  ["install"; "upgrade"; "start"; "stop"; "restart"; "delete"; "adopt"].
Definition operation_phases : list string :=
  ["checking"; "downloading"; "verifying"; "installing"; "starting"; "warming"; "stopping";
   "deleting"; "completed"].

(** The CHECK constraints of station.app_operations; [length] counts characters. *)
Definition operation_checks (o : OperationRow) : bool :=
  bounded_text 128 (o_RequestID o) && slices_contains operation_actions (o_Action o)
  && slices_contains ["accepted"; "running"; "succeeded"; "failed"] (o_Status o)
  && slices_contains operation_phases (o_Phase o)
  && (0 <=? o_DownloadedBytes o)
  && match o_TotalBytes o with Some t => 0 <=? t | None => true end
  && (8 <=? rune_count (o_IdempotencyKey o)) && (rune_count (o_IdempotencyKey o) <=? 128).

Definition operation_owned (user org station : string) (o : OperationRow) : bool :=
  (o_UserID o =? user)%string && (o_OrganizationID o =? org)%string && (o_StationID o =? station)%string.

Definition insert_operation (o : OperationRow) (db : DB) : result OpError DB :=
  let m := app_operations db in
  if bool_decide (is_Some (m !! o_OperationID o))
     || exists_row (fun x => operation_owned (o_UserID o) (o_OrganizationID o) (o_StationID o) x
                             && (o_IdempotencyKey x =? o_IdempotencyKey o)%string) m
     || negb (operation_checks o)
  then Err ErrConstraint
  else Ok (set_operations (<[o_OperationID o := o]> m) db).

(** The API view of a row. [Percent] is the exact quotient; the code rounds it to
    a float64. *)
Record Operation := mkOperationView {
  v_RequestID : string; v_OperationID : string; v_OrganizationID : string; v_StationID : string;
  v_AppID : string; v_AppVersion : string; v_Action : string; v_Status : string; v_Phase : string;
  v_DownloadedBytes : Z; v_TotalBytes : option Z; v_Percent : option Q;
  v_Error : option (string * string * string); v_UpdatedAt : Time }.

Definition percent (downloaded total : Z) : Q :=
  if 0 <? total
  then (if 100 * total <=? 100 * downloaded then 100 # 1 else (100 * downloaded) # (Z.to_pos total))%Q
  else 0%Q.

Definition view_operation (o : OperationRow) : Operation :=
  mkOperationView (o_RequestID o) (o_OperationID o) (o_OrganizationID o) (o_StationID o) (o_AppID o)
    (o_AppVersion o) (o_Action o) (o_Status o) (o_Phase o) (o_DownloadedBytes o) (o_TotalBytes o)
    (percent (o_DownloadedBytes o) <$> o_TotalBytes o)
    (if (o_Status o =? "failed")%string
     then Some (default "INTERNAL" (o_ErrorCode o), default "Operation failed" (o_ErrorMessage o), o_RequestID o)
     else None) (o_UpdatedAt o).

Definition read_operation (db : DB) (u : IdentityContext) (station id : string) : result OpError Operation :=
  match app_operations db !! id with
  | Some o => if operation_owned (u_UserID u) (u_OrganizationID u) station o
              then Ok (view_operation o) else Err ErrNoRows
  | None => Err ErrNoRows
  end.

(** [Get]: a uuid column compares by value, so the row is found under the
    canonical text of the parsed identifier. *)
Definition Get {U : UuidLib} (station : string) (u : IdentityContext) (id : string) (db : DB)
    : result OpError Operation :=
  if negb (slices_contains (u_Roles u) "admin") || negb (slices_contains (u_Scopes u) "app:read") then Err Denied
  else match uuid_parse id with
  | None => Err Invalid
  | Some v => read_operation db u station (uuid_text v)
  end.

Definition find_by_key (db : DB) (u : IdentityContext) (station key : string) : option OperationRow :=
  select_row (fun o => operation_owned (u_UserID u) (u_OrganizationID u) station o
                       && (o_IdempotencyKey o =? key)%string) (app_operations db).

Definition GetByIdempotencyKey (station : string) (u : IdentityContext) (key : string) (db : DB)
    : result OpError Operation :=
  if negb (slices_contains (u_Roles u) "admin") || negb (slices_contains (u_Scopes u) "app:read") then Err Denied
  else if (len key <? 8) || (128 <? len key) then Err Invalid
  else match find_by_key db u station key with
  | None => Err ErrNoRows
  | Some o => read_operation db u station (o_OperationID o)
  end.

(** ** Constrained commands *)

Definition appCenterHash (a : AppCenterCommand) : list Z :=
  sha256_sum (marshal (JObj [("protocol", JStr "studio.appcenter.command.v1");
    ("input", appcenter_command_json
       (mkAppCenterCommand (ac_SchemaVersion a) (without_request_id (ac_Command a)) (ac_Expected a)))])).

Definition validateAppCenterInstallation (db : DB) (u : IdentityContext) (a : AppCenterCommand)
    : result OpError (option Installation) :=
  let e := ac_Expected a in
  let c := ac_Command a in
  if negb (e_AppVersion e =? c_AppVersion c)%string
     || negb (Bool.eqb (bool_decide (e_InstallationID e = None)) (bool_decide (e_InstallationRevision e = None)))
  then Err Invalid
  else
    let current := current_installation db (c_StationID c) (c_AppID c) in
    if (c_Action c =? "install")%string then
      match current, e_InstallationID e, e_InstallationRevision e, e_WorkloadUID e with
      | None, None, None, None => Ok None
      | _, _, _, _ => Err ErrAppCenterBinding
      end
    else match current, e_InstallationID e, e_InstallationRevision e with
    | Some i, Some id, Some revision =>
        if negb (i_InstallationID i =? id)%string || negb (i_Revision i =? revision)
           || negb (Bool.eqb (i_AppVersion i =? e_AppVersion e)%string (negb (c_Action c =? "upgrade")%string))
           || negb (i_OrganizationID i =? u_OrganizationID u)%string || negb (i_State i =? "installed")%string
        then Err ErrAppCenterBinding
        else Ok (Some i)
    | _, _, _ => Err ErrAppCenterBinding
    end.

Definition validateAppCenterExecution (a : AppCenterCommand) (x : AppCenterExecution) : result OpError unit :=
  let c := ac_Command a in
  let e := ac_Expected a in
  match e_ReleaseDigest e with
  | None => Err ErrAppCenterRelease
  | Some release =>
      if negb (x_AppID x =? c_AppID c)%string || negb (x_AppVersion x =? c_AppVersion c)%string
         || negb (x_Action x =? c_Action c)%string || negb (x_SchemaVersion x =? 1)
         || negb (transitionDigest (x_ReleaseDigest x)) || negb (transitionDigest (x_TemplateDigest x))
         || negb (transitionDigest (x_PolicyRevision x)) then Err ErrAppCenterRelease
      else if negb (x_ReleaseDigest x =? release)%string || negb (x_PolicyRevision x =? e_PolicyRevision e)%string
         || negb (x_WorkloadUID x =? default "" (e_WorkloadUID e))%string then Err ErrAppCenterBinding
      else Ok tt
  end.

(** The stored execution has lost its unexported field. *)
Definition stored_execution (x : AppCenterExecution) : AppCenterExecution :=
  mkExecution (x_AppID x) (x_AppVersion x) (x_Action x) (x_SchemaVersion x) (x_ReleaseDigest x)
    (x_TemplateDigest x) (x_PolicyRevision x) (x_WorkloadUID x) false.

(** [fits]: the CHECKs of the table on the size of the stored texts, 16384 bytes and
    4096 bytes of what PostgreSQL makes of the two objects. *)
Definition bindAppCenterInput (fits : AppCenterCommand -> AppCenterExecution -> bool) (id : string) (a : AppCenterCommand)
    (x : AppCenterExecution) (db : DB) : result OpError DB :=
  if bool_decide (is_Some (appcenter_operation_inputs db !! id)) || negb (fits a (stored_execution x)) then Err ErrConstraint
  else Ok (set_inputs (<[id := (a, stored_execution x)]> (appcenter_operation_inputs db)) db).

(** ** Acceptance *)

Definition AppCenterAdmission := IdentityContext -> Command -> option Installation -> result OpError AppCenterExecution.

(** What the transaction needs besides the tables. *)
Record SubmitEnv := mkSubmitEnv {
  se_station : string;
  se_catalog : option (string -> option string);          (** app id -> listed version *)
  se_verify : option (ReleaseBinding -> bool);            (** [Releases.Verify] *)
  se_fits : AppCenterCommand -> AppCenterExecution -> bool;   (** the inputs fit their table *)
  se_installationID : string; se_operationID : string;    (** drawn UUIDv7s *)
  se_now : Time }.

Definition initial_phase (action : string) : string :=
  if (action =? "restart")%string then "starting"
  else if (action =? "stop")%string || (action =? "delete")%string then "stopping" else "checking".

Section Submit.
Context {U : UuidLib}.

Definition submit_checks (station : string) (u : IdentityContext) (c : Command) : option OpError :=
  if negb (slices_contains (u_Roles u) "admin") || negb (slices_contains (u_Scopes u) "app:manage") then Some Denied
  else if (len (c_RequestID c) =? 0) || (128 <? len (c_RequestID c)) then Some Invalid
  else if negb (c_StationID c =? station)%string || negb (c_OrganizationID c =? u_OrganizationID u)%string
          || (len (c_IdempotencyKey c) <? 8) || (128 <? len (c_IdempotencyKey c)) then Some Invalid
  else if negb (slices_contains operation_actions (c_Action c)) then Some Invalid
  else if (c_Action c =? "adopt")%string then
    (if bool_decide (is_Some (uuid_parse (c_ExpectedWorkloadUID c))) then None else Some Invalid)
  else if negb (c_ExpectedWorkloadUID c =? "")%string then Some Invalid else None.

(** The digest that older rows carry included the request id. *)
Definition legacyHash (c : Command) (original : string) : list Z :=
  sha256_sum (marshal (command_json (mkCommand (c_ExpectedWorkloadUID c) original (c_IdempotencyKey c)
    (c_OrganizationID c) (c_StationID c) (c_AppID c) (c_AppVersion c) (c_Action c)))).

Definition request_hash (c : Command) (preinstalled : option PreinstalledCommand)
    (constrained : option AppCenterCommand) : list Z :=
  match constrained with Some a => appCenterHash a | None => commandHash c preinstalled end.

Definition busy (db : DB) (station app : string) : bool :=
  exists_row (active_operation station app) (app_operations db)
  || exists_row (fun r => (tr_StationID r =? station)%string && (tr_AppID r =? app)%string
                          && negb (terminal (t_Status (tr_T r)))) (app_installation_transitions db).

(** Admission of a new command: the verified execution of a constrained one. *)
Definition admit_command (env : SubmitEnv) (u : IdentityContext) (c : Command)
    (constrained : option AppCenterCommand) (admission : option AppCenterAdmission) (db : DB)
    : result OpError (option AppCenterExecution) :=
  match constrained with
  | Some a =>
      installed ← validateAppCenterInstallation db u a;
      match admission with
      | None => Err ErrAppCenterRelease
      | Some admit_command =>
          x ← admit_command u c installed;
          _ ← validateAppCenterExecution a x;
          Ok (Some x)
      end
  | None =>
      match se_catalog env with
      | None => Err Invalid
      | Some entry => if bool_decide (entry (c_AppID c) = Some (c_AppVersion c)) then Ok None else Err Invalid
      end
  end.

Definition bind_inputs (fits : AppCenterCommand -> AppCenterExecution -> bool) (id : string) (constrained : option AppCenterCommand)
    (x : option AppCenterExecution) (db : DB) : result OpError DB :=
  match constrained, x with
  | Some a, Some x => bindAppCenterInput fits id a x db
  | _, _ => Ok db
  end.
Definition bind_release (id installation : string) (preinstalled : option PreinstalledCommand) (db : DB)
    : result OpError DB :=
  match preinstalled with
  | Some p => bindPreinstalled id installation (p_Release p) db
  | None => Ok db
  end.

Definition new_operation (env : SubmitEnv) (u : IdentityContext) (c : Command)
    (preinstalled : option PreinstalledCommand) (constrained : option AppCenterCommand) : OperationRow :=
  mkOperation (se_operationID env) (c_RequestID c) (u_UserID u) (u_OrganizationID u) (se_station env)
    (c_AppID c) (c_AppVersion c) (c_Action c) "accepted" (initial_phase (c_Action c)) 0 None None None
    (c_IdempotencyKey c) (request_hash c preinstalled constrained) (c_ExpectedWorkloadUID c) None (se_now env).

(** The writes of a new acceptance, after every check passed. *)
Definition accept_operation (env : SubmitEnv) (u : IdentityContext) (c : Command)
    (preinstalled : option PreinstalledCommand) (constrained : option AppCenterCommand)
    (x : option AppCenterExecution) (db : DB) : result OpError DB :=
  let id := se_operationID env in
  '(installation, db1) ← reserveInstallation u c preinstalled (se_installationID env) (se_now env) db;
  db2 ← insert_operation (new_operation env u c preinstalled constrained) db1;
  db3 ← bindInstallationOperation installation id (se_now env) db2;
  db4 ← bind_inputs (se_fits env) id constrained x db3;
  db5 ← bind_release id installation preinstalled db4;
  Ok (add_audit (mkAudit (c_RequestID c) (u_UserID u) (u_OrganizationID u) (Some (u_SessionID u))
                  ("app." +:+ c_Action c +:+ ".accepted") "succeeded") db5).

Definition lifecycle_body (env : SubmitEnv) (u : IdentityContext) (c : Command)
    (preinstalled : option PreinstalledCommand) (constrained : option AppCenterCommand)
    (admission : option AppCenterAdmission) : Tx Operation := fun db =>
  let station := se_station env in
  let sum := request_hash c preinstalled constrained in
  match find_by_key db u station (c_IdempotencyKey c) with
  | Some o =>
      if negb (bool_decide (o_RequestHash o = sum))
         && (bool_decide (is_Some preinstalled) || bool_decide (is_Some constrained)
             || negb (bool_decide (o_RequestHash o = legacyHash c (o_RequestID o)))) then Err Conflict
      else v ← read_operation db u station (o_OperationID o); Ok (v, db)
  | None =>
      x ← admit_command env u c constrained admission db;
      _ ← match preinstalled with
          | Some p => validatePreinstalled db station (u_OrganizationID u) (se_verify env) p
          | None => Ok tt
          end;
      if busy db station (c_AppID c) then Err Conflict
      else
        db' ← accept_operation env u c preinstalled constrained x db;
        Ok (view_operation (new_operation env u c preinstalled constrained), db')
  end.

Definition submit (env : SubmitEnv) (pg : Pg) (u : IdentityContext) (c : Command)
    (preinstalled : option PreinstalledCommand) (constrained : option AppCenterCommand)
    (admission : option AppCenterAdmission) (db : DB) : DB * result OpError Operation :=
  match submit_checks (se_station env) u c with
  | Some e => (db, Err e)
  | None => run_tx pg (lifecycle_body env u c preinstalled constrained admission) db
  end.

Definition Submit (env : SubmitEnv) (pg : Pg) (u : IdentityContext) (c : Command) (db : DB) :=
  submit env pg u c None None None db.

Definition SubmitPreinstalled (env : SubmitEnv) (pg : Pg) (u : IdentityContext) (p : PreinstalledCommand) (db : DB)
    : DB * result OpError Operation :=
  if negb (canReadInstallations (se_station env) u) || negb (slices_contains (u_Scopes u) "app:manage")
  then (db, Err Denied)
  else if negb (binding_Valid (p_Release p)) || negb (rb_AppID (p_Release p) =? c_AppID (p_Command p))%string
     || negb (rb_AppVersion (p_Release p) =? c_AppVersion (p_Command p))%string
     || negb (transitionDigest (p_InventoryRevision p))
     || negb (slices_contains ["install"; "adopt"] (c_Action (p_Command p))) then (db, Err Invalid)
  else submit env pg u (p_Command p) (Some p) None None db.

(** [schema] is the JSON schema validation of the command's text. *)
Definition SubmitAppCenter (schema : AppCenterCommand -> bool) (env : SubmitEnv) (pg : Pg) (u : IdentityContext)
    (a : AppCenterCommand) (admission : option AppCenterAdmission) (db : DB) : DB * result OpError Operation :=
  if negb (canReadInstallations (se_station env) u) || negb (slices_contains (u_Scopes u) "app:manage")
  then (db, Err Denied)
  else if negb (schema a) then (db, Err Invalid)
  else submit env pg u (ac_Command a) None (Some a) admission db.
End Submit.
