(* ===== verification/LifecycleWorker.v ===== *)
(** * The lifecycle worker

    internal/operations/worker.go and appcenter_dispatch.go: pick the least
    recently touched operation, ask Runtime to reconcile it, validate the reported
    progress and record it with the installation's state in one transaction. *)
From S2P Require Import Prelude GoStd Sha256 GoJson Uuid OperationTypes Transitions Installations Lifecycle.

(** ** Runtime's progress *)
Record AppProgress := mkAppProgress {
  ap_OperationID : string; ap_Status : string; ap_Phase : string;
  ap_DownloadedBytes : Z; ap_TotalBytes : option Z; ap_ErrorCode : string; ap_ErrorMessage : string }.

Definition normalizeRuntimeProgress (p : AppProgress) : AppProgress :=
  if (ap_Status p =? "failed")%string && (ap_ErrorCode p =? "CHART_EXECUTION_FAILED")%string
  then mkAppProgress (ap_OperationID p) (ap_Status p) (ap_Phase p) (ap_DownloadedBytes p) (ap_TotalBytes p)
         "SERVICE_UNAVAILABLE" (ap_ErrorMessage p)
  else p.

Definition error_codes : list string :=
  ["INVALID_ARGUMENT"; "NOT_FOUND"; "CONFLICT"; "SERVICE_UNAVAILABLE"; "INTERNAL"; "PERMISSION_DENIED"].

Definition validProgress (p : AppProgress) : bool :=
  if (ap_DownloadedBytes p <? 0)
     || match ap_TotalBytes p with
        | Some t => (t <? 0) || (t <? ap_DownloadedBytes p)
        | None => false
        end then false
  else if negb (slices_contains operation_phases (ap_Phase p)) then false
  else if (ap_Status p =? "succeeded")%string then
    (ap_Phase p =? "completed")%string && (ap_ErrorCode p =? "")%string && (ap_ErrorMessage p =? "")%string
  else if (ap_Status p =? "failed")%string then
    negb (ap_Phase p =? "completed")%string && negb (ap_ErrorMessage p =? "")%string
    && slices_contains error_codes (ap_ErrorCode p)
  else if (ap_Status p =? "running")%string then
    negb (ap_Phase p =? "completed")%string && (ap_ErrorCode p =? "")%string && (ap_ErrorMessage p =? "")%string
  else false.

(** The gRPC status codes the worker tells apart. *)
Inductive Code : Type :=
| InvalidArgument | PermissionDenied | AlreadyExists | FailedPrecondition | OtherCode.

(** A call to Runtime: the operation with its fixed release, or the constrained
    command with its guard. *)
Inductive RuntimeCall : Type :=
| Reconcile (o : OperationRow) (release : option ReleaseBinding)
| ReconcileBound (o : OperationRow) (guard : AppCenterExecution).
(** [None] is a nil progress without an error. *)
Definition RuntimeClient := RuntimeCall -> option AppProgress + Code.

(** The rejections Runtime will repeat forever end the operation. *)
Definition rejected_progress (id : string) (c : Code) : option AppProgress :=
  let failed code := Some (mkAppProgress id "failed" "checking" 0 None code
    "Runtime rejected the command or execution template; check registered application version") in
  match c with
  | InvalidArgument | FailedPrecondition => failed "INVALID_ARGUMENT"
  | AlreadyExists => failed "CONFLICT"
  | PermissionDenied => failed "PERMISSION_DENIED"
  | OtherCode => None
  end.

(** ** Statements *)

(** ORDER BY updated_at, operation_id LIMIT 1. *)
Definition touched_before (a b : OperationRow) : bool :=
  (o_UpdatedAt a <? o_UpdatedAt b)
  || ((o_UpdatedAt a =? o_UpdatedAt b) && str_ltb (o_OperationID a) (o_OperationID b)).
Definition oldest (l : list OperationRow) : option OperationRow :=
  foldr (fun o best => match best with
                       | Some b => if touched_before b o then Some b else Some o
                       | None => Some o
                       end) None l.
(** [free] tells which rows no other worker has locked (SKIP LOCKED). *)
Definition next_operation (station : string) (free : string -> bool) (db : DB) : option OperationRow :=
  oldest (filter (fun o => o_StationID o = station /\ (o_Status o = "accepted" \/ o_Status o = "running")
                           /\ free (o_OperationID o) = true)
            (snd <$> map_to_list (app_operations db))).

Definition null_if_empty (s : string) : option string := if (s =? "")%string then None else Some s.

Definition o_with_progress (p : AppProgress) (now : Time) (o : OperationRow) : OperationRow :=
  mkOperation (o_OperationID o) (o_RequestID o) (o_UserID o) (o_OrganizationID o) (o_StationID o)
    (o_AppID o) (o_AppVersion o) (o_Action o) (ap_Status p) (ap_Phase p) (ap_DownloadedBytes p)
    (ap_TotalBytes p) (null_if_empty (ap_ErrorCode p)) (null_if_empty (ap_ErrorMessage p))
    (o_IdempotencyKey o) (o_RequestHash o) (o_ExpectedWorkloadUID o) (o_InstallationID o) now.
Definition o_touched (now : Time) (o : OperationRow) : OperationRow :=
  mkOperation (o_OperationID o) (o_RequestID o) (o_UserID o) (o_OrganizationID o) (o_StationID o)
    (o_AppID o) (o_AppVersion o) (o_Action o) (o_Status o) (o_Phase o) (o_DownloadedBytes o)
    (o_TotalBytes o) (o_ErrorCode o) (o_ErrorMessage o)
    (o_IdempotencyKey o) (o_RequestHash o) (o_ExpectedWorkloadUID o) (o_InstallationID o) now.

(** UPDATE of an operation, under the table's checks. *)
Definition update_operation (id : string) (f : OperationRow -> OperationRow) (db : DB) : result OpError DB :=
  match app_operations db !! id with
  | None => Ok db
  | Some o => if operation_checks (f o) then Ok (set_operations (<[id := f o]> (app_operations db)) db)
              else Err ErrConstraint
  end.

(** ** One dispatch *)

Section Worker.
Context {U : UuidLib}.

Definition same_command (c : Command) (o : OperationRow) : bool :=
  (c_IdempotencyKey c =? o_IdempotencyKey o)%string && (c_RequestID c =? o_RequestID o)%string
  && (c_OrganizationID c =? o_OrganizationID o)%string && (c_StationID c =? o_StationID o)%string
  && (c_AppID c =? o_AppID o)%string && (c_AppVersion c =? o_AppVersion o)%string
  && (c_Action c =? o_Action o)%string && (c_ExpectedWorkloadUID c =? o_ExpectedWorkloadUID o)%string.

(** Use only the durable inputs accepted in the original transaction. The stored
    execution is within 4096 bytes, as its table demands, so the length check of the
    code never refuses it. *)
Definition appCenterDispatchInput (schema : AppCenterCommand -> bool) (o : OperationRow)
    (a : AppCenterCommand) (x : AppCenterExecution) : result OpError RuntimeCall :=
  let e := ac_Expected a in
  let installation := default "" (o_InstallationID o) in
  if negb (schema a) then Err ErrAppCenterBinding
  else if negb (bool_decide (appCenterHash a = o_RequestHash o)) || negb (same_command (ac_Command a) o)
          || negb (validUUIDv7 installation) then Err ErrAppCenterBinding
  else if negb (e_AppVersion e =? o_AppVersion o)%string
          || negb (Bool.eqb (bool_decide (e_InstallationID e = None)) (bool_decide (e_InstallationRevision e = None)))
  then Err ErrAppCenterBinding
  else if (if (c_Action (ac_Command a) =? "install")%string
           then bool_decide (is_Some (e_InstallationID e)) || bool_decide (is_Some (e_WorkloadUID e))
           else negb (bool_decide (e_InstallationID e = Some installation))) then Err ErrAppCenterBinding
  else if negb (is_ok (validateAppCenterExecution a x)) then Err ErrAppCenterBinding
  else Ok (ReconcileBound o x).

(** Touch only the scheduling time, commit, and report the pending error. *)
Definition postpone (pg : Pg) (id : string) (now : Time) (pending : OpError) (db : DB)
    : DB * result OpError bool :=
  match run_tx pg (fun db => db' ← update_operation id (o_touched now) db; Ok (tt, db')) db with
  | (db', Ok _) => (db', Err pending)
  | (db', Err e) => (db', Err e)
  end.

Definition record_progress (o : OperationRow) (p : AppProgress) (now : Time) : Tx bool := fun db =>
  db1 ← update_operation (o_OperationID o) (o_with_progress p now) db;
  db2 ← recordInstallationProgress (o_OperationID o) (o_Action o) (ap_Status p) now db1;
  Ok (true, db2).

(** What the worker does once it knows the call to make. *)
Definition reconcile_call (client : RuntimeClient) (o : OperationRow) (call : RuntimeCall) (pg : Pg) (now : Time)
    (db : DB) : DB * result OpError bool :=
  let id := o_OperationID o in
  let finish p :=
    let p := normalizeRuntimeProgress p in
    if negb (ap_OperationID p =? id)%string || negb (validProgress p)
    then (db, Err (ErrPlain "invalid runtime progress"))
    else run_tx pg (record_progress o p now) db in
  match client call with
  | inl None => (db, Err (ErrPlain "invalid runtime progress"))
  | inl (Some p) => finish p
  | inr code =>
      match rejected_progress id code with
      | Some p => finish p
      | None => postpone pg id now (ErrExternal "pending") db
      end
  end.

(** [DispatchOne]: the operation's row stays locked for the whole call. [bound]
    tells whether the AppCenter runtime is configured. *)
Definition DispatchOne (station : string) (free : string -> bool) (schema : AppCenterCommand -> bool)
    (bound : bool) (client : RuntimeClient) (pg : Pg) (now : Time) (db : DB) : DB * result OpError bool :=
  match next_operation station free db with
  | None => (db, Ok false)
  | Some o =>
      let id := o_OperationID o in
      let release := preinstalled_operation_bindings db !! id in
      match appcenter_operation_inputs db !! id with
      | Some (a, x) =>
          if negb bound then postpone pg id now ErrAppCenterDispatch db
          else if bool_decide (is_Some release) then postpone pg id now ErrAppCenterBinding db
          else match appCenterDispatchInput schema o a x with
          | Err e => postpone pg id now e db
          | Ok call => reconcile_call client o call pg now db
          end
      | None =>
          match release with
          | Some b =>
              if negb (binding_Valid b) || negb (rb_AppID b =? o_AppID o)%string
                 || negb (rb_AppVersion b =? o_AppVersion o)%string
              then (db, Err (ErrPlain "invalid preinstalled operation binding"))
              else reconcile_call client o (Reconcile o (Some b)) pg now db
          | None => reconcile_call client o (Reconcile o None) pg now db
          end
      end
  end.
End Worker.
