(* ===== verification/OperationsInv.v ===== *)
(** * One station's operations together

    The tables under every interleaving of the operations that write them: version
    transitions, lifecycle operations, the two workers, forward recoveries and the
    proofs Runtime stores. A dispatch is three steps (read, Runtime's answer,
    commit), so [w_prior] keeps every dispatch read that may still commit, and
    [w_accepted] every recovery handed to Runtime. *)
From S2P Require Import Prelude GoStd Sha256 GoJson Uuid OperationTypes Transitions TransitionFacts Dispatch Forward Installations Lifecycle LifecycleWorker.

Record world := mkWorld {
  w_db : DB; w_prior : list dispatchTransition; w_accepted : list ForwardRecovery }.

Definition with_db (db : DB) (w : world) : world := mkWorld db (w_prior w) (w_accepted w).

Definition set_proofs x (db : DB) : DB :=
  mkDB (app_installations db) (app_operations db) (app_installation_transitions db) (forward_recoveries db)
    x (preinstalled_operation_bindings db) (preinstalled_installation_bindings db)
    (appcenter_operation_inputs db) (audit_events db).

(** The barrier a dispatch that read [r] commits. *)
Inductive barrier_of (r : dispatchTransition) : string -> string -> string -> Prop :=
| barrier_direct fp status phase :
    dispatch_plan r fp = Ok (PlanCommit status phase) -> barrier_of r status phase ""
| barrier_reported fp mode reported status phase version :
    dispatch_plan r fp = Ok (PlanCall mode) ->
    dispatch_barrier r mode reported = Ok (status, phase, version) ->
    barrier_of r status phase version.

Section World.
Context {U : UuidLib}.
Variable station : string.

Inductive ostep : world -> world -> Prop :=
| os_accept w pg u c reader fallback id now :
    ostep w (with_db (fst (SubmitTransition station pg u c reader fallback id now (w_db w))) w)
| os_lifecycle w env pg u c preinstalled constrained admission :
    se_station env = station ->
    ostep w (with_db (fst (submit env pg u c preinstalled constrained admission (w_db w))) w)
| os_worker w free schema bound client pg now :
    ostep w (with_db (fst (DispatchOne station free schema bound client pg now (w_db w))) w)
| os_read w op r :
    readDispatchTransition (w_db w) station op = Ok r ->
    ostep w (mkWorld (w_db w) (r :: w_prior w) (w_accepted w))
| os_barrier w r pg status phase version now :
    r ∈ w_prior w -> barrier_of r status phase version ->
    ostep w (with_db (fst (commitTransition station pg r status phase version now (w_db w))) w)
| os_forward_accept w pg u c has read id db' r :
    run_tx pg (accept_body station u c has read id) (w_db w) = (db', Ok r) ->
    ostep w (mkWorld db' (w_prior w) (r :: w_accepted w))
| os_forward_finish w pg u r verified now :
    r ∈ w_accepted w ->
    ostep w (with_db (fst (run_tx pg (finish_body station u r verified now) (w_db w))) w)
| os_proof w proofs : ostep w (with_db (set_proofs proofs (w_db w)) w).

Definition empty_db : DB := mkDB ∅ ∅ ∅ ∅ ∅ ∅ ∅ ∅ [].
Definition world_reachable (w : world) : Prop := rtc ostep (mkWorld empty_db [] []) w.
End World.

(** ** Invariant *)

Definition op_active (o : OperationRow) : bool :=
  (o_Status o =? "accepted")%string || (o_Status o =? "running")%string.
Definition tr_active (r : TransitionRow) : bool := negb (terminal (t_Status (tr_T r))).

(** Where the installation of an active transition stands. *)
Definition at_original (i : Installation) (t : Transition) : Prop :=
  i_AppVersion i = s_AppVersion (t_Source t) /\ i_Revision i = t_ExpectedRevision t.
Definition at_target (i : Installation) (t : Transition) : Prop :=
  i_AppVersion i = s_AppVersion (t_Target t) /\ i_Revision i = t_ExpectedRevision t + 1.
Definition placed (i : Installation) (t : Transition) : Prop :=
  i_State i = "installed" /\ (at_original i t \/ (t_Phase t = "releasing" /\ at_target i t)).

Definition transition_wf (insts : gmap string Installation) (k : string) (r : TransitionRow) : Prop :=
  t_OperationID (tr_T r) = k /\ transition_checks r = true /\
  s_AppID (t_Source (tr_T r)) = tr_AppID r /\
  s_ReleaseRef (t_Source (tr_T r)) <> s_ReleaseRef (t_Target (tr_T r)) /\
  exists i, insts !! t_InstallationID (tr_T r) = Some i /\
    i_AppID i = tr_AppID r /\ i_StationID i = tr_StationID r /\ i_OrganizationID i = tr_OrganizationID r /\
    (tr_active r = true -> placed i (tr_T r)).

Definition operation_wf (insts : gmap string Installation) (k : string) (o : OperationRow) : Prop :=
  o_OperationID o = k /\
  (forall id, o_InstallationID o = Some id -> exists i, insts !! id = Some i /\
     i_StationID i = o_StationID o /\ i_AppID i = o_AppID o).

Definition current_unique (insts : gmap string Installation) : Prop :=
  forall j k i i', insts !! j = Some i -> insts !! k = Some i' ->
    i_State i <> "removed" -> i_State i' <> "removed" ->
    i_StationID i = i_StationID i' -> i_AppID i = i_AppID i' -> j = k.

(** Two rows never name one release with different snapshots. *)
Definition snapshots_of (r : TransitionRow) : list TransitionSnapshot := [t_Source (tr_T r); t_Target (tr_T r)].
Definition ledger_wf (rows : gmap string TransitionRow) : Prop :=
  forall j k r r' s s', rows !! j = Some r -> rows !! k = Some r' ->
    s ∈ snapshots_of r -> s' ∈ snapshots_of r' -> s_ReleaseRef s = s_ReleaseRef s' -> s = s'.

Record db_wf (db : DB) : Prop := {
  db_inst_keys : map_Forall (fun k i => i_InstallationID i = k) (app_installations db);
  db_current : current_unique (app_installations db);
  db_ops : map_Forall (operation_wf (app_installations db)) (app_operations db);
  db_trs : map_Forall (transition_wf (app_installations db)) (app_installation_transitions db);
  db_one_active : forall j k r r', app_installation_transitions db !! j = Some r ->
    app_installation_transitions db !! k = Some r' -> tr_active r = true -> tr_active r' = true ->
    t_InstallationID (tr_T r) = t_InstallationID (tr_T r') -> j = k;
  db_exclusion : forall j k o r, app_operations db !! j = Some o ->
    app_installation_transitions db !! k = Some r -> op_active o = true -> tr_active r = true ->
    ~ (o_StationID o = tr_StationID r /\ o_AppID o = tr_AppID r);
  db_ledger : ledger_wf (app_installation_transitions db);
  db_rec_keys : map_Forall (fun k r => f_RecoveryID (fr_F r) = k) (forward_recoveries db);
}.

(** The immutable part of a transition row. *)
Definition same_input (t t' : Transition) : Prop :=
  t_OperationID t = t_OperationID t' /\ t_InstallationID t = t_InstallationID t' /\
  t_RequestID t = t_RequestID t' /\ t_Action t = t_Action t' /\
  t_ExpectedRevision t = t_ExpectedRevision t' /\ t_Source t = t_Source t' /\ t_Target t = t_Target t'.

(** A dispatch read names a row that still carries the input it read. *)
Definition prior_ok (db : DB) (r : dispatchTransition) : Prop :=
  exists row, app_installation_transitions db !! t_OperationID (d_T r) = Some row /\
    same_input (tr_T row) (d_T r).

Definition same_recovery (f f' : ForwardRecovery) : Prop :=
  f_RecoveryID f = f_RecoveryID f' /\ f_OperationID f = f_OperationID f' /\
  f_ExpectedRevision f = f_ExpectedRevision f' /\ f_InstalledVersion f = f_InstalledVersion f' /\
  f_Target f = f_Target f'.
Definition recovery_ok (db : DB) (f : ForwardRecovery) : Prop :=
  exists row, forward_recoveries db !! f_RecoveryID f = Some row /\ same_recovery (fr_F row) f.

Definition world_wf (w : world) : Prop :=
  db_wf (w_db w) /\ Forall (prior_ok (w_db w)) (w_prior w) /\ Forall (recovery_ok (w_db w)) (w_accepted w).

(** What every step keeps of the rows that exist: the immutable input, and the
    whole row once it is terminal. *)
Definition rows_persist (db db' : DB) : Prop :=
  (forall k r, app_installation_transitions db !! k = Some r ->
     exists r', app_installation_transitions db' !! k = Some r' /\ same_input (tr_T r) (tr_T r') /\
       tr_StationID r' = tr_StationID r /\ tr_OrganizationID r' = tr_OrganizationID r /\
       tr_AppID r' = tr_AppID r /\ (tr_active r = false -> r' = r)) /\
  (forall k f, forward_recoveries db !! k = Some f ->
     exists f', forward_recoveries db' !! k = Some f' /\ same_recovery (fr_F f) (fr_F f')).
