(* ===== verification/OperationsFrame.v ===== *)
(** * Effects of single statements on the operations invariant

    One lemma per kind of write: an installation, an operation, a transition, a
    recovery; and what the composite writes of the component are made of. *)
From S2P Require Import Prelude GoStd Sha256 GoJson Uuid OperationTypes Transitions TransitionFacts Dispatch Forward Installations Lifecycle LifecycleWorker OperationsInv.

(** ** Tables the invariant does not read *)

Lemma db_wf_audit e db : db_wf db -> db_wf (add_audit e db).
Proof. intros []. by constructor. Qed.
Lemma db_wf_operation_bindings x db : db_wf db -> db_wf (set_operation_bindings x db).
Proof. intros []. by constructor. Qed.
Lemma db_wf_installation_bindings x db : db_wf db -> db_wf (set_installation_bindings x db).
Proof. intros []. by constructor. Qed.
Lemma db_wf_inputs x db : db_wf db -> db_wf (set_inputs x db).
Proof. intros []. by constructor. Qed.
Lemma db_wf_proofs x db : db_wf db -> db_wf (set_proofs x db).
Proof. intros []. by constructor. Qed.
#[export] Hint Resolve db_wf_audit db_wf_operation_bindings db_wf_installation_bindings db_wf_inputs
  db_wf_proofs : station.

(** A quiet change: the same transitions and recoveries, and the installation of
    every active transition as it was. *)
Definition same_rows (db db' : DB) : Prop :=
  app_installation_transitions db' = app_installation_transitions db /\
  forward_recoveries db' = forward_recoveries db /\
  forall k r, app_installation_transitions db !! k = Some r -> tr_active r = true ->
    app_installations db' !! t_InstallationID (tr_T r) = app_installations db !! t_InstallationID (tr_T r).

Lemma same_input_refl t : same_input t t.
Proof. by repeat split. Qed.
Lemma same_recovery_refl f : same_recovery f f.
Proof. by repeat split. Qed.
#[export] Hint Resolve same_input_refl same_recovery_refl : station.

Lemma rows_persist_same db db' : same_rows db db' -> rows_persist db db'.
Proof.
  intros (H1 & H2 & _). split; intros k r Hk; rewrite ?H1, ?H2; exists r; split_and!; auto with station.
Qed.

Lemma rows_persist_refl db : rows_persist db db.
Proof. by apply rows_persist_same. Qed.

Lemma same_input_trans a b c : same_input a b -> same_input b c -> same_input a c.
Proof. unfold same_input. intuition congruence. Qed.

Lemma rows_persist_trans a b c : rows_persist a b -> rows_persist b c -> rows_persist a c.
Proof.
  intros [H1 H2] [H3 H4]. split.
  - intros k r Hr. destruct (H1 k r Hr) as (r' & Hr' & ? & ? & ? & ? & Hi).
    destruct (H3 k r' Hr') as (r'' & Hr'' & ? & ? & ? & ? & Hi'). exists r''.
    split_and!; try congruence; [eauto using same_input_trans |].
    intros Hin. specialize (Hi Hin). subst r'. auto.
  - intros k f Hf. destruct (H2 k f Hf) as (f' & Hf' & ?). destruct (H4 k f' Hf') as (f'' & ? & ?).
    exists f''. split; [done |]. unfold same_recovery in *. intuition congruence.
Qed.

Lemma prior_ok_persist db db' r : rows_persist db db' -> prior_ok db r -> prior_ok db' r.
Proof.
  intros [H _] (row & Hr & Hs). destruct (H _ _ Hr) as (row' & ? & Hs' & _). exists row'. split; [done |].
  unfold same_input in *. intuition congruence.
Qed.
Lemma recovery_ok_persist db db' f : rows_persist db db' -> recovery_ok db f -> recovery_ok db' f.
Proof.
  intros [_ H] (row & Hr & Hs). destruct (H _ _ Hr) as (row' & ? & Hs'). exists row'. split; [done |].
  unfold same_recovery in *. intuition congruence.
Qed.

(** ** Installations *)

Definition same_identity (i i' : Installation) : Prop :=
  i_InstallationID i' = i_InstallationID i /\ i_StationID i' = i_StationID i /\
  i_AppID i' = i_AppID i /\ i_OrganizationID i' = i_OrganizationID i.

(** No active transition concerns the app of an installation. *)
Definition app_idle (db : DB) (station app : string) : Prop :=
  forall k r, app_installation_transitions db !! k = Some r -> tr_active r = true ->
    ~ (tr_StationID r = station /\ tr_AppID r = app).

Lemma transition_wf_insert insts id i i' k r :
  insts !! id = Some i -> same_identity i i' ->
  (tr_active r = true -> t_InstallationID (tr_T r) = id -> placed i' (tr_T r)) ->
  transition_wf insts k r -> transition_wf (<[id := i']> insts) k r.
Proof.
  intros Hi (H1 & H2 & H3 & H4) Hp (? & ? & ? & ? & j & Hj & ? & ? & ? & ?). split_and!; try done.
  destruct (decide (id = t_InstallationID (tr_T r))) as [-> | Hne].
  - exists i'. rewrite lookup_insert_eq. simplify_eq. split_and!; try congruence. auto.
  - exists j. by rewrite lookup_insert_ne.
Qed.

Lemma operation_wf_insert insts id i i' k o :
  insts !! id = Some i -> same_identity i i' -> operation_wf insts k o -> operation_wf (<[id := i']> insts) k o.
Proof.
  intros Hi (H1 & H2 & H3 & H4) [Hk Ho]. split; [done |]. intros j Hj. destruct (Ho j Hj) as (x & Hx & ? & ?).
  destruct (decide (id = j)) as [-> | Hne].
  - exists i'. rewrite lookup_insert_eq. simplify_eq. split_and!; congruence.
  - exists x. by rewrite lookup_insert_ne.
Qed.

Lemma db_wf_installation db id i i' :
  db_wf db -> app_installations db !! id = Some i -> same_identity i i' ->
  (forall k r, app_installation_transitions db !! k = Some r -> tr_active r = true ->
     t_InstallationID (tr_T r) = id -> placed i' (tr_T r)) ->
  (i_State i' = "removed" \/ i_State i <> "removed" \/
   current_installation db (i_StationID i) (i_AppID i) = None) ->
  db_wf (set_installations (<[id := i']> (app_installations db)) db).
Proof.
  intros [H1 H2 H3 H4 H5 H6 H7 H8] Hi Hid Hp Hst. destruct (Hid) as (Ha & Hb & Hc & Hd).
  constructor; simpl; try done.
  - apply map_Forall_insert_2; [| done]. rewrite Ha. by apply (H1 id i).
  - assert (Hcur : forall k x, app_installations db !! k = Some x -> id <> k -> i_State i' <> "removed" ->
      i_State x <> "removed" -> i_StationID i = i_StationID x -> i_AppID i = i_AppID x -> False).
    { intros k x Hk Hne Hs1 Hs2 He1 He2. destruct Hst as [? | [Hs | Hnone]]; [done | |].
      - apply Hne. by eapply H2.
      - pose proof (select_row_none _ _ Hnone k x Hk) as Hn. simpl in Hn.
        rewrite <- He1, <- He2, !String.eqb_refl in Hn. simpl in Hn. by bool_norm. }
    intros j k x y. rewrite !lookup_insert. repeat case_decide; intros; simplify_eq; try done.
    + exfalso. eapply (Hcur k y); eauto; congruence.
    + exfalso. eapply (Hcur j x); eauto; congruence.
    + by eapply H2.
  - intros k o Ho. eapply operation_wf_insert; [exact Hi | done | by apply H3].
  - intros k r Hr. eapply transition_wf_insert; [exact Hi | done | by eauto | by apply H4].
Qed.

Lemma app_idle_installation db id i k r :
  db_wf db -> app_installations db !! id = Some i -> app_idle db (i_StationID i) (i_AppID i) ->
  app_installation_transitions db !! k = Some r -> tr_active r = true -> t_InstallationID (tr_T r) <> id.
Proof.
  intros Hwf Hi Hidle Hr Ha <-. destruct (db_trs db Hwf k r Hr) as (_ & _ & _ & _ & j & Hj & ? & ? & _).
  simplify_eq. eapply Hidle; eauto.
Qed.

Lemma update_installation_spec id f db db' :
  update_installation id f db = Ok db' ->
  (app_installations db !! id = None /\ db' = db) \/
  exists i, app_installations db !! id = Some i /\
    (i_State (f i) = "removed" \/ i_State i <> "removed" \/
     current_installation db (i_StationID i) (i_AppID i) = None) /\
    db' = set_installations (<[id := f i]> (app_installations db)) db.
Proof.
  unfold update_installation. destruct (app_installations db !! id) as [i |]; [| intros [= <-]; by left].
  destruct (_ || _) eqn:E; [done |]. intros [= <-]. right. exists i. split_and!; try done.
  apply orb_false_iff in E as [_ E]. destruct (decide (i_State (f i) = "removed")) as [? | Hn]; [by left |].
  right. destruct (decide (i_State i = "removed")) as [Hr | ?]; [| by left]. right.
  apply String.eqb_neq in Hn. rewrite Hn in E. rewrite Hr in E. simpl in E. bool_norm. by apply eq_None_not_Some.
Qed.

(** An update of an installation of an idle app keeps the invariant. *)
Lemma db_wf_update_idle id f db db' :
  db_wf db -> (forall i, same_identity i (f i)) ->
  (forall i, app_installations db !! id = Some i -> app_idle db (i_StationID i) (i_AppID i)) ->
  update_installation id f db = Ok db' -> db_wf db' /\ same_rows db db' /\ app_operations db' = app_operations db.
Proof.
  intros Hwf Hf Hidle [[_ ->] | (i & Hi & Hst & ->)]%update_installation_spec; [done |].
  assert (Hne : forall k r, app_installation_transitions db !! k = Some r -> tr_active r = true ->
    t_InstallationID (tr_T r) <> id) by (intros; by eapply (app_idle_installation db id i); eauto).
  split_and!; try done.
  - apply (db_wf_installation db id i); auto. intros k r Hr Ha Heq. by destruct (Hne k r Hr Ha).
  - split_and!; try done. intros k r Hr Ha. simpl. rewrite lookup_insert_ne; [done |]. specialize (Hne k r Hr Ha). congruence.
Qed.

(** ** Operations *)

Lemma db_wf_operation db k o :
  db_wf db -> operation_wf (app_installations db) k o ->
  (op_active o = true -> app_idle db (o_StationID o) (o_AppID o)) ->
  db_wf (set_operations (<[k := o]> (app_operations db)) db).
Proof.
  intros [H1 H2 H3 H4 H5 H6 H7 H8] Ho Hidle. constructor; simpl; try done.
  - by apply map_Forall_insert_2.
  - intros j l x r Hx Hr Hax Har [Hs Happ]. rewrite lookup_insert in Hx. case_decide; simplify_eq.
    + eapply Hidle; eauto.
    + eapply H6; eauto.
Qed.

(** ** Transitions *)

Lemma tr_with_input r s p now : same_input (tr_T r) (tr_T (tr_with s p now r)).
Proof. by repeat split. Qed.

Lemma same_input_snapshots r r' : same_input (tr_T r) (tr_T r') -> snapshots_of r = snapshots_of r'.
Proof. unfold same_input, snapshots_of. intuition congruence. Qed.

Lemma db_wf_transition db k row status phase now :
  db_wf db -> app_installation_transitions db !! k = Some row ->
  transition_checks (tr_with status phase now row) = true ->
  (terminal status = false -> tr_active row = true /\
     forall i, app_installations db !! t_InstallationID (tr_T row) = Some i -> placed i (tr_T (tr_with status phase now row))) ->
  db_wf (set_transitions (<[k := tr_with status phase now row]> (app_installation_transitions db)) db).
Proof.
  intros [H1 H2 H3 H4 H5 H6 H7 H8] Hr Hck Hact. constructor; simpl; try done.
  - apply map_Forall_insert_2; [| done]. destruct (H4 k row Hr) as (? & ? & ? & ? & i & Hi & ? & ? & ? & ?).
    split_and!; try done. exists i. split_and!; try done. unfold tr_active. simpl. intros Ha. bool_norm.
    destruct Hact as [_ Hp]; auto.
  - assert (Hback : forall j x, <[k := tr_with status phase now row]> (app_installation_transitions db) !! j = Some x ->
      tr_active x = true -> exists y, app_installation_transitions db !! j = Some y /\ tr_active y = true /\
        t_InstallationID (tr_T y) = t_InstallationID (tr_T x)).
    { intros j x. rewrite lookup_insert. case_decide; intros; simplify_eq; [| eauto].
      exists row. split_and!; try done. unfold tr_active in *. simpl in *. bool_norm. by apply Hact. }
    intros j l x y Hx Hy Hax Hay Heq.
    destruct (Hback j x Hx Hax) as (x' & ? & ? & ?). destruct (Hback l y Hy Hay) as (y' & ? & ? & ?).
    eapply H5; eauto. congruence.
  - intros j l o x Ho Hx Hao Hax. rewrite lookup_insert in Hx. case_decide; simplify_eq; [| by eapply H6].
    simpl. unfold tr_active in Hax. simpl in Hax. bool_norm. destruct (Hact Hax) as [? _]. by eapply H6.
  - assert (Hback : forall j x, <[k := tr_with status phase now row]> (app_installation_transitions db) !! j = Some x ->
      exists y, app_installation_transitions db !! j = Some y /\ snapshots_of y = snapshots_of x).
    { intros j x. rewrite lookup_insert. case_decide; intros; simplify_eq; eauto. }
    intros j l x y s s' (x' & Hx & Ex)%Hback (y' & Hy & Ey)%Hback. rewrite <- Ex, <- Ey. by apply (H7 j l).
Qed.

Lemma rows_persist_transition db k row status phase now :
  app_installation_transitions db !! k = Some row -> tr_active row = true ->
  rows_persist db (set_transitions (<[k := tr_with status phase now row]> (app_installation_transitions db)) db).
Proof.
  intros Hr Ha. split; simpl; [| eauto with station]. intros j x Hx.
  destruct (decide (k = j)) as [-> | Hne].
  - simplify_eq. eexists. rewrite lookup_insert_eq. split_and!; try done. congruence.
  - exists x. rewrite lookup_insert_ne by done. split_and!; auto with station.
Qed.
