(* ===== verification/OperationsSteps.v ===== *)
(** * Every step keeps the operations invariant *)
From S2P Require Import Prelude GoStd Sha256 GoJson Uuid OperationTypes Transitions TransitionFacts Dispatch Forward Installations Lifecycle LifecycleWorker OperationsInv OperationsFrame.

Lemma compatible_facts c i s t : compatibleTransition c i s t = true ->
  snapshot_valid s = true /\ snapshot_valid t = true /\
  s_AppID s = i_AppID i /\ s_AppID t = i_AppID i /\ s_AppVersion s = i_AppVersion i /\
  s_AppVersion s = tc_SourceVersion c /\ s_ReleaseRef t = tc_TargetReleaseRef c /\
  s_ReleaseRef s <> s_ReleaseRef t /\ s_ReleaseKind s = s_ReleaseKind t.
Proof. unfold compatibleTransition. destruct (_ || _) eqn:E; [done |]. intros _. bool_norm. by split_and!. Qed.

Lemma snapshot_valid_version s : snapshot_valid s = true -> transitionVersion (s_AppVersion s) = true.
Proof.
  unfold snapshot_valid. destruct (_ || _) eqn:E; [done |]. intros _. bool_norm.
  unfold validTransitionVersion in *. by bool_norm.
Qed.

Lemma active_operation_true station app o :
  active_operation station app o = true <-> o_StationID o = station /\ o_AppID o = app /\ op_active o = true.
Proof. unfold active_operation, op_active. rewrite !andb_true_iff, !String.eqb_eq. tauto. Qed.

Lemma no_active_operation db station app :
  exists_row (active_operation station app) (app_operations db) = false ->
  forall k o, app_operations db !! k = Some o -> op_active o = true ->
    ~ (o_StationID o = station /\ o_AppID o = app).
Proof.
  intros H k o Ho Ha [Hs Happ]. rewrite exists_row_false in H. specialize (H k o Ho).
  rewrite (proj2 (active_operation_true station app o)) in H by done. done.
Qed.

Lemma reference_unchanged db s k r s' : reference_changed db s = false ->
  app_installation_transitions db !! k = Some r -> s' ∈ snapshots_of r ->
  s_ReleaseRef s' = s_ReleaseRef s -> s' = s.
Proof.
  unfold reference_changed. rewrite exists_row_false. intros H Hr Hs Href. specialize (H k r Hr).
  apply orb_false_iff in H as [H1 H2].
  unfold snapshots_of in Hs. apply elem_of_cons in Hs as [-> | Hs%list_elem_of_singleton].
  - rewrite Href, String.eqb_refl in H1. simpl in H1. by bool_norm.
  - subst s'. rewrite Href, String.eqb_refl in H2. simpl in H2. by bool_norm.
Qed.

Lemma retain_unchanged db source target : retainTransitionReferences db source target = Ok tt ->
  reference_changed db source = false /\ reference_changed db target = false.
Proof.
  unfold retainTransitionReferences. destruct (existsb _ _) eqn:E; [done |]. intros _.
  assert (H : forall s, s ∈ [source; target] -> reference_changed db s = false).
  { intros s Hs. destruct (reference_changed db s) eqn:Er; [| done].
    rewrite <- E. symmetry. apply existsb_exists. exists s. split; [| done].
    apply list_elem_of_In, elem_of_sort_by. done. }
  split; apply H; set_solver.
Qed.

(** ** Acceptance of a transition *)

Lemma db_wf_insert_transition db row db' i :
  db_wf db -> insert_transition row db = Ok db' ->
  tr_active row = true -> s_AppID (t_Source (tr_T row)) = tr_AppID row ->
  s_ReleaseRef (t_Source (tr_T row)) <> s_ReleaseRef (t_Target (tr_T row)) ->
  app_installations db !! t_InstallationID (tr_T row) = Some i ->
  i_AppID i = tr_AppID row -> i_StationID i = tr_StationID row -> i_OrganizationID i = tr_OrganizationID row ->
  placed i (tr_T row) ->
  exists_row (active_operation (tr_StationID row) (tr_AppID row)) (app_operations db) = false ->
  reference_changed db (t_Source (tr_T row)) = false -> reference_changed db (t_Target (tr_T row)) = false ->
  db_wf db' /\ rows_persist db db'.
Proof.
  intros Hwf Hins Ha Hs Href Hi Happ Hst Horg Hp Hno Hr1 Hr2.
  apply insert_transition_ok in Hins as (Hnew & _ & Hterm & Hck & ->).
  pose proof Hwf as [H1 H2 H3 H4 H5 H6 H7 H8]. set (id := t_OperationID (tr_T row)) in *.
  assert (Hone : forall k x, app_installation_transitions db !! k = Some x -> tr_active x = true ->
    t_InstallationID (tr_T x) = t_InstallationID (tr_T row) -> False).
  { intros k x Hx Hax He. unfold tr_active in Hax. rewrite (Hterm k x Hx He) in Hax. done. }
  assert (Hled : forall k x s s', app_installation_transitions db !! k = Some x -> s' ∈ snapshots_of x ->
    s ∈ snapshots_of row -> s_ReleaseRef s' = s_ReleaseRef s -> s' = s).
  { intros k x s s' Hx Hs' Hsn He. unfold snapshots_of in Hsn.
    apply elem_of_cons in Hsn as [-> | ->%list_elem_of_singleton]; eapply reference_unchanged; eauto. }
  split; [constructor; simpl; try done |].
  - apply map_Forall_insert_2; [| done]. split_and!; try done. exists i. by split_and!.
  - intros j l x y. rewrite !lookup_insert. repeat case_decide; intros; simplify_eq; eauto.
    + exfalso. eapply (Hone l y); eauto.
    + exfalso. eapply (Hone j x); eauto.
  - intros j l o x Ho Hx Hao Hax. rewrite lookup_insert in Hx. case_decide; simplify_eq; [| by eapply H6].
    by eapply no_active_operation.
  - assert (Hself : forall s s', s ∈ snapshots_of row -> s' ∈ snapshots_of row -> s_ReleaseRef s = s_ReleaseRef s' -> s = s').
    { unfold snapshots_of. intros s s' Hs1 Hs2 He. rewrite !elem_of_cons, elem_of_nil in Hs1, Hs2.
      destruct Hs1 as [-> | [-> | []]], Hs2 as [-> | [-> | []]]; congruence. }
    intros j l x y s s'. rewrite !lookup_insert. repeat case_decide; intros; simplify_eq.
    + by apply Hself.
    + symmetry. eapply (Hled l y); eauto.
    + eapply (Hled j x); eauto.
    + by eapply (H7 j l).
  - split; simpl; [| eauto with station]. intros k r Hr. exists r. rewrite lookup_insert_ne by congruence.
    split_and!; auto with station.
Qed.

Section Steps.
Context {U : UuidLib}.
Variable station : string.

Lemma accept_step pg u c reader fallback id now db :
  db_wf db -> let db' := fst (SubmitTransition station pg u c reader fallback id now db) in
  db_wf db' /\ rows_persist db db'.
Proof.
  intros Hwf. simpl. destruct (SubmitTransition _ _ _ _ _ _ _ _ db) as [db' [t | e]] eqn:E; simpl.
  - apply SubmitTransition_cases in E as (_ & _ & _ & _ & E).
    apply submit_body_cases in E as [(-> & _) | E]; [auto using rows_persist_refl |].
    destruct E as (i & s & g & rd & e & _ & Hi & Hst & Horg & Hins & Hrev & Hver & Hop & _ & _ & Hc & Hret & -> & db1 & Hx & ->).
    apply retain_unchanged in Hret as [Hr1 Hr2].
    destruct (compatible_facts _ _ _ _ Hc) as (_ & _ & ? & ? & ? & ? & ? & ? & _).
    destruct (db_wf_insert_transition db _ db1 i Hwf Hx) as [Hw Hp]; simpl; try done.
    + unfold placed, at_original. simpl. split; [done |]. left. split; congruence.
    + split; [by apply db_wf_audit |]. eapply rows_persist_trans; [exact Hp | by apply rows_persist_same].
  - assert (db' = db) as ->; [| auto using rows_persist_refl].
    unfold SubmitTransition in E. destruct (_ || _); [by simplify_eq |].
    destruct (negb (command_valid c)); [by simplify_eq |]. by apply run_tx_err in E.
Qed.

(** ** Lifecycle acceptance *)

Lemma busy_false db app : busy db station app = false ->
  app_idle db station app /\
  forall k o, app_operations db !! k = Some o -> op_active o = true -> ~ (o_StationID o = station /\ o_AppID o = app).
Proof.
  unfold busy. intros [H1 H2]%orb_false_iff. split; [| by apply no_active_operation].
  intros k r Hr Ha [Hs Happ]. rewrite exists_row_false in H2. specialize (H2 k r Hr). simpl in H2.
  rewrite Hs, Happ, !String.eqb_refl in H2. unfold tr_active in Ha. by rewrite Ha in H2.
Qed.

Lemma insert_installation_spec i db db' : insert_installation i db = Ok db' ->
  app_installations db !! i_InstallationID i = None /\
  (i_State i = "removed" \/ current_installation db (i_StationID i) (i_AppID i) = None) /\
  db' = set_installations (<[i_InstallationID i := i]> (app_installations db)) db.
Proof.
  unfold insert_installation. destruct (_ || _) eqn:E; [done |]. intros [= <-].
  repeat apply orb_false_iff in E as [E ?]. split_and!; [by bool_norm; apply eq_None_not_Some | | done].
  match goal with H : _ && _ = false |- _ => apply andb_false_iff in H as [H | H] end; bool_norm; [by left | right].
  by apply eq_None_not_Some.
Qed.

Lemma db_wf_insert_installation i db db' : db_wf db -> insert_installation i db = Ok db' ->
  db_wf db' /\ same_rows db db' /\ app_operations db' = app_operations db.
Proof.
  intros Hwf (Hnew & Hcur & ->)%insert_installation_spec.
  split_and!; try done.
  2: { split_and!; try done. intros k r Hr _. simpl. destruct (db_trs db Hwf k r Hr) as (_ & _ & _ & _ & x & Hx & _).
    rewrite lookup_insert_ne by congruence. done. }
  pose proof Hwf as [H1 H2 H3 H4 H5 H6 H7 H8]. constructor; simpl; try done.
  - by apply map_Forall_insert_2.
  - assert (Hc : forall k x, app_installations db !! k = Some x -> i_State i <> "removed" ->
      i_State x <> "removed" -> i_StationID i = i_StationID x -> i_AppID i = i_AppID x -> False).
    { intros k x Hk Hs1 Hs2 He1 He2. destruct Hcur as [? | Hnone]; [done |].
      pose proof (select_row_none _ _ Hnone k x Hk) as Hn. simpl in Hn.
      rewrite <- He1, <- He2, !String.eqb_refl in Hn. simpl in Hn. by bool_norm. }
    intros j k x y. rewrite !lookup_insert. repeat case_decide; intros; simplify_eq; try done.
    + exfalso. eapply (Hc k y); eauto.
    + exfalso. eapply (Hc j x); eauto.
    + by eapply H2.
  - intros k o Ho. destruct (H3 k o Ho) as [? Hb]. split; [done |]. intros j Hj.
    destruct (Hb j Hj) as (x & Hx & ? & ?). exists x. rewrite lookup_insert_ne by congruence. done.
  - intros k r Hr. destruct (H4 k r Hr) as (? & ? & ? & ? & x & Hx & Hrest). split_and!; try done.
    exists x. rewrite lookup_insert_ne by congruence. done.
Qed.

Lemma current_installation_some db st app i : current_installation db st app = Some i ->
  exists k, app_installations db !! k = Some i /\ i_StationID i = st /\ i_AppID i = app /\ i_State i <> "removed".
Proof. intros (k & Hk & HP)%select_row_some. bool_norm. exists k. by split_and!. Qed.

Lemma reserve_step u c p id now db inst db' :
  db_wf db -> reserveInstallation u c p id now db = Ok (inst, db') ->
  db_wf db' /\ same_rows db db' /\ app_operations db' = app_operations db /\
  (inst <> "" -> exists i, app_installations db' !! inst = Some i /\
     i_StationID i = c_StationID c /\ i_AppID i = c_AppID c).
Proof.
  intros Hwf. unfold reserveInstallation. destruct (current_installation _ _ _) as [i |] eqn:Ec.
  - destruct (_ || _); [done |]. intros [= <- <-]. split_and!; try done. intros _.
    apply current_installation_some in Ec as (k & Hk & ? & ? & _).
    rewrite (db_inst_keys db Hwf k i Hk). eauto.
  - destruct (negb _); [intros [= <- <-]; by split_and! |].
    intros (db1 & Hins & [= <- <-])%mbind_ok.
    destruct (db_wf_insert_installation _ _ _ Hwf Hins) as (? & ? & ?). split_and!; try done.
    intros _. apply insert_installation_spec in Hins as (_ & _ & ->). simpl. rewrite lookup_insert_eq. eauto.
Qed.

Lemma insert_operation_spec o db db' : insert_operation o db = Ok db' ->
  app_operations db !! o_OperationID o = None /\
  (forall k x, app_operations db !! k = Some x -> operation_owned (o_UserID o) (o_OrganizationID o) (o_StationID o) x
     && (o_IdempotencyKey x =? o_IdempotencyKey o)%string = false) /\
  operation_checks o = true /\
  db' = set_operations (<[o_OperationID o := o]> (app_operations db)) db.
Proof.
  unfold insert_operation. destruct (_ || _) eqn:E; [done |]. intros [= <-].
  apply orb_false_iff in E as [E ?]. apply orb_false_iff in E as [E Hk]. bool_norm. split_and!; try done.
  - by apply eq_None_not_Some.
  - by rewrite exists_row_false in Hk.
Qed.

Lemma app_idle_same db db' st app : same_rows db db' -> app_idle db st app -> app_idle db' st app.
Proof. intros (H & _) Hi k r. rewrite H. apply Hi. Qed.
Lemma same_rows_trans a b c : same_rows a b -> same_rows b c -> same_rows a c.
Proof.
  intros (A1 & A2 & A3) (B1 & B2 & B3). split_and!; try congruence. intros k r Hr Ha.
  rewrite (B3 k r) by (done || by rewrite A1). by apply (A3 k r).
Qed.

Lemma bind_operation_step inst op now db db' o :
  db_wf db -> app_operations db !! op = Some o -> app_idle db (o_StationID o) (o_AppID o) ->
  (inst <> "" -> exists i, app_installations db !! inst = Some i /\ i_StationID i = o_StationID o /\ i_AppID i = o_AppID o) ->
  bindInstallationOperation inst op now db = Ok db' -> db_wf db' /\ same_rows db db'.
Proof.
  intros Hwf Ho Hidle Hinst. unfold bindInstallationOperation. destruct (_ =? _)%string eqn:E; [by intros [= <-] |].
  bool_norm. destruct (Hinst E) as (i & Hi & Hs & Ha). intros Hup.
  assert (alter (o_with_installation inst) op (app_operations db) = <[op := o_with_installation inst o]> (app_operations db)) as Heq.
  { apply map_eq. intros k. destruct (decide (op = k)) as [<- |]; by simplify_map_eq. }
  rewrite Heq in Hup. apply db_wf_update_idle in Hup as (? & ? & _); [done | | by repeat split |].
  - apply db_wf_operation; [done | |].
    + destruct (db_ops db Hwf op o Ho) as [? _]. split; [done |]. simpl. intros x [= <-]. eauto.
    + intros _. exact Hidle.
  - simpl. intros j Hj. simplify_eq. rewrite Hs, Ha. exact Hidle.
Qed.

Lemma bind_inputs_step fits id a x db db' : bind_inputs fits id a x db = Ok db' -> db_wf db -> db_wf db' /\ same_rows db db'.
Proof.
  unfold bind_inputs, bindAppCenterInput. intros H. inv_ok H; intros Hwf; (split; [auto with station | done]).
Qed.
Lemma bind_release_step id inst p db db' : bind_release id inst p db = Ok db' -> db_wf db -> db_wf db' /\ same_rows db db'.
Proof.
  unfold bind_release, bindPreinstalled. intros H. inv_ok H; intros Hwf; (split; [auto with station | done]).
Qed.

Lemma accept_operation_step env u c p k x db db' :
  se_station env = station -> c_StationID c = station -> db_wf db -> busy db station (c_AppID c) = false ->
  accept_operation env u c p k x db = Ok db' -> db_wf db' /\ same_rows db db'.
Proof.
  intros Henv Hcs Hwf [Hidle Hnoop]%busy_false. unfold accept_operation.
  intros ([inst db1] & Hres & H)%mbind_ok. apply mbind_ok in H as (db2 & Hins & H).
  apply mbind_ok in H as (db3 & Hbind & H). apply mbind_ok in H as (db4 & Hin & H).
  apply mbind_ok in H as (db5 & Hrel & [= <-]).
  apply reserve_step in Hres as (Hw1 & Hs1 & Ho1 & Hinst); [| done].
  apply insert_operation_spec in Hins as (_ & _ & _ & ->).
  set (o := new_operation env u c p k) in *.
  assert (Hw2 : db_wf (set_operations (<[o_OperationID o := o]> (app_operations db1)) db1)).
  { apply db_wf_operation; [done | by split |]. simpl. rewrite Henv. intros _.
    by eapply app_idle_same. }
  eapply (bind_operation_step inst _ _ _ _ o) in Hbind as [Hw3 Hs3]; [| done | | |].
  - apply bind_inputs_step in Hin as [Hw4 Hs4]; [| done]. apply bind_release_step in Hrel as [Hw5 Hs5]; [| done].
    split; [by apply db_wf_audit |]. eapply same_rows_trans; [exact Hs1 |].
    eapply same_rows_trans; [exact Hs3 |]. eapply same_rows_trans; [exact Hs4 |]. exact Hs5.
  - simpl. by rewrite lookup_insert_eq.
  - simpl. rewrite Henv. by eapply app_idle_same.
  - simpl. rewrite Henv. intros Hne. destruct (Hinst Hne) as (i & ? & ? & ?). exists i. by rewrite <- Hcs.
Qed.

Lemma submit_checks_station st u c : submit_checks st u c = None ->
  c_StationID c = st.
Proof.
  unfold submit_checks. destruct (_ || _); [done |]. destruct (_ || _); [done |].
  destruct (_ || _) eqn:E; [done |]. intros _. by bool_norm.
Qed.

Lemma lifecycle_step env pg u c p k adm db :
  se_station env = station -> db_wf db ->
  let db' := fst (submit env pg u c p k adm db) in db_wf db' /\ same_rows db db'.
Proof.
  intros Henv Hwf. simpl. unfold submit. destruct (submit_checks _ _ _) as [e |] eqn:Ec; [done |].
  destruct (run_tx _ _ db) as [db' [v | e]] eqn:E; simpl; [| apply run_tx_err in E as ->; done].
  apply run_tx_ok in E as [_ E]. unfold lifecycle_body in E.
  destruct (find_by_key _ _ _ _) as [o |].
  { destruct (_ && _); [done |]. by apply mbind_ok in E as (? & _ & [= <- <-]). }
  apply mbind_ok in E as (x & _ & E). apply mbind_ok in E as (y & _ & E).
  destruct (busy _ _ _) eqn:Eb; [done |]. apply mbind_ok in E as (d & Hacc & [= <- <-]).
  rewrite Henv in *. eapply accept_operation_step; eauto.
  by apply (submit_checks_station _ u).
Qed.
End Steps.
