(* ===== verification/OperationsWorkers.v ===== *)
(** * The workers and the recoveries keep the operations invariant *)
From S2P Require Import Prelude GoStd Sha256 GoJson Uuid OperationTypes Transitions TransitionFacts Dispatch Forward Installations Lifecycle LifecycleWorker OperationsInv OperationsFrame OperationsSteps.

(** ** The lifecycle worker *)

Lemma oldest_elem l o : oldest l = Some o -> o ∈ l.
Proof.
  revert o. induction l as [| x l IH]; intros o; simpl; [done |].
  fold (oldest l). destruct (oldest l) as [b |].
  - destruct (touched_before b x); intros [= <-]; [right; auto | left].
  - intros [= <-]. left.
Qed.

Lemma next_operation_spec station free db o : next_operation station free db = Some o ->
  exists k, app_operations db !! k = Some o /\ o_StationID o = station /\ op_active o = true.
Proof.
  intros H. apply oldest_elem, list_elem_of_filter in H as [(Hs & Ha & _) H].
  apply list_elem_of_fmap in H as ([k o'] & -> & Hk). apply elem_of_map_to_list in Hk. exists k.
  split_and!; try done. unfold op_active. simpl in *. destruct Ha as [-> | ->]; [done | by rewrite orb_true_r].
Qed.

Lemma update_operation_spec id f db db' : update_operation id f db = Ok db' ->
  (app_operations db !! id = None /\ db' = db) \/
  exists o, app_operations db !! id = Some o /\ operation_checks (f o) = true /\
    db' = set_operations (<[id := f o]> (app_operations db)) db.
Proof.
  unfold update_operation. destruct (app_operations db !! id) as [o |]; [| intros [= <-]; by left].
  destruct (operation_checks _) eqn:E; [| done]. intros [= <-]. right. eauto.
Qed.

(** What an update of an operation may not touch. *)
Definition same_operation (o o' : OperationRow) : Prop :=
  o_OperationID o' = o_OperationID o /\ o_StationID o' = o_StationID o /\ o_AppID o' = o_AppID o /\
  o_InstallationID o' = o_InstallationID o.

Lemma active_idle db k o : db_wf db -> app_operations db !! k = Some o -> op_active o = true ->
  app_idle db (o_StationID o) (o_AppID o).
Proof. intros Hwf Ho Ha l r Hr Hra [H1 H2]. eapply (db_exclusion db Hwf k l o r); eauto. Qed.

Lemma update_operation_step id f db db' o :
  db_wf db -> app_operations db !! id = Some o -> op_active o = true -> (forall o, same_operation o (f o)) ->
  update_operation id f db = Ok db' ->
  db_wf db' /\ same_rows db db' /\ app_operations db' !! id = Some (f o) /\ app_installations db' = app_installations db.
Proof.
  intros Hwf Ho Ha Hf [[Hn _] | (o' & Ho' & _ & ->)]%update_operation_spec; [congruence |]. simplify_eq.
  destruct (Hf o) as (E1 & E2 & E3 & E4). split_and!; try done; [| by simpl; rewrite lookup_insert_eq].
  apply db_wf_operation; [done | |].
  - destruct (db_ops db Hwf id o Ho) as [Hk Hb]. split; [congruence |]. rewrite E2, E3, E4. exact Hb.
  - intros _. rewrite E2, E3. by eapply active_idle.
Qed.

Lemma adopt_binding_step op i o a db db' : adopt_binding op i o a db = Ok db' -> db_wf db ->
  db_wf db' /\ same_rows db db' /\ app_installations db' = app_installations db.
Proof.
  unfold adopt_binding. intros H. inv_ok H; intros Hwf; split_and!; auto with station; done.
Qed.

Lemma same_identity_with v s r l now i : same_identity i (i_with v s r l now i).
Proof. by repeat split. Qed.

Lemma record_step op a res now db db' o :
  db_wf db -> app_operations db !! op = Some o -> app_idle db (o_StationID o) (o_AppID o) ->
  recordInstallationProgress op a res now db = Ok db' -> db_wf db' /\ same_rows db db'.
Proof.
  intros Hwf Ho Hidle. unfold recordInstallationProgress.
  destruct (operation_installation db op) as [[i o'] |] eqn:Eo; [| by intros [= <-]].
  unfold operation_installation in Eo. rewrite Ho in Eo. simpl in Eo.
  destruct (o_InstallationID o) as [id |] eqn:Ei; [| done]. simpl in Eo.
  destruct (app_installations db !! id) as [j |] eqn:Ej; [| done]. simpl in Eo. case_match; simplify_eq.
  destruct (db_ops db Hwf op o' Ho) as [_ Hb]. destruct (Hb id Ei) as (x & Hx & Hs & Happ). simplify_eq.
  pose proof (db_inst_keys db Hwf id i Ej) as Hkey. simpl in Hkey. subst id.
  assert (Hup : forall d d' f, db_wf d -> same_rows db d -> app_installations d = app_installations db ->
    (forall x, same_identity x (f x)) -> update_installation (i_InstallationID i) f d = Ok d' ->
    db_wf d' /\ same_rows db d').
  { intros d d' f Hd Hsame Hin Hf Hu. apply db_wf_update_idle in Hu as (? & ? & _); [| done | done |].
    - split; [done |]. by eapply same_rows_trans.
    - rewrite Hin. intros y Hy. simplify_eq. rewrite Hs, Happ. by eapply app_idle_same. }
  destruct (negb _ && _).
  - destruct (_ && _).
    + by apply Hup.
    + destruct (negb _); [done |]. intros (d & Hadopt & Hu)%mbind_ok.
      apply adopt_binding_step in Hadopt as (Hd & Hsame & Hin); [| done].
      by apply (Hup _ _ _ Hd Hsame Hin (fun _ => same_identity_with _ _ _ _ _ _) Hu).
  - destruct (installationState _ _ _ =? _)%string; [by intros [= <-] |]. by apply Hup.
Qed.

Section Workers.
Context {U : UuidLib}.
Variable station : string.

Lemma postpone_step pg id now e db o :
  db_wf db -> app_operations db !! id = Some o -> op_active o = true ->
  let db' := fst (postpone pg id now e db) in db_wf db' /\ same_rows db db'.
Proof.
  intros Hwf Ho Ha. simpl. unfold postpone. destruct (run_tx _ _ db) as [db' [v | x]] eqn:E; simpl.
  - apply run_tx_ok in E as [_ E]. apply mbind_ok in E as (d & Hu & [= <- <-]).
    eapply update_operation_step in Hu as (? & ? & _); eauto. by repeat split.
  - apply run_tx_err in E as ->. done.
Qed.

Lemma reconcile_step client o call pg now db :
  db_wf db -> app_operations db !! o_OperationID o = Some o -> op_active o = true ->
  let db' := fst (reconcile_call client o call pg now db) in db_wf db' /\ same_rows db db'.
Proof.
  intros Hwf Ho Ha. simpl.
  assert (Hfin : forall p, let d := fst (if negb (ap_OperationID (normalizeRuntimeProgress p) =? o_OperationID o)%string
        || negb (validProgress (normalizeRuntimeProgress p))
      then (db, Err (ErrPlain "invalid runtime progress"))
      else run_tx pg (record_progress o (normalizeRuntimeProgress p) now) db) in db_wf d /\ same_rows db d).
  { intros p. destruct (_ || _); [done |]. destruct (run_tx _ _ db) as [d [v | x]] eqn:E; simpl;
      [| apply run_tx_err in E as ->; done].
    apply run_tx_ok in E as [_ E]. apply mbind_ok in E as (d1 & Hu & E). apply mbind_ok in E as (d2 & Hr & [= <- <-]).
    eapply update_operation_step in Hu as (Hw & Hs & Hl & Hin); eauto; [| by repeat split].
    eapply record_step in Hr as [? ?]; [| done | exact Hl |].
    - split; [done |]. by eapply same_rows_trans.
    - simpl. eapply app_idle_same; [done |]. by eapply active_idle. }
  unfold reconcile_call. destruct (client call) as [[p |] | code]; [apply Hfin | done |].
  destruct (rejected_progress _ _) as [p |]; [apply Hfin |]. by eapply postpone_step.
Qed.

Lemma worker_step free schema bound client pg now db :
  db_wf db -> let db' := fst (DispatchOne station free schema bound client pg now db) in
  db_wf db' /\ same_rows db db'.
Proof.
  intros Hwf. simpl. unfold DispatchOne. destruct (next_operation _ _ _) as [o |] eqn:En; [| done].
  apply next_operation_spec in En as (k & Hk & _ & Ha). destruct (db_ops db Hwf k o Hk) as [<- _].
  destruct (appcenter_operation_inputs _ !! _) as [[a x] |].
  - destruct (negb bound); [by eapply postpone_step |]. case_bool_decide; [by eapply postpone_step |].
    destruct (appCenterDispatchInput _ _ _ _); [by apply reconcile_step | by eapply postpone_step].
  - destruct (preinstalled_operation_bindings _ !! _); [| by apply reconcile_step].
    destruct (_ || _); [done |]. by apply reconcile_step.
Qed.
End Workers.
