(* ===== verification/OperationsBarrier.v ===== *)
(** * The barriers of a dispatch

    What a dispatch may commit, given where its installation stands, and that a
    committed barrier keeps the operations invariant. *)
From S2P Require Import Prelude GoStd Sha256 GoJson Uuid OperationTypes Transitions TransitionFacts Dispatch Forward Installations Lifecycle LifecycleWorker OperationsInv OperationsFrame OperationsSteps.

Lemma readTransition_spec db user org station id t : readTransition db user org station id = Ok t ->
  exists row, app_installation_transitions db !! id = Some row /\ tr_T row = t /\
    tr_UserID row = user /\ tr_OrganizationID row = org /\ tr_StationID row = station /\
    snapshot_valid (t_Source t) = true /\ snapshot_valid (t_Target t) = true.
Proof.
  unfold readTransition. destruct (app_installation_transitions db !! id) as [row |]; [| done].
  destruct (negb _) eqn:E1; [done |]. destruct (_ || _) eqn:E2; [done |]. intros [= <-].
  unfold owned_by in E1. bool_norm. exists row. by split_and!.
Qed.

Lemma readInstallation_spec db id station org i : readInstallation db id station org = Ok i ->
  app_installations db !! id = Some i /\ i_StationID i = station /\ i_OrganizationID i = org.
Proof.
  unfold readInstallation. destruct (app_installations db !! id) as [x |]; [| done].
  destruct (_ && _) eqn:E; [| done]. intros [= <-]. bool_norm. by split_and!.
Qed.

(** A dispatch read: the row, its installation and their compatibility. *)
Record dispatch_read (db : DB) (station op : string) (r : dispatchTransition) (row : TransitionRow) : Prop := {
  dr_row : app_installation_transitions db !! op = Some row;
  dr_T : d_T r = tr_T row;
  dr_station : tr_StationID row = station;
  dr_user : d_UserID r = tr_UserID row;
  dr_org : d_OrganizationID r = tr_OrganizationID row;
  dr_inst : app_installations db !! t_InstallationID (tr_T row) = Some (d_Installed r);
  dr_app : s_AppID (t_Source (tr_T row)) = i_AppID (d_Installed r);
  dr_bound : t_ExpectedRevision (tr_T row) <= max_int64 - 2;
  dr_source : snapshot_valid (t_Source (tr_T row)) = true;
  dr_target : snapshot_valid (t_Target (tr_T row)) = true;
}.

Lemma readDispatch_spec db station op r : readDispatchTransition db station op = Ok r ->
  exists row, dispatch_read db station op r row.
Proof.
  unfold readDispatchTransition. destruct (app_installation_transitions db !! op) as [row |] eqn:Hrow; [| done].
  destruct (negb _) eqn:E1; [done |]. intros (t & Ht & H)%mbind_ok. apply mbind_ok in H as (i & Hi & H).
  apply readTransition_spec in Ht as (row' & Hrow' & <- & _ & _ & Hst & Hs & Hg).
  apply readInstallation_spec in Hi as (Hi & _ & _). simplify_eq.
  destruct (_ || _) eqn:E2; [done |]. injection H as <-. bool_norm. exists row.
  match goal with H : compatibleTransition _ _ _ _ = true |- _ => apply compatible_facts in H as (_ & _ & Happ & _) end.
  by constructor.
Qed.

(** ** Where the installation stands *)

Definition positioned (i : Installation) (t : Transition) : Prop :=
  i_AppID i = s_AppID (t_Source t) /\ 1 <= t_ExpectedRevision t.

Lemma state_original r : positioned (d_Installed r) (d_T r) -> i_State (d_Installed r) = "installed" ->
  at_original (d_Installed r) (d_T r) -> dispatch_state r = "original".
Proof.
  intros [Ha He] Hs [Hv Hr]. unfold dispatch_state. rewrite Hs, Ha, Hv, Hr, !String.eqb_refl, Z.eqb_refl. simpl.
  assert (t_ExpectedRevision (d_T r) <? 1 = false) as -> by (apply Z.ltb_ge; lia). done.
Qed.

Lemma state_original_at r : dispatch_state r = "original" -> at_original (d_Installed r) (d_T r).
Proof.
  unfold dispatch_state. destruct (_ || _); [done |]. destruct (_ && _) eqn:E; [| repeat case_match; done].
  intros _. by bool_norm.
Qed.

Lemma state_target r : positioned (d_Installed r) (d_T r) -> i_State (d_Installed r) = "installed" ->
  at_target (d_Installed r) (d_T r) -> dispatch_state r = "target".
Proof.
  intros [Ha He] Hs [Hv Hr]. unfold dispatch_state. rewrite Hs, Ha, Hv, Hr, !String.eqb_refl, Z.eqb_refl. simpl.
  assert (t_ExpectedRevision (d_T r) + 1 <? 1 = false) as -> by (apply Z.ltb_ge; lia).
  assert (t_ExpectedRevision (d_T r) + 1 =? t_ExpectedRevision (d_T r) = false) as -> by (apply Z.eqb_neq; lia).
  by rewrite andb_false_r.
Qed.

(** What a barrier does to a transition that stands as the invariant says. *)
Inductive barrier_effect (r : dispatchTransition) : string -> string -> string -> Prop :=
| effect_quiet status phase : terminal status = false ->
    (t_Phase (d_T r) = "releasing" -> phase = "releasing") -> barrier_effect r status phase ""
| effect_publish : t_Phase (d_T r) = "publishing" ->
    barrier_effect r "running" "releasing" (s_AppVersion (t_Target (d_T r)))
| effect_reject : (t_Phase (d_T r) = "checking" \/ t_Phase (d_T r) = "sealing") ->
    barrier_effect r "failed" "completed" ""
| effect_release : t_Phase (d_T r) = "releasing" -> at_target (d_Installed r) (d_T r) ->
    barrier_effect r "succeeded" "completed" ""
| effect_return : t_Phase (d_T r) = "releasing" -> at_original (d_Installed r) (d_T r) ->
    barrier_effect r "failed" "completed" "".

Lemma index_of_nonneg l x : 0 <= index_of l x -> x ∈ l.
Proof.
  induction l as [| y l IH]; simpl; [lia |]. destruct (y =? x)%string eqn:E; bool_norm.
  - intros _. subst. left.
  - intros H. right. apply IH. destruct (index_of l x <? 0) eqn:E2; bool_norm; lia.
Qed.

Lemma barrier_has_effect r status phase version :
  positioned (d_Installed r) (d_T r) -> placed (d_Installed r) (d_T r) ->
  barrier_of r status phase version ->
  terminal (t_Status (d_T r)) = false /\ barrier_effect r status phase version.
Proof.
  intros Hpos [Hinst Hplace] Hb.
  assert (Hplan : exists fp pl, dispatch_plan r fp = Ok pl /\ pl <> PlanDone) by (destruct Hb; eauto).
  split.
  { destruct Hplan as (fp & pl & Hp & Hne). unfold dispatch_plan in Hp.
    destruct (slices_contains _ (t_Status _)) eqn:E; [by simplify_eq |]. apply slices_contains_false in E.
    unfold terminal. apply orb_false_iff. rewrite !String.eqb_neq. set_solver. }
  assert (Horig : t_Phase (d_T r) <> "releasing" -> at_original (d_Installed r) (d_T r)) by (destruct Hplace as [? | [? _]]; tauto).
  destruct Hb as [fp status phase Hp | fp mode rep status phase version Hp Hd]; unfold dispatch_plan in Hp;
    repeat (case_match; simplify_eq/=); bool_norm.
  - apply effect_quiet; [done |]. congruence.
  - apply effect_quiet; [done |]. congruence.
  - unfold dispatch_mode in Hd. destruct (t_Phase (d_T r) =? "restoring")%string eqn:E1.
    + bool_norm. unfold dispatch_barrier in Hd. simpl in Hd.
      rewrite (state_original r Hpos Hinst) in Hd by (apply Horig; congruence). simpl in Hd.
      inv_ok Hd; apply effect_quiet; try done; congruence.
    + destruct (t_Phase (d_T r) =? "releasing")%string eqn:E2; bool_norm.
      * destruct Hplace as [Ho | [_ Ht]].
        -- rewrite (state_original r Hpos Hinst Ho) in Hd. unfold dispatch_barrier in Hd. simpl in Hd.
           inv_ok Hd; [by apply effect_quiet | by apply effect_return].
        -- rewrite (state_target r Hpos Hinst Ht) in Hd. unfold dispatch_barrier in Hd. simpl in Hd.
           inv_ok Hd; [by apply effect_quiet | by apply effect_release].
      * unfold dispatch_barrier in Hd. simpl in Hd. inv_ok Hd; bool_norm;
          try (apply effect_quiet; [done | congruence]).
        -- apply effect_reject.
           match goal with H : _ && _ = false |- _ => apply andb_false_iff in H as [H | H] end; bool_norm; auto.
        -- by apply effect_publish.
Qed.

Lemma valid_version_nonempty s : snapshot_valid s = true -> s_AppVersion s <> "".
Proof. intros H%snapshot_valid_version He. by rewrite He in H. Qed.

(** ** A committed barrier *)

Lemma publish_version_spec id v prior rev now db db' : publish_version id v prior rev now db = Ok db' ->
  exists i, app_installations db !! id = Some i /\ i_AppVersion i = prior /\ i_Revision i = rev /\
    i_State i = "installed" /\
    db' = set_installations (<[id := i_with v (i_State i) (i_Revision i + 1) (i_LastOperationID i) now i]>
            (app_installations db)) db.
Proof.
  unfold publish_version. destruct (app_installations db !! id) as [i |]; [| done].
  destruct (_ && _) eqn:E; [| done]. destruct (_ || _); [done |]. intros [= <-]. bool_norm. eauto 10.
Qed.

Lemma update_transition_spec id s p now db db' row : update_transition id s p now db = Ok db' ->
  app_installation_transitions db !! id = Some row ->
  transition_checks (tr_with s p now row) = true /\
  db' = set_transitions (<[id := tr_with s p now row]> (app_installation_transitions db)) db.
Proof.
  unfold update_transition. intros H Hrow. rewrite Hrow in H. destruct (_ || _) eqn:E; [done |].
  injection H as <-. by bool_norm.
Qed.

(** The two rows one commit writes. *)
Record commit_writes (db db' : DB) (op : string) (row : TransitionRow) (i i' : Installation)
    (status phase : string) (now : Time) : Prop := {
  cw_row : app_installation_transitions db !! op = Some row;
  cw_inst : app_installations db !! t_InstallationID (tr_T row) = Some i;
  cw_checks : transition_checks (tr_with status phase now row) = true;
  cw_rows : app_installation_transitions db' = <[op := tr_with status phase now row]> (app_installation_transitions db);
  cw_insts : app_installations db' = <[t_InstallationID (tr_T row) := i']> (app_installations db);
  cw_ops : app_operations db' = app_operations db;
  cw_recs : forward_recoveries db' = forward_recoveries db;
}.

Lemma commit_writes_wf db db' op row i i' status phase now :
  db_wf db -> commit_writes db db' op row i i' status phase now ->
  tr_active row = true -> same_identity i i' -> i_State i = "installed" ->
  (terminal status = false -> placed i' (tr_T (tr_with status phase now row))) ->
  db_wf db' /\ rows_persist db db'.
Proof.
  intros Hwf [Hr Hi Hck Hrows Hinsts Hops Hrecs] Ha Hid Hst Hp.
  set (db1 := set_transitions (<[op := tr_with status phase now row]> (app_installation_transitions db)) db).
  split.
  - (* first the row, placed where the installation will stand *)
    pose proof Hwf as [H1 H2 H3 H4 H5 H6 H7 H8].
    assert (Hw : db_wf (set_transitions (<[op := tr_with status phase now row]> (app_installation_transitions db))
      (set_installations (<[t_InstallationID (tr_T row) := i']> (app_installations db)) db))).
    { assert (Hothers : forall k r, app_installation_transitions db !! k = Some r -> tr_active r = true ->
        t_InstallationID (tr_T r) = t_InstallationID (tr_T row) -> k = op) by (intros; by eapply H5).
      constructor; simpl; try done.
      - apply map_Forall_insert_2; [| done]. destruct Hid as (-> & _). by apply (H1 _ i).
      - intros j k x y Hx Hy. destruct Hid as (Ea & Eb & Ec & Ed).
        assert (Hback : forall l z, <[t_InstallationID (tr_T row) := i']> (app_installations db) !! l = Some z ->
          i_State z <> "removed" -> exists z', app_installations db !! l = Some z' /\ i_State z' <> "removed" /\
            i_StationID z' = i_StationID z /\ i_AppID z' = i_AppID z).
        { intros l z. rewrite lookup_insert. case_decide; intros; simplify_eq; eauto.
          exists i. split_and!; congruence. }
        intros Hsx Hsy He1 He2. destruct (Hback j x Hx Hsx) as (x' & ? & ? & ? & ?).
        destruct (Hback k y Hy Hsy) as (y' & ? & ? & ? & ?). eapply H2; eauto; congruence.
      - intros k o Ho. eapply operation_wf_insert; [exact Hi | done | by apply H3].
      - intros k r. rewrite lookup_insert. case_decide; intros; simplify_eq.
        + destruct (H4 k row Hr) as (? & ? & ? & ? & j & Hj & ? & ? & ? & _). destruct Hid as (Ea & Eb & Ec & Ed). simplify_eq.
          split_and!; try done. exists i'. simpl. rewrite lookup_insert_eq. split_and!; try congruence.
          unfold tr_active. simpl. intros Hn. bool_norm. auto.
        + eapply transition_wf_insert; [exact Hi | done | | by apply H4].
          intros Hra He. exfalso. by specialize (Hothers k r ltac:(done) Hra He).
      - assert (Hback : forall j x, <[op := tr_with status phase now row]> (app_installation_transitions db) !! j = Some x ->
          tr_active x = true -> exists y, app_installation_transitions db !! j = Some y /\ tr_active y = true /\
            t_InstallationID (tr_T y) = t_InstallationID (tr_T x)).
        { intros j x. rewrite lookup_insert. case_decide; intros; simplify_eq; eauto. }
        intros j l x y Hx Hy Hax Hay Heq.
        destruct (Hback j x Hx Hax) as (x' & ? & ? & ?). destruct (Hback l y Hy Hay) as (y' & ? & ? & ?).
        eapply H5; eauto. congruence.
      - intros j l o x Ho Hx Hao Hax. rewrite lookup_insert in Hx. case_decide; simplify_eq; [| by eapply H6].
        by eapply (H6 j l o row).
      - assert (Hback : forall j x, <[op := tr_with status phase now row]> (app_installation_transitions db) !! j = Some x ->
          exists y, app_installation_transitions db !! j = Some y /\ snapshots_of y = snapshots_of x).
        { intros j x. rewrite lookup_insert. case_decide; intros; simplify_eq; eauto. }
        intros j l x y s s' (x' & Hx & Ex)%Hback (y' & Hy & Ey)%Hback. rewrite <- Ex, <- Ey. by apply (H7 j l). }
    destruct Hw as [W1 W2 W3 W4 W5 W6 W7 W8]. simpl in *.
    constructor; rewrite ?Hrows, ?Hinsts, ?Hops, ?Hrecs; done.
  - destruct (rows_persist_transition db op row status phase now Hr Ha) as [P1 P2]. simpl in *.
    split; rewrite ?Hrows, ?Hrecs; done.
Qed.

(** The version a barrier carries is the source's or the target's only where it
    is not empty. *)
Definition moved (v : string) (now : Time) (i : Installation) : Installation :=
  if (v =? "")%string then i else i_with v (i_State i) (i_Revision i + 1) (i_LastOperationID i) now i.

Lemma moved_identity v now i : same_identity i (moved v now i).
Proof. unfold moved. destruct (_ =? _)%string; by repeat split. Qed.

Lemma commit_body_spec station r status phase version now db out db' :
  db_wf db -> commit_body station r status phase version now db = Ok (out, db') ->
  exists cur row, dispatch_read db station (t_OperationID (d_T r)) cur row /\
    t_Status (tr_T row) = t_Status (d_T r) /\ t_Phase (tr_T row) = t_Phase (d_T r) /\
    d_Installed cur = d_Installed r /\
    commit_writes db db' (t_OperationID (d_T r)) row (d_Installed cur) (moved version now (d_Installed cur)) status phase now.
Proof.
  intros Hwf. unfold commit_body. intros (cur & Hcur & H)%mbind_ok.
  apply readDispatch_spec in Hcur as (row & Hrd). pose proof Hrd as [Hrow HT _ _ _ Hinst _ _ _ _].
  destruct (_ || _) eqn:E; [done |]. bool_norm. apply mbind_ok in H as (db1 & Hv & H).
  apply mbind_ok in H as (db3 & Hu & H). apply mbind_ok in H as (t & _ & [= <- <-]).
  assert (Hop : t_OperationID (d_T cur) = t_OperationID (d_T r)).
  { rewrite HT. by destruct (db_trs db Hwf _ row Hrow) as [? _]. }
  exists cur, row. rewrite <- HT. split_and!; try done.
  assert (Hdb1 : app_installation_transitions db1 = app_installation_transitions db /\
    app_operations db1 = app_operations db /\ forward_recoveries db1 = forward_recoveries db /\
    app_installations db1 = <[t_InstallationID (tr_T row) := moved version now (d_Installed cur)]> (app_installations db)).
  { unfold commit_version in Hv. unfold moved. destruct (version =? "")%string.
    - injection Hv as <-. split_and!; try done. by rewrite insert_id.
    - apply mbind_ok in Hv as (d & Hp & [= <-]). apply publish_version_spec in Hp as (i & Hi & _ & _ & _ & ->).
      rewrite HT in *. rewrite Hinst in Hi. injection Hi as <-. by split_and!. }
  destruct Hdb1 as (E1 & E2 & E3 & E4).
  apply (update_transition_spec _ _ _ _ _ _ row) in Hu as [Hck ->].
  2: { rewrite Hop. destruct (phase =? "completed")%string; simpl; by rewrite E1. }
  rewrite Hop. constructor; try done; destruct (phase =? "completed")%string; simpl; by rewrite ?E1, ?E2, ?E3, ?E4.
Qed.

(** A dispatch read agrees with the row it is committed against. *)
Lemma prior_agrees db r cur row station :
  prior_ok db r -> dispatch_read db station (t_OperationID (d_T r)) cur row ->
  same_input (tr_T row) (d_T r).
Proof. intros (row' & Hr & Hs) []. by simplify_eq. Qed.

Lemma barrier_step station r status phase version now db out db' :
  db_wf db -> prior_ok db r -> barrier_of r status phase version ->
  commit_body station r status phase version now db = Ok (out, db') ->
  exists row i, app_installation_transitions db !! t_OperationID (d_T r) = Some row /\
    tr_active row = true /\ placed i (tr_T row) /\
    same_input (tr_T row) (d_T r) /\ t_Phase (tr_T row) = t_Phase (d_T r) /\ d_Installed r = i /\
    s_AppVersion (t_Target (d_T r)) <> "" /\
    barrier_effect r status phase version /\
    commit_writes db db' (t_OperationID (d_T r)) row i (moved version now i) status phase now.
Proof.
  intros Hwf Hpr Hb H. apply commit_body_spec in H as (cur & row & Hrd & Hs & Hp & Hi & Hw); [| done].
  pose proof (prior_agrees _ _ _ _ _ Hpr Hrd) as Hsame. destruct Hrd as [Hrow _ _ _ _ Hinst Happ _ _ Hvt].
  destruct (db_trs db Hwf _ row Hrow) as (_ & Hck & _ & _ & i & Hi' & _ & _ & _ & Hplaced).
  rewrite Hinst in Hi'. injection Hi' as <-.
  assert (Hact : tr_active row = true).
  { unfold tr_active. rewrite Hs. destruct Hb as [? ? ? Hp' | ? ? ? ? ? ? Hp' _]; unfold dispatch_plan in Hp';
      (destruct (slices_contains _ (t_Status (d_T r))) eqn:E; [by simplify_eq |]); apply slices_contains_false in E;
      unfold terminal; apply negb_true_iff, orb_false_iff; rewrite !String.eqb_neq; set_solver. }
  specialize (Hplaced Hact). exists row, (d_Installed cur). rewrite Hi in *.
  assert (Hplaced' : placed (d_Installed r) (d_T r)).
  { destruct Hsame as (_ & _ & _ & _ & Ee & Es & Et). unfold placed, at_original, at_target in *.
    by rewrite <- Ee, <- Es, <- Et, <- Hp. }
  split_and!; try done.
  { destruct Hsame as (_ & _ & _ & _ & _ & _ & <-). by apply valid_version_nonempty. }
  apply barrier_has_effect; try done.
  destruct Hsame as (_ & _ & _ & _ & Ee & Es & Et). split; [congruence |].
  unfold transition_checks in Hck. rewrite <- Ee. rewrite !andb_true_iff, Z.ltb_lt in Hck. lia.
Qed.

Lemma barrier_keeps_wf station r status phase version now db out db' :
  db_wf db -> prior_ok db r -> barrier_of r status phase version ->
  commit_body station r status phase version now db = Ok (out, db') -> db_wf db' /\ rows_persist db db'.
Proof.
  intros Hwf Hpr Hb H.
  destruct (barrier_step _ _ _ _ _ _ _ _ _ Hwf Hpr Hb H) as (row & i & Hrow & Ha & Hpl & Hsame & Hph & Hi & Hne & He & Hw).
  destruct Hsame as (_ & _ & _ & _ & Ee & Es & Et).
  eapply commit_writes_wf; eauto using moved_identity; [by destruct Hpl |].
  destruct Hpl as [Hst Hpl]. intros Hterm. unfold placed, at_original, at_target, moved in *.
  destruct He; try done; simpl in *.
  - split; [done |]. destruct Hpl as [Ho | [Hr Ht]]; [by left | right]. split; [| done].
    match goal with H : _ = _ -> phase = _ |- _ => apply H end. congruence.
  - destruct Hpl as [[Ho1 Ho2] | [Hr _]]; [| congruence]. rewrite (proj2 (String.eqb_neq _ _) Hne).
    simpl. split; [done |]. right. split; [done |]. split; [congruence | lia].
Qed.
