(* ===== verification/OperationsReach.v ===== *)
(** * The reachable states of a station's operations *)
From S2P Require Import Prelude GoStd Sha256 GoJson Uuid OperationTypes Transitions TransitionFacts Dispatch Forward Installations Lifecycle LifecycleWorker OperationsInv OperationsFrame OperationsSteps OperationsWorkers OperationsBarrier.

(** ** Recoveries *)

Lemma insert_recovery_spec row db db' : insert_recovery row db = Ok db' ->
  forward_recoveries db !! f_RecoveryID (fr_F row) = None /\
  db' = set_recoveries (<[f_RecoveryID (fr_F row) := row]> (forward_recoveries db)) db.
Proof.
  unfold insert_recovery. destruct (_ || _) eqn:E; [done |]. intros [= <-]. bool_norm.
  split; [by apply eq_None_not_Some | done].
Qed.

Lemma readForward_spec db user org station id f : readForward db user org station id = Ok f ->
  exists row, forward_recoveries db !! id = Some row /\ same_recovery (fr_F row) f /\
    f_State (fr_F row) = f_State f /\ f_InputDigest (fr_F row) = f_InputDigest f /\
    forward_owned user org station row = true.
Proof.
  unfold readForward. destruct (forward_recoveries db !! id) as [row |]; [| done].
  destruct (negb _) eqn:E1; [done |]. destruct (_ || _) eqn:E2; [done |]. bool_norm.
  destruct (f_State (fr_F row) =? "succeeded")%string.
  - destruct (read_proof _ _ _); [| done]. intros [= <-]. exists row. split_and!; try done.
  - intros [= <-]. exists row. split_and!; auto with station.
Qed.

Lemma db_wf_recoveries x db : db_wf db -> map_Forall (fun k r => f_RecoveryID (fr_F r) = k) x ->
  db_wf (set_recoveries x db).
Proof. intros [] H. by constructor. Qed.

Section Forward.
Context {U : UuidLib}.
Variable station : string.

Lemma accept_body_tables u c has read id db r db' :
  accept_body station u c has read id db = Ok (r, db') ->
  app_installation_transitions db' = app_installation_transitions db /\
  app_installations db' = app_installations db.
Proof.
  unfold accept_body. destruct (select_row _ _) as [row |] eqn:Es.
  - destruct (negb _); [done |]. by intros (f & Hf & [= <- <-])%mbind_ok.
  - intros (parent & _ & H)%mbind_ok. destruct (_ || _) in H; [done |]. destruct (_ || _) in H; [done |].
    destruct (read _ _ _) as [[source target] |]; [| done]. destruct (_ || _) in H; [done |].
    destruct (_ || _) in H; [done |]. apply mbind_ok in H as (? & _ & H). apply mbind_ok in H as (db1 & Hins & [= <- <-]).
    by apply insert_recovery_spec in Hins as [Hnew ->].
Qed.

Lemma forward_accept_step u c has read id db r db' :
  db_wf db -> accept_body station u c has read id db = Ok (r, db') ->
  db_wf db' /\ rows_persist db db' /\ recovery_ok db' r.
Proof.
  intros Hwf. unfold accept_body. destruct (select_row _ _) as [row |] eqn:Es.
  - destruct (negb _); [done |]. intros (f & Hf & [= <- <-])%mbind_ok. split_and!; [done | apply rows_persist_refl |].
    apply readForward_spec in Hf as (row' & Hrow & Hs & _). exists row'. split; [| done].
    pose proof (db_rec_keys db Hwf _ _ Hrow) as Hk. simpl in Hk. destruct Hs as (<- & _). by rewrite Hk.
  - intros (parent & _ & H)%mbind_ok. destruct (_ || _) in H; [done |]. destruct (_ || _) in H; [done |].
    destruct (read _ _ _) as [[source target] |]; [| done]. destruct (_ || _) in H; [done |].
    destruct (_ || _) in H; [done |]. apply mbind_ok in H as (? & _ & H). apply mbind_ok in H as (db1 & Hins & [= <- <-]).
    apply insert_recovery_spec in Hins as [Hnew ->]. simpl in Hnew. split_and!.
    + apply db_wf_audit, db_wf_recoveries; [done |]. apply map_Forall_insert_2; [done |]. apply (db_rec_keys db Hwf).
    + split; simpl.
      * intros k y Hy. exists y. split_and!; auto with station.
      * intros k y Hy. exists y. rewrite lookup_insert_ne by congruence. auto with station.
    + eexists. simpl. rewrite lookup_insert_eq. split; [done |]. apply same_recovery_refl.
Qed.

Lemma update_recovery_keys id st db :
  map_Forall (fun k r => f_RecoveryID (fr_F r) = k) (forward_recoveries db) ->
  map_Forall (fun k r => f_RecoveryID (fr_F r) = k) (forward_recoveries (update_recovery id st db)).
Proof.
  intros H k r. simpl. rewrite lookup_alter. case_decide; [| apply H].
  intros (x & Hx & ->)%fmap_Some. subst. apply (H k x Hx).
Qed.

Lemma update_recovery_persist id st db :
  rows_persist db (update_recovery id st db).
Proof.
  split; simpl.
  - intros k x Hx. exists x. split_and!; auto with station.
  - intros k x Hx. rewrite lookup_alter. case_decide; subst; rewrite Hx; simpl; (eexists; split; [done | by repeat split]).
Qed.

(** What a finished recovery wrote: the recovery's state, and for a verified one the
    installation's version with the failure of its parent. *)
Lemma finish_effect u r verified now db out db' :
  db_wf db -> recovery_ok db r -> finish_body station u r verified now db = Ok (out, db') ->
  exists db1 row parent, dispatch_read db station (f_OperationID r) parent row /\
    tr_active row = true /\ dispatch_state parent = "original" /\
    (t_Phase (tr_T row) = "restoring" \/ t_Phase (tr_T row) = "recovery_required") /\
    db' = transitionAudit parent ("forward_recovery." +:+ (if verified then "succeeded" else "failed"))
            (update_recovery (f_RecoveryID r) (if verified then "succeeded" else "failed") db1) /\
    (if verified
     then commit_writes db db1 (f_OperationID r) row (d_Installed parent)
            (i_with (s_AppVersion (f_Target r)) "installed" (i_Revision (d_Installed parent) + 1)
               (i_LastOperationID (d_Installed parent)) now (d_Installed parent)) "failed" "completed" now /\
          i_State (d_Installed parent) = "installed"
     else db1 = db).
Proof.
  intros Hwf Hrec. unfold finish_body. intros (? & _ & H)%mbind_ok. apply mbind_ok in H as (cur & Hcur & H).
  apply mbind_ok in H as (parent & Hpar & H). apply readDispatch_spec in Hpar as (row & Hrd).
  destruct (_ || _) eqn:E in H; [done |]. bool_norm. apply mbind_ok in H as (db1 & Hpub & H).
  apply mbind_ok in H as (o & _ & [= <- <-]). exists db1, row, parent.
  pose proof Hrd as [Hrow HT _ _ _ Hinst _ _ _ _].
  match goal with H : allowedWorldForward _ _ = true |- _ => unfold allowedWorldForward in H; cbv zeta in H end. bool_norm.
  split_and!; try done.
  - unfold tr_active, terminal. rewrite <- HT. apply negb_true_iff, orb_false_iff. rewrite !String.eqb_neq.
    match goal with H : slices_contains _ (t_Status _) = true |- _ => 
      apply slices_contains_true in H; apply elem_of_cons in H as [-> | ->%list_elem_of_singleton]; done end.
  - rewrite <- HT. match goal with H : slices_contains _ (t_Phase _) = true |- _ =>
      apply slices_contains_true in H; apply elem_of_cons in H as [-> | ->%list_elem_of_singleton]; auto end.
  - destruct verified; [| by injection Hpub as <-]. unfold publish_recovery in Hpub.
    destruct (read_proof _ _ _); [| done]. apply mbind_ok in Hpub as (d & Hp & Hu).
    apply publish_version_spec in Hp as (i & Hi & _ & _ & Hst & ->). rewrite HT, Hinst in Hi. injection Hi as <-.
    apply (update_transition_spec _ _ _ _ _ _ row) in Hu as [Hck ->]; [| done]. split; [| done].
    rewrite Hst. rewrite HT. by constructor.
Qed.

Lemma forward_finish_step u r verified now db out db' :
  db_wf db -> recovery_ok db r -> finish_body station u r verified now db = Ok (out, db') ->
  db_wf db' /\ rows_persist db db'.
Proof.
  intros Hwf Hrec H. apply finish_effect in H as (db1 & row & parent & Hrd & Ha & _ & _ & -> & Hw); try done.
  assert (H1 : db_wf db1 /\ rows_persist db db1).
  { destruct verified; [| subst; auto using rows_persist_refl]. destruct Hw as [Hw Hst].
    eapply commit_writes_wf; [exact Hwf | exact Hw | done | by repeat split | done | done]. }
  destruct H1 as [Hw1 Hp1]. split.
  - apply db_wf_audit, db_wf_recoveries; [done |]. by apply update_recovery_keys, (db_rec_keys db1 Hw1).
  - eapply rows_persist_trans; [exact Hp1 |]. eapply rows_persist_trans; [apply update_recovery_persist |].
    by apply rows_persist_same.
Qed.

(** ** Every step *)

Lemma world_wf_step w w' : ostep station w w' -> world_wf w ->
  world_wf w' /\ rows_persist (w_db w) (w_db w').
Proof.
  intros Hstep (Hwf & Hpr & Hac).
  assert (Hkeep : forall db', db_wf db' -> rows_persist (w_db w) db' ->
    world_wf (with_db db' w) /\ rows_persist (w_db w) db').
  { intros db' Hw Hp. split; [| done]. split_and!; [done | |]; (eapply Forall_impl; [eassumption |]); simpl; intros;
      eauto using prior_ok_persist, recovery_ok_persist. }
  destruct Hstep.
  - destruct (accept_step station pg u c reader fallback id now (w_db w) Hwf). by apply Hkeep.
  - destruct (lifecycle_step station env pg u c preinstalled constrained admission (w_db w)) as [? ?]; try done.
    apply Hkeep; auto using rows_persist_same.
  - destruct (worker_step station free schema bound client pg now (w_db w) Hwf) as [? ?].
    apply Hkeep; auto using rows_persist_same.
  - split; [| apply rows_persist_refl]. split_and!; try done. simpl. constructor; [| done].
    apply readDispatch_spec in H as (row & [Hrow HT _ _ _ _ _ _ _ _]). exists row.
    destruct (db_trs _ Hwf _ _ Hrow) as [Hk _]. rewrite HT, Hk. split; [done | apply same_input_refl].
  - destruct (commitTransition _ _ _ _ _ _ _ _) as [db' [out | e]] eqn:E; unfold commitTransition in E; simpl.
    + apply run_tx_ok in E as [_ E]. apply barrier_keeps_wf in E as [? ?]; try done; [by apply Hkeep |].
      rewrite Forall_forall in Hpr. by apply Hpr.
    + apply run_tx_err in E as ->. apply Hkeep; [done | apply rows_persist_refl].
  - apply run_tx_ok in H as [_ H]. apply forward_accept_step in H as (Hw & Hp & Hr); [| done].
    destruct (Hkeep db' Hw Hp) as [(? & ? & ?) ?]. split; [| done]. split_and!; try done. by constructor.
  - destruct (run_tx _ _ _) as [db' [out | e]] eqn:E; simpl.
    + apply run_tx_ok in E as [_ E]. apply forward_finish_step in E as [? ?]; try done; [by apply Hkeep |].
      rewrite Forall_forall in Hac. by apply Hac.
    + apply run_tx_err in E as ->. apply Hkeep; [done | apply rows_persist_refl].
  - apply Hkeep; [by apply db_wf_proofs | by apply rows_persist_same].
Qed.

Lemma empty_wf : world_wf (mkWorld empty_db [] []).
Proof.
  split_and!; try constructor; simpl; try apply map_Forall_empty.
  all: repeat intro; rewrite ?lookup_empty in *; done.
Qed.

Lemma world_wf_steps w w' : rtc (ostep station) w w' -> world_wf w ->
  world_wf w' /\ rows_persist (w_db w) (w_db w').
Proof.
  induction 1 as [w | w w1 w2 Hs Hr IH]; intros Hw; [auto using rows_persist_refl |].
  destruct (world_wf_step w w1 Hs Hw) as [Hw1 Hp1]. destruct (IH Hw1). eauto using rows_persist_trans.
Qed.

Lemma reachable_wf w : world_reachable station w -> world_wf w.
Proof. intros H. by destruct (world_wf_steps _ _ H empty_wf). Qed.
End Forward.
