(* ===== verification/LifecycleEffect.v ===== *)
(** * What one step does to installations and lifecycle operations

    Every writer of the two tables, at the level of rows: an installation keeps its
    identity and a new value always has a greater revision; an operation is
    inserted once, changed only while it is unfinished, and keeps its request. *)
From S2P Require Import Prelude GoStd Sha256 GoJson Uuid OperationTypes Transitions TransitionFacts Dispatch Forward Installations Lifecycle LifecycleWorker OperationsInv OperationsFrame OperationsSteps OperationsWorkers OperationsBarrier OperationsReach.

Definition inst_step (i i' : Installation) : Prop :=
  same_identity i i' /\ (i' = i \/ i_Revision i < i_Revision i').
Definition insts_grow (db db' : DB) : Prop :=
  forall k i, app_installations db !! k = Some i ->
  exists i', app_installations db' !! k = Some i' /\ inst_step i i'.

(** The request an operation was accepted with. *)
Definition same_request (o o' : OperationRow) : Prop :=
  o_OperationID o' = o_OperationID o /\ o_RequestID o' = o_RequestID o /\ o_UserID o' = o_UserID o /\
  o_OrganizationID o' = o_OrganizationID o /\ o_StationID o' = o_StationID o /\ o_AppID o' = o_AppID o /\
  o_AppVersion o' = o_AppVersion o /\ o_Action o' = o_Action o /\ o_IdempotencyKey o' = o_IdempotencyKey o /\
  o_RequestHash o' = o_RequestHash o /\ o_ExpectedWorkloadUID o' = o_ExpectedWorkloadUID o /\
  o_InstallationID o' = o_InstallationID o.

(** The effect of one step on the operations. *)
Inductive ops_effect (station : string) (db db' : DB) : Prop :=
| ops_same : app_operations db' = app_operations db -> ops_effect station db db'
| ops_insert id o : app_operations db !! id = None ->
    (forall k x, app_operations db !! k = Some x -> op_active x = true ->
       ~ (o_StationID x = o_StationID o /\ o_AppID x = o_AppID o)) ->
    o_StationID o = station -> operation_checks o = true ->
    app_operations db' = <[id := o]> (app_operations db) -> ops_effect station db db'
| ops_update id o o' : app_operations db !! id = Some o -> op_active o = true -> same_request o o' -> operation_checks o' = true ->
    app_operations db' = <[id := o']> (app_operations db) -> ops_effect station db db'.

Lemma inst_step_refl i : inst_step i i.
Proof. split; [by repeat split | by left]. Qed.
Lemma insts_grow_refl db : insts_grow db db.
Proof. intros k i Hi. exists i. auto using inst_step_refl. Qed.
Lemma insts_grow_same db db' : app_installations db' = app_installations db -> insts_grow db db'.
Proof. intros E k i Hi. exists i. rewrite E. auto using inst_step_refl. Qed.
Lemma insts_grow_trans a b c : insts_grow a b -> insts_grow b c -> insts_grow a c.
Proof.
  intros H1 H2 k i Hi. destruct (H1 k i Hi) as (j & Hj & [(?&?&?&?) S1]). destruct (H2 k j Hj) as (l & Hl & [(?&?&?&?) S2]).
  exists l. split; [done |]. split; [split_and!; congruence |].
  destruct S1 as [-> | ?], S2 as [-> | ?]; auto; right; lia.
Qed.
#[local] Hint Resolve insts_grow_refl insts_grow_same : station.

Lemma insts_grow_insert id i db : app_installations db !! id = None ->
  insts_grow db (set_installations (<[id := i]> (app_installations db)) db).
Proof.
  intros Hn k j Hj. exists j. simpl. rewrite lookup_insert_ne by congruence. auto using inst_step_refl.
Qed.

Lemma insts_grow_update id i i' db : app_installations db !! id = Some i -> inst_step i i' ->
  insts_grow db (set_installations (<[id := i']> (app_installations db)) db).
Proof.
  intros Hi Hs k j Hj. simpl. rewrite lookup_insert. case_decide; subst; simplify_eq; eauto using inst_step_refl.
Qed.

Lemma update_installation_grows id f db db' : (forall i, inst_step i (f i)) ->
  update_installation id f db = Ok db' -> insts_grow db db' /\ app_operations db' = app_operations db.
Proof.
  intros Hf. unfold update_installation. destruct (app_installations db !! id) as [i |] eqn:E; [| intros [= <-]; auto with station].
  destruct (_ || _); [done |]. intros [= <-]. split; [| done]. by apply (insts_grow_update _ i).
Qed.

Lemma bump_step v s l now i : inst_step i (i_with v s (i_Revision i + 1) l now i).
Proof. split; [by repeat split | right; simpl; lia]. Qed.

Lemma reserve_grows u c p id now db inst db' : reserveInstallation u c p id now db = Ok (inst, db') ->
  insts_grow db db' /\ app_operations db' = app_operations db.
Proof.
  unfold reserveInstallation. destruct (current_installation _ _ _) as [i |].
  - destruct (_ || _); [done |]. intros [= <- <-]. auto with station.
  - destruct (negb _); [intros [= <- <-]; auto with station |].
    intros (db1 & (Hn & _ & ->)%insert_installation_spec & [= <- <-])%mbind_ok. split; [by apply insts_grow_insert | done].
Qed.

(** ** Acceptance *)

Section Effects.
Context {U : UuidLib}.
Variable station : string.

Lemma accept_operation_effect env u c p k x db db' :
  accept_operation env u c p k x db = Ok db' ->
  insts_grow db db' /\ app_operations db !! se_operationID env = None /\
  exists o, app_operations db' = <[se_operationID env := o]> (app_operations db) /\
    (o = new_operation env u c p k \/ exists inst, o = o_with_installation inst (new_operation env u c p k)) /\
    operation_checks o = true.
Proof.
  unfold accept_operation. intros ([inst db1] & [G1 O1]%reserve_grows & H)%mbind_ok.
  apply mbind_ok in H as (db2 & (Hn & _ & Hck & ->)%insert_operation_spec & H).
  apply mbind_ok in H as (db3 & Hbind & H). apply mbind_ok in H as (db4 & Hin & H).
  apply mbind_ok in H as (db5 & Hrel & [= <-]). rewrite O1 in *.
  assert (E45 : app_installations db5 = app_installations db3 /\ app_operations db5 = app_operations db3).
  { unfold bind_inputs, bindAppCenterInput in Hin. unfold bind_release, bindPreinstalled in Hrel.
    by inv_ok Hin; inv_ok Hrel. }
  destruct E45 as [E4 E5]. set (o := new_operation env u c p k) in *.
  assert (Hb : insts_grow db1 db3 /\ exists o', app_operations db3 = <[se_operationID env := o']> (app_operations db) /\
    (o' = o \/ exists inst, o' = o_with_installation inst o)).
  { unfold bindInstallationOperation in Hbind. destruct (_ =? _)%string.
    - injection Hbind as <-. split; [auto with station |]. exists o. by auto.
    - apply update_installation_grows in Hbind as [G O]; [| intros i; apply bump_step]. split; [exact G |].
      exists (o_with_installation inst o). rewrite O. simpl. split; [| by eauto].
      apply map_eq. intros j. destruct (decide (se_operationID env = j)) as [<- |]; by simplify_map_eq. }
  destruct Hb as (G2 & o' & Ho' & Hor). split_and!; [| done |].
  - eapply insts_grow_trans; [exact G1 |]. eapply insts_grow_trans; [exact G2 |]. apply insts_grow_same. exact E4.
  - exists o'. split_and!; [simpl; by rewrite E5 | done |]. by destruct Hor as [-> | [? ->]].
Qed.

Lemma lifecycle_effect env pg u c p k adm db : se_station env = station ->
  let db' := fst (submit env pg u c p k adm db) in insts_grow db db' /\ ops_effect station db db'.
Proof.
  intros Henv. simpl. assert (Hid : insts_grow db db /\ ops_effect station db db) by (split; [auto with station | by constructor]).
  unfold submit. destruct (submit_checks _ _ _) as [e |]; [done |].
  destruct (run_tx _ _ db) as [db' [v | e]] eqn:E; simpl; [| by apply run_tx_err in E as ->].
  apply run_tx_ok in E as [_ E]. unfold lifecycle_body in E.
  destruct (find_by_key _ _ _ _) as [o |].
  { destruct (_ && _); [done |]. by apply mbind_ok in E as (? & _ & [= <- <-]). }
  apply mbind_ok in E as (x & _ & E). apply mbind_ok in E as (y & _ & E).
  destruct (busy _ _ _) eqn:Eb; [done |]. apply mbind_ok in E as (d & Hacc & [= <- <-]). rewrite Henv in *.
  apply accept_operation_effect in Hacc as (G & Hn & o & Ho & Hnew & Hck). split; [done |].
  assert (o_StationID o = se_station env /\ o_AppID o = c_AppID c) as [Hst Happ] by (destruct Hnew as [-> | [? ->]]; done).
  eapply ops_insert; [exact Hn | | by rewrite Hst | exact Hck | exact Ho]. rewrite Hst, Happ, Henv. by apply busy_false in Eb as [_ ?].
Qed.

(** ** The worker *)

Lemma same_request_refl o : same_request o o.
Proof. by repeat split. Qed.

Lemma adopt_binding_tables op i o a db db' : adopt_binding op i o a db = Ok db' ->
  app_installations db' = app_installations db /\ app_operations db' = app_operations db.
Proof. unfold adopt_binding. intros H. by inv_ok H. Qed.

Lemma record_grows op a res now db db' : recordInstallationProgress op a res now db = Ok db' ->
  insts_grow db db' /\ app_operations db' = app_operations db.
Proof.
  unfold recordInstallationProgress. destruct (operation_installation _ _) as [[i o] |]; [| intros [= <-]; auto with station].
  destruct (_ && _).
  - destruct (_ && _); [apply update_installation_grows; intros; apply bump_step |].
    destruct (negb _); [done |]. intros (d & [E1 E2]%adopt_binding_tables & Hu)%mbind_ok.
    apply update_installation_grows in Hu as [G O]; [| intros; apply bump_step]. split; [| congruence].
    intros k j Hj. apply (G k j). by rewrite E1.
  - destruct (_ =? _)%string; [intros [= <-]; auto with station |].
    apply update_installation_grows; intros; apply bump_step.
Qed.

(** A pass leaves the tables alone or updates the one unfinished operation it took. *)
Definition touches (o : OperationRow) (db db' : DB) : Prop :=
  insts_grow db db' /\
  (app_operations db' = app_operations db \/
   exists o', same_request o o' /\ operation_checks o' = true /\ app_operations db' = <[o_OperationID o := o']> (app_operations db)).

Lemma postpone_touches pg now e db o : app_operations db !! o_OperationID o = Some o ->
  touches o db (fst (postpone pg (o_OperationID o) now e db)).
Proof.
  intros Ho. unfold postpone. destruct (run_tx _ _ db) as [db' [v | x]] eqn:E; simpl.
  - apply run_tx_ok in E as [_ E]. apply mbind_ok in E as (d & Hu & [= <- <-]).
    apply update_operation_spec in Hu as [[Hn _] | (o' & Ho' & Hck & ->)]; [congruence |]. simplify_eq.
    split; [by apply insts_grow_same |]. right. exists (o_touched now o). by repeat split.
  - apply run_tx_err in E as ->. split; [auto with station | by left].
Qed.

Lemma reconcile_touches client o call pg now db : app_operations db !! o_OperationID o = Some o ->
  touches o db (fst (reconcile_call client o call pg now db)).
Proof.
  intros Ho. assert (Hid : touches o db db) by (split; [auto with station | by left]).
  assert (Hfin : forall p, touches o db (fst (if negb (ap_OperationID (normalizeRuntimeProgress p) =? o_OperationID o)%string
        || negb (validProgress (normalizeRuntimeProgress p))
      then (db, Err (ErrPlain "invalid runtime progress"))
      else run_tx pg (record_progress o (normalizeRuntimeProgress p) now) db))).
  { intros p. destruct (_ || _); [done |]. destruct (run_tx _ _ db) as [d [v | x]] eqn:E; simpl;
      [| by apply run_tx_err in E as ->].
    apply run_tx_ok in E as [_ E]. apply mbind_ok in E as (d1 & Hu & E). apply mbind_ok in E as (d2 & Hr & [= <- <-]).
    apply update_operation_spec in Hu as [[Hn _] | (o' & Ho' & Hck & ->)]; [congruence |]. simplify_eq.
    apply record_grows in Hr as [G O]. split; [exact G |]. right.
    exists (o_with_progress (normalizeRuntimeProgress p) now o). split_and!; [by repeat split | exact Hck | exact O]. }
  unfold reconcile_call. destruct (client call) as [[p |] | code]; [apply Hfin | done |].
  destruct (rejected_progress _ _) as [p |]; [apply Hfin |]. by apply postpone_touches.
Qed.

Lemma worker_effect free schema bound client pg now db : db_wf db ->
  let db' := fst (DispatchOne station free schema bound client pg now db) in insts_grow db db' /\ ops_effect station db db'.
Proof.
  intros Hwf. simpl. assert (Hid : insts_grow db db /\ ops_effect station db db) by (split; [auto with station | by constructor]).
  unfold DispatchOne. destruct (next_operation _ _ _) as [o |] eqn:En; [| done].
  apply next_operation_spec in En as (k & Hk & _ & Ha). destruct (db_ops db Hwf k o Hk) as [<- _].
  assert (Hto : forall d, touches o db d -> insts_grow db d /\ ops_effect station db d).
  { intros d [G [E | (o' & Hs & Hck & E)]]; (split; [done |]); [by constructor |]. by eapply ops_update. }
  destruct (appcenter_operation_inputs _ !! _) as [[a x] |].
  - destruct (negb bound); [by apply Hto, postpone_touches |]. case_bool_decide; [by apply Hto, postpone_touches |].
    destruct (appCenterDispatchInput _ _ _ _); by auto using reconcile_touches, postpone_touches.
  - destruct (preinstalled_operation_bindings _ !! _); [| by auto using reconcile_touches].
    destruct (_ || _); [done |]. by auto using reconcile_touches.
Qed.

(** ** Transitions and recoveries leave operations alone *)

Lemma publish_grows id v prior rev now db db' : publish_version id v prior rev now db = Ok db' ->
  insts_grow db db' /\ app_operations db' = app_operations db.
Proof.
  intros (i & Hi & _ & _ & _ & ->)%publish_version_spec. split; [| done].
  apply (insts_grow_update _ i); [done | apply bump_step].
Qed.

Lemma update_transition_tables id st ph now db db' : update_transition id st ph now db = Ok db' ->
  app_installations db' = app_installations db /\ app_operations db' = app_operations db.
Proof. unfold update_transition. intros H. by inv_ok H. Qed.

Lemma commit_effect pg r st ph v now db :
  let db' := fst (commitTransition station pg r st ph v now db) in
  insts_grow db db' /\ app_operations db' = app_operations db.
Proof.
  simpl. unfold commitTransition. destruct (run_tx _ _ db) as [db' [t | e]] eqn:E; simpl;
    [| apply run_tx_err in E as ->; auto with station].
  apply run_tx_ok in E as [_ E]. unfold commit_body in E. apply mbind_ok in E as (cur & _ & E).
  destruct (_ || _) in E; [done |]. apply mbind_ok in E as (d1 & Hv & E). apply mbind_ok in E as (d3 & Hu & E).
  apply mbind_ok in E as (o & _ & [= <- <-]). apply update_transition_tables in Hu as [U1 U2].
  assert (H1 : insts_grow db d1 /\ app_operations d1 = app_operations db).
  { unfold commit_version in Hv. destruct (_ =? _)%string; [injection Hv as <-; auto with station |].
    apply mbind_ok in Hv as (d & Hp & [= <-]). exact (publish_grows _ _ _ _ _ _ _ Hp). }
  destruct H1 as [G O]. destruct (ph =? "completed")%string; simpl in *; (split; [| congruence]);
    (eapply insts_grow_trans; [exact G | by apply insts_grow_same]).
Qed.

Lemma submit_effect pg u c reader fallback id now db :
  let db' := fst (SubmitTransition station pg u c reader fallback id now db) in
  app_installations db' = app_installations db /\ app_operations db' = app_operations db.
Proof.
  simpl. destruct (SubmitTransition _ _ _ _ _ _ _ _ db) as [db' [t | e]] eqn:E; simpl.
  - apply SubmitTransition_cases in E as (_ & _ & _ & _ & E).
    apply submit_body_cases in E as [(-> & _) | (i & s & g & rd & e & _ & _ & _ & _ & _ & _ & _ & _ & _ & _ & _ & _ & _ & db1 & Hx & ->)]; [done |].
    by apply insert_transition_ok in Hx as (_ & _ & _ & _ & ->).
  - unfold SubmitTransition in E. destruct (_ || _); [by simplify_eq |].
    destruct (negb (command_valid c)); [by simplify_eq |]. by apply run_tx_err in E as ->.
Qed.

Lemma accept_forward_operations u c has read id db r db' : accept_body station u c has read id db = Ok (r, db') ->
  app_operations db' = app_operations db.
Proof.
  unfold accept_body. destruct (select_row _ _) as [row |].
  - destruct (negb _); [done |]. by intros (f & _ & [= <- <-])%mbind_ok.
  - intros (parent & _ & H)%mbind_ok. destruct (_ || _) in H; [done |]. destruct (_ || _) in H; [done |].
    destruct (read _ _ _) as [[source target] |]; [| done]. destruct (_ || _) in H; [done |].
    destruct (_ || _) in H; [done |]. apply mbind_ok in H as (x & _ & H). apply mbind_ok in H as (d & Hi & [= <- <-]).
    by apply insert_recovery_spec in Hi as (_ & ->).
Qed.

Lemma finish_grows u r verified now db out db' : finish_body station u r verified now db = Ok (out, db') ->
  insts_grow db db' /\ app_operations db' = app_operations db.
Proof.
  unfold finish_body. intros (p0 & _ & H)%mbind_ok. apply mbind_ok in H as (cur & _ & H).
  apply mbind_ok in H as (parent & _ & H). destruct (_ || _) in H; [done |].
  apply mbind_ok in H as (d & Hd & H). apply mbind_ok in H as (f & _ & [= <- <-]).
  assert (H1 : insts_grow db d /\ app_operations d = app_operations db).
  { destruct verified; [| injection Hd as <-; auto with station]. unfold publish_recovery in Hd.
    destruct (read_proof _ _ _); [| done]. apply mbind_ok in Hd as (d1 & [G O]%publish_grows & [U1 U2]%update_transition_tables).
    split; [| congruence]. eapply insts_grow_trans; [exact G | by apply insts_grow_same]. }
  destruct H1 as [G O]. split; [| exact O]. exact G.
Qed.

(** ** Every step *)

Lemma step_effect w w' : db_wf (w_db w) -> ostep station w w' ->
  insts_grow (w_db w) (w_db w') /\ ops_effect station (w_db w) (w_db w').
Proof.
  intros Hwf Hs. destruct Hs; simpl.
  - destruct (submit_effect pg u c reader fallback id now (w_db w)) as [E1 E2]. split; [by apply insts_grow_same | by constructor].
  - by apply lifecycle_effect.
  - by apply worker_effect.
  - split; [auto with station | by constructor].
  - destruct (commit_effect pg r status phase version now (w_db w)). split; [done | by constructor].
  - apply run_tx_ok in H as [_ H]. pose proof (accept_forward_operations _ _ _ _ _ _ _ _ H) as E2.
    apply accept_body_tables in H as [_ E1]. split; [by apply insts_grow_same | by constructor].
  - destruct (run_tx _ _ _) as [db' [out | e]] eqn:E; simpl; [| apply run_tx_err in E as ->; split; [auto with station | by constructor]].
    apply run_tx_ok in E as [_ E]. apply finish_grows in E as [? ?]. split; [done | by constructor].
  - split; [by apply insts_grow_same | by constructor].
Qed.
End Effects.
