(* ===== verification/LifecycleSafety.v ===== *)
(** * Correctness of the lifecycle operations

    Installations under optimistic concurrency, finality and uniqueness of
    operations, idempotent acceptance, and the scheduling of the worker's queue. *)
From S2P Require Import Prelude GoStd Sha256 GoJson Uuid OperationTypes Transitions TransitionFacts Dispatch Forward Installations Lifecycle LifecycleWorker OperationsInv OperationsFrame OperationsSteps OperationsWorkers OperationsBarrier OperationsReach LifecycleEffect.

(** At most one unfinished operation per app and station. *)
Definition op_unique (db : DB) : Prop :=
  forall j k o o', app_operations db !! j = Some o -> app_operations db !! k = Some o' ->
    op_active o = true -> op_active o' = true -> o_StationID o = o_StationID o' -> o_AppID o = o_AppID o' -> j = k.

(** Operations keep their request, and finished ones everything. *)
Definition ops_persist (db db' : DB) : Prop :=
  forall k o, app_operations db !! k = Some o ->
  exists o', app_operations db' !! k = Some o' /\ same_request o o' /\ (op_active o = false -> o' = o).

Lemma effect_unique station db db' : ops_effect station db db' -> op_unique db -> op_unique db'.
Proof.
  intros [E | id o Hn Hidle _ _ E | id o o' Ho Ha Hs _ E] Hu j k x y; rewrite E.
  - apply Hu.
  - rewrite !lookup_insert. repeat case_decide; intros; simplify_eq; try done.
    + exfalso. eapply (Hidle k y); eauto.
    + exfalso. eapply (Hidle j x); eauto.
    + by eapply Hu.
  - destruct Hs as (_ & _ & _ & _ & Es & Ea & _). rewrite !lookup_insert. repeat case_decide; intros; simplify_eq; try done.
    + eapply (Hu j k o y); eauto; congruence.
    + eapply (Hu j k x o); eauto; congruence.
    + by eapply Hu.
Qed.

Lemma effect_persist station db db' : ops_effect station db db' -> ops_persist db db'.
Proof.
  intros [E | id o Hn _ _ _ E | id o o' Ho Ha Hs _ E] k x Hx; rewrite E.
  - exists x. auto using same_request_refl.
  - exists x. rewrite lookup_insert_ne by congruence. auto using same_request_refl.
  - rewrite lookup_insert. case_decide; simplify_eq.
    + exists o'. split_and!; [done | done | congruence].
    + exists x. auto using same_request_refl.
Qed.

Lemma ops_persist_trans a b c : ops_persist a b -> ops_persist b c -> ops_persist a c.
Proof.
  intros H1 H2 k o Ho. destruct (H1 k o Ho) as (x & Hx & Hs & Hf). destruct (H2 k x Hx) as (y & Hy & Hs' & Hf').
  exists y. split_and!; [done | |].
  - unfold same_request in *. naive_solver congruence.
  - intros Ha. rewrite (Hf Ha) in *. auto.
Qed.

Section Lifecycle.
Context {U : UuidLib}.
Variable station : string.

Lemma steps_effect w w' : world_wf w -> rtc (ostep station) w w' ->
  insts_grow (w_db w) (w_db w') /\ ops_persist (w_db w) (w_db w') /\ (op_unique (w_db w) -> op_unique (w_db w')).
Proof.
  intros Hwf Hs. induction Hs as [w | w w1 w2 H1 Hs IH].
  - split_and!; [apply insts_grow_refl | | done]. intros k o Ho. exists o. auto using same_request_refl.
  - destruct (world_wf_step station w w1 H1 Hwf) as [Hwf1 _]. destruct Hwf as (Hdb & _).
    destruct (step_effect station w w1 Hdb H1) as [G E]. destruct (IH Hwf1) as (G2 & P2 & U2).
    split_and!; [by eapply insts_grow_trans | eapply ops_persist_trans; eauto using effect_persist | eauto using effect_unique].
Qed.

(** C12: the revision of an installation identifies its content: whatever happens,
    an installation keeps its identity, its revision never decreases, and two
    states of it with one revision are the same row, so comparing revisions (as
    the acceptance of commands and transitions does) detects every change. *)
Theorem installation_revision_is_version w w' k i :
  world_reachable station w -> rtc (ostep station) w w' -> app_installations (w_db w) !! k = Some i ->
  exists i', app_installations (w_db w') !! k = Some i' /\ same_identity i i' /\
    i_Revision i <= i_Revision i' /\ (i_Revision i' = i_Revision i -> i' = i).
Proof.
  intros Hw%reachable_wf Hs Hi. destruct (steps_effect w w' Hw Hs) as [G _].
  destruct (G k i Hi) as (i' & Hi' & Hid & [-> | Hlt]); [exists i | exists i']; split_and!; auto; lia.
Qed.

(** An operation keeps the request it was accepted with, and once it succeeded
    or failed its row never changes again. *)
Theorem finished_operation_is_final w w' k o :
  world_reachable station w -> rtc (ostep station) w w' -> app_operations (w_db w) !! k = Some o ->
  exists o', app_operations (w_db w') !! k = Some o' /\ same_request o o' /\ (op_active o = false -> o' = o).
Proof. intros Hw%reachable_wf Hs. destruct (steps_effect w w' Hw Hs) as (_ & P & _). apply P. Qed.

(** An app of a station has at most one unfinished lifecycle operation. *)
Theorem one_unfinished_operation_per_app w j k o o' :
  world_reachable station w ->
  app_operations (w_db w) !! j = Some o -> app_operations (w_db w) !! k = Some o' ->
  op_active o = true -> op_active o' = true -> o_StationID o = o_StationID o' -> o_AppID o = o_AppID o' -> j = k.
Proof.
  intros Hs. destruct (steps_effect _ w empty_wf Hs) as (_ & _ & Hu).
  apply Hu. intros a b x y Hx. simpl in Hx. by rewrite lookup_empty in Hx.
Qed.
End Lifecycle.

(** ** Idempotent acceptance *)

(** The same command under another tracing id. *)
Definition with_request_id (rid : string) (c : Command) : Command :=
  mkCommand (c_ExpectedWorkloadUID c) rid (c_IdempotencyKey c) (c_OrganizationID c) (c_StationID c)
    (c_AppID c) (c_AppVersion c) (c_Action c).

Section Replay.
Context {U : UuidLib}.

Lemma hash_ignores_tracing rid c p k : request_hash (with_request_id rid c) p k = request_hash c p k.
Proof. by destruct k. Qed.

Lemma checks_ignore_tracing st u c rid : submit_checks st u c = None -> 1 <= len rid <= 128 ->
  submit_checks st u (with_request_id rid c) = None.
Proof.
  unfold submit_checks. simpl. destruct (_ || _); [done |]. destruct (_ || _); [done |].
  intros H Hr. assert ((len rid =? 0) || (128 <? len rid) = false) as ->; [| done].
  apply orb_false_iff. split; [apply Z.eqb_neq | apply Z.ltb_ge]; lia.
Qed.

(** The accepted row is the one its key finds. *)
Lemma accepted_operation env u c p k x db db' : find_by_key db u (se_station env) (c_IdempotencyKey c) = None ->
  accept_operation env u c p k x db = Ok db' ->
  exists o, find_by_key db' u (se_station env) (c_IdempotencyKey c) = Some o /\
    o_RequestHash o = request_hash c p k /\
    read_operation db' u (se_station env) (o_OperationID o) = Ok (view_operation (new_operation env u c p k)).
Proof.
  intros Hnone Hacc. apply accept_operation_effect in Hacc as (_ & Hn & o & Ho & Hnew & _).
  assert (Hf : operation_owned (u_UserID u) (u_OrganizationID u) (se_station env) o = true /\
    o_IdempotencyKey o = c_IdempotencyKey c /\ o_RequestHash o = request_hash c p k /\ o_OperationID o = se_operationID env /\
    view_operation o = view_operation (new_operation env u c p k)).
  { destruct Hnew as [-> | [? ->]]; unfold operation_owned; simpl; by rewrite !String.eqb_refl. }
  destruct Hf as (Hown & Hkey & Hhash & Hid & Hview).
  unfold find_by_key in *. destruct (select_row _ (app_operations db')) as [o' |] eqn:E.
  - apply select_row_some in E as (j & Hj & HP). rewrite Ho in Hj. rewrite lookup_insert in Hj. case_decide.
    + injection Hj as <-. exists o. split_and!; [done | done |]. unfold read_operation. rewrite Ho, Hid, lookup_insert_eq, Hown. by rewrite Hview.
    + pose proof (select_row_none _ _ Hnone j o' Hj) as Hx. simpl in Hx. congruence.
  - pose proof (select_row_none _ _ E (se_operationID env) o) as Hx. rewrite Ho, lookup_insert_eq in Hx.
    specialize (Hx eq_refl). simpl in Hx. by rewrite Hown, Hkey, String.eqb_refl in Hx.
Qed.

(** Acceptance of lifecycle commands is idempotent. Sending an accepted command
    again, plain, preinstalled or constrained, with any tracing id and whatever the
    catalog, the release registry, the admission or the installation do meanwhile,
    returns the accepted operation and writes nothing. *)
Theorem lifecycle_acceptance_is_idempotent env pg u c p k adm db db1 v env' adm' rid :
  submit env pg u c p k adm db = (db1, Ok v) -> se_station env' = se_station env -> 1 <= len rid <= 128 ->
  submit env' None u (with_request_id rid c) p k adm' db1 = (db1, Ok v).
Proof.
  unfold submit. intros H Hst Hrid. destruct (submit_checks _ _ c) as [e |] eqn:Ec; [done |].
  rewrite Hst, checks_ignore_tracing by done. apply run_tx_ok in H as [_ H]. simpl.
  unfold lifecycle_body in *. rewrite Hst, hash_ignores_tracing. simpl.
  destruct (find_by_key db _ _ _) as [o |] eqn:Ef.
  - destruct (_ && _) eqn:Eh; [done |]. apply mbind_ok in H as (w & Hr & [= <- <-]). rewrite Ef.
    replace (legacyHash (with_request_id rid c) (o_RequestID o)) with (legacyHash c (o_RequestID o)) by done.
    rewrite Eh, Hr. done.
  - apply mbind_ok in H as (x & _ & H). apply mbind_ok in H as (y & _ & H).
    destruct (busy _ _ _); [done |]. apply mbind_ok in H as (d & Hacc & [= <- <-]).
    destruct (accepted_operation _ _ _ _ _ _ _ _ Ef Hacc) as (o & -> & Hh & Hr).
    rewrite Hh, bool_decide_true by done. simpl. by rewrite Hr.
Qed.
End Replay.

(** ** The worker's queue *)

Section Queue.
Context {U : UuidLib}.
Variable station : string.

Lemma touched_before_trans a b c : touched_before a b = true -> touched_before b c = true -> touched_before a c = true.
Proof.
  unfold touched_before. rewrite !orb_true_iff, !andb_true_iff, !Z.ltb_lt, !Z.eqb_eq.
  intros [? | [? ?]] [? | [? ?]]; try (left; lia). right. split; [lia |]. by eapply str_ltb_trans.
Qed.

Lemma touched_before_asym a b : touched_before a b = true -> touched_before b a = false.
Proof.
  unfold touched_before. rewrite orb_true_iff, orb_false_iff, andb_true_iff, andb_false_iff, !Z.ltb_lt, Z.ltb_ge, !Z.eqb_eq, Z.eqb_neq.
  intros [? | [? ?]]; (split; [lia |]); [left; lia | right; by apply str_ltb_asym].
Qed.

(** The selected operation is one no other of the candidates precedes. *)
Lemma oldest_least l o : oldest l = Some o -> forall x, x ∈ l -> touched_before x o = false.
Proof.
  revert o. induction l as [| y l IH]; intros o; simpl; [done |]. fold (oldest l).
  destruct (oldest l) as [b |] eqn:E.
  - destruct (touched_before b y) eqn:Eb; intros [= <-] x [-> | Hx]%elem_of_cons.
    + by apply touched_before_asym.
    + by apply IH.
    + unfold touched_before. rewrite Z.ltb_irrefl, Z.eqb_refl, str_ltb_irrefl. done.
    + destruct (touched_before x y) eqn:Exy; [| done]. specialize (IH b eq_refl x Hx).
      destruct (touched_before y b) eqn:Eyb; [by rewrite (touched_before_trans _ _ _ Exy Eyb) in IH |].
      revert Eb Eyb Exy IH. unfold touched_before.
      rewrite !orb_false_iff, !andb_false_iff, !orb_true_iff, !andb_true_iff, !Z.ltb_ge, !Z.ltb_lt, !Z.eqb_neq, !Z.eqb_eq.
      intros [? Hby] [? Hyb] Hxy [? Hxb]. assert (Et : o_UpdatedAt b = o_UpdatedAt y) by lia.
      destruct Hby as [? | Hby]; [lia |]. destruct Hyb as [? | Hyb]; [lia |].
      pose proof (str_ltb_total _ _ Hby Hyb) as Hid. rewrite <- Et, Hid in *.
      destruct Hxy as [? | [? ?]]; [lia |]. destruct Hxb as [? | ?]; [lia | congruence].
  - intros [= <-] x [-> | Hx]%elem_of_cons; [unfold touched_before; by rewrite Z.ltb_irrefl, Z.eqb_refl, str_ltb_irrefl |].
    destruct l as [| z l]; [by apply elem_of_nil in Hx |]. simpl in E. fold (oldest l) in E.
    destruct (oldest l); [destruct (touched_before _ _) |]; done.
Qed.

(** The candidates of a pass. *)
Definition eligible (free : string -> bool) (o : OperationRow) : Prop :=
  o_StationID o = station /\ op_active o = true /\ free (o_OperationID o) = true.

Lemma next_operation_least free db k x : app_operations db !! k = Some x -> eligible free x ->
  exists o, next_operation station free db = Some o /\ touched_before x o = false.
Proof.
  intros Hk (Hs & Ha & Hf). unfold next_operation. set (l := filter _ _).
  assert (Hx : x ∈ l).
  { apply list_elem_of_filter. split.
    - split_and!; try done. unfold op_active in Ha. rewrite orb_true_iff, !String.eqb_eq in Ha. done.
    - apply list_elem_of_fmap. exists (k, x). by rewrite elem_of_map_to_list. }
  destruct (oldest l) as [o |] eqn:E.
  - exists o. split; [done |]. by eapply oldest_least.
  - exfalso. destruct l as [| z l']; [by apply elem_of_nil in Hx |]. simpl in E. fold (oldest l') in E.
    destruct (oldest l'); [destruct (touched_before _ _) |]; done.
Qed.

Lemma postpone_yields pg free now e db db' res o k x : db_wf db ->
  app_operations db !! o_OperationID o = Some o ->
  app_operations db !! k = Some x -> eligible free x -> k <> o_OperationID o -> o_UpdatedAt x < now ->
  postpone pg (o_OperationID o) now e db = (db', Err res) -> pg = None -> res <> ErrConstraint ->
  exists y, next_operation station free db' = Some y /\ o_OperationID y <> o_OperationID o.
Proof.
  intros Hwf Ho Hk Hel Hne Hnow Hp -> Hres. unfold postpone in Hp. simpl in Hp.
  unfold update_operation in Hp. rewrite Ho in Hp. destruct (operation_checks _); simpl in Hp; [| congruence].
  injection Hp as <- _. set (db' := set_operations _ db).
  assert (Hk' : app_operations db' !! k = Some x) by (simpl; by rewrite lookup_insert_ne).
  destruct (next_operation_least free db' k x Hk' Hel) as (y & Hy & Hl). exists y. split; [done |].
  intros Heq. apply next_operation_spec in Hy as (j & Hj & _ & _). simpl in Hj. rewrite lookup_insert in Hj.
  case_decide; simplify_eq.
  - unfold touched_before in Hl. simpl in Hl. apply orb_false_iff in Hl as [Hl _]. apply Z.ltb_ge in Hl. lia.
  - destruct (db_ops db Hwf j y Hj) as [E _]. congruence.
Qed.

(** An offline or slow app cannot starve the queue: when Runtime has no answer
    for the operation a pass took, the pass only moves that operation to the end,
    and the next pass takes another one that is waiting. *)
Theorem offline_runtime_does_not_starve w free schema bound now db' e o k x :
  world_reachable station w -> next_operation station free (w_db w) = Some o ->
  app_operations (w_db w) !! k = Some x -> eligible free x -> k <> o_OperationID o -> o_UpdatedAt x < now ->
  DispatchOne station free schema bound (fun _ => inr OtherCode) None now (w_db w) = (db', Err e) ->
  e ∈ [ErrExternal "pending"; ErrAppCenterBinding; ErrAppCenterDispatch] ->
  exists y, next_operation station free db' = Some y /\ o_OperationID y <> o_OperationID o.
Proof.
  intros (Hwf & _)%reachable_wf Hn Hk Hel Hne Hnow Hd He.
  pose proof Hn as (j & Hj & _ & _)%next_operation_spec. destruct (db_ops _ Hwf j o Hj) as [Hid _]. subst j.
  assert (Hc : e <> ErrConstraint) by (intros ->; set_solver).
  assert (Hb : e <> ErrPlain "invalid preinstalled operation binding") by (intros ->; set_solver).
  assert (Hpost : forall p, postpone None (o_OperationID o) now p (w_db w) = (db', Err e) ->
    exists y, next_operation station free db' = Some y /\ o_OperationID y <> o_OperationID o).
  { intros p Hp. exact (postpone_yields None free now p _ db' e o k x Hwf Hj Hk Hel Hne Hnow Hp eq_refl Hc). }
  unfold DispatchOne in Hd. rewrite Hn in Hd.
  destruct (appcenter_operation_inputs _ !! _) as [[a ex] |].
  - destruct (negb bound); [exact (Hpost _ Hd) |]. case_bool_decide; [exact (Hpost _ Hd) |].
    destruct (appCenterDispatchInput _ _ _ _); exact (Hpost _ Hd).
  - destruct (preinstalled_operation_bindings _ !! _); [| exact (Hpost _ Hd)].
    destruct (_ || _); [by simplify_eq | exact (Hpost _ Hd)].
Qed.

(** Consecutive passes of [Service.Run]. *)
Definition passes (free : string -> bool) (schema : AppCenterCommand -> bool) (bound : bool) (client : RuntimeClient)
    (pg : Pg) (times : list Time) (db : DB) : DB :=
  foldl (fun d now => fst (DispatchOne station free schema bound client pg now d)) db times.

(** What the worker cannot use: a malformed answer to an unbound operation, or a
    stored release that is not valid for it. *)
Definition unusable (client : RuntimeClient) (db : DB) (o : OperationRow) : Prop :=
  appcenter_operation_inputs db !! o_OperationID o = None /\
  match preinstalled_operation_bindings db !! o_OperationID o with
  | Some b => binding_Valid b = false
  | None => client (Reconcile o None) = inl None \/
            exists p, client (Reconcile o None) = inl (Some p) /\ validProgress (normalizeRuntimeProgress p) = false
  end.

(** But an unusable answer, or an unusable stored release, is not moved to the
    end: the pass fails without writing anything, so every further pass takes the
    same operation again, and no other operation of the station is ever dispatched
    while it lasts. *)
Theorem unusable_answer_blocks_queue free schema bound client pg times db o :
  next_operation station free db = Some o -> unusable client db o ->
  passes free schema bound client pg times db = db /\
  (forall now, exists text, DispatchOne station free schema bound client pg now db = (db, Err (ErrPlain text))).
Proof.
  intros Hn [Hin Hun].
  assert (H : forall now, exists text, DispatchOne station free schema bound client pg now db = (db, Err (ErrPlain text))).
  { intros now. unfold DispatchOne. rewrite Hn, Hin.
    destruct (preinstalled_operation_bindings db !! _) as [b |]; [rewrite Hun; by eexists |].
    unfold reconcile_call. destruct Hun as [-> | (p & -> & Hv)]; [by eexists |].
    rewrite Hv, orb_true_r. by eexists. }
  split; [| done]. unfold passes. induction times as [| now times IH]; [done |]. simpl.
  destruct (H now) as (text & ->). exact IH.
Qed.
End Queue.
