(* ===== verification/OperationsSafety.v ===== *)
(** * Safety of a station's operations

    What holds in every reachable state, and what one step may do to an active
    transition and its installation. *)
From S2P Require Import Prelude GoStd Sha256 GoJson Uuid OperationTypes Transitions TransitionFacts Dispatch Forward Installations Lifecycle LifecycleWorker OperationsInv OperationsFrame OperationsSteps OperationsWorkers OperationsBarrier OperationsReach.

Section Safety.
Context {U : UuidLib}.
Variable station : string.

(** ** One step and one active transition *)

(** The step left the transition and its installation alone. *)
Definition untouched (w w' : world) (k : string) (r : TransitionRow) : Prop :=
  app_installation_transitions (w_db w') !! k = Some r /\
  app_installations (w_db w') !! t_InstallationID (tr_T r) = app_installations (w_db w) !! t_InstallationID (tr_T r).

(** The step committed a barrier of the transition. *)
Definition advanced (w w' : world) (k : string) (r : TransitionRow) : Prop :=
  exists d s p v now i, barrier_effect d s p v /\ same_input (tr_T r) (d_T d) /\
    t_Phase (tr_T r) = t_Phase (d_T d) /\ d_Installed d = i /\ placed i (tr_T r) /\
    app_installations (w_db w) !! t_InstallationID (tr_T r) = Some i /\
    app_installation_transitions (w_db w') !! k = Some (tr_with s p now r) /\
    app_installations (w_db w') !! t_InstallationID (tr_T r) = Some (moved v now i).

(** The step recovered the transition forward. *)
Definition recovered (w w' : world) (k : string) (r : TransitionRow) : Prop :=
  exists f i now, (t_Phase (tr_T r) = "restoring" \/ t_Phase (tr_T r) = "recovery_required") /\
    app_installation_transitions (w_db w') !! k = Some (tr_with "failed" "completed" now r) /\
    i_State i = "installed" /\ at_original i (tr_T r) /\
    app_installations (w_db w') !! t_InstallationID (tr_T r) =
      Some (i_with (s_AppVersion (f_Target f)) "installed" (i_Revision i + 1) (i_LastOperationID i) now i) /\
    exists row, forward_recoveries (w_db w') !! f_RecoveryID f = Some row /\ f_State (fr_F row) = "succeeded" /\
      f_OperationID (fr_F row) = k /\ f_Target (fr_F row) = f_Target f.

Lemma quiet_untouched w db' k r : app_installation_transitions (w_db w) !! k = Some r -> tr_active r = true ->
  same_rows (w_db w) db' -> untouched w (with_db db' w) k r.
Proof. intros Hr Ha (H1 & _ & H2). split; simpl; [by rewrite H1 | eauto]. Qed.

(** Writes to another active row concern another installation. *)
Lemma other_row_untouched w db' op row i i' s p now k r :
  db_wf (w_db w) -> app_installation_transitions (w_db w) !! k = Some r -> tr_active r = true ->
  tr_active row = true -> commit_writes (w_db w) db' op row i i' s p now -> op <> k -> untouched w (with_db db' w) k r.
Proof.
  intros Hwf Hr Ha Hra [Hrow Hi _ Hrows Hinsts _ _] Hne. split; simpl; [by rewrite Hrows, lookup_insert_ne |].
  rewrite Hinsts, lookup_insert_ne; [done |]. intros Heq. apply Hne. by eapply (db_one_active (w_db w) Hwf op k).
Qed.

Lemma step_on_active w w' k r :
  world_wf w -> ostep station w w' -> app_installation_transitions (w_db w) !! k = Some r -> tr_active r = true ->
  untouched w w' k r \/ advanced w w' k r \/ recovered w w' k r.
Proof.
  intros (Hwf & Hpr & Hac) Hstep Hr Ha.
  assert (Hsame : untouched w (with_db (w_db w) w) k r) by done.
  destruct Hstep.
  - left. destruct (SubmitTransition _ _ _ _ _ _ _ _ (w_db w)) as [db' [t | e]] eqn:E; simpl.
    + apply SubmitTransition_cases in E as (_ & _ & _ & _ & E).
      apply submit_body_cases in E as [(-> & _) | E]; [done |].
      destruct E as (i & s & g & rd & e & _ & _ & _ & _ & _ & _ & _ & _ & _ & _ & _ & _ & _ & db1 & Hx & ->).
      apply insert_transition_ok in Hx as (Hnew & _ & _ & _ & ->). split; [| done]. simpl in *.
      rewrite lookup_insert_ne; [done | congruence].
    + assert (db' = w_db w) as ->; [| done]. unfold SubmitTransition in E. destruct (_ || _); [by simplify_eq |].
      destruct (negb (command_valid c)); [by simplify_eq |]. by apply run_tx_err in E.
  - left. destruct (lifecycle_step station env pg u c preinstalled constrained admission (w_db w)) as [? ?]; try done.
    by apply quiet_untouched.
  - left. destruct (worker_step station free schema bound client pg now (w_db w) Hwf) as [? ?]. by apply quiet_untouched.
  - by left.
  - destruct (commitTransition _ _ _ _ _ _ _ _) as [db' [out | e]] eqn:E; unfold commitTransition in E; simpl.
    + apply run_tx_ok in E as [_ E]. rewrite Forall_forall in Hpr.
      destruct (barrier_step _ _ _ _ _ _ _ _ _ Hwf (Hpr _ H) H0 E) as
        (row & i & Hrow & Hra & Hpl & Hs & Hph & Hi & _ & He & Hw).
      destruct (decide (t_OperationID (d_T r0) = k)) as [<- | Hne]; [| left; by eapply other_row_untouched].
      simplify_eq. right. left. exists r0, status, phase, version, now, (d_Installed r0).
      destruct Hw as [_ Hinst _ Hrows Hinsts _ _]. split_and!; try done; simpl; by rewrite ?Hrows, ?Hinsts, lookup_insert_eq.
    + by apply run_tx_err in E as ->; left.
  - left. apply run_tx_ok in H as [_ H]. destruct (forward_accept_step station u c has read id (w_db w) r0 db' Hwf H) as (_ & Hp & _).
    unfold accept_body in H. split; simpl.
    + destruct Hp as [Hp _]. destruct (Hp k r Hr) as (r' & Hr' & _). rewrite Hr'.
      enough (app_installation_transitions db' = app_installation_transitions (w_db w)) as Heq by congruence.
      by apply accept_body_tables in H as [-> _].
    + by apply accept_body_tables in H as [_ ->].
  - destruct (run_tx _ _ _) as [db' [out | e]] eqn:E; simpl; [| by apply run_tx_err in E as ->; left].
    apply run_tx_ok in E as [_ E]. rewrite Forall_forall in Hac. pose proof (Hac _ H) as Hrec.
    apply finish_effect in E as (db1 & row & parent & Hrd & Hra & Hst & Hph & -> & Hw); try done.
    destruct verified; [| subst db1; by left]. destruct Hw as [Hw Hinst].
    destruct (decide (f_OperationID r0 = k)) as [<- | Hne].
    2: { left. destruct (other_row_untouched _ _ _ _ _ _ _ _ _ _ _ Hwf Hr Ha Hra Hw Hne). done. }
    right. right. pose proof Hrd as [Hrow HT _ _ _ Hi _ _ _ _]. simplify_eq. exists r0, (d_Installed parent), now.
    pose proof Hw as [_ _ _ Hrows Hinsts _ Hrecs].
    destruct Hrec as (frow & Hf & Hsame').
    split_and!; simpl; try (by rewrite ?Hrows, ?Hinsts, lookup_insert_eq); try done.
    + by apply state_original_at in Hst as [? ?]; rewrite HT in *.
    + exists (fr_with_state "succeeded" frow). rewrite Hrecs, lookup_alter_eq, Hf. destruct Hsame' as (? & ? & ? & ? & ?).
      by split_and!.
  - by left.
Qed.

Lemma reachable_step_wf w w' : world_reachable station w -> ostep station w w' -> world_wf w /\ world_wf w'.
Proof. intros Hw%reachable_wf Hs. destruct (world_wf_step station w w' Hs Hw). done. Qed.

Lemma moved_empty now i : moved "" now i = i.
Proof. done. Qed.

(** ** Invariants of reachable states *)

(** C1: one app of a station never has an unfinished lifecycle operation and an
    unfinished version transition at the same time, whatever requests, workers and
    recoveries run and however they interleave. *)
Theorem lifecycle_excludes_transition w j k o r :
  world_reachable station w ->
  app_operations (w_db w) !! j = Some o -> app_installation_transitions (w_db w) !! k = Some r ->
  op_active o = true -> terminal (t_Status (tr_T r)) = false ->
  o_StationID o = tr_StationID r -> o_AppID o <> tr_AppID r.
Proof.
  intros (Hwf & _)%reachable_wf Ho Hr Ha Ht Hs Happ.
  apply (db_exclusion (w_db w) Hwf j k o r); try done. unfold tr_active. by rewrite Ht.
Qed.

(** C3: while a transition is unfinished its installation is installed and either
    still at the source version and the accepted revision, or, only in the
    releasing phase, at the target version one revision later; and it is the only
    unfinished transition of that installation. *)
Theorem transition_tracks_installation w k r :
  world_reachable station w -> app_installation_transitions (w_db w) !! k = Some r ->
  terminal (t_Status (tr_T r)) = false ->
  (exists i, app_installations (w_db w) !! t_InstallationID (tr_T r) = Some i /\ placed i (tr_T r)) /\
  (forall l r', app_installation_transitions (w_db w) !! l = Some r' -> terminal (t_Status (tr_T r')) = false ->
     t_InstallationID (tr_T r') = t_InstallationID (tr_T r) -> l = k).
Proof.
  intros (Hwf & _)%reachable_wf Hr Ht. assert (Ha : tr_active r = true) by (unfold tr_active; by rewrite Ht).
  destruct (db_trs _ Hwf k r Hr) as (_ & _ & _ & _ & i & Hi & _ & _ & _ & Hp). split; [eauto |].
  intros l r' Hr' Ht' He. apply (db_one_active _ Hwf l k r' r); try done. unfold tr_active. by rewrite Ht'.
Qed.

(** C13: an accepted transition keeps the input it was accepted with for ever, and
    a finished one never changes at all. *)
Theorem accepted_transition_is_immutable w w' k r :
  world_reachable station w -> rtc (ostep station) w w' ->
  app_installation_transitions (w_db w) !! k = Some r ->
  exists r', app_installation_transitions (w_db w') !! k = Some r' /\ same_input (tr_T r) (tr_T r') /\
    (terminal (t_Status (tr_T r)) = true -> r' = r).
Proof.
  intros Hw%reachable_wf Hs Hr. destruct (world_wf_steps station w w' Hs Hw) as [_ [Hp _]].
  destruct (Hp k r Hr) as (r' & ? & ? & _ & _ & _ & Ht). exists r'. split_and!; try done.
  intros E. apply Ht. unfold tr_active. by rewrite E.
Qed.

(** A release reference names one snapshot for ever: any two transitions that
    mention it, as source or target, finished or not, carry the same material. *)
Theorem release_reference_is_pinned w j k r r' s s' :
  world_reachable station w ->
  app_installation_transitions (w_db w) !! j = Some r -> app_installation_transitions (w_db w) !! k = Some r' ->
  s ∈ snapshots_of r -> s' ∈ snapshots_of r' -> s_ReleaseRef s = s_ReleaseRef s' -> s = s'.
Proof. intros (Hwf & _)%reachable_wf. apply (db_ledger _ Hwf). Qed.

(** ** What a step may do *)

(** Once a transition is releasing, its workload is never swapped out again: no
    step of anybody changes the installation, and the transition can only stay
    releasing or complete. *)
Theorem no_swap_after_release w w' k r :
  world_reachable station w -> ostep station w w' ->
  app_installation_transitions (w_db w) !! k = Some r -> t_Phase (tr_T r) = "releasing" ->
  app_installations (w_db w') !! t_InstallationID (tr_T r) = app_installations (w_db w) !! t_InstallationID (tr_T r) /\
  exists r', app_installation_transitions (w_db w') !! k = Some r' /\
    (t_Phase (tr_T r') = "releasing" \/ t_Phase (tr_T r') = "completed").
Proof.
  intros Hw Hs Hr Hp. apply reachable_wf in Hw as Hwf. pose proof Hwf as (Hdb & _).
  destruct (db_trs _ Hdb k r Hr) as (_ & Hck & _ & _ & i0 & Hi0 & _ & _ & _ & _).
  assert (Ha : tr_active r = true).
  { unfold transition_checks in Hck. rewrite Hp in Hck. unfold tr_active. simpl in Hck.
    destruct (terminal (t_Status (tr_T r))); [| done]. simpl in Hck. by rewrite !andb_false_r in Hck. }
  destruct (step_on_active w w' k r Hwf Hs Hr Ha) as [[H1 H2] | [H | H]].
  - split; [done |]. exists r. auto.
  - destruct H as (d & s & p & v & now & i & He & _ & Hph & Hi & _ & H0 & H1 & H2). rewrite H1, H2, H0. rewrite Hp in Hph.
    assert (v = "" /\ (p = "releasing" \/ p = "completed")) as [-> Hpp].
    { destruct He; try (split; [done | auto]); congruence. }
    split; [done |]. exists (tr_with s p now r). auto.
  - destruct H as (f & i & now & [Hx | Hx] & _); congruence.
Qed.

(** C2: how a transition ends. It succeeds only with its installation at the
    target version, one revision after the accepted one. It fails only with the
    installation back (or still) at the source version and the accepted revision,
    or recovered forward to the version of a verified recovery of this transition. *)
Theorem completion_matches_installation w w' k r r' :
  world_reachable station w -> ostep station w w' ->
  app_installation_transitions (w_db w) !! k = Some r -> terminal (t_Status (tr_T r)) = false ->
  app_installation_transitions (w_db w') !! k = Some r' -> terminal (t_Status (tr_T r')) = true ->
  exists i, app_installations (w_db w') !! t_InstallationID (tr_T r) = Some i /\ i_State i = "installed" /\
    t_Phase (tr_T r') = "completed" /\
    ((t_Status (tr_T r') = "succeeded" /\ at_target i (tr_T r)) \/
     (t_Status (tr_T r') = "failed" /\
       (at_original i (tr_T r) \/
        exists l f, forward_recoveries (w_db w') !! l = Some f /\ f_OperationID (fr_F f) = k /\
          f_State (fr_F f) = "succeeded" /\ i_AppVersion i = s_AppVersion (f_Target (fr_F f)) /\
          i_Revision i = t_ExpectedRevision (tr_T r) + 1))).
Proof.
  intros Hw%reachable_wf Hs Hr Ht Hr' Ht'. assert (Ha : tr_active r = true) by (unfold tr_active; by rewrite Ht).
  destruct (step_on_active w w' k r Hw Hs Hr Ha) as [[H1 H2] | [H | H]].
  - simplify_eq. congruence.
  - destruct H as (d & s & p & v & now & i & He & Hsame & Hph & Hi & [Hst Hpl] & H0 & H1 & H2).
    rewrite Hr' in H1. injection H1 as ->. simpl in *.
    assert (Hback : (at_original (d_Installed d) (d_T d) -> at_original i (tr_T r)) /\
      (at_target (d_Installed d) (d_T d) -> at_target i (tr_T r))).
    { destruct Hsame as (_ & _ & _ & _ & Ee & Es & Et). unfold at_original, at_target.
      by rewrite Ee, Es, Et, Hi. }
    destruct Hback as [Hbo Hbt].
    destruct He; try congruence; try discriminate Ht'; exists i; (split; [exact H2 |]); (split; [done |]); (split; [done |]).
    + right. split; [done |]. left. destruct Hpl as [? | [Hx _]]; [done |]. destruct H; congruence.
    + left. auto.
    + right. auto.
  - destruct H as (f & i & now & _ & H1 & Hst & Ho & H2 & row & Hrow & Hrs & Hro & Hrt).
    rewrite Hr' in H1. injection H1 as ->. eexists. split; [exact H2 |]. simpl. split_and!; try done.
    right. split; [done |]. right. exists (f_RecoveryID f), row. rewrite Hrt. destruct Ho as [_ ->]. by split_and!.
Qed.
End Safety.
