(* ===== verification/DispatchProgress.v ===== *)
(** * A dispatch call as steps, and its progress

    Every call of [DispatchTransition] is a sequence of the steps of the operations
    model, and with a Runtime that keeps answering favourably a bounded number of
    calls finishes any transition. *)
From S2P Require Import Prelude GoStd Sha256 GoJson Uuid OperationTypes Transitions TransitionFacts Dispatch Forward Installations Lifecycle LifecycleWorker OperationsInv OperationsFrame OperationsSteps OperationsWorkers OperationsBarrier OperationsReach.

(** Two worlds with the same tables, the second holding more pending reads and
    handed-over recoveries. *)
Definition extends (w v : world) : Prop :=
  w_db v = w_db w /\ w_prior w ⊆ w_prior v /\ w_accepted w ⊆ w_accepted v.

Definition remember (r : dispatchTransition) (w : world) : world :=
  mkWorld (w_db w) (r :: w_prior w) (w_accepted w).

(** The tables Runtime or another transaction may have left while a call was out. *)
Definition env_reaches {U : UuidLib} (station : string) (env : DB -> DB) (w : world) : Prop :=
  exists w1, rtc (ostep station) w w1 /\ w_db w1 = env (w_db w).

Section Refinement.
Context {U : UuidLib}.
Variable station : string.

(** A pending read does not disturb the steps of others. *)
Lemma step_extends w w' v : ostep station w w' -> extends w v ->
  exists v', ostep station v v' /\ extends w' v' /\ w_prior v ⊆ w_prior v'.
Proof.
  intros Hs (Hdb & Hp & Ha). destruct Hs.
  - eexists. split; [apply (os_accept station v pg u c reader fallback id now) |]. rewrite <- Hdb. by repeat split.
  - eexists. split; [by apply (os_lifecycle station v env pg u c preinstalled constrained admission) |].
    rewrite <- Hdb. by repeat split.
  - eexists. split; [apply (os_worker station v free schema bound client pg now) |]. rewrite <- Hdb. by repeat split.
  - eexists. split; [apply (os_read station v op r); by rewrite Hdb |]. repeat split; simpl; try done; set_solver.
  - eexists. split; [apply (os_barrier station v r pg status phase version now); [by apply Hp | done] |].
    rewrite <- Hdb. by repeat split.
  - eexists. split; [eapply (os_forward_accept station v pg u c has read id db' r); by rewrite Hdb |].
    repeat split; simpl; try done; set_solver.
  - eexists. split; [apply (os_forward_finish station v pg u r verified now); by apply Ha |].
    rewrite <- Hdb. by repeat split.
  - eexists. split; [apply (os_proof station v proofs) |]. rewrite <- Hdb. by repeat split.
Qed.

Lemma steps_extend w w' : rtc (ostep station) w w' -> forall v, extends w v ->
  exists v', rtc (ostep station) v v' /\ extends w' v' /\ w_prior v ⊆ w_prior v'.
Proof.
  induction 1 as [w | w w1 w2 Hs _ IH]; intros v Hv; [by exists v |].
  destruct (step_extends w w1 v Hs Hv) as (v1 & Hv1 & He & Hsub). destruct (IH v1 He) as (v2 & Hr & He2 & Hsub2).
  exists v2. split; [by eapply rtc_l |]. split; [done |]. by etrans.
Qed.

(** The commit of a call: read now, the environment's steps, then the barrier. *)
Lemma commit_reaches w op r env pg status phase version now :
  readDispatchTransition (w_db w) station op = Ok r -> env_reaches station env w ->
  barrier_of r status phase version ->
  exists w', rtc (ostep station) w w' /\
    w_db w' = fst (commitTransition station pg r status phase version now (env (w_db w))).
Proof.
  intros Hr (w1 & Hsteps & Henv) Hb.
  destruct (steps_extend w w1 Hsteps (remember r w)) as (v & Hv & (Hdb & _) & Hsub).
  { repeat split; simpl; set_solver. }
  eexists. split.
  - eapply rtc_l; [by apply (os_read station w op r) |]. eapply rtc_r; [exact Hv |].
    apply (os_barrier station v r pg status phase version now); [apply Hsub; left | done].
  - simpl. by rewrite Hdb, Henv.
Qed.

(** A whole call: whatever it answers, its tables are reachable by steps. *)
Lemma call_steps w locked op runtime nonce env pg now :
  env_reaches station env w ->
  exists w', rtc (ostep station) w w' /\
    w_db w' = fst (DispatchTransition station locked op runtime nonce env pg now (w_db w)).
Proof.
  intros Henv. assert (Hquiet : exists w', rtc (ostep station) w w' /\ w_db w' = w_db w) by (exists w; done).
  assert (Hrun : exists w', rtc (ostep station) w w' /\ w_db w' = env (w_db w)) by exact Henv.
  unfold DispatchTransition. destruct runtime as [reconcile |]; [| done].
  destruct (_ || _); [done |]. destruct (negb locked); [done |].
  destruct (readDispatchTransition _ _ _) as [r | e] eqn:Hr; [| done].
  destruct (dispatch_plan _ _) as [[| status phase | mode] | e] eqn:Hp; try done.
  - eapply commit_reaches; [done.. |]. by econstructor.
  - destruct (reconcile _) as [progress | e]; [| done]. destruct (negb _); [done |].
    destruct (dispatch_barrier _ _ _) as [[[status phase] version] | e] eqn:Hb; [| done].
    eapply commit_reaches; [done.. |]. by econstructor.
Qed.

(** C10: a pass of the transition worker - choose the next unfinished transition,
    read it, ask Runtime, commit the barrier - together with everything other
    callers, workers and Runtime do while it waits for the answer, is an execution
    of the step model: the tables it leaves are reachable by the atomic steps, so
    every invariant of the model holds between and after its two transactions. *)
Theorem worker_pass_refines_steps w after locked runtime nonce env pg now :
  env_reaches station env w ->
  exists w', rtc (ostep station) w w' /\
    w_db w' = fst (fst (DispatchNextTransition station after
      (fun op db => DispatchTransition station locked op runtime nonce env pg now db) (w_db w))).
Proof.
  intros Henv. unfold DispatchNextTransition. destruct (_ || _); [by exists w |].
  destruct (next_id _ _) as [op |]; [| by exists w].
  destruct (call_steps w locked op runtime nonce env pg now Henv) as (w' & Hs & Hdb). exists w'. split; [done |].
  rewrite Hdb. by destruct (DispatchTransition _ _ _ _ _ _ _ _ _).
Qed.
End Refinement.

(** ** Progress under a favourable Runtime *)

(** A Runtime that finishes whatever it is asked. *)
Definition obliging : TransitionRuntime := fun step =>
  Ok (mkProgress step
    (if (st_Mode step =? "prepare")%string then "prepared"
     else if (st_Mode step =? "restore")%string then "restored" else "released")).

(** What such a call commits, by phase. *)
Definition advance (r : dispatchTransition) : string * string * string :=
  let p := t_Phase (d_T r) in
  if (p =? "accepted")%string then ("running", "checking", "")
  else if (p =? "recovery_required")%string then ("running", "restoring", "")
  else if (p =? "restoring")%string then ("running", "releasing", "")
  else if (p =? "releasing")%string then
    ((if (dispatch_state r =? "target")%string then "succeeded" else "failed"), "completed", "")
  else if (p =? "publishing")%string then ("running", "releasing", s_AppVersion (t_Target (d_T r)))
  else ("running", "publishing", "").

Definition phase_rank (p : string) : nat :=
  if (p =? "accepted")%string then 4
  else if slices_contains ["checking"; "sealing"; "applying"; "verifying"; "recovery_required"] p then 3
  else if slices_contains ["publishing"; "restoring"] p then 2
  else if (p =? "releasing")%string then 1 else 0.

Definition phases : list string :=
  ["accepted"; "checking"; "sealing"; "applying"; "verifying"; "publishing";
   "releasing"; "restoring"; "recovery_required"; "completed"].

#[local] Arguments snapshot_valid : simpl never.
#[local] Arguments compatibleTransition : simpl never.

Section Progress.
Context {U : UuidLib}.
Variable station : string.

Lemma checks_phase row : transition_checks row = true -> t_Phase (tr_T row) ∈ phases.
Proof. unfold transition_checks. intros H. bool_norm. by apply slices_contains_true. Qed.

(** The checks of the table depend on status and phase only through three
    equivalences. *)
Lemma checks_moved row s p now : transition_checks row = true ->
  (s, p) ∈ [("running", "checking"); ("running", "restoring"); ("running", "publishing");
            ("running", "releasing"); ("succeeded", "completed"); ("failed", "completed")] ->
  transition_checks (tr_with s p now row) = true.
Proof.
  unfold transition_checks. simpl. intros H Hin. rewrite !andb_true_iff in H.
  destruct H as [[[[[[[-> ->] _] _] ->] _] _] _].
  rewrite !elem_of_cons, elem_of_nil in Hin.
  destruct_or! Hin; simplify_eq; done.
Qed.

Lemma active_checks_phase row : transition_checks row = true -> tr_active row = true ->
  t_Phase (tr_T row) <> "completed".
Proof.
  unfold transition_checks, tr_active. intros H Ha Hp. rewrite Hp in H. bool_norm.
  match goal with H : Bool.eqb (terminal _) _ = true |- _ => rewrite Ha in H end. done.
Qed.

Lemma compatible_congr c i i' s t : i_AppID i = i_AppID i' -> i_AppVersion i = i_AppVersion i' ->
  compatibleTransition c i s t = compatibleTransition c i' s t.
Proof. intros Ha Hv. unfold compatibleTransition. by rewrite Ha, Hv. Qed.

Ltac read_cbn := cbn [mbind result_bind tr_with t_with tr_T tr_StationID tr_UserID tr_OrganizationID
  t_Source t_Target t_InstallationID t_Action t_ExpectedRevision negb d_Installed].

(** A read still succeeds after the row advanced and its installation moved. *)
Lemma read_again db db' op r row i' s p now :
  readDispatchTransition db station op = Ok r -> app_installation_transitions db !! op = Some row ->
  app_installation_transitions db' !! op = Some (tr_with s p now row) ->
  app_installations db' !! t_InstallationID (tr_T row) = Some i' -> same_identity (d_Installed r) i' ->
  readDispatchTransition db' station op =
    Ok (mkDispatch (t_with s p now (d_T r)) (d_UserID r) (d_OrganizationID r) i').
Proof.
  intros Hr Hrow Hrow' Hi' (E1 & E2 & E3 & E4). revert Hr. unfold readDispatchTransition. rewrite Hrow, Hrow'. read_cbn.
  destruct (negb _); [done |]. unfold readTransition. rewrite Hrow, Hrow'. read_cbn.
  change (owned_by _ _ _ (tr_with s p now row)) with (owned_by (tr_UserID row) (tr_OrganizationID row) station row).
  destruct (negb (owned_by _ _ _ row)); [done |]. destruct (_ || _); [done |]. read_cbn.
  unfold readInstallation. rewrite Hi'. destruct (app_installations db !! _) as [i |] eqn:Hi; [| done].
  destruct ((i_StationID i =? _)%string && _) eqn:Ho; [| done]. read_cbn.
  destruct (_ || _) eqn:Hc; [done |]. intros [= <-]. cbn [d_Installed] in E1, E2, E3, E4.
  rewrite E2, E4, Ho. read_cbn. rewrite (compatible_congr _ _ (with_version (s_AppVersion (t_Source (tr_T row))) i)), Hc; done.
Qed.

(** What a read transition that is active has: its phase, its place, its plan. *)
Record ready (db : DB) (op : string) (r : dispatchTransition) (row : TransitionRow) : Prop := {
  rd_read : readDispatchTransition db station op = Ok r;
  rd_spec : dispatch_read db station op r row;
  rd_wf : db_wf db;
  rd_active : tr_active row = true;
  rd_free : forward_pending op db = false;
}.

Lemma ready_placed db op r row : ready db op r row ->
  t_OperationID (d_T r) = op /\ t_Phase (d_T r) ∈ phases /\ t_Phase (d_T r) <> "completed" /\
  transition_checks row = true /\ positioned (d_Installed r) (d_T r) /\ placed (d_Installed r) (d_T r).
Proof.
  intros [_ [Hrow HT _ _ _ Hi Happ _ _ _] Hwf Ha _]. rewrite HT.
  destruct (db_trs _ Hwf op row Hrow) as (Hop & Hck & _ & _ & i & Hi' & _ & _ & _ & Hp). rewrite Hi in Hi'. injection Hi' as <-.
  split_and!; try done; [by apply checks_phase | by apply active_checks_phase | | by apply Hp].
  split; [congruence |]. unfold transition_checks in Hck. rewrite !andb_true_iff, Z.ltb_lt in Hck. lia.
Qed.

(** The call of a favourable Runtime commits [advance]. *)
Lemma obliging_barrier db op r row : ready db op r row ->
  (exists st ph, dispatch_plan r false = Ok (PlanCommit st ph) /\ advance r = (st, ph, "")) \/
  (exists mode, dispatch_plan r false = Ok (PlanCall mode) /\ mode <> "" /\
     forall step, st_Mode step = mode -> exists rep, obliging step = Ok (mkProgress step rep) /\
       dispatch_barrier r mode rep = Ok (advance r)).
Proof.
  intros Hrd. destruct (ready_placed _ _ _ _ Hrd) as (_ & Hph & Hnc & _ & Hpos & Hinst & Hpl).
  destruct Hrd as [_ [_ HT _ _ _ _ _ _ _ _] _ Ha _].
  assert (Hnt : slices_contains ["succeeded"; "failed"] (t_Status (d_T r)) = false).
  { apply slices_contains_false. unfold tr_active, terminal in Ha. rewrite HT. bool_norm. set_solver. }
  assert (Hst : t_Phase (d_T r) <> "releasing" -> dispatch_state r = "original").
  { intros Hne. apply state_original; [done.. |]. destruct Hpl as [? | [? _]]; [done | congruence]. }
  assert (Hst' : dispatch_state r = "original" \/ dispatch_state r = "target").
  { destruct Hpl as [? | [_ ?]]; [left; by apply state_original | right; by apply state_target]. }
  unfold dispatch_plan, advance. rewrite Hnt. unfold phases in Hph. rewrite !elem_of_cons, elem_of_nil in Hph.
  destruct_or! Hph; try done; rewrite Hph; simpl.
  all: try (rewrite Hst by congruence; simpl; left; by eauto).
  all: try (rewrite Hst by congruence).
  all: right; unfold obliging; simpl.
  all: try (eexists; split; [reflexivity |]; split; [done |]; intros step ->; simpl; eexists; split; [done |];
    unfold dispatch_barrier; rewrite Hph, ?Hst by congruence; reflexivity).
  destruct Hst' as [E | E]; rewrite E; simpl; eexists; (split; [reflexivity |]); (split; [done |]);
    intros step ->; simpl; eexists; (split; [done |]); unfold dispatch_barrier; by rewrite ?Hph, ?E.
Qed.

Lemma advance_shape r s p v : advance r = (s, p, v) ->
  (s, p) ∈ [("running", "checking"); ("running", "restoring"); ("running", "publishing");
            ("running", "releasing"); ("succeeded", "completed"); ("failed", "completed")] /\
  (v = "" \/ v = s_AppVersion (t_Target (d_T r))).
Proof. unfold advance. repeat case_match; intros [= <- <- <-]; (split; [set_solver | auto]). Qed.

Lemma commit_version_accepts db op r row now v : ready db op r row ->
  v = "" \/ v = s_AppVersion (t_Target (d_T r)) -> i_Revision (d_Installed r) <= max_int64 - 1 ->
  i_State (d_Installed r) = "installed" ->
  exists db1, commit_version r v now db = Ok db1 /\
    app_installations db1 = <[t_InstallationID (tr_T row) := moved v now (d_Installed r)]> (app_installations db) /\
    app_installation_transitions db1 = app_installation_transitions db /\
    app_operations db1 = app_operations db /\ forward_recoveries db1 = forward_recoveries db.
Proof.
  intros [_ [_ HT _ _ _ Hi _ _ _ Hvt] _ _ _] Hv Hrev Hst. unfold commit_version, moved.
  destruct (v =? "")%string eqn:E.
  - exists db. split_and!; try done. by rewrite insert_id.
  - bool_norm. destruct Hv as [-> | ->]; [done |]. unfold publish_version. rewrite HT, Hi, !String.eqb_refl, Z.eqb_refl, Hst.
    apply snapshot_valid_version in Hvt.
    assert (max_int64 <? i_Revision (d_Installed r) + 1 = false) as -> by (apply Z.ltb_ge; lia).
    rewrite Hvt, String.eqb_refl. eexists. by split_and!.
Qed.

Lemma update_transition_accepts db id s p now row :
  app_installation_transitions db !! id = Some row -> transition_checks (tr_with s p now row) = true ->
  (forall k r, app_installation_transitions db !! k = Some r -> t_OperationID (tr_T r) <> id -> tr_active r = true ->
     t_InstallationID (tr_T r) <> t_InstallationID (tr_T row)) ->
  update_transition id s p now db = Ok (set_transitions (<[id := tr_with s p now row]> (app_installation_transitions db)) db).
Proof.
  intros Hrow Hck Hone. unfold update_transition. rewrite Hrow, Hck.
  rewrite (proj2 (exists_row_false _ _)); [by rewrite andb_false_r |].
  intros k x Hx. rewrite !andb_false_iff, !negb_false_iff, !String.eqb_neq, String.eqb_eq.
  destruct (decide (t_OperationID (tr_T x) = id)); [auto |].
  destruct (terminal (t_Status (tr_T x))) eqn:E; [auto |]. left. right. apply (Hone k); try done.
  unfold tr_active. by rewrite E.
Qed.

Lemma commit_accepts db op r row now s p v : ready db op r row -> advance r = (s, p, v) ->
  exists db', commit_body station r s p v now db = Ok (t_with s p now (d_T r), db') /\
    commit_writes db db' op row (d_Installed r) (moved v now (d_Installed r)) s p now.
Proof.
  intros Hrd Hadv. destruct (ready_placed _ _ _ _ Hrd) as (Hop & _ & _ & Hck & _ & Hst & Hpl).
  destruct (advance_shape _ _ _ _ Hadv) as [Hsp Hv].
  pose proof Hrd as [Hread [Hrow HT Hstat Hus Hor Hi _ Hb Hs Ht] Hwf Ha _].
  destruct (commit_version_accepts db op r row now v Hrd Hv) as (db1 & Hcv & E1 & E2 & E3 & E4); [| done |].
  { destruct Hpl as [[_ Hr] | [_ [_ Hr]]]; rewrite Hr, HT; lia. }
  set (db2 := if (p =? "completed")%string then transitionAudit r s db1 else db1).
  assert (F : app_installations db2 = app_installations db1 /\
    app_installation_transitions db2 = app_installation_transitions db /\
    app_operations db2 = app_operations db /\ forward_recoveries db2 = forward_recoveries db).
  { unfold db2. destruct (p =? _)%string; by split_and!. }
  destruct F as (F1 & F2 & F3 & F4). pose proof (checks_moved row s p now Hck Hsp) as Hck'.
  assert (Hup : update_transition op s p now db2 =
    Ok (set_transitions (<[op := tr_with s p now row]> (app_installation_transitions db)) db2)).
  { rewrite (update_transition_accepts db2 op s p now row), F2; rewrite ?F2; try done.
    intros k x Hx Hne Hax Heq. apply Hne. rewrite (db_one_active db Hwf k op x row Hx Hrow Hax Ha Heq) in Hx.
    rewrite Hrow in Hx. injection Hx as <-. congruence. }
  eexists. split.
  - unfold commit_body. rewrite Hop, Hread. cbn [mbind result_bind]. rewrite !String.eqb_refl, bool_decide_true by done.
    cbn [negb orb]. rewrite Hcv. cbn [mbind result_bind]. fold db2. rewrite Hop, Hup. cbn [mbind result_bind].
    unfold readTransition. cbn [app_installation_transitions set_transitions]. rewrite lookup_insert_eq.
    unfold owned_by. read_cbn. rewrite Hus, Hor, Hstat, !String.eqb_refl, Hs, Ht. cbn [negb andb orb].
    by rewrite HT.
  - constructor; try done; simpl; by rewrite ?F1.
Qed.

(** One call with nothing else happening meanwhile. *)
Definition obliged (op : string) (call : string * Time) (db : DB) : DB :=
  fst (DispatchTransition station true op (Some obliging) (fst call) (fun d => d) None (snd call) db).
Definition drive (op : string) (calls : list (string * Time)) (db : DB) : DB :=
  foldl (fun d call => obliged op call d) db calls.

Lemma obliged_commits db op r row call s p v : canonicalInstallation op = true -> canonicalInstallation station = true ->
  ready db op r row -> advance r = (s, p, v) ->
  obliged op call db = fst (run_tx None (commit_body station r s p v (snd call)) db).
Proof.
  intros Hop Hstn Hrd Hadv. unfold obliged, DispatchTransition. rewrite Hop, Hstn. cbn [negb orb].
  rewrite (rd_read _ _ _ _ Hrd), (rd_free _ _ _ _ Hrd).
  destruct (obliging_barrier _ _ _ _ Hrd) as [(st & ph & -> & E) | (mode & -> & _ & H)].
  - rewrite Hadv in E. by injection E as -> -> ->.
  - destruct (H (mkStep op (fst call) (inputDigest r) mode) eq_refl) as (rep & -> & Hb).
    cbn [pr_Step pr_Phase]. rewrite bool_decide_true by done. cbn [negb]. by rewrite Hb, Hadv.
Qed.

Lemma advance_rank r s p v : t_Phase (d_T r) ∈ phases -> t_Phase (d_T r) <> "completed" -> advance r = (s, p, v) ->
  (phase_rank p < phase_rank (t_Phase (d_T r)))%nat.
Proof.
  intros Hph Hnc. unfold advance. unfold phases in Hph. rewrite !elem_of_cons, elem_of_nil in Hph.
  destruct_or! Hph; try done; rewrite Hph; simpl; intros [= <- <- <-]; cbv; lia.
Qed.

Lemma obliged_step db op r row call : canonicalInstallation op = true -> canonicalInstallation station = true ->
  ready db op r row -> exists row', app_installation_transitions (obliged op call db) !! op = Some row' /\
    (phase_rank (t_Phase (tr_T row')) < phase_rank (t_Phase (tr_T row)))%nat /\
    (tr_active row' = true -> exists r', ready (obliged op call db) op r' row').
Proof.
  intros Hop Hstn Hrd. destruct (advance r) as [[s p] v] eqn:Hadv.
  destruct (commit_accepts db op r row (snd call) s p v Hrd Hadv) as (db' & Hc & Hw).
  rewrite (obliged_commits db op r row call s p v Hop Hstn Hrd Hadv). simpl. rewrite Hc. simpl.
  destruct (ready_placed _ _ _ _ Hrd) as (Hid & Hph & Hnc & _). pose proof Hrd as [Hread [Hrow HT _ _ _ _ _ _ _ _] Hwf Ha Hfree].
  pose proof Hw as [_ _ _ Hrows Hinsts _ Hrecs].
  exists (tr_with s p (snd call) row). rewrite Hrows, lookup_insert_eq. split_and!; [done | |].
  { simpl. rewrite <- HT. by eapply advance_rank. }
  intros Ha'. assert (Hb : barrier_of r s p v).
  { destruct (obliging_barrier _ _ _ _ Hrd) as [(st & ph & Hp & E) | (mode & Hp & _ & H)].
    - rewrite Hadv in E. injection E as -> -> ->. by econstructor.
    - destruct (H (mkStep op "" "" mode) eq_refl) as (rep & _ & Hbar). rewrite Hadv in Hbar. by econstructor. }
  assert (Hpr : prior_ok db r) by (exists row; rewrite Hid, HT; by repeat split).
  destruct (barrier_keeps_wf _ _ _ _ _ _ _ _ _ Hwf Hpr Hb Hc) as [Hwf' _].
  assert (Hread' : readDispatchTransition db' station op =
    Ok (mkDispatch (t_with s p (snd call) (d_T r)) (d_UserID r) (d_OrganizationID r) (moved v (snd call) (d_Installed r)))).
  { eapply read_again; [done.. | by rewrite Hrows, lookup_insert_eq | by rewrite Hinsts, lookup_insert_eq | apply moved_identity]. }
  eexists. constructor; [exact Hread' | | done | done |].
  - apply readDispatch_spec in Hread' as (row2 & Hrd2). pose proof Hrd2 as [Hr2 _ _ _ _ _ _ _ _ _].
    rewrite Hrows, lookup_insert_eq in Hr2. injection Hr2 as <-. done.
  - unfold forward_pending. by rewrite Hrecs.
Qed.

Lemma terminal_rests db op row call : app_installation_transitions db !! op = Some row ->
  terminal (t_Status (tr_T row)) = true -> obliged op call db = db.
Proof.
  intros Hrow Ht. unfold obliged, DispatchTransition. destruct (_ || _); [done |]. cbn [negb].
  destruct (readDispatchTransition db station op) as [r |] eqn:Hr; [| done].
  apply readDispatch_spec in Hr as (row' & [Hrow' HT _ _ _ _ _ _ _ _]). rewrite Hrow in Hrow'. injection Hrow' as <-.
  unfold dispatch_plan. rewrite HT. assert (slices_contains ["succeeded"; "failed"] (t_Status (tr_T row)) = true) as ->; [| done].
  apply slices_contains_true. unfold terminal in Ht. apply orb_true_iff in Ht. rewrite !String.eqb_eq in Ht. set_solver.
Qed.

Lemma drive_terminal op row calls : forall db, app_installation_transitions db !! op = Some row ->
  terminal (t_Status (tr_T row)) = true -> drive op calls db = db.
Proof.
  induction calls as [| call calls IH]; intros db Hrow Ht; [done |].
  unfold drive. simpl. rewrite (terminal_rests db op row call Hrow Ht). by apply IH.
Qed.

Lemma drive_finishes op calls : canonicalInstallation op = true -> canonicalInstallation station = true ->
  forall db r row, ready db op r row -> (phase_rank (t_Phase (tr_T row)) <= length calls)%nat ->
  exists row', app_installation_transitions (drive op calls db) !! op = Some row' /\ terminal (t_Status (tr_T row')) = true.
Proof.
  intros Hop Hstn. induction calls as [| call calls IH]; intros db r row Hrd Hlen; destruct (obliged_step db op r row ("", 0) Hop Hstn Hrd)
    as (? & _ & Hrank & _); simpl in Hlen; [lia | clear Hrank].
  destruct (obliged_step db op r row call Hop Hstn Hrd) as (row' & Hrow' & Hrank & Hnext).
  change (drive op (call :: calls) db) with (drive op calls (obliged op call db)).
  destruct (tr_active row') eqn:Ha.
  - destruct (Hnext eq_refl) as (r' & Hrd'). eapply IH; [done | lia].
  - unfold tr_active in Ha. bool_norm. exists row'. by rewrite (drive_terminal op row').
Qed.

Lemma drive_steps op calls : forall w, exists w', rtc (ostep station) w w' /\ w_db w' = drive op calls (w_db w).
Proof.
  induction calls as [| call calls IH]; intros w; [by exists w |].
  destruct (call_steps station w true op (Some obliging) (fst call) (fun d => d) None (snd call)) as (w1 & H1 & E1).
  { by exists w. }
  destruct (IH w1) as (w2 & H2 & E2). exists w2. split; [by etrans |]. by rewrite E2, E1.
Qed.

(** From any reachable state and any unfinished phase, four such calls bring a
    transition to its end. *)
Lemma drive_completes w op r calls :
  world_reachable station w -> canonicalInstallation op = true -> canonicalInstallation station = true ->
  readDispatchTransition (w_db w) station op = Ok r -> terminal (t_Status (d_T r)) = false ->
  forward_pending op (w_db w) = false -> (4 <= length calls)%nat ->
  exists row, app_installation_transitions (drive op calls (w_db w)) !! op = Some row /\
    terminal (t_Status (tr_T row)) = true /\ t_Phase (tr_T row) = "completed" /\ same_input (d_T r) (tr_T row).
Proof.
  intros Hw Hop Hstn Hread Ht Hfree Hlen. pose proof (reachable_wf station w Hw) as Hwf0. pose proof Hwf0 as (Hwf & _).
  destruct (readDispatch_spec _ _ _ _ Hread) as (row & Hrd). pose proof Hrd as [Hrow HT _ _ _ _ _ _ _ _].
  assert (Hready : ready (w_db w) op r row).
  { constructor; try done. unfold tr_active. by rewrite <- HT, Ht. }
  destruct (drive_finishes op calls Hop Hstn (w_db w) r row Hready) as (row' & Hrow' & Ht').
  { etrans; [| exact Hlen]. unfold phase_rank. repeat case_match; lia. }
  exists row'. destruct (drive_steps op calls w) as (w' & Hs & Hdb).
  destruct (world_wf_steps station w w' Hs Hwf0) as [(Hwf' & _) [Hp _]].
  destruct (Hp op row Hrow) as (row2 & Hrow2 & Hsame & _). rewrite Hdb, Hrow' in Hrow2. injection Hrow2 as <-.
  split_and!; try done; [| by rewrite HT].
  rewrite <- Hdb in Hrow'. destruct (db_trs _ Hwf' op row' Hrow') as (_ & Hck & _). unfold transition_checks in Hck.
  bool_norm. match goal with H : Bool.eqb (terminal _) _ = true |- _ => rewrite Ht' in H; apply Bool.eqb_prop in H end.
  by apply String.eqb_eq.
Qed.

(** C9: an accepted transition never gets stuck: from any reachable state and any
    unfinished phase, four dispatch calls whose Runtime does what it is asked bring
    it to its end. *)
Theorem cooperative_runtime_completes w op r calls :
  world_reachable station w -> canonicalInstallation op = true -> canonicalInstallation station = true ->
  readDispatchTransition (w_db w) station op = Ok r -> terminal (t_Status (d_T r)) = false ->
  forward_pending op (w_db w) = false -> (4 <= length calls)%nat ->
  exists row, app_installation_transitions (drive op calls (w_db w)) !! op = Some row /\
    terminal (t_Status (tr_T row)) = true /\ t_Phase (tr_T row) = "completed" /\ same_input (d_T r) (tr_T row).
Proof. apply drive_completes. Qed.
End Progress.
