(* ===== verification/DispatchFair.v ===== *)
(** * The transition worker's cursor is fair

    transition_worker.go: the cursor schedules fairly. As many consecutive passes
    as transitions are ever unfinished meanwhile dispatch every one of them,
    whatever the dispatches answer and whoever else writes to the tables. *)
From stdpp Require Import sorting.
From S2P Require Import Prelude GoStd Sha256 GoJson Uuid OperationTypes Transitions Dispatch Forward Installations Lifecycle LifecycleWorker OperationsInv OperationsFrame OperationsSteps OperationsWorkers OperationsBarrier OperationsReach TransitionFacts LifecycleEffect LifecycleSafety OperationsSafety DispatchProgress.
#[local] Open Scope Z_scope.

(** ** The worker

    One iteration of [RunTransitions]: what everybody else did to the tables since
    the last one, and what the dispatch of the chosen operation does to them. *)
Record Pass := mkPass { ps_others : DB -> DB; ps_dispatch : string -> DB -> DB * result OpError Transition }.

(** The passes in turn: the tables each one chooses from, and its choice. *)
Fixpoint RunTransitions {U : UuidLib} (station : string) (passes : list Pass) (cursor : string) (db : DB) : list (DB * string) :=
  match passes with
  | [] => []
  | p :: rest =>
      let d := ps_others p db in
      let '(db', next, _) := DispatchNextTransition station cursor (ps_dispatch p) d in
      (d, next) :: RunTransitions station rest next db'
  end.

#[local] Open Scope list_scope.

(** ** The choice *)
Section Choice.
Variable ids : list string.
Hypothesis sorted : StronglySorted (fun a b => str_ltb a b = true) ids.

Definition after_cursor (cursor y : string) : bool := (cursor =? "")%string || str_ltb cursor y.
Lemma after_cursor_spec cursor y : cursor = "" \/ str_ltb cursor y = true <-> after_cursor cursor y = true.
Proof. unfold after_cursor. by rewrite orb_true_iff, String.eqb_eq. Qed.

Lemma sorted_head {A} (R : A -> A -> Prop) x l : StronglySorted R (x :: l) -> forall y, y ∈ x :: l -> y = x \/ R x y.
Proof.
  intros [_ Hx]%StronglySorted_inv y [-> | Hy]%elem_of_cons; [by left | right]. rewrite Forall_forall in Hx. by apply Hx.
Qed.
Lemma sorted_filter {A} (R : A -> A -> Prop) (P : A -> Prop) `{forall x, Decision (P x)} l : StronglySorted R l -> StronglySorted R (filter P l).
Proof.
  induction 1 as [| x l Hs IH Hx]; [constructor |]. rewrite filter_cons. case_decide; [| done]. constructor; [done |].
  rewrite Forall_forall in *. intros y [_ Hy]%list_elem_of_filter. by apply Hx.
Qed.
(** The choice is the least candidate after the cursor, or the least of all when
    there is none. *)
Lemma next_id_least cursor x : next_id ids cursor = Some x ->
  x ∈ ids /\ ((after_cursor cursor x = true /\ forall y, y ∈ ids -> after_cursor cursor y = true -> y = x \/ str_ltb x y = true)
             \/ ((forall y, y ∈ ids -> after_cursor cursor y = false) /\ forall y, y ∈ ids -> y = x \/ str_ltb x y = true)).
Proof.
  unfold next_id. set (P := fun id => cursor = "" \/ str_ltb cursor id = true).
  pose proof (sorted_filter _ P _ sorted) as Hf. destruct (filter P ids) as [| z l] eqn:E.
  - intros Hh. destruct ids as [| z l]; [done |]. injection Hh as ->. split; [by left |]. right. split.
    + intros y Hy. apply not_true_iff_false. intros Ha%after_cursor_spec. apply (elem_of_nil y). rewrite <- E. by apply list_elem_of_filter.
    + by apply (sorted_head _ _ _ sorted).
  - intros [= ->]. assert (x ∈ filter P ids) as [Hx Hin]%list_elem_of_filter by (rewrite E; left).
    split; [done |]. left. split; [by apply after_cursor_spec |]. intros y Hy Ha. apply (sorted_head _ _ _ Hf). rewrite <- E.
    apply list_elem_of_filter. split; [by apply after_cursor_spec | done].
Qed.
End Choice.
Lemma next_id_some ids cursor op : op ∈ ids -> is_Some (next_id ids cursor).
Proof. intros Hop. unfold next_id. destruct (filter _ ids); [| by eexists]. destruct ids; [by apply elem_of_nil in Hop | by eexists]. Qed.

(** ** The way to an operation

    The candidates between the cursor and [op], in the order of the passes: those
    after the cursor, up to [op] or to the end, and then those before [op]. *)
Definition between (cursor op y : string) : bool :=
  if after_cursor cursor op then after_cursor cursor y && str_ltb y op
  else str_ltb cursor y || str_ltb y op.
Definition way (all : gset string) (cursor op : string) : gset string := filter (fun y => between cursor op y = true) all.

Lemma way_shrinks all cursor op x ids : StronglySorted (fun a b => str_ltb a b = true) ids ->
  (forall y, y ∈ ids -> y <> "") -> next_id ids cursor = Some x -> op ∈ ids -> x <> op -> x ∈ all -> way all x op ⊂ way all cursor op.
Proof.
  intros Hs Hnamed Hx Hop Hne Hall. destruct (next_id_least ids Hs cursor x Hx) as [Hin Hleast].
  assert (after_cursor x op = str_ltb x op /\ forall y, after_cursor x y = str_ltb x y) as [Hxop Hxy].
  { unfold after_cursor. apply Hnamed, String.eqb_neq in Hin. rewrite Hin. done. }
  assert (between x op x = false) as Hself.
  { unfold between. rewrite Hxop, Hxy, str_ltb_irrefl. by destruct (str_ltb x op). }
  assert (between cursor op x = true /\ forall y, between x op y = true -> between cursor op y = true) as [Hbx Hby].
  { unfold between. rewrite Hxop. destruct Hleast as [[Ha Hl] | [Ha Hl]].
    - (* after the cursor *)
      destruct (after_cursor cursor op) eqn:Eop.
      + destruct (Hl op Hop Eop) as [? | Hlt]; [done |]. rewrite Hlt, Ha. split; [done |]. intros y [Hy ->]%andb_true_iff.
        rewrite Hxy in Hy. rewrite andb_true_r. unfold after_cursor in *. apply orb_true_iff in Ha as [-> | Ha]; [done |].
        apply orb_true_iff. right. by eapply str_ltb_trans.
      + assert (str_ltb cursor x = true) as Hcx.
        { unfold after_cursor in Ha, Eop. apply orb_false_iff in Eop as [Ec _]. by rewrite Ec in Ha. }
        assert (str_ltb x op = false) as ->.
        { apply not_true_iff_false. intros Hlt. unfold after_cursor in Eop. apply orb_false_iff in Eop as [_ Eop].
          by rewrite (str_ltb_trans _ _ _ Hcx Hlt) in Eop. }
        rewrite Hcx. split; [done |]. intros y [Hy | ->]%orb_true_iff; [| apply orb_true_r].
        by rewrite (str_ltb_trans _ _ _ Hcx Hy).
    - (* round the end *)
      rewrite (Ha op Hop). destruct (Hl op Hop) as [? | Hlt]; [done |]. rewrite Hlt. split; [apply orb_true_r |].
      intros y [_ ->]%andb_true_iff. apply orb_true_r. }
  unfold way. split.
  - intros y [Hy Hm]%elem_of_filter. apply elem_of_filter. auto.
  - intros Hsub. assert (x ∈ filter (fun y => between x op y = true) all) as [Hb _]%elem_of_filter.
    { apply Hsub, elem_of_filter. by split. }
    congruence.
Qed.
Lemma way_size all cursor op : op ∈ all -> (size (way all cursor op) < size all)%nat.
Proof.
  intros Hop. apply subset_size. unfold way. split; [by intros y [_ ?]%elem_of_filter |].
  intros Hsub. specialize (Hsub op Hop). apply elem_of_filter in Hsub as [Hb _]. unfold between in Hb.
  destruct (after_cursor cursor op) eqn:E; rewrite str_ltb_irrefl in Hb; [by rewrite andb_false_r in Hb |].
  rewrite orb_false_r in Hb. unfold after_cursor in E. by rewrite Hb, orb_true_r in E.
Qed.

(** The candidates are sorted and distinct. *)
Lemma sorted_strictly l : NoDup l -> StronglySorted str_le l -> StronglySorted (fun a b => str_ltb a b = true) l.
Proof.
  induction l as [| x l IH]; intros Hnd Hs; [constructor |].
  apply NoDup_cons in Hnd as [Hx Hnd]. apply StronglySorted_inv in Hs as [Hs Hle]. constructor; [auto |].
  rewrite Forall_forall in *. intros y Hy. specialize (Hle y Hy). unfold str_le in Hle.
  destruct (str_ltb x y) eqn:E; [done |]. pose proof (str_ltb_total _ _ E Hle). congruence.
Qed.

Section Fair.
Context {U : UuidLib}.
Variable station : string.

(** The unfinished transitions are distinct: the identifier is the primary key. *)
Lemma active_ids_distinct db : db_wf db -> NoDup (active_ids station db).
Proof.
  intros Hwf. unfold active_ids, sort_strings. rewrite sort_by_perm.
  set (l := map_to_list (app_installation_transitions db)).
  assert (Hk : (fun r => t_OperationID (tr_T r)) <$> (snd <$> l) = fst <$> l).
  { rewrite <- list_fmap_compose. apply list_fmap_ext. intros i [k r] Hi. simpl.
    apply list_elem_of_lookup_2, elem_of_map_to_list in Hi. by destruct (db_trs db Hwf k r Hi). }
  assert (Hnd : NoDup ((fun r => t_OperationID (tr_T r)) <$> (snd <$> l))).
  { rewrite Hk. apply NoDup_fst_map_to_list. }
  eapply sublist_NoDup; [exact Hnd |]. apply fmap_sublist, sublist_filter.
Qed.

(** Enough passes dispatch an operation that stays unfinished. *)
Lemma passes_reach all op passes : uuid_parse "" = None -> canonicalInstallation station = true -> op ∈ all ->
  (forall y, y ∈ all -> canonicalInstallation y = true) ->
  forall cursor db, cursor = "" \/ canonicalInstallation cursor = true ->
  Forall (fun d => NoDup (active_ids station d) /\ (forall y, y ∈ active_ids station d -> y ∈ all) /\ op ∈ active_ids station d)
    (RunTransitions station passes cursor db).*1 ->
  (size (way all cursor op) < length passes)%nat ->
  op ∈ (RunTransitions station passes cursor db).*2.
Proof.
  intros Hempty Hstn Hopall Hcan. induction passes as [| p passes IH]; intros cursor db Hcur; simpl; [lia |].
  unfold DispatchNextTransition at 1 2. rewrite Hstn.
  assert (negb (cursor =? "")%string && negb (canonicalInstallation cursor) = false) as -> by (destruct Hcur as [-> | ->]; [done | by rewrite andb_false_r]).
  simpl. set (d := ps_others p db). destruct (next_id (active_ids station d) cursor) as [x |] eqn:Ex.
  - destruct (ps_dispatch p x d) as [db' res]. simpl. intros [(Hnd & Hsub & Hop) Hrest]%Forall_cons Hlen.
    assert (Hs : StronglySorted (fun a b => str_ltb a b = true) (active_ids station d))
      by (apply sorted_strictly; [done | apply (sort_by_sorted (fun s => s))]).
    assert (Hnamed : forall y, y ∈ active_ids station d -> y <> "").
    { intros y Hy ->. specialize (Hcan "" (Hsub _ Hy)). unfold canonicalInstallation in Hcan. by rewrite Hempty in Hcan. }
    destruct (decide (x = op)) as [-> | Hne]; [left | right].
    destruct (next_id_least _ Hs _ _ Ex) as [Hin _].
    apply IH; [right; auto | done |].
    pose proof (subset_size _ _ (way_shrinks all cursor op x _ Hs Hnamed Ex Hop Hne (Hsub _ Hin))). lia.
  - simpl. intros [(_ & _ & Hop) _]%Forall_cons _. destruct (next_id_some (active_ids station d) cursor op Hop) as [? E]. congruence.
Qed.

End Fair.

(** ** A concrete station for the operations

    One administrator installs an app, upgrades it through a version transition and
    drives the transition to its end: the hypotheses of the operations' theorems
    hold on the worlds this passes through. *)

Module OperationsSample.
Import CanonicalUuid.
#[export] Existing Instance CanonicalUuid.lib.

Definition station : string := "11111111-1111-7111-8111-111111111111".
Definition org : string := "22222222-2222-7222-8222-222222222222".
Definition inst : string := "33333333-3333-7333-8333-333333333333".
Definition op1 : string := "44444444-4444-7444-8444-444444444444".
Definition op2 : string := "55555555-5555-7555-8555-555555555555".
Definition op3 : string := "66666666-6666-7666-8666-666666666666".
Definition actor : IdentityContext :=
  mkActor station "session" "user" org ["admin"] ["app:read"; "app:manage"].
Definition digest_of (c : string) : string :=
  "sha256:" +:+ c +:+ "123456789abcdef0123456789abcdef0123456789abcdef0123456789abcdef".
Definition snapshot (version c : string) : TransitionSnapshot :=
  mkSnapshot "world" version ("world-v" +:+ version) (digest_of c) (digest_of "a") (digest_of "b")
    (digest_of "c") "" "" (Some []) "dashboard-release" (digest_of "d").
Definition source : TransitionSnapshot := snapshot "0.1.4" "1".
Definition target : TransitionSnapshot := snapshot "0.1.5" "2".

Definition install : Command :=
  mkCommand "" "request-1" "install-key" org station "world" "0.1.4" "install".
Definition env : SubmitEnv :=
  mkSubmitEnv station (Some (fun app => if (app =? "world")%string then Some "0.1.4"%string else None)) None
    (fun _ _ => true) inst op1 100.
Definition finished : RuntimeClient := fun _ => inl (Some (mkAppProgress op1 "succeeded" "completed" 0 None "" "")).
Definition upgrade : TransitionCommand :=
  mkTransitionCommand "request-2" "upgrade-key" inst 3 "0.1.4" "world-v0.1.5" "upgrade".
Definition reader : TransitionReader := fun _ _ _ => Ok (source, target).

(** The worlds, each one step from the one before; they are stored evaluated. *)
Definition w0 : world := mkWorld empty_db [] [].
Definition w1_of (w : world) : world := with_db (fst (submit env None actor install None None None (w_db w))) w.
Definition w1 : world := Eval vm_compute in w1_of w0.
Definition w2_of (w : world) : world :=
  with_db (fst (DispatchOne station (fun _ => true) (fun _ => true) true finished None 200 (w_db w))) w.
Definition w2 : world := Eval vm_compute in w2_of w1.
Definition w3_of (w : world) : world :=
  with_db (fst (SubmitTransition station None actor upgrade (Some reader) None op2 300 (w_db w))) w.
Definition w3 : world := Eval vm_compute in w3_of w2.

Definition no_snapshot : TransitionSnapshot := mkSnapshot "" "" "" "" "" "" "" "" "" None "" "".
Definition no_dispatch : dispatchTransition :=
  mkDispatch (mkTransition "" "" "" "" 0 no_snapshot no_snapshot "" "" 0 0) "" ""
    (mkInstallation "" "" "" "" "" "" 0 "" 0 0).
Definition read (w : world) : dispatchTransition :=
  match readDispatchTransition (w_db w) station op2 with Ok r => r | Err _ => no_dispatch end.
Definition reading (w : world) : world := mkWorld (w_db w) (read w :: w_prior w) (w_accepted w).
Definition committing (w : world) (barrier : string * string * string) : world :=
  let '(status, phase, version) := barrier in
  with_db (fst (commitTransition station None (read w) status phase version 400 (w_db (reading w)))) (reading w).

Definition w4 : world := Eval vm_compute in committing w3 ("running", "checking", "").
Definition w5 : world := Eval vm_compute in committing w4 ("running", "publishing", "").
Definition w6 : world := Eval vm_compute in committing w5 ("running", "releasing", "0.1.5").
Definition w7 : world := Eval vm_compute in committing w6 ("succeeded", "completed", "").

(** A second app is being installed meanwhile. *)
Definition env2 : SubmitEnv :=
  mkSubmitEnv station (Some (fun _ => Some "1.0.0"%string)) None (fun _ _ => true) "77777777-7777-7777-8777-777777777777" op3 350.
Definition install2 : Command :=
  mkCommand "" "request-3" "install-maps" org station "maps" "1.0.0" "install".
Definition w3b_of (w : world) : world :=
  with_db (fst (submit env2 None actor install2 None None None (w_db w))) w.
Definition w3b : world := Eval vm_compute in w3b_of w3.
Definition w1b_of (w : world) : world :=
  with_db (fst (submit env2 None actor install2 None None None (w_db w))) w.
Definition w1b : world := Eval vm_compute in w1b_of w1.
Definition offline (now : Time) (w : world) : DB * result OpError bool :=
  DispatchOne station (fun _ => true) (fun _ => true) true (fun _ => inr OtherCode) None now (w_db w).

(** The upgrade is rolled back. *)
Definition op4 : string := "88888888-8888-7888-8888-888888888888".
Definition rollback : TransitionCommand :=
  mkTransitionCommand "request-4" "rollback-key" inst 4 "0.1.5" "world-v0.1.4" "rollback".
Definition w8_of (w : world) : world :=
  with_db (fst (SubmitTransition station None actor rollback (Some (fun _ _ _ => Ok (target, source))) None op4 500
    (w_db w))) w.
Definition w8 : world := Eval vm_compute in w8_of w7.

(** The second app is installed and upgraded too, before the first upgrade ends. *)
Definition inst2 : string := "77777777-7777-7777-8777-777777777777".
Definition op5 : string := "99999999-9999-7999-8999-999999999999".
Definition maps_snapshot (version c : string) : TransitionSnapshot :=
  mkSnapshot "maps" version ("maps-v" +:+ version) (digest_of c) (digest_of "a") (digest_of "b")
    (digest_of "c") "" "" (Some []) "dashboard-release" (digest_of "d").
Definition finished3 : RuntimeClient := fun _ => inl (Some (mkAppProgress op3 "succeeded" "completed" 0 None "" "")).
Definition upgrade2 : TransitionCommand :=
  mkTransitionCommand "request-5" "upgrade-maps" inst2 3 "1.0.0" "maps-v1.1.0" "upgrade".
Definition accepting (db : DB) : DB :=
  let db := fst (submit env2 None actor install2 None None None db) in
  let db := fst (DispatchOne station (fun _ => true) (fun _ => true) true finished3 None 360 db) in
  fst (SubmitTransition station None actor upgrade2 (Some (fun _ _ _ => Ok (maps_snapshot "1.0.0" "3", maps_snapshot "1.1.0" "4"))) None op5 370 db).
Definition both : DB := Eval vm_compute in accepting (w_db w6).
Definition pass_at (now : Time) : Pass :=
  mkPass (fun db => db) (fun id db => DispatchTransition station true id (Some obliging) "a" (fun d => d) None now db).
Definition two_passes : list Pass := [pass_at 410; pass_at 420].
Definition one : DB := Eval vm_compute in fst (ps_dispatch (pass_at 410) op2 both).

Definition no_row : TransitionRow := mkTransitionRow (d_T no_dispatch) "" "" "" "" "" [] "" "".
Definition row_of (id : string) (w : world) : TransitionRow :=
  default no_row (app_installation_transitions (w_db w) !! id).
Definition no_operation : OperationRow :=
  mkOperation "" "" "" "" "" "" "" "" "" "" 0 None None None "" [] "" None 0.
Definition operation_of (id : string) (w : world) : OperationRow :=
  default no_operation (app_operations (w_db w) !! id).
End OperationsSample.
Import OperationsSample.

Lemma commit_is_step w status phase version :
  readDispatchTransition (w_db w) station op2 = Ok (read w) -> barrier_of (read w) status phase version ->
  rtc (ostep station) w (committing w (status, phase, version)).
Proof.
  intros Hr Hb. eapply rtc_l; [by apply (os_read station w op2 (read w)) |]. apply rtc_once.
  apply (os_barrier station (reading w) (read w) None status phase version 400); [left | done].
Qed.

Lemma step01 : ostep station w0 w1.
Proof.
  assert (w1 = w1_of w0) as -> by (vm_compute; reflexivity).
  by apply (os_lifecycle station w0 env None actor install None None None).
Qed.
Lemma step12 : ostep station w1 w2.
Proof.
  assert (w2 = w2_of w1) as -> by (vm_compute; reflexivity).
  apply (os_worker station w1 (fun _ => true) (fun _ => true) true finished None 200).
Qed.
Lemma step23 : ostep station w2 w3.
Proof.
  assert (w3 = w3_of w2) as -> by (vm_compute; reflexivity).
  apply (os_accept station w2 None actor upgrade (Some reader) None op2 300).
Qed.
Lemma reach3 : world_reachable station w3.
Proof. eapply rtc_l; [apply step01 |]. eapply rtc_l; [apply step12 |]. apply rtc_once, step23. Qed.

Lemma w4_step : w4 = committing w3 ("running", "checking", "").
Proof. vm_compute. reflexivity. Qed.
Lemma w5_step : w5 = committing w4 ("running", "publishing", "").
Proof. vm_compute. reflexivity. Qed.
Lemma w6_step : w6 = committing w5 ("running", "releasing", "0.1.5").
Proof. vm_compute. reflexivity. Qed.
Lemma w7_step : w7 = committing w6 ("succeeded", "completed", "").
Proof. vm_compute. reflexivity. Qed.

Lemma steps36 : rtc (ostep station) w3 w6.
Proof.
  etrans; [| etrans].
  - apply (commit_is_step w3 "running" "checking" ""); [vm_compute; reflexivity |].
    apply (barrier_direct _ false). vm_compute. reflexivity.
  - rewrite <- w4_step. apply (commit_is_step w4 "running" "publishing" ""); [vm_compute; reflexivity |].
    apply (barrier_reported _ false "prepare" "prepared"); vm_compute; reflexivity.
  - rewrite <- w5_step, w6_step.
    apply (commit_is_step w5 "running" "releasing" "0.1.5"); [vm_compute; reflexivity |].
    apply (barrier_reported _ false "prepare" "prepared"); vm_compute; reflexivity.
Qed.

Lemma released_barrier : barrier_of (read w6) "succeeded" "completed" "".
Proof. apply (barrier_reported _ false "release_target" "released"); vm_compute; reflexivity. Qed.

(** The last step: the completing barrier, after its read. *)
Lemma read6 : rtc (ostep station) w6 (reading w6).
Proof. apply rtc_once, (os_read station w6 op2 (read w6)). vm_compute. reflexivity. Qed.

Lemma step67 : ostep station (reading w6) w7.
Proof.
  rewrite w7_step.
  apply (os_barrier station (reading w6) (read w6) None "succeeded" "completed" "" 400); [left | apply released_barrier].
Qed.

Lemma reach6 : world_reachable station (reading w6).
Proof. unfold world_reachable. etrans; [apply reach3 |]. etrans; [apply steps36 | apply read6]. Qed.

Lemma step3b : ostep station w3 w3b.
Proof.
  assert (w3b = w3b_of w3) as -> by (vm_compute; reflexivity).
  by apply (os_lifecycle station w3 env2 None actor install2 None None None).
Qed.
Lemma reach3b : world_reachable station w3b.
Proof. eapply rtc_r; [apply reach3 | apply step3b]. Qed.

Lemma step1b : ostep station w1 w1b.
Proof.
  assert (w1b = w1b_of w1) as -> by (vm_compute; reflexivity).
  by apply (os_lifecycle station w1 env2 None actor install2 None None None).
Qed.
Lemma reach1b : world_reachable station w1b.
Proof. eapply rtc_l; [apply step01 |]. apply rtc_once, step1b. Qed.

Lemma step78 : ostep station w7 w8.
Proof.
  assert (w8 = w8_of w7) as -> by (vm_compute; reflexivity).
  apply (os_accept station w7 None actor rollback (Some (fun _ _ _ => Ok (target, source))) None op4 500).
Qed.
Lemma reach8 : world_reachable station w8.
Proof. eapply rtc_r; [eapply rtc_r; [apply reach6 | apply step67] | apply step78]. Qed.

Lemma both_active : active_ids station both = [op2; op5].
Proof. vm_compute. reflexivity. Qed.
Lemma one_active : active_ids station one = [op5].
Proof. vm_compute. reflexivity. Qed.
Lemma two_runs : RunTransitions station two_passes "" both = [(both, op2); (one, op5)].
Proof. vm_compute. reflexivity. Qed.

(** ** Witnesses *)

Lemma lifecycle_excludes_transition_witness :
  o_AppID (operation_of op3 w3b) <> tr_AppID (row_of op2 w3b).
Proof.
  apply (lifecycle_excludes_transition station w3b op3 op2).
  - apply reach3b.
  - vm_compute. reflexivity.
  - vm_compute. reflexivity.
  - vm_compute. reflexivity.
  - vm_compute. reflexivity.
  - vm_compute. reflexivity.
Defined.

Lemma transition_tracks_installation_witness :
  (exists i, app_installations (w_db (reading w6)) !! t_InstallationID (tr_T (row_of op2 w6)) = Some i /\ placed i (tr_T (row_of op2 w6))) /\
  (forall l r', app_installation_transitions (w_db (reading w6)) !! l = Some r' ->
     terminal (t_Status (tr_T r')) = false -> t_InstallationID (tr_T r') = t_InstallationID (tr_T (row_of op2 w6)) -> l = op2).
Proof.
  apply (transition_tracks_installation station (reading w6) op2 (row_of op2 w6)).
  - apply reach6.
  - vm_compute. reflexivity.
  - vm_compute. reflexivity.
Defined.

Lemma accepted_transition_is_immutable_witness : exists r',
  app_installation_transitions (w_db w7) !! op2 = Some r' /\ same_input (tr_T (row_of op2 w3)) (tr_T r') /\
  (terminal (t_Status (tr_T (row_of op2 w3))) = true -> r' = row_of op2 w3).
Proof.
  apply (accepted_transition_is_immutable station w3 w7).
  - apply reach3.
  - eapply rtc_r; [etrans; [apply steps36 | apply read6] | apply step67].
  - vm_compute. reflexivity.
Defined.

Lemma release_reference_is_pinned_witness :
  t_Target (tr_T (row_of op2 w8)) = t_Source (tr_T (row_of op4 w8)).
Proof.
  apply (release_reference_is_pinned station w8 op2 op4 (row_of op2 w8) (row_of op4 w8)).
  - apply reach8.
  - vm_compute. reflexivity.
  - vm_compute. reflexivity.
  - unfold snapshots_of. right. left.
  - unfold snapshots_of. left.
  - vm_compute. reflexivity.
Defined.

Lemma no_swap_after_release_witness :
  app_installations (w_db w7) !! t_InstallationID (tr_T (row_of op2 w6)) = app_installations (w_db (reading w6)) !! t_InstallationID (tr_T (row_of op2 w6)) /\
  exists r', app_installation_transitions (w_db w7) !! op2 = Some r' /\
    (t_Phase (tr_T r') = "releasing" \/ t_Phase (tr_T r') = "completed").
Proof.
  apply (no_swap_after_release station (reading w6) w7 op2 (row_of op2 w6)).
  - apply reach6.
  - apply step67.
  - vm_compute. reflexivity.
  - vm_compute. reflexivity.
Defined.

Lemma completion_matches_installation_witness : exists i,
  app_installations (w_db w7) !! t_InstallationID (tr_T (row_of op2 w6)) = Some i /\ i_State i = "installed" /\
  t_Phase (tr_T (row_of op2 w7)) = "completed" /\
  ((t_Status (tr_T (row_of op2 w7)) = "succeeded" /\ at_target i (tr_T (row_of op2 w6))) \/
   (t_Status (tr_T (row_of op2 w7)) = "failed" /\
     (at_original i (tr_T (row_of op2 w6)) \/
      exists l f, forward_recoveries (w_db w7) !! l = Some f /\ f_OperationID (fr_F f) = op2 /\
        f_State (fr_F f) = "succeeded" /\ i_AppVersion i = s_AppVersion (f_Target (fr_F f)) /\
        i_Revision i = t_ExpectedRevision (tr_T (row_of op2 w6)) + 1))).
Proof.
  apply (completion_matches_installation station (reading w6) w7 op2 (row_of op2 w6) (row_of op2 w7)).
  - apply reach6.
  - apply step67.
  - vm_compute. reflexivity.
  - vm_compute. reflexivity.
  - vm_compute. reflexivity.
  - vm_compute. reflexivity.
Defined.

Lemma worker_pass_refines_steps_witness : exists w', rtc (ostep station) w3 w' /\
  w_db w' = fst (fst (DispatchNextTransition station ""
    (fun op db => DispatchTransition station true op (Some obliging) "n" (fun d => d) None 400 db) (w_db w3))).
Proof.
  apply (worker_pass_refines_steps station w3 "" true (Some obliging) "n" (fun d => d) None 400).
  exists w3. split; [constructor | reflexivity].
Defined.

Lemma cooperative_runtime_completes_witness : exists row,
  app_installation_transitions (drive station op2 [("a", 1); ("b", 2); ("c", 3); ("d", 4)] (w_db w3)) !! op2 = Some row /\
  terminal (t_Status (tr_T row)) = true /\ t_Phase (tr_T row) = "completed" /\ same_input (d_T (read w3)) (tr_T row).
Proof.
  apply (cooperative_runtime_completes station w3 op2 (read w3)).
  - apply reach3.
  - vm_compute. reflexivity.
  - vm_compute. reflexivity.
  - vm_compute. reflexivity.
  - vm_compute. reflexivity.
  - vm_compute. reflexivity.
  - simpl. lia.
Defined.



Lemma acceptance_is_idempotent_witness :
  SubmitTransition station None actor (mkTransitionCommand "retry" "upgrade-key" inst 3 "0.1.4" "world-v0.1.5" "upgrade")
    None None "" 999 (w_db w3) =
  (w_db w3, if bool_decide (transitionHash (mkTransitionCommand "retry" "upgrade-key" inst 3 "0.1.4" "world-v0.1.5" "upgrade")
                            = transitionHash upgrade)
            then Ok (tr_T (row_of op2 w3)) else Err Conflict).
Proof.
  apply (acceptance_is_idempotent station None actor upgrade (Some reader) None op2 300 (w_db w2)).
  - vm_compute. reflexivity.
  - vm_compute. reflexivity.
  - reflexivity.
Defined.


Lemma installation_revision_is_version_witness : exists i', app_installations (w_db w7) !! inst = Some i' /\
  same_identity (d_Installed (read w3)) i' /\ i_Revision (d_Installed (read w3)) <= i_Revision i' /\
  (i_Revision i' = i_Revision (d_Installed (read w3)) -> i' = d_Installed (read w3)).
Proof.
  apply (installation_revision_is_version station w3 w7 inst).
  - apply reach3.
  - eapply rtc_r; [etrans; [apply steps36 | apply read6] | apply step67].
  - vm_compute. reflexivity.
Defined.

Lemma finished_operation_is_final_witness : exists o', app_operations (w_db w7) !! op1 = Some o' /\
  same_request (operation_of op1 w3) o' /\ (op_active (operation_of op1 w3) = false -> o' = operation_of op1 w3).
Proof.
  apply (finished_operation_is_final station w3 w7 op1).
  - apply reach3.
  - eapply rtc_r; [etrans; [apply steps36 | apply read6] | apply step67].
  - vm_compute. reflexivity.
Defined.

Lemma one_unfinished_operation_per_app_witness : op3 = op3.
Proof.
  apply (one_unfinished_operation_per_app station w3b op3 op3 (operation_of op3 w3b) (operation_of op3 w3b)).
  - apply reach3b.
  - vm_compute. reflexivity.
  - vm_compute. reflexivity.
  - vm_compute. reflexivity.
  - vm_compute. reflexivity.
  - reflexivity.
  - reflexivity.
Defined.

Lemma lifecycle_acceptance_is_idempotent_witness :
  submit env None actor (with_request_id "retry" install) None None None (w_db w1) =
    (w_db w1, Ok (view_operation (new_operation env actor install None None))).
Proof.
  apply (lifecycle_acceptance_is_idempotent env None actor install None None None (w_db w0)).
  - vm_compute. reflexivity.
  - reflexivity.
  - vm_compute. split; discriminate.
Defined.

Lemma offline_runtime_does_not_starve_witness : exists y,
  next_operation station (fun _ => true) (fst (offline 400 w1b)) = Some y /\ o_OperationID y <> op1.
Proof.
  apply (offline_runtime_does_not_starve station w1b (fun _ => true) (fun _ => true) true 400 (fst (offline 400 w1b))
    (ErrExternal "pending") (operation_of op1 w1b) op3 (operation_of op3 w1b)).
  - apply reach1b.
  - vm_compute. reflexivity.
  - vm_compute. reflexivity.
  - repeat split; vm_compute; reflexivity.
  - vm_compute. discriminate.
  - vm_compute. reflexivity.
  - vm_compute. reflexivity.
  - left.
Defined.

Lemma unusable_answer_blocks_queue_witness :
  passes station (fun _ => true) (fun _ => true) true (fun _ => inl None) None [400; 500; 600] (w_db w1b) = w_db w1b /\
  (forall now, exists text, DispatchOne station (fun _ => true) (fun _ => true) true (fun _ => inl None) None now (w_db w1b) =
     (w_db w1b, Err (ErrPlain text))).
Proof.
  apply (unusable_answer_blocks_queue station (fun _ => true) (fun _ => true) true (fun _ => inl None) None [400; 500; 600]
    (w_db w1b) (operation_of op1 w1b)).
  - vm_compute. reflexivity.
  - split; [vm_compute; reflexivity |]. left. reflexivity.
Defined.
