(* ===== verification/Identity.v ===== *)
(** * Identity: users, sessions and credentials

    internal/identity/service.go, mcp_token.go and delegation.go over the tables of
    migrations/0001, 0002 and 0006. Every call is one transaction: its row locks
    make it atomic, so it is a function of the tables. A denial also commits (its
    audit record), so a body returns the answer together with the new tables, and
    only an error of the server or of a constraint rolls back. Drawn identifiers,
    drawn token bytes and the clock are arguments; bcrypt is a parameter. *)
From S2P Require Import Prelude GoStd Sha256 GoJson Uuid.
From Stdlib Require Import Ascii.

(** golang.org/x/crypto/bcrypt: the hash of a password (with a drawn salt) and the
    comparison of a stored hash with a password. *)
Class BcryptLib := {
  bcrypt_generate : string -> string -> option string;    (** salt, password *)
  bcrypt_compare : string -> string -> bool }.             (** hash, password *)
(** Documented behaviour: a hash accepts the password it was generated from. *)
Class BcryptLaws (B : BcryptLib) :=
  bcrypt_accepts : forall salt p h, bcrypt_generate salt p = Some h -> bcrypt_compare h p = true.

(** ** Faults *)
Inductive Fault : Type :=
| Invalid | Unauthenticated | Revoked | Denied | Locked | Conflict
| ServerError.     (** any other error: the statement or the connection failed *)
#[export] Instance Fault_eq : EqDecision Fault.
Proof. solve_decision. Defined.

(** ** Patterns *)
Module IdentityPatterns.
Import Regexp.
(** [^[a-zA-Z0-9][a-zA-Z0-9_.@-]{2,63}$] *)
Definition username : re :=
  Cat (Class alnum) (between 2 63 (Class (fun c => alnum c || one_of "_.@-" c))).
Definition bearer_byte (c : ascii) : bool := alnum c || one_of "._~+/-" c.
(** [^[A-Za-z0-9._~+/-]{32,512}={0,2}$] *)
Definition bearer : re := Cat (between 32 512 (Class bearer_byte)) (upto 2 (lit "=")).
End IdentityPatterns.

Definition usernamePattern (s : string) : bool := Regexp.matches IdentityPatterns.username s.
Definition validBearerToken (token : string) : bool :=
  (len token <=? 512) && Regexp.matches IdentityPatterns.bearer token.

Definition adminScopes : list string :=
  ["identity:read"; "station:read"; "app:read"; "app:manage"; "model:read"; "model:manage"].

(** ** base64.RawURLEncoding *)
Definition url_alphabet : string := "ABCDEFGHIJKLMNOPQRSTUVWXYZabcdefghijklmnopqrstuvwxyz0123456789-_".
Definition url_char (n : Z) : ascii := default "A"%char (String.get (Z.to_nat n) url_alphabet).
Fixpoint raw_url (l : list Z) : string :=
  match l with
  | a :: b :: c :: rest =>
      String (url_char (Z.shiftr a 2)) (String (url_char (Z.lor (Z.shiftl (Z.land a 3) 4) (Z.shiftr b 4)))
        (String (url_char (Z.lor (Z.shiftl (Z.land b 15) 2) (Z.shiftr c 6))) (String (url_char (Z.land c 63)) (raw_url rest))))
  | [a; b] => String (url_char (Z.shiftr a 2)) (String (url_char (Z.lor (Z.shiftl (Z.land a 3) 4) (Z.shiftr b 4)))
        (String (url_char (Z.shiftl (Z.land b 15) 2)) ""))
  | [a] => String (url_char (Z.shiftr a 2)) (String (url_char (Z.shiftl (Z.land a 3) 4)) "")
  | [] => ""
  end.

Definition token_hash (token : string) : list Z := Sha256.sum (Sha256.bytes_of token).
(** [newToken] from the drawn bytes: the value and its stored hash. *)
Definition newToken (raw : list Z) : string * list Z := (raw_url raw, token_hash (raw_url raw)).

(** ** Tables *)

(** A timestamptz column keeps microseconds. *)
Definition stored (t : Time) : Time := t / 1000 * 1000.

Record UserRow := mkUser {
  us_Username : string; us_PasswordHash : string; us_Status : string; us_FailedLogins : Z;
  us_LockedUntil : option Time; us_RevocationVersion : Z }.
Record OrgRow := mkOrg { og_Name : string; og_Status : string; og_PolicyVersion : Z; og_CreatedAt : Time }.
Record MemberRow := mkMember { mb_Role : string; mb_Active : bool }.
Record SessionRow := mkSessionRow {
  se_UserID : string; se_OrganizationID : string; se_TokenHash : list Z; se_IssuedAt : Time;
  se_ExpiresAt : Time; se_RevocationVersion : Z; se_RevokedAt : option Time; se_Kind : string }.
Record AuditRow := mkAuditRow {
  au_RequestID : string; au_UserID : option string; au_OrganizationID : option string;
  au_SessionID : option string; au_Action : string; au_Outcome : string }.
#[export] Instance SessionRow_eq : EqDecision SessionRow.
Proof. solve_decision. Defined.

Record IdentityDB := mkIdentityDB {
  users : gmap string UserRow; organizations : gmap string OrgRow;
  memberships : gmap (string * string) MemberRow; sessions : gmap string SessionRow;
  audits : list AuditRow }.

Definition set_users x (db : IdentityDB) := mkIdentityDB x (organizations db) (memberships db) (sessions db) (audits db).
Definition set_organizations x (db : IdentityDB) := mkIdentityDB (users db) x (memberships db) (sessions db) (audits db).
Definition set_memberships x (db : IdentityDB) := mkIdentityDB (users db) (organizations db) x (sessions db) (audits db).
Definition set_sessions x (db : IdentityDB) := mkIdentityDB (users db) (organizations db) (memberships db) x (audits db).
Definition audit (requestID action outcome : string) (user org session : option string) (db : IdentityDB) : IdentityDB :=
  mkIdentityDB (users db) (organizations db) (memberships db) (sessions db)
    (audits db ++ [mkAuditRow requestID user org session action outcome]).

(** A transaction: [Err] rolls back; [Ok] commits the tables with the answer. *)
Definition Call (A : Type) := IdentityDB -> result Fault (result Fault A * IdentityDB).
Definition commit {A} (connected : bool) (body : Call A) (db : IdentityDB) : IdentityDB * result Fault A :=
  if negb connected then (db, Err ServerError)
  else match body db with
       | Ok (answer, db') => (db', answer)
       | Err e => (db, Err e)
       end.

(** ** Data of the API *)
Record LoginRequest := mkLogin { lr_Username : string; lr_Password : string; lr_OrganizationID : string }.
Record BootstrapRequest := mkBootstrap { br_Username : string; br_Password : string; br_OrganizationName : string }.
Record IdentityContext := mkContext {
  ic_RequestID : string; ic_StationID : string; ic_SessionID : string; ic_UserID : string;
  ic_Username : string; ic_OrganizationID : string; ic_OrganizationName : string;
  ic_Roles : list string; ic_Scopes : list string; ic_IssuedAt : Time; ic_ExpiresAt : Time;
  ic_RevocationVersion : Z; ic_PolicyVersion : Z }.
Record Session := mkSession { sn_Context : IdentityContext; sn_AccessToken : string }.
Record Service := mkService { sv_StationID : string; sv_SessionTTL : Time }.

Section Identity.
Context {U : UuidLib} {B : BcryptLib}.

Definition validLogin (username password org : string) : bool :=
  if negb (usernamePattern username) || (len password <? 1) || (72 <? len password) then false
  else (org =? "")%string || validUUIDv7 org.

(** ** Sessions *)

(** INSERT of a session: primary key, unique hash, the referenced membership, and
    the CHECKs. *)
Definition insert_session (id : string) (s : SessionRow) (db : IdentityDB) : result Fault IdentityDB :=
  if bool_decide (is_Some (sessions db !! id))
     || existsb (fun kv => bool_decide (se_TokenHash (snd kv) = se_TokenHash s)) (map_to_list (sessions db))
     || negb (bool_decide (is_Some (memberships db !! (se_UserID s, se_OrganizationID s))))
     || negb (se_IssuedAt s <? se_ExpiresAt s) || (se_RevocationVersion s <? 0)
  then Err ServerError
  else Ok (set_sessions (<[id := s]> (sessions db)) db).

Definition session (sv : Service) (requestID id : string) (raw : list Z) (now : Time)
    (userID username org orgName : string) (version policy : Z) (db : IdentityDB)
    : result Fault (Session * IdentityDB) :=
  let '(token, hash) := newToken raw in
  let c := mkContext requestID (sv_StationID sv) id userID username org orgName ["admin"] adminScopes
             now (now + sv_SessionTTL sv) version policy in
  db' ← insert_session id (mkSessionRow userID org hash (stored now) (stored (now + sv_SessionTTL sv)) version None "session") db;
  Ok (mkSession c token, db').

(** ** Bootstrap *)

Definition bootstrap_valid (r : BootstrapRequest) : bool :=
  validLogin (br_Username r) (br_Password r) "" && (12 <=? len (br_Password r))
  && negb (TrimSpace (br_OrganizationName r) =? "")%string && (rune_count (br_OrganizationName r) <=? 128).

Definition Bootstrap (sv : Service) (requestID salt user org id : string) (raw : list Z) (now : Time)
    (r : BootstrapRequest) (connected : bool) (db : IdentityDB) : IdentityDB * result Fault Session :=
  if negb (bootstrap_valid r) then (db, Err Invalid)
  else match bcrypt_generate salt (br_Password r) with
  | None => (db, Err ServerError)
  | Some hash =>
      commit connected (fun db =>
        if negb (bool_decide (users db = ∅)) then Err Conflict
        else
          let username := to_lower (br_Username r) in
          let orgName := TrimSpace (br_OrganizationName r) in
          if bool_decide (is_Some (organizations db !! org)) then Err ServerError
          else
            let db1 := set_users (<[user := mkUser username hash "active" 0 None 0]> (users db)) db in
            let db2 := set_organizations (<[org := mkOrg orgName "active" 1 (stored now)]> (organizations db1)) db1 in
            let db3 := set_memberships (<[(user, org) := mkMember "admin" true]> (memberships db2)) db2 in
            '(out, db4) ← session sv requestID id raw now user username org orgName 0 1 db3;
            Ok (Ok out, audit requestID "identity.bootstrap" "succeeded" (Some user) (Some org)
                          (Some (ic_SessionID (sn_Context out))) db4)) db
  end.

(** ** Login *)

Definition find_user (db : IdentityDB) (username : string) : option (string * UserRow) :=
  List.find (fun kv => (us_Username (snd kv) =? username)%string) (map_to_list (users db)).

Definition org_before (a b : string * OrgRow) : bool :=
  (og_CreatedAt (snd a) <? og_CreatedAt (snd b))
  || ((og_CreatedAt (snd a) =? og_CreatedAt (snd b)) && str_ltb (fst a) (fst b)).
Definition first_org (l : list (string * OrgRow)) : option (string * OrgRow) :=
  foldr (fun o best => match best with Some b => if org_before b o then Some b else Some o | None => Some o end) None l.

(** The active administrated organization of the request, the oldest by default. *)
Definition login_org (db : IdentityDB) (user org : string) : option (string * OrgRow) :=
  first_org (List.filter (fun o =>
    match memberships db !! (user, fst o) with
    | Some m => mb_Active m && (mb_Role m =? "admin")%string && (og_Status (snd o) =? "active")%string
                && ((org =? "")%string || (fst o =? org)%string)
    | None => false
    end) (map_to_list (organizations db))).

Definition set_login (user : string) (failed : Z) (until : option Time) (db : IdentityDB) : IdentityDB :=
  set_users (alter (fun u => mkUser (us_Username u) (us_PasswordHash u) (us_Status u) failed until
    (us_RevocationVersion u)) user (users db)) db.

Definition maxFailures : Z := 5.
Definition lockout : Time := 15 * minute.

(** [until.After(now)] of a nil-able instant. *)
Definition locked_at (until : option Time) (now : Time) : bool :=
  match until with Some t => time_after t now | None => false end.

Definition deny_login {A} (requestID user : string) (code : Fault) (db : IdentityDB)
    : result Fault (result Fault A * IdentityDB) :=
  Ok (Err code, audit requestID "identity.login" "denied" (Some user) None None db).

(** A wrong password: count it, and lock at the fifth. *)
Definition wrong_password (requestID user : string) (failed : Z) (now : Time) (db : IdentityDB)
    : result Fault (result Fault Session * IdentityDB) :=
  let n := failed + 1 in
  if maxFailures <=? n
  then deny_login requestID user Locked
         (set_login user n (Some (stored (now + lockout)))
           (audit requestID "identity.lock" "succeeded" (Some user) None None db))
  else deny_login requestID user Unauthenticated (set_login user n None db).

Definition login_body (sv : Service) (requestID id : string) (raw : list Z) (now : Time) (r : LoginRequest)
    : Call Session := fun db =>
  let username := to_lower (lr_Username r) in
  match find_user db username with
  | None => Ok (Err Unauthenticated, audit requestID "identity.login" "denied" None None None db)
  | Some (user, u) =>
      if negb (us_Status u =? "active")%string then deny_login requestID user Unauthenticated db
      else if locked_at (us_LockedUntil u) now then deny_login requestID user Locked db
      else
        let '(failed, db1) :=
          match us_LockedUntil u with
          | Some _ => (0, set_login user 0 None (audit requestID "identity.unlock" "succeeded" (Some user) None None db))
          | None => (us_FailedLogins u, db)
          end in
        if negb (bcrypt_compare (us_PasswordHash u) (lr_Password r)) then wrong_password requestID user failed now db1
        else match login_org db1 user (lr_OrganizationID r) with
        | None => deny_login requestID user Denied db1
        | Some (org, o) =>
            '(out, db2) ← session sv requestID id raw now user username org (og_Name o)
                            (us_RevocationVersion u) (og_PolicyVersion o) (set_login user 0 None db1);
            Ok (Ok out, audit requestID "identity.login" "succeeded" (Some user) (Some org)
                          (Some (ic_SessionID (sn_Context out))) db2)
        end
  end.

Definition Login (sv : Service) (requestID id : string) (raw : list Z) (now : Time) (r : LoginRequest)
    (connected : bool) (db : IdentityDB) : IdentityDB * result Fault Session :=
  if negb (validLogin (lr_Username r) (lr_Password r) (lr_OrganizationID r)) then (db, Err Invalid)
  else commit connected (login_body sv requestID id raw now r) db.

(** ** Authorization *)

(** The joined row of a session: the session, its user, organization and
    membership. *)
Record JoinedRow := mkJoined {
  jn_ID : string; jn_Session : SessionRow; jn_User : UserRow; jn_Org : OrgRow; jn_Member : MemberRow }.

Definition find_session (db : IdentityDB) (hash : list Z) : option (string * SessionRow) :=
  List.find (fun kv => bool_decide (se_TokenHash (snd kv) = hash)) (map_to_list (sessions db)).

Definition join_session (db : IdentityDB) (hash : list Z) : option JoinedRow :=
  '(id, s) ← find_session db hash;
  u ← users db !! se_UserID s;
  o ← organizations db !! se_OrganizationID s;
  m ← memberships db !! (se_UserID s, se_OrganizationID s);
  Some (mkJoined id s u o m).

(** The context of a joined row; [roles] and [scopes] are set after the checks. *)
Definition context_of (sv : Service) (requestID : string) (j : JoinedRow) (roles scopes : list string)
    (issued expires : Time) : IdentityContext :=
  mkContext requestID (sv_StationID sv) (jn_ID j) (se_UserID (jn_Session j)) (us_Username (jn_User j))
    (se_OrganizationID (jn_Session j)) (og_Name (jn_Org j)) roles scopes issued expires
    (se_RevocationVersion (jn_Session j)) (og_PolicyVersion (jn_Org j)).

(** The checks of every authorization, in the order of the code. *)
Definition session_fault (j : JoinedRow) (now : Time) : option Fault :=
  let s := jn_Session j in
  if bool_decide (is_Some (se_RevokedAt s)) || negb (se_RevocationVersion s =? us_RevocationVersion (jn_User j))
  then Some Revoked
  else if negb (time_after (se_ExpiresAt s) now) then Some Unauthenticated
  else if negb (us_Status (jn_User j) =? "active")%string || negb (og_Status (jn_Org j) =? "active")%string
          || negb (mb_Active (jn_Member j)) || negb (mb_Role (jn_Member j) =? "admin")%string then Some Denied
  else if locked_at (us_LockedUntil (jn_User j)) now then Some Locked
  else None.

Definition audit_joined (requestID action outcome : string) (j : JoinedRow) (db : IdentityDB) : IdentityDB :=
  audit requestID ("identity." +:+ action) outcome (Some (se_UserID (jn_Session j)))
    (Some (se_OrganizationID (jn_Session j))) (Some (jn_ID j)) db.

Definition refreshed (hash : list Z) (now expires : Time) (s : SessionRow) : SessionRow :=
  mkSessionRow (se_UserID s) (se_OrganizationID s) hash now expires (se_RevocationVersion s) (se_RevokedAt s) (se_Kind s).
Definition revoked_at (now : Time) (s : SessionRow) : SessionRow :=
  mkSessionRow (se_UserID s) (se_OrganizationID s) (se_TokenHash s) (se_IssuedAt s) (se_ExpiresAt s)
    (se_RevocationVersion s) (Some now) (se_Kind s).

(** UPDATE of a session's token, under the unique hash and the CHECK. *)
Definition rotate_session (id : string) (hash : list Z) (now expires : Time) (db : IdentityDB) : result Fault IdentityDB :=
  if existsb (fun kv => bool_decide (se_TokenHash (snd kv) = hash) && negb (fst kv =? id)%string)
       (map_to_list (sessions db)) || negb (now <? expires)
  then Err ServerError
  else Ok (set_sessions (alter (refreshed hash now expires) id (sessions db)) db).

Definition session_body (sv : Service) (requestID token action : string) (raw : list Z) (now : Time)
    : Call Session := fun db =>
  match join_session db (token_hash token) with
  | None => Err Unauthenticated
  | Some j =>
      let s := jn_Session j in
      let deny code := Ok (Err code, audit_joined requestID action "denied" j db) in
      let full := context_of sv requestID j ["admin"] adminScopes (se_IssuedAt s) (se_ExpiresAt s) in
      if bool_decide (is_Some (se_RevokedAt s)) && (action =? "logout")%string
      then Ok (Ok (mkSession (context_of sv requestID j [] [] (se_IssuedAt s) (se_ExpiresAt s)) ""), db)
      else match session_fault j now with
      | Some code => deny code
      | None =>
          if (action =? "refresh")%string then
            if (se_Kind s =? "mcp")%string then deny Denied
            else
              let '(value, hash) := newToken raw in
              let expires := now + sv_SessionTTL sv in
              db1 ← rotate_session (jn_ID j) hash (stored now) (stored expires) db;
              Ok (Ok (mkSession (context_of sv requestID j ["admin"] adminScopes now expires) value),
                  audit_joined requestID action "succeeded" j db1)
          else if (action =? "logout")%string then
            Ok (Ok (mkSession full ""),
                audit_joined requestID action "succeeded" j
                  (set_sessions (alter (revoked_at (stored now)) (jn_ID j) (sessions db)) db))
          else Ok (Ok (mkSession full ""), db)
      end
  end.

Definition withSession (sv : Service) (requestID token action : string) (raw : list Z) (now : Time)
    (connected : bool) (db : IdentityDB) : IdentityDB * result Fault Session :=
  if negb (validBearerToken token) then (db, Err Unauthenticated)
  else commit connected (session_body sv requestID token action raw now) db.

Definition Me (sv : Service) (requestID token : string) (now : Time) (connected : bool) (db : IdentityDB)
    : IdentityDB * result Fault IdentityContext :=
  let '(db', out) := withSession sv requestID token "me" [] now connected db in
  (db', v ← out; Ok (sn_Context v)).
Definition Refresh (sv : Service) (requestID token : string) (raw : list Z) (now : Time) (connected : bool)
    (db : IdentityDB) : IdentityDB * result Fault Session :=
  withSession sv requestID token "refresh" raw now connected db.
Definition Logout (sv : Service) (requestID token : string) (now : Time) (connected : bool) (db : IdentityDB)
    : IdentityDB * result Fault unit :=
  let '(db', out) := withSession sv requestID token "logout" [] now connected db in
  (db', _ ← out; Ok tt).

(** ** Machine credentials *)

(** The current right of a user in an organization. *)
Definition member_row (db : IdentityDB) (user org : string) : option (UserRow * OrgRow * MemberRow) :=
  u ← users db !! user;
  m ← memberships db !! (user, org);
  o ← organizations db !! org;
  Some (u, o, m).

Definition admin_now (u : UserRow) (o : OrgRow) (m : MemberRow) (now : Time) : bool :=
  (us_Status u =? "active")%string && (og_Status o =? "active")%string
  && (mb_Role m =? "admin")%string && mb_Active m && negb (locked_at (us_LockedUntil u) now).

(** An enrolled token that may not be enrolled again. *)
Definition enrolled_conflict (s : SessionRow) (user org : string) (expires now : Time) : bool :=
  negb (se_Kind s =? "mcp")%string || negb (se_UserID s =? user)%string
  || negb (se_OrganizationID s =? org)%string || negb (se_ExpiresAt s =? expires)
  || bool_decide (is_Some (se_RevokedAt s)) || negb (time_after (se_ExpiresAt s) now).

Definition bind_body (sv : Service) (requestID id token userID orgID : string) (expires now : Time)
    : Call IdentityContext := fun db =>
  let old := find_session db (token_hash token) in
  if match old with Some (_, s) => enrolled_conflict s userID orgID expires now | None => false end
  then Err Conflict
  else match member_row db userID orgID with
  | None => Err Denied
  | Some (u, o, m) =>
      let out i issued := mkContext requestID (sv_StationID sv) i userID (us_Username u) orgID (og_Name o) ["admin"]
                            adminScopes issued expires (us_RevocationVersion u) (og_PolicyVersion o) in
      if negb (admin_now u o m now) then Err Denied
      else match old with
      | Some (i, s) => if se_RevocationVersion s =? us_RevocationVersion u then Ok (Ok (out i (se_IssuedAt s)), db)
                       else Err Conflict
      | None =>
          db1 ← insert_session id (mkSessionRow userID orgID (token_hash token) (stored now) (stored expires)
                                     (us_RevocationVersion u) None "mcp") db;
          Ok (Ok (out id now), audit requestID "identity.bind_mcp_token" "succeeded" (Some userID) (Some orgID) (Some id) db1)
      end
  end.

Definition BindMCPToken (sv : Service) (requestID id token userID orgID : string) (expires now : Time)
    (connected : bool) (db : IdentityDB) : IdentityDB * result Fault IdentityContext :=
  if negb (validBearerToken token) || negb (validUUIDv7 userID) || negb (validUUIDv7 orgID)
     || negb (time_after expires now) || negb (expires mod second =? 0) then (db, Err Invalid)
  else commit connected (bind_body sv requestID id token userID orgID expires now) db.

(** ** Delegation *)

(** The effect of [withDelegatedMember] runs while the three rows are share-locked;
    its error is the call's. *)
Definition delegated (db : IdentityDB) (user org : string) (manager : bool) (now : Time) : result Fault unit :=
  if negb (validID user) || negb (validID org) then Err Invalid
  else match member_row db user org with
  | None => Err Denied
  | Some (u, o, m) =>
      if (us_Status u =? "active")%string && (og_Status o =? "active")%string && mb_Active m
         && (negb manager || (mb_Role m =? "admin")%string) && negb (locked_at (us_LockedUntil u) now)
      then Ok tt else Err Denied
  end.
Definition withDelegatedMember {E A} (fault : Fault -> E) (user org : string) (manager : bool) (now : Time)
    (effect : unit -> result E A) (db : IdentityDB) : result E A :=
  match delegated db user org manager now with
  | Err f => Err (fault f)
  | Ok _ => effect tt
  end.
Definition WithManager {E A} (fault : Fault -> E) (user org : string) (now : Time) (effect : unit -> result E A) (db : IdentityDB) :=
  withDelegatedMember fault user org true now effect db.
Definition WithMember {E A} (fault : Fault -> E) (user org : string) (now : Time) (effect : unit -> result E A) (db : IdentityDB) :=
  withDelegatedMember fault user org false now effect db.
End Identity.
