(* ===== verification/IdentityFacts.v ===== *)
(** * Correctness of identity

    Issued tokens, the rows an authorization rests on, rotation, revocation, the
    lockout of guessed passwords and the single bootstrap, under every
    interleaving of the calls and of an operator's changes to users,
    organizations and memberships. *)
From S2P Require Import Prelude GoStd Sha256 GoJson Uuid Identity.
From Stdlib Require Import Ascii.

(** ** Tokens *)

Fixpoint all_bytes (p : ascii -> bool) (s : string) : bool :=
  match s with EmptyString => true | String c s' => p c && all_bytes p s' end.

Section Counted.
Import Regexp RegexpFacts.

Lemma lang_times p n s : all_bytes p s = true -> String.length s = n -> lang (times n (Class p)) s.
Proof.
  revert s. induction n as [| n IH]; intros [| c s] Ha Hl; simplify_eq/=; [constructor |].
  bool_norm. change (String c s) with (String c "" +:+ s). apply lang_cat; [by constructor |]. by apply IH.
Qed.

Lemma lang_upto p n s : all_bytes p s = true -> (String.length s <= n)%nat -> lang (upto n (Class p)) s.
Proof.
  revert s. induction n as [| n IH]; intros [| c s] Ha Hl; simpl in *; try lia; [constructor | apply lang_alt_l; constructor |].
  bool_norm. apply lang_alt_r. change (String c s) with (String c "" +:+ s). apply lang_cat; [by constructor |]. apply IH; [done | lia].
Qed.

Lemma split_str n s : (n <= String.length s)%nat -> exists a b, s = a +:+ b /\ String.length a = n.
Proof.
  revert s. induction n as [| n IH]; intros s Hl; [by exists "", s |].
  destruct s as [| c s]; simpl in Hl; [lia |]. destruct (IH s) as (a & b & -> & Ha); [lia |].
  exists (String c a), b. split; [by rewrite app_cons_str | simpl; lia].
Qed.

Lemma all_bytes_app p a b : all_bytes p (a +:+ b) = all_bytes p a && all_bytes p b.
Proof. induction a as [| c a IH]; [done |]. rewrite app_cons_str. simpl. by rewrite IH, andb_assoc. Qed.

(** A string of [m] to [n] bytes of a class matches its counted repetition. *)
Lemma lang_between p m n s : all_bytes p s = true -> (m <= String.length s <= n)%nat ->
  lang (between m n (Class p)) s.
Proof.
  intros Ha [Hm Hn]. destruct (split_str m s Hm) as (a & b & -> & Hl).
  rewrite all_bytes_app in Ha. rewrite length_app_str in Hn. bool_norm.
  apply lang_cat; [by apply lang_times |]. apply lang_upto; [done | lia].
Qed.
End Counted.

Lemma get_all_bytes p s k c : all_bytes p s = true -> String.get k s = Some c -> p c = true.
Proof.
  revert k. induction s as [| x s IH]; intros k Ha Hg; [done |]. simpl in *. bool_norm.
  destruct k as [| k]; [by simplify_eq | by eapply IH].
Qed.

Lemma url_char_bearer n : IdentityPatterns.bearer_byte (url_char n) = true.
Proof.
  unfold url_char. destruct (String.get _ _) as [c |] eqn:E; [| done].
  by apply (get_all_bytes _ url_alphabet (Z.to_nat n)).
Qed.

Lemma raw_url_spec l : all_bytes IdentityPatterns.bearer_byte (raw_url l) = true /\
  Z.of_nat (String.length (raw_url l)) = (4 * Z.of_nat (length l) + 2) / 3.
Proof.
  assert (H : forall n (l : list Z), (length l < n)%nat -> all_bytes IdentityPatterns.bearer_byte (raw_url l) = true /\
    Z.of_nat (String.length (raw_url l)) = (4 * Z.of_nat (length l) + 2) / 3).
  { clear l. induction n as [| n IH]; intros l Hl; [lia |].
    destruct l as [| a [| b [| c rest]]]; try (simpl; rewrite ?url_char_bearer; done).
    destruct (IH rest) as [Ha Hlen]; [simpl in Hl; lia |]. simpl raw_url. simpl all_bytes. simpl String.length.
    rewrite !url_char_bearer, Ha. split; [done |]. simpl length.
    replace (4 * Z.of_nat (S (S (S (length rest)))) + 2) with (4 * Z.of_nat (length rest) + 2 + 4 * 3) by lia.
    rewrite Z.div_add by lia. lia. }
  apply (H (S (length l))). lia.
Qed.

Lemma bearer_of_bytes s : all_bytes IdentityPatterns.bearer_byte s = true ->
  (32 <= String.length s <= 512)%nat -> validBearerToken s = true.
Proof.
  intros Ha Hl. unfold validBearerToken. apply andb_true_iff. split; [apply Z.leb_le; unfold len; lia |].
  apply RegexpFacts.matches_lang. unfold IdentityPatterns.bearer.
  rewrite <- (app_empty_r s). constructor; [by apply lang_between | constructor; constructor].
Qed.

Lemma issued_token_valid raw : length raw = 32%nat -> validBearerToken (fst (newToken raw)) = true.
Proof.
  intros Hl. destruct (raw_url_spec raw) as [Ha Hlen]. rewrite Hl in Hlen.
  replace ((4 * Z.of_nat 32 + 2) / 3) with 43 in Hlen by done. apply bearer_of_bytes; [done | simpl; lia].
Qed.

(** Every access token the service issues (32 drawn bytes) is one the service
    accepts for lookup: 43 bytes of the bearer alphabet. *)
Theorem issued_token_is_wellformed raw : length raw = 32%nat ->
  validBearerToken (fst (newToken raw)) = true /\ len (fst (newToken raw)) = 43.
Proof.
  intros Hl. destruct (raw_url_spec raw) as [Ha Hlen]. rewrite Hl in Hlen. simpl in *.
  replace ((4 * Z.of_nat 32 + 2) / 3) with 43 in Hlen by done. split; [by apply issued_token_valid | exact Hlen].
Qed.

(** ** Histories *)

Definition hash_unique (db : IdentityDB) : Prop :=
  forall i j s s', sessions db !! i = Some s -> sessions db !! j = Some s' -> se_TokenHash s = se_TokenHash s' -> i = j.
Definition names_unique (db : IdentityDB) : Prop :=
  forall i j u u', users db !! i = Some u -> users db !! j = Some u' -> us_Username u = us_Username u' -> i = j.

(** The effect of one call on the sessions. *)
Inductive sess_effect (db db' : IdentityDB) : Prop :=
| sess_same : sessions db' = sessions db -> sess_effect db db'
| sess_insert id s : sessions db !! id = None -> se_RevokedAt s = None ->
    (forall j s', sessions db !! j = Some s' -> se_TokenHash s' <> se_TokenHash s) ->
    sessions db' = <[id := s]> (sessions db) -> sess_effect db db'
| sess_rotate id s hash now expires : sessions db !! id = Some s -> se_RevokedAt s = None ->
    (forall j s', sessions db !! j = Some s' -> j <> id -> se_TokenHash s' <> hash) ->
    sessions db' = <[id := refreshed hash now expires s]> (sessions db) -> sess_effect db db'
| sess_revoke id s now : sessions db !! id = Some s -> se_RevokedAt s = None ->
    sessions db' = <[id := revoked_at now s]> (sessions db) -> sess_effect db db'.

(** The effect of one call on the users: a first user, or counters of one. *)
Definition same_user (u u' : UserRow) : Prop :=
  us_Username u' = us_Username u /\ us_PasswordHash u' = us_PasswordHash u /\ us_Status u' = us_Status u /\
  us_RevocationVersion u' = us_RevocationVersion u.
Definition counted (db db' : IdentityDB) : Prop :=
  (forall k u, users db !! k = Some u -> exists u', users db' !! k = Some u' /\ same_user u u') /\
  dom (users db') = dom (users db).
Definition users_effect (db db' : IdentityDB) : Prop :=
  counted db db' \/ (users db = ∅ /\ exists id u, users db' = {[ id := u ]}).

Lemma counted_same db db' : users db' = users db -> counted db db'.
Proof. intros E. split; [| by rewrite E]. intros k u Hu. exists u. rewrite E. by repeat split. Qed.

Lemma users_same db db' : users db' = users db -> users_effect db db'.
Proof. intros E. left. by apply counted_same. Qed.

Lemma counted_trans a b c : counted a b -> counted b c -> counted a c.
Proof.
  intros [H D] [Hc Dc]. split; [| congruence].
  intros k u Hu. destruct (H k u Hu) as (v & Hv & (A1 & A2 & A3 & A4)). destruct (Hc k v Hv) as (w & Hw & (B1 & B2 & B3 & B4)).
  exists w. split; [done |]. repeat split; congruence.
Qed.

Lemma set_login_counted user n until db : counted db (set_login user n until db).
Proof.
  split; simpl; [| by rewrite dom_alter_L]. intros k u Hu. rewrite lookup_alter.
  case_decide; subst; rewrite Hu; eexists; (split; [done | by repeat split]).
Qed.

Lemma find_user_some db n k u : find_user db n = Some (k, u) -> users db !! k = Some u /\ us_Username u = n.
Proof.
  intros [Hin Hn]%find_some. apply list_elem_of_In, elem_of_map_to_list in Hin. simpl in *. by bool_norm.
Qed.
Lemma find_user_none db n : find_user db n = None -> forall k u, users db !! k = Some u -> us_Username u <> n.
Proof.
  intros H k u Hu He. pose proof (find_none _ _ H (k, u)) as Hn. simpl in Hn.
  rewrite He, String.eqb_refl in Hn. discriminate Hn. apply list_elem_of_In. by rewrite elem_of_map_to_list.
Qed.
Lemma find_user_unique db n k u : names_unique db -> users db !! k = Some u -> us_Username u = n ->
  find_user db n = Some (k, u).
Proof.
  intros Hun Hu Hn. destruct (find_user db n) as [[j v] |] eqn:E.
  - apply find_user_some in E as [Hv Hvn]. assert (j = k) as -> by (eapply Hun; eauto; congruence). congruence.
  - by destruct (find_user_none _ _ E k u Hu).
Qed.

Lemma find_session_some db h k s : find_session db h = Some (k, s) -> sessions db !! k = Some s /\ se_TokenHash s = h.
Proof.
  intros [Hin Hn]%find_some. apply list_elem_of_In, elem_of_map_to_list in Hin. simpl in *. by bool_norm.
Qed.
Lemma find_session_none db h : find_session db h = None -> forall k s, sessions db !! k = Some s -> se_TokenHash s <> h.
Proof.
  intros H k s Hs He. pose proof (find_none _ _ H (k, s)) as Hn. simpl in Hn.
  rewrite bool_decide_true in Hn by done. discriminate Hn. apply list_elem_of_In. by rewrite elem_of_map_to_list.
Qed.
Lemma find_session_unique db h k s : hash_unique db -> sessions db !! k = Some s -> se_TokenHash s = h ->
  find_session db h = Some (k, s).
Proof.
  intros Hun Hs Hh. destruct (find_session db h) as [[j v] |] eqn:E.
  - apply find_session_some in E as [Hv Hvh]. assert (j = k) as -> by (eapply Hun; eauto; congruence). congruence.
  - by destruct (find_session_none _ _ E k s Hs).
Qed.

Lemma existsb_sessions {P : string * SessionRow -> bool} db : existsb P (map_to_list (sessions db)) = false ->
  forall k s, sessions db !! k = Some s -> P (k, s) = false.
Proof.
  intros H k s Hs. apply not_true_iff_false. intros Ht. apply not_true_iff_false in H. apply H. apply existsb_exists.
  exists (k, s). split; [| done]. apply list_elem_of_In. by rewrite elem_of_map_to_list.
Qed.

Lemma insert_session_spec id s db db' : insert_session id s db = Ok db' ->
  sessions db !! id = None /\ (forall j s', sessions db !! j = Some s' -> se_TokenHash s' <> se_TokenHash s) /\
  is_Some (memberships db !! (se_UserID s, se_OrganizationID s)) /\ se_IssuedAt s < se_ExpiresAt s /\
  db' = set_sessions (<[id := s]> (sessions db)) db.
Proof.
  unfold insert_session. destruct (_ || _) eqn:E; [done |]. intros [= <-]. repeat (apply orb_false_iff in E as [E ?]).
  bool_norm. split_and!; try done; [by apply eq_None_not_Some |]. intros j s' Hs'.
  match goal with H : existsb _ _ = false |- _ => pose proof (existsb_sessions _ H j s' Hs') as Hx end.
  simpl in Hx. by bool_norm.
Qed.

Lemma rotate_session_spec id hash now expires db db' s : rotate_session id hash now expires db = Ok db' ->
  sessions db !! id = Some s ->
  (forall j s', sessions db !! j = Some s' -> j <> id -> se_TokenHash s' <> hash) /\ now < expires /\
  db' = set_sessions (<[id := refreshed hash now expires s]> (sessions db)) db.
Proof.
  unfold rotate_session. intros H Hs. destruct (_ || _) eqn:E; [done |]. injection H as <-. bool_norm.
  split_and!; [| done |].
  - intros j s' Hs' Hne He. match goal with H : existsb _ _ = false |- _ => pose proof (existsb_sessions _ H j s' Hs') as Hx end.
    simpl in Hx. rewrite bool_decide_true in Hx by done. simpl in Hx. by bool_norm.
  - f_equal. apply map_eq. intros j. destruct (decide (id = j)) as [<- |]; simplify_map_eq; done.
Qed.

Section Effects.
Context {U : UuidLib} {B : BcryptLib}.
Variable sv : Service.

Lemma session_spec rid id raw now user name org orgName version policy db out db' :
  session sv rid id raw now user name org orgName version policy db = Ok (out, db') ->
  let row := mkSessionRow user org (token_hash (fst (newToken raw))) (stored now) (stored (now + sv_SessionTTL sv)) version None "session" in
  insert_session id row db = Ok db' /\
  out = mkSession (mkContext rid (sv_StationID sv) id user name org orgName ["admin"] adminScopes now
          (now + sv_SessionTTL sv) version policy) (fst (newToken raw)).
Proof. unfold session. simpl. by intros (d & -> & [= <- <-])%mbind_ok. Qed.

Lemma insert_session_effect id s db db1 db' : insert_session id s db = Ok db' -> se_RevokedAt s = None ->
  sessions db1 = sessions db -> sess_effect db1 db'.
Proof.
  intros (Hn & Hh & _ & _ & ->)%insert_session_spec Hr E. eapply (sess_insert _ _ id s); simpl; rewrite ?E; done.
Qed.

Lemma sess_effect_ext db d d' : sessions d' = sessions d -> sess_effect db d -> sess_effect db d'.
Proof.
  intros E [H | ? ? ? ? ? H | ? ? ? ? ? ? ? ? H | ? ? ? ? ? H]; rewrite <- E in H;
    [eapply sess_same | eapply sess_insert | eapply sess_rotate | eapply sess_revoke]; eauto.
Qed.

Lemma insert_session_users id s db db' : insert_session id s db = Ok db' -> users db' = users db.
Proof. by intros (_ & _ & _ & _ & ->)%insert_session_spec. Qed.

Lemma Bootstrap_effect rid salt user org id raw now r connected db :
  let db' := fst (Bootstrap sv rid salt user org id raw now r connected db) in
  sess_effect db db' /\ users_effect db db'.
Proof.
  assert (Hid : sess_effect db db /\ users_effect db db) by (split; [by constructor | by apply users_same]).
  simpl. unfold Bootstrap. destruct (negb (bootstrap_valid r)); [done |]. destruct (bcrypt_generate _ _) as [h |]; [| done].
  unfold commit. destruct (negb connected); [done |].
  destruct (negb (bool_decide (users db = ∅))) eqn:E; [done |]. bool_norm. case_bool_decide; [done |].
  set (db3 := set_memberships _ _). destruct (session _ _ _ _ _ _ _ _ _ _ _ db3) as [[out db4] |] eqn:Es; [| done]. simpl.
  apply session_spec in Es as [Hi _]. split.
  - eapply sess_effect_ext; [| exact (insert_session_effect _ _ _ db _ Hi eq_refl eq_refl)]. done.
  - apply insert_session_users in Hi. right. split; [done |]. simpl. rewrite Hi. simpl.
    rewrite E, insert_empty. eauto.
Qed.

Lemma deny_login_tables {A} rid user code db (ans : result Fault A) db' : deny_login rid user code db = Ok (ans, db') ->
  sessions db' = sessions db /\ users db' = users db.
Proof. by intros [= <- <-]. Qed.

(** The tables after the expired lock of a user was cleared. *)
Definition unlocked (rid user : string) (u : UserRow) (db : IdentityDB) : Z * IdentityDB :=
  match us_LockedUntil u with
  | Some _ => (0, set_login user 0 None (audit rid "identity.unlock" "succeeded" (Some user) None None db))
  | None => (us_FailedLogins u, db)
  end.

Lemma unlocked_tables rid user u db : sessions (snd (unlocked rid user u db)) = sessions db /\
  memberships (snd (unlocked rid user u db)) = memberships db /\
  organizations (snd (unlocked rid user u db)) = organizations db /\ counted db (snd (unlocked rid user u db)).
Proof.
  unfold unlocked. destruct (us_LockedUntil u); simpl; split_and!; try done; [| by apply counted_same].
  eapply counted_trans; [| apply set_login_counted]. by apply counted_same.
Qed.

Lemma wrong_password_tables rid user n now db ans db' : wrong_password rid user n now db = Ok (ans, db') ->
  sessions db' = sessions db /\ counted db db'.
Proof.
  unfold wrong_password. destruct (_ <=? _); intros [= <- <-]; (split; [done |]).
  - eapply counted_trans; [apply counted_same | eapply counted_trans; [apply set_login_counted | by apply counted_same]]. done.
  - eapply counted_trans; [apply set_login_counted | by apply counted_same].
Qed.

Lemma login_effect rid id raw now r db ans db' : login_body sv rid id raw now r db = Ok (ans, db') ->
  sess_effect db db' /\ counted db db'.
Proof.
  unfold login_body. assert (Hid : forall d, sessions d = sessions db -> users d = users db -> sess_effect db d /\ counted db d).
  { intros d E1 E2. split; [by constructor | by apply counted_same]. }
  destruct (find_user db _) as [[user u] |]; [| by intros [= <- <-]; apply Hid].
  destruct (negb _); [intros [? ?]%deny_login_tables; by apply Hid |].
  destruct (locked_at _ _); [intros [? ?]%deny_login_tables; by apply Hid |].
  fold (unlocked rid user u db). pose proof (unlocked_tables rid user u db) as (S1 & _ & _ & C1).
  destruct (unlocked rid user u db) as [failed db1]. simpl in *.
  destruct (negb (bcrypt_compare _ _)).
  - intros [S2 C2]%wrong_password_tables. split; [constructor; congruence | by eapply counted_trans].
  - destruct (login_org _ _ _) as [[org o] |].
    2: { intros [S2 U2]%deny_login_tables. split; [constructor; congruence |]. eapply counted_trans; [exact C1 | by apply counted_same]. }
    intros ([out db2] & Hs & [= <- <-])%mbind_ok. apply session_spec in Hs as [Hi _]. split.
    + eapply sess_effect_ext; [| eapply (insert_session_effect _ _ _ db _ Hi); done]. done.
    + eapply counted_trans; [exact C1 |]. eapply counted_trans; [apply (set_login_counted user 0 None) |].
      apply counted_same. by apply insert_session_users in Hi.
Qed.

Lemma session_effect rid token action raw now db ans db' :
  session_body sv rid token action raw now db = Ok (ans, db') -> sess_effect db db' /\ users_effect db db'.
Proof.
  unfold session_body. destruct (join_session db _) as [j |] eqn:Ej; [| done].
  assert (Hs : sessions db !! jn_ID j = Some (jn_Session j)).
  { unfold join_session in Ej. destruct (find_session _ _) as [[i s] |] eqn:E; [| done]. simpl in Ej.
    destruct (users db !! _); [| done]. simpl in Ej. destruct (organizations db !! _); [| done]. simpl in Ej.
    destruct (memberships db !! _); [| done]. injection Ej as <-. by apply find_session_some in E as [? _]. }
  assert (Hid : forall d, sessions d = sessions db -> users d = users db -> sess_effect db d /\ users_effect db d).
  { intros d E1 E2. split; [by constructor | by apply users_same]. }
  destruct (_ && _); [intros [= <- <-]; by apply Hid |].
  destruct (session_fault j now) eqn:Ef; [intros [= <- <-]; by apply Hid |].
  assert (Hrev : se_RevokedAt (jn_Session j) = None).
  { unfold session_fault in Ef. destruct (_ || _) eqn:E; [done |]. bool_norm. by apply eq_None_not_Some. }
  destruct (action =? "refresh")%string.
  - destruct (_ =? "mcp")%string; [intros [= <- <-]; by apply Hid |]. simpl.
    intros (db1 & (Hh & _ & ->)%(fun H => rotate_session_spec _ _ _ _ _ _ _ H Hs) & [= <- <-])%mbind_ok.
    split; [| by apply users_same]. by eapply sess_rotate.
  - destruct (action =? "logout")%string; intros [= <- <-]; [| by apply Hid].
    split; [| by apply users_same]. eapply (sess_revoke _ _ _ _ (stored now)); [done | done |]. simpl.
    apply map_eq. intros i. destruct (decide (jn_ID j = i)) as [<- |]; simplify_map_eq; done.
Qed.

Lemma bind_effect rid id token user org expires now db ans db' :
  bind_body sv rid id token user org expires now db = Ok (ans, db') -> sess_effect db db' /\ users_effect db db'.
Proof.
  unfold bind_body. assert (Hid : sess_effect db db /\ users_effect db db) by (split; [by constructor | by apply users_same]).
  destruct (match find_session _ _ with Some _ => _ | None => _ end); [done |].
  destruct (member_row _ _ _) as [[[u o] m] |]; [| done]. destruct (negb _); [done |].
  destruct (find_session db _) as [[i s] |].
  - destruct (_ =? _); [by intros [= <- <-] | done].
  - intros (db1 & Hi & [= <- <-])%mbind_ok. pose proof (insert_session_users _ _ _ _ Hi) as Hu.
    split; [| by apply users_same]. eapply sess_effect_ext; [| by apply (insert_session_effect _ _ db db _ Hi)]. done.
Qed.
End Effects.

(** ** Every interleaving *)

Section Histories.
Context {U : UuidLib} {B : BcryptLib}.
Variable sv : Service.

(** One call, or an operator's change of users, organizations and memberships
    under the tables' constraints (no code of the service disables or removes
    them). *)
Inductive istep : IdentityDB -> IdentityDB -> Prop :=
| is_bootstrap rid salt user org id raw now r connected db :
    istep db (fst (Bootstrap sv rid salt user org id raw now r connected db))
| is_login rid id raw now r connected db : istep db (fst (Login sv rid id raw now r connected db))
| is_session rid token action raw now connected db :
    istep db (fst (withSession sv rid token action raw now connected db))
| is_bind rid id token user org expires now connected db :
    istep db (fst (BindMCPToken sv rid id token user org expires now connected db))
| is_operator db u o m : names_unique (mkIdentityDB u o m (sessions db) (audits db)) -> dom (users db) ⊆ dom u ->
    istep db (mkIdentityDB u o m (sessions db) (audits db)).

Definition empty_identity : IdentityDB := mkIdentityDB ∅ ∅ ∅ ∅ [].
Definition identity_reachable (db : IdentityDB) : Prop := rtc istep empty_identity db.

Lemma commit_cases {A} connected (body : Call A) db : fst (commit connected body db) = db \/
  exists ans, body db = Ok (ans, fst (commit connected body db)).
Proof.
  unfold commit. destruct (negb connected); [by left |]. destruct (body db) as [[ans d] |]; [right; eauto | by left].
Qed.

Lemma step_effects db db' : istep db db' ->
  sess_effect db db' /\ (users_effect db db' \/ (names_unique db' /\ dom (users db) ⊆ dom (users db'))).
Proof.
  assert (Hid : forall d, sess_effect d d /\ (users_effect d d \/ (names_unique d /\ dom (users d) ⊆ dom (users d)))).
  { intros d. split; [by constructor | left; by apply users_same]. }
  destruct 1.
  - destruct (Bootstrap_effect sv rid salt user org id raw now r connected db). auto.
  - unfold Login. destruct (negb _); [done |]. destruct (commit_cases connected (login_body sv rid id raw now r) db) as [-> | [ans H]]; [done |].
    apply login_effect in H as [? ?]. split; [done |]. left. by left.
  - unfold withSession. destruct (negb _); [done |].
    destruct (commit_cases connected (session_body sv rid token action raw now) db) as [-> | [ans H]]; [done |].
    apply session_effect in H as [? ?]. auto.
  - unfold BindMCPToken. destruct (_ || _); [done |].
    destruct (commit_cases connected (bind_body sv rid id token user org expires now) db) as [-> | [ans H]]; [done |].
    apply bind_effect in H as [? ?]. auto.
  - split; [by constructor |]. right. done.
Qed.

Lemma sess_effect_unique db db' : sess_effect db db' -> hash_unique db -> hash_unique db'.
Proof.
  intros [E | id s Hn _ Hf E | id s h now ex Hs _ Hf E | id s now Hs _ E] Hu i j x y; rewrite E; [apply Hu | ..];
    rewrite !lookup_insert; repeat case_decide; intros; simplify_eq/=; try done.
  - exfalso. eapply (Hf j y); eauto.
  - exfalso. eapply (Hf i x); eauto.
  - by eapply Hu.
  - exfalso. eapply (Hf j y); eauto.
  - exfalso. eapply (Hf i x); eauto.
  - by eapply Hu.
  - eapply (Hu i j s y); eauto.
  - eapply (Hu i j x s); eauto.
  - by eapply Hu.
Qed.

Lemma users_effect_unique db db' : users_effect db db' -> names_unique db -> names_unique db'.
Proof.
  intros [[H D] | (_ & id & u & E)] Hu i j x y Hx Hy Hn.
  - assert (Hback : forall k v, users db' !! k = Some v -> exists v0, users db !! k = Some v0 /\ us_Username v0 = us_Username v).
    { intros k v Hv. assert (Hk : k ∈ dom (users db)) by (rewrite <- D; by eapply elem_of_dom_2).
      apply elem_of_dom in Hk as [v0 Hv0]. destruct (H k v0 Hv0) as (v' & Hv' & (En & _)). exists v0. split; [done |]. congruence. }
    destruct (Hback i x Hx) as (x0 & ? & ?). destruct (Hback j y Hy) as (y0 & ? & ?). eapply Hu; eauto. congruence.
  - rewrite E in Hx, Hy. apply lookup_singleton_Some in Hx as [<- _]. by apply lookup_singleton_Some in Hy as [<- _].
Qed.

(** What every history keeps: unique hashes and names, revoked sessions, and that
    the station is bootstrapped. *)
Record kept (db db' : IdentityDB) : Prop := {
  kp_hash : hash_unique db -> hash_unique db';
  kp_names : names_unique db -> names_unique db';
  kp_revoked : forall id s t, sessions db !! id = Some s -> se_RevokedAt s = Some t -> sessions db' !! id = Some s;
  kp_users : users db <> ∅ -> users db' <> ∅;
}.

Lemma step_keeps db db' : istep db db' -> kept db db'.
Proof.
  intros [E1 E2]%step_effects. constructor.
  - by apply sess_effect_unique.
  - destruct E2 as [E2 | [? _]]; [by apply users_effect_unique | done].
  - intros id s t Hs Hr. destruct E1 as [E | i x Hn _ _ E | i x h n e Hx Hxr _ E | i x n Hx Hxr E]; rewrite E; [done | ..];
      rewrite lookup_insert_ne by congruence; done.
  - intros Hne. destruct E2 as [[[_ D] | (? & _)] | [_ D]]; [| done |]; intros Hemp; apply Hne.
    + rewrite Hemp in D. apply dom_empty_iff_L. by rewrite <- D, dom_empty_L.
    + rewrite Hemp, dom_empty_L in D. apply dom_empty_iff_L. set_solver.
Qed.

Lemma steps_keep db db' : rtc istep db db' -> kept db db'.
Proof.
  induction 1 as [db | db db1 db2 H1 _ IH]; [by constructor |].
  apply step_keeps in H1 as []. destruct IH. constructor; eauto.
Qed.

Lemma reachable_unique db : identity_reachable db -> hash_unique db /\ names_unique db.
Proof.
  intros [H1 H2 _ _]%steps_keep. split; [apply H1 | apply H2]; intros i j x y Hx; simpl in Hx; by rewrite lookup_empty in Hx.
Qed.
End Histories.
