(* ===== verification/IdentitySafety.v ===== *)
(** * What a credential gives, and for how long

    The theorems about sessions, rotation, revocation, guessing and bootstrap. *)
From S2P Require Import Prelude GoStd Sha256 GoJson Uuid Identity IdentityFacts.

Section Safety.
Context {U : UuidLib} {B : BcryptLib}.
Variable sv : Service.

Lemma join_session_spec db h j : join_session db h = Some j ->
  sessions db !! jn_ID j = Some (jn_Session j) /\ se_TokenHash (jn_Session j) = h /\
  users db !! se_UserID (jn_Session j) = Some (jn_User j) /\
  organizations db !! se_OrganizationID (jn_Session j) = Some (jn_Org j) /\
  memberships db !! (se_UserID (jn_Session j), se_OrganizationID (jn_Session j)) = Some (jn_Member j).
Proof.
  unfold join_session. destruct (find_session db h) as [[i s] |] eqn:E; [| done]. simpl.
  destruct (users db !! _) eqn:Eu; [| done]. simpl. destruct (organizations db !! _) eqn:Eo; [| done]. simpl.
  destruct (memberships db !! _) eqn:Em; [| done]. intros [= <-]. apply find_session_some in E as [? ?]. by split_and!.
Qed.

Lemma join_session_intro db id s u o m : hash_unique db -> sessions db !! id = Some s ->
  users db !! se_UserID s = Some u -> organizations db !! se_OrganizationID s = Some o ->
  memberships db !! (se_UserID s, se_OrganizationID s) = Some m ->
  join_session db (se_TokenHash s) = Some (mkJoined id s u o m).
Proof.
  intros Hun Hs Hu Ho Hm. unfold join_session. rewrite (find_session_unique db _ id s Hun Hs eq_refl). simpl.
  by rewrite Hu, Ho, Hm.
Qed.

Definition entitled (j : JoinedRow) (now : Time) : Prop :=
  se_RevokedAt (jn_Session j) = None /\ se_RevocationVersion (jn_Session j) = us_RevocationVersion (jn_User j) /\
  now < se_ExpiresAt (jn_Session j) /\ us_Status (jn_User j) = "active" /\ og_Status (jn_Org j) = "active" /\
  mb_Active (jn_Member j) = true /\ mb_Role (jn_Member j) = "admin" /\ locked_at (us_LockedUntil (jn_User j)) now = false.

Lemma session_fault_none j now : session_fault j now = None <-> entitled j now.
Proof.
  unfold session_fault, entitled, time_after. split.
  - intros H. cbv zeta in H. inv_ok H; try discriminate. bool_norm. split_and!; try done. by apply eq_None_not_Some.
  - intros (E1 & E2 & E3 & E4 & E5 & E6 & E7 & E8). apply Z.ltb_lt in E3.
    rewrite E1, E2, E3, E4, E5, E6, E7, E8, Z.eqb_refl. done.
Qed.

Lemma session_body_ok rid token action raw now db s db' : action = "me" \/ action = "refresh" ->
  session_body sv rid token action raw now db = Ok (Ok s, db') ->
  exists j, join_session db (token_hash token) = Some j /\ entitled j now /\
    (action = "me" -> db' = db /\ s = mkSession (context_of sv rid j ["admin"] adminScopes
        (se_IssuedAt (jn_Session j)) (se_ExpiresAt (jn_Session j))) "") /\
    (action = "refresh" -> se_Kind (jn_Session j) <> "mcp" /\ exists db1,
       rotate_session (jn_ID j) (token_hash (fst (newToken raw))) (stored now) (stored (now + sv_SessionTTL sv)) db = Ok db1 /\
       db' = audit_joined rid action "succeeded" j db1 /\
       s = mkSession (context_of sv rid j ["admin"] adminScopes now (now + sv_SessionTTL sv)) (fst (newToken raw))).
Proof.
  intros Ha. unfold session_body. destruct (join_session _ _) as [j |] eqn:Ej; [| done].
  assert ((action =? "logout")%string = false) as -> by (destruct Ha as [-> | ->]; done). rewrite andb_false_r.
  destruct (session_fault j now) eqn:Ef; [done |]. apply session_fault_none in Ef. intros H. exists j. split; [done |]. split; [done |].
  destruct Ha as [-> | ->]; simpl in H.
  - injection H as <- <-. split; [done | by intros]. 
  - split; [done |]. intros _. destruct (_ =? "mcp")%string eqn:Ek; [done |]. bool_norm. split; [done |].
    apply mbind_ok in H as (db1 & Hr & [= <- <-]). exists db1. by split_and!.
Qed.

(** C15: every authorization rests on the current rows: a token is accepted for
    reading or refreshing only if its exact hash is registered, the session is
    neither revoked nor expired and carries the user's current revocation version,
    the user and the organization are active, the membership is an active admin
    one and the account is not locked; the context reports those rows and nothing
    the client claims. *)
Theorem authorization_rests_on_current_rows rid token action raw now connected db db' s :
  action = "me" \/ action = "refresh" ->
  withSession sv rid token action raw now connected db = (db', Ok s) ->
  exists j, join_session db (token_hash token) = Some j /\ entitled j now /\
    ic_SessionID (sn_Context s) = jn_ID j /\ ic_UserID (sn_Context s) = se_UserID (jn_Session j) /\
    ic_OrganizationID (sn_Context s) = se_OrganizationID (jn_Session j) /\
    ic_Username (sn_Context s) = us_Username (jn_User j) /\ ic_Roles (sn_Context s) = ["admin"] /\
    ic_Scopes (sn_Context s) = adminScopes /\ (action = "me" -> db' = db).
Proof.
  intros Ha. unfold withSession, commit. destruct (negb _); [done |]. destruct (negb connected); [done |].
  destruct (session_body _ _ _ _ _ _ db) as [[ans d] |] eqn:E; [| done]. intros [= <- ->].
  apply session_body_ok in E as (j & Hj & He & Hm & Hr); [| done]. exists j.
  destruct Ha as [-> | ->].
  - destruct (Hm eq_refl) as [-> ->]. by split_and!.
  - destruct (Hr eq_refl) as (_ & db1 & _ & -> & ->). by split_and!.
Qed.

(** C16: revocation is final: once a session is revoked, whatever calls and
    operator changes follow, its row stays as it is and its token is never accepted
    again, by whichever action other than the (idempotent) logout. *)
Theorem revocation_is_final db db' id s t rid token action raw now connected :
  identity_reachable sv db -> sessions db !! id = Some s -> se_RevokedAt s = Some t ->
  token_hash token = se_TokenHash s -> rtc (istep sv) db db' -> action <> "logout" ->
  sessions db' !! id = Some s /\
  exists f, snd (withSession sv rid token action raw now connected db') = Err f.
Proof.
  intros [Hun _]%reachable_unique Hs Hrev Htok [Hh _ Hk _]%steps_keep Ha. specialize (Hh Hun). specialize (Hk id s t Hs Hrev).
  split; [done |]. unfold withSession, commit. destruct (negb _); [by eexists |]. destruct (negb connected); [by eexists |].
  unfold session_body. destruct (join_session db' _) as [j |] eqn:Ej; [| by eexists].
  apply join_session_spec in Ej as (Hj & Hjh & _). assert (jn_ID j = id) as Hid.
  { eapply (Hh (jn_ID j) id); [done | done |]. congruence. }
  rewrite Hid, Hk in Hj. injection Hj as Hj. apply String.eqb_neq in Ha. rewrite Ha, andb_false_r.
  unfold session_fault. rewrite <- Hj, Hrev. simpl. by eexists.
Qed.

(** The station is bootstrapped once: after the first administrator exists,
    every later bootstrap fails and changes nothing, for ever. *)
Theorem bootstrap_happens_once rid salt user org id raw now r db db1 s db2 rid' salt' user' org' id' raw' now' r' c c' :
  Bootstrap sv rid salt user org id raw now r c db = (db1, Ok s) -> rtc (istep sv) db1 db2 ->
  exists f, Bootstrap sv rid' salt' user' org' id' raw' now' r' c' db2 = (db2, Err f).
Proof.
  intros H [_ _ _ Hk]%steps_keep. assert (Hne : users db2 <> ∅).
  { apply Hk. unfold Bootstrap in H. destruct (negb _); [done |]. destruct (bcrypt_generate _ _); [| done].
    unfold commit in H. destruct (negb c); [done |]. destruct (negb _) eqn:E; [done |]. case_bool_decide; [done |].
    set (db3 := set_memberships _ _) in H. destruct (session _ _ _ _ _ _ _ _ _ _ _ db3) as [[out d] |] eqn:Es; [| done].
    injection H as <- _. apply session_spec in Es as [Hi%insert_session_users _]. simpl. rewrite Hi. simpl.
    apply insert_non_empty. }
  unfold Bootstrap. destruct (negb (bootstrap_valid _)); [by eexists |]. destruct (bcrypt_generate _ _); [| by eexists].
  unfold commit. destruct (negb c'); [by eexists |]. rewrite bool_decide_false by done. by eexists.
Qed.

(** ** Rotation and round trip *)

Lemma Me_accepts rid token now db j : validBearerToken token = true ->
  join_session db (token_hash token) = Some j -> entitled j now ->
  Me sv rid token now true db = (db, Ok (context_of sv rid j ["admin"] adminScopes
    (se_IssuedAt (jn_Session j)) (se_ExpiresAt (jn_Session j)))).
Proof.
  intros Hv Hj He. unfold Me, withSession, commit. rewrite Hv. simpl. unfold session_body. rewrite Hj, andb_false_r.
  apply session_fault_none in He as ->. done.
Qed.

Lemma Me_unknown rid token now db : validBearerToken token = true -> find_session db (token_hash token) = None ->
  Me sv rid token now true db = (db, Err Unauthenticated).
Proof.
  intros Hv Hf. unfold Me, withSession, commit. rewrite Hv. simpl. unfold session_body, join_session. by rewrite Hf.
Qed.

Lemma entitled_later j now now' expires hash : entitled j now -> now <= now' -> now' < expires ->
  entitled (mkJoined (jn_ID j) (refreshed hash (stored now) expires (jn_Session j)) (jn_User j) (jn_Org j) (jn_Member j)) now'.
Proof.
  intros (E1 & E2 & E3 & E4 & E5 & E6 & E7 & E8) Hle Hlt. unfold entitled. simpl. split_and!; try done.
  unfold locked_at, time_after in *. destruct (us_LockedUntil _); [| done]. bool_norm. apply Z.ltb_ge. lia.
Qed.

(** Refreshing rotates the credential: the new token reads the same session,
    user and organization until it expires, and the old token is unknown at once.
    (The two tokens are assumed not to collide under SHA-256.) *)
Theorem refresh_rotates_token db rid token raw now db' s rid' rid'' now' :
  identity_reachable sv db -> length raw = 32%nat -> token_hash token <> token_hash (fst (newToken raw)) ->
  Refresh sv rid token raw now true db = (db', Ok s) -> now <= now' -> now' < stored (now + sv_SessionTTL sv) ->
  Me sv rid' token now' true db' = (db', Err Unauthenticated) /\
  exists c, Me sv rid'' (sn_AccessToken s) now' true db' = (db', Ok c) /\
    ic_SessionID c = ic_SessionID (sn_Context s) /\ ic_UserID c = ic_UserID (sn_Context s) /\
    ic_OrganizationID c = ic_OrganizationID (sn_Context s) /\ ic_Scopes c = ic_Scopes (sn_Context s).
Proof.
  intros [Hun _]%reachable_unique Hraw Hne H Hle Hlt. unfold Refresh, withSession, commit in H.
  destruct (negb (validBearerToken token)) eqn:Hv; [done |]. simpl in H.
  destruct (session_body _ _ _ _ _ _ db) as [[ans d] |] eqn:E; [| done]. injection H as <- ->.
  apply session_body_ok in E as (j & Hj & He & _ & Hr); [| by right].
  destruct (Hr eq_refl) as (_ & db1 & Hrot & -> & ->). clear Hr. bool_norm.
  apply join_session_spec in Hj as (Hs & Hh & Hu & Ho & Hm).
  destruct (rotate_session_spec _ _ _ _ _ _ _ Hrot Hs) as (Hfresh & Hexp & ->). clear Hrot.
  set (h := token_hash (fst (newToken raw))) in *. set (expires := stored (now + sv_SessionTTL sv)) in *.
  set (d := audit_joined _ _ _ _ _).
  assert (Hd : hash_unique d).
  { apply (sess_effect_unique db); [| done]. eapply sess_rotate; [exact Hs | by destruct He | exact Hfresh | done]. }
  split.
  - apply Me_unknown; [done |]. destruct (find_session d _) as [[i x] |] eqn:Ef; [| done].
    apply find_session_some in Ef as [Hx Hxh]. simpl in Hx. rewrite lookup_insert in Hx. case_decide.
    + injection Hx as <-. exfalso. by apply Hne.
    + exfalso. assert (jn_ID j = i) by (eapply (Hun _ i); eauto; congruence). done.
  - eexists. split.
    + apply Me_accepts; [by apply issued_token_valid | | by eapply entitled_later].
      apply (join_session_intro d (jn_ID j) (refreshed h (stored now) expires (jn_Session j))); try done.
      simpl. by rewrite lookup_insert_eq.
    + by split_and!.
Qed.

(** ** Login *)

Lemma first_org_elem l o : first_org l = Some o -> o ∈ l.
Proof.
  revert o. induction l as [| x l IH]; intros o; simpl; [done |]. fold (first_org l).
  destruct (first_org l) as [b |]; [destruct (org_before b x) |]; intros [= <-]; [right; auto | left | left].
Qed.

Lemma login_org_spec db user org k o : login_org db user org = Some (k, o) ->
  organizations db !! k = Some o /\ og_Status o = "active" /\
  exists m, memberships db !! (user, k) = Some m /\ mb_Active m = true /\ mb_Role m = "admin".
Proof.
  intros H%first_org_elem. apply list_elem_of_In, filter_In in H as [Hin HP]. simpl in HP.
  apply list_elem_of_In, elem_of_map_to_list in Hin. destruct (memberships db !! _) as [m |]; [| done].
  rewrite !andb_true_iff, !String.eqb_eq in HP. destruct HP as [[[? ?] ?] _]. split_and!; eauto 10.
Qed.

Lemma login_body_ok rid id raw now r db s db' : login_body sv rid id raw now r db = Ok (Ok s, db') ->
  exists k u org o m, find_user db (to_lower (lr_Username r)) = Some (k, u) /\ us_Status u = "active" /\
    locked_at (us_LockedUntil u) now = false /\ bcrypt_compare (us_PasswordHash u) (lr_Password r) = true /\
    organizations db !! org = Some o /\ og_Status o = "active" /\
    memberships db !! (k, org) = Some m /\ mb_Active m = true /\ mb_Role m = "admin" /\
    (forall j x, sessions db !! j = Some x -> se_TokenHash x <> token_hash (fst (newToken raw))) /\
    sessions db' = <[id := mkSessionRow k org (token_hash (fst (newToken raw))) (stored now)
      (stored (now + sv_SessionTTL sv)) (us_RevocationVersion u) None "session"]> (sessions db) /\
    (exists n, users db' !! k = Some (mkUser (us_Username u) (us_PasswordHash u) (us_Status u) n None (us_RevocationVersion u))) /\
    organizations db' = organizations db /\ memberships db' = memberships db /\
    s = mkSession (mkContext rid (sv_StationID sv) id k (to_lower (lr_Username r)) org (og_Name o) ["admin"] adminScopes now
          (now + sv_SessionTTL sv) (us_RevocationVersion u) (og_PolicyVersion o)) (fst (newToken raw)).
Proof.
  unfold login_body. destruct (find_user db _) as [[k u] |] eqn:Ef; [| done].
  destruct (negb _) eqn:E1; [done |]. destruct (locked_at _ _) eqn:E2; [done |].
  fold (unlocked rid k u db). pose proof (unlocked_tables rid k u db) as (S1 & M1 & O1 & C1).
  pose proof (find_user_some _ _ _ _ Ef) as [Hu _].
  assert (Huser : exists n w, users (snd (unlocked rid k u db)) !! k =
    Some (mkUser (us_Username u) (us_PasswordHash u) (us_Status u) n w (us_RevocationVersion u))).
  { unfold unlocked. destruct (us_LockedUntil u) eqn:El; simpl.
    - rewrite lookup_alter_eq, Hu. by eexists _, _.
    - exists (us_FailedLogins u), None. rewrite Hu. destruct u; simpl in *; congruence. }
  destruct (unlocked rid k u db) as [failed db1]. simpl in *.
  destruct (negb (bcrypt_compare _ _)) eqn:E3; [unfold wrong_password; by destruct (_ <=? _) |].
  destruct (login_org _ _ _) as [[org o] |] eqn:El; [| done].
  intros ([out db2] & Hs & [= <- <-])%mbind_ok. apply session_spec in Hs as [Hi ->].
  apply insert_session_spec in Hi as (_ & Hh & _ & _ & ->). simpl in *.
  apply login_org_spec in El as (Ho & Hos & m & Hm & Ha & Hr). rewrite O1 in Ho. rewrite M1 in Hm. rewrite S1 in Hh.
  bool_norm. destruct Huser as (n & w & Huser). exists k, u, org, o, m. split_and!; try done; simpl.
  - by rewrite S1.
  - rewrite lookup_alter_eq, Huser. simpl. by eexists.
Qed.

(** C18: a login is good for its session: until the session expires, reading it with
    the issued token gives the user, organization, versions and session of the
    login; the instants come back at the precision of the table. *)
Theorem login_then_me db rid id raw now r db' s rid' now' :
  identity_reachable sv db -> length raw = 32%nat ->
  Login sv rid id raw now r true db = (db', Ok s) -> now <= now' -> now' < stored (now + sv_SessionTTL sv) ->
  Me sv rid' (sn_AccessToken s) now' true db' =
    (db', Ok (let c := sn_Context s in
      mkContext rid' (ic_StationID c) (ic_SessionID c) (ic_UserID c) (ic_Username c) (ic_OrganizationID c)
        (ic_OrganizationName c) (ic_Roles c) (ic_Scopes c) (stored (ic_IssuedAt c)) (stored (ic_ExpiresAt c))
        (ic_RevocationVersion c) (ic_PolicyVersion c))).
Proof.
  intros [Hun _]%reachable_unique Hraw H Hle Hlt. unfold Login, commit in H. destruct (negb (validLogin _ _ _)); [done |].
  simpl in H. destruct (login_body _ _ _ _ _ _ db) as [[ans d] |] eqn:E; [| done]. injection H as <- ->.
  assert (Hd : hash_unique d) by (eapply sess_effect_unique; [by eapply login_effect | done]).
  apply login_body_ok in E as (k & u & org & o & m & Hf & Hst & Hlk & _ & Ho & Hos & Hm & Ha & Hr & Hh & Hs & (n & Hu) & O' & M' & ->).
  apply find_user_some in Hf as [_ Hname]. simpl.
  set (row := mkSessionRow k org _ _ _ _ _ _) in *. set (u' := mkUser _ _ _ _ _ _) in *.
  rewrite (Me_accepts rid' _ now' d (mkJoined id row u' o m)).
  - unfold context_of. simpl. by rewrite Hname.
  - by apply issued_token_valid.
  - apply (join_session_intro d id row u' o m Hd); simpl; rewrite ?Hs, ?O', ?M'; try done. by rewrite lookup_insert_eq.
  - by split_and!.
Qed.

(** ** Guessing *)

Record attempt := mkAttempt { at_Request : string; at_ID : string; at_Raw : list Z; at_Now : Time; at_Password : string }.
Definition try_login (name : string) (a : attempt) (db : IdentityDB) : IdentityDB * result Fault Session :=
  Login sv (at_Request a) (at_ID a) (at_Raw a) (at_Now a) (mkLogin name (at_Password a) "") true db.
Definition guesses (name : string) (l : list attempt) (db : IdentityDB) : IdentityDB :=
  foldl (fun d a => fst (try_login name a d)) db l.

(** The account under attack. *)
Definition account (db : IdentityDB) (name k : string) (u : UserRow) : Prop :=
  names_unique db /\ users db !! k = Some u /\ us_Username u = to_lower name /\ us_Status u = "active".
Definition wrong (name : string) (u : UserRow) (a : attempt) : Prop :=
  validLogin name (at_Password a) "" = true /\ bcrypt_compare (us_PasswordHash u) (at_Password a) = false.

Definition after_failure (u : UserRow) (now : Time) : UserRow :=
  mkUser (us_Username u) (us_PasswordHash u) (us_Status u) (us_FailedLogins u + 1)
    (if maxFailures <=? us_FailedLogins u + 1 then Some (stored (now + lockout)) else None) (us_RevocationVersion u).

Lemma failed_login name a db k u : account db name k u -> wrong name u a -> us_LockedUntil u = None ->
  account (fst (try_login name a db)) name k (after_failure u (at_Now a)).
Proof.
  intros (Hun & Hu & Hn & Hst) [Hv Hw] Hl. unfold try_login, Login, commit. simpl. rewrite Hv. simpl.
  destruct (login_body _ _ _ _ _ _ db) as [[ans d] |] eqn:E.
  - simpl. pose proof E as [_ Hc]%login_effect.
    assert (Hun' : names_unique d) by (eapply users_effect_unique; [by left | done]).
    unfold login_body in E. simpl in E. rewrite (find_user_unique _ _ k u Hun Hu Hn), Hst, Hl in E. simpl in E.
    rewrite Hw in E. simpl in E. split_and!; try done. unfold wrong_password in E. unfold after_failure.
    destruct (maxFailures <=? us_FailedLogins u + 1); injection E as <- <-; simpl; by rewrite lookup_alter_eq, Hu.
  - exfalso. unfold login_body in E. simpl in E. rewrite (find_user_unique _ _ k u Hun Hu Hn), Hst, Hl in E. simpl in E.
    rewrite Hw in E. simpl in E. unfold wrong_password in E. by destruct (maxFailures <=? _).
Qed.

Lemma locked_login name a db k u t : account db name k u -> us_LockedUntil u = Some t -> at_Now a < t ->
  validLogin name (at_Password a) "" = true ->
  try_login name a db = (audit (at_Request a) "identity.login" "denied" (Some k) None None db, Err Locked).
Proof.
  intros (Hun & Hu & Hn & Hst) Hl Ht Hv. unfold try_login, Login, commit. simpl. rewrite Hv. simpl.
  unfold login_body. simpl. rewrite (find_user_unique _ _ k u Hun Hu Hn), Hst, Hl. simpl.
  unfold time_after. by apply Z.ltb_lt in Ht as ->.
Qed.

(** C17: guessing is bounded: from any unlocked account, the wrong passwords that
    bring its failures to five, whenever they are sent, lock it for fifteen
    minutes after the last of them; until then every login is answered Locked,
    the right password included, and changes nothing but the audit. *)
Theorem guessing_locks_account name k u l last db a :
  account db name k u -> us_LockedUntil u = None -> us_FailedLogins u + Z.of_nat (length l) = 4 -> 0 <= us_FailedLogins u ->
  Forall (wrong name u) (l ++ [last]) ->
  at_Now a < stored (at_Now last + lockout) -> validLogin name (at_Password a) "" = true ->
  let d := guesses name (l ++ [last]) db in
  try_login name a d = (audit (at_Request a) "identity.login" "denied" (Some k) None None d, Err Locked).
Proof.
  intros Hacc Hl Hn Hpos Hw Ha Hv. simpl. revert db u Hacc Hl Hn Hpos Hw.
  induction l as [| x l IH]; intros db u Hacc Hl Hn Hpos Hw; apply Forall_cons in Hw as [Hx Hw].
  - eapply locked_login; [by apply failed_login | | exact Ha | done].
    unfold after_failure. simpl in *. assert (maxFailures <=? us_FailedLogins u + 1 = true) as ->; [| done].
    unfold maxFailures. apply Z.leb_le. lia.
  - apply (IH (fst (try_login name x db)) (after_failure u (at_Now x))); simpl in *; try lia; try done.
    + by apply failed_login.
    + assert (maxFailures <=? us_FailedLogins u + 1 = false) as ->; [| done]. unfold maxFailures. apply Z.leb_gt. lia.
Qed.
End Safety.

(** ** A concrete station for identity

    One bootstrapped administrator who logs in, refreshes, logs out and is guessed
    at: the hypotheses of the identity theorems hold on it. *)

Module IdentitySample.
Import CanonicalUuid.
#[export] Existing Instance CanonicalUuid.lib.
#[export] Instance plain : BcryptLib :=
  {| bcrypt_generate := fun _ p => Some p; bcrypt_compare := fun h p => (h =? p)%string |}.
#[export] Instance plain_laws : BcryptLaws plain.
Proof. intros salt p h [= <-]. simpl. apply String.eqb_refl. Defined.

Definition sv : Service := mkService "11111111-1111-7111-8111-111111111111" (3600 * second).
Definition user : string := "22222222-2222-7222-8222-222222222222".
Definition org : string := "33333333-3333-7333-8333-333333333333".
Definition raw1 : list Z := repeat 1 32.
Definition raw2 : list Z := repeat 2 32.
Definition raw3 : list Z := repeat 3 32.
Definition first : BootstrapRequest := mkBootstrap "Admin" "correct horse battery" " Home ".
Definition right_one : LoginRequest := mkLogin "admin" "correct horse battery" "".
Definition t0 : Time := 1000 * second.

Definition step0 := Bootstrap sv "r0" "salt" user org "s0" raw1 t0 first true empty_identity.
Definition db0 : IdentityDB := Eval vm_compute in fst step0.
Definition step1 := Login sv "r1" "s1" raw2 (t0 + second) right_one true db0.
Definition db1 : IdentityDB := Eval vm_compute in fst step1.
Definition token1 : string := Eval vm_compute in fst (newToken raw2).
Definition step2 := Refresh sv "r2" token1 raw3 (t0 + 2 * second) true db1.
Definition step3 := withSession sv "r3" token1 "logout" [] (t0 + 3 * second) true db1.
Definition db3 : IdentityDB := Eval vm_compute in fst step3.
Definition no_session : SessionRow := mkSessionRow "" "" [] 0 0 0 None "".
Definition ended : SessionRow := Eval vm_compute in default no_session (sessions db3 !! "s1").
Definition no_context : IdentityContext := mkContext "" "" "" "" "" "" "" [] [] 0 0 0 0.
Definition answer (p : IdentityDB * result Fault Session) : Session :=
  match snd p with Ok s => s | Err _ => mkSession no_context "" end.
Definition guess (n : Z) (p : string) : attempt := mkAttempt "g" "s9" raw3 (t0 + n * second) p.
Definition admin : UserRow := Eval vm_compute in default (mkUser "" "" "" 0 None 0) (users db0 !! user).
End IdentitySample.
Import IdentitySample.

Lemma reach0 : identity_reachable sv db0.
Proof.
  apply rtc_once. assert (db0 = fst step0) as -> by (vm_compute; reflexivity).
  apply (is_bootstrap sv "r0" "salt" user org "s0" raw1 t0 first true empty_identity).
Qed.
Lemma reach1 : identity_reachable sv db1.
Proof.
  eapply rtc_r; [apply reach0 |]. assert (db1 = fst step1) as -> by (vm_compute; reflexivity).
  apply (is_login sv "r1" "s1" raw2 (t0 + second) right_one true db0).
Qed.
Lemma reach_ended : identity_reachable sv db3.
Proof.
  eapply rtc_r; [apply reach1 |]. assert (db3 = fst step3) as -> by (vm_compute; reflexivity).
  apply (is_session sv "r3" token1 "logout" [] (t0 + 3 * second) true db1).
Qed.

Lemma pair_eta {A X} (p : A * X) x : snd p = x -> p = (fst p, x).
Proof. by destruct p; intros <-. Qed.


Lemma authorization_rests_on_current_rows_witness : exists j,
  join_session db1 (token_hash token1) = Some j /\ entitled j (t0 + 2 * second) /\
  ic_SessionID (sn_Context (answer step2)) = jn_ID j /\
  ic_UserID (sn_Context (answer step2)) = se_UserID (jn_Session j) /\
  ic_OrganizationID (sn_Context (answer step2)) = se_OrganizationID (jn_Session j) /\
  ic_Username (sn_Context (answer step2)) = us_Username (jn_User j) /\
  ic_Roles (sn_Context (answer step2)) = ["admin"] /\
  ic_Scopes (sn_Context (answer step2)) = adminScopes /\ ("refresh" = "me" -> fst step2 = db1).
Proof.
  apply (authorization_rests_on_current_rows sv "r2" token1 "refresh" raw3 (t0 + 2 * second) true db1).
  - right. reflexivity.
  - apply pair_eta. vm_compute. reflexivity.
Defined.

Lemma revocation_is_final_witness : sessions db3 !! "s1" = Some ended /\
  exists f, snd (withSession sv "r4" token1 "me" [] (t0 + 4 * second) true db3) = Err f.
Proof.
  apply (revocation_is_final sv db3 db3 "s1" ended (t0 + 3 * second)).
  - apply reach_ended.
  - vm_compute. reflexivity.
  - vm_compute. reflexivity.
  - vm_compute. reflexivity.
  - constructor.
  - discriminate.
Defined.

Lemma bootstrap_happens_once_witness : exists f,
  Bootstrap sv "r5" "salt" "other" "other" "s5" raw3 (t0 + 5 * second) first true (fst step0) = (fst step0, Err f).
Proof.
  apply (bootstrap_happens_once sv "r0" "salt" user org "s0" raw1 t0 first empty_identity (fst step0) (answer step0)
    (fst step0) "r5" "salt" "other" "other" "s5" raw3 (t0 + 5 * second) first true true).
  - apply pair_eta. vm_compute. reflexivity.
  - constructor.
Defined.

Lemma refresh_rotates_token_witness :
  Me sv "r6" token1 (t0 + 6 * second) true (fst step2) = (fst step2, Err Unauthenticated) /\
  exists c, Me sv "r7" (sn_AccessToken (answer step2)) (t0 + 6 * second) true (fst step2) = (fst step2, Ok c) /\
    ic_SessionID c = ic_SessionID (sn_Context (answer step2)) /\ ic_UserID c = ic_UserID (sn_Context (answer step2)) /\
    ic_OrganizationID c = ic_OrganizationID (sn_Context (answer step2)) /\
    ic_Scopes c = ic_Scopes (sn_Context (answer step2)).
Proof.
  apply (refresh_rotates_token sv db1 "r2" token1 raw3 (t0 + 2 * second)).
  - apply reach1.
  - reflexivity.
  - vm_compute. discriminate.
  - apply pair_eta. vm_compute. reflexivity.
  - vm_compute. discriminate.
  - vm_compute. reflexivity.
Defined.

Lemma login_then_me_witness :
  Me sv "r8" (sn_AccessToken (answer step1)) (t0 + 8 * second) true (fst step1) =
    (fst step1, Ok (let c := sn_Context (answer step1) in
      mkContext "r8" (ic_StationID c) (ic_SessionID c) (ic_UserID c) (ic_Username c) (ic_OrganizationID c)
        (ic_OrganizationName c) (ic_Roles c) (ic_Scopes c) (stored (ic_IssuedAt c)) (stored (ic_ExpiresAt c))
        (ic_RevocationVersion c) (ic_PolicyVersion c))).
Proof.
  apply (login_then_me sv db0 "r1" "s1" raw2 (t0 + second) right_one).
  - apply reach0.
  - reflexivity.
  - apply pair_eta. vm_compute. reflexivity.
  - vm_compute. discriminate.
  - vm_compute. reflexivity.
Defined.

Lemma guessing_locks_account_witness :
  let d := guesses sv "admin" ([guess 1 "a"; guess 2 "b"; guess 3 "c"; guess 4 "d"] ++ [guess 5 "e"]) db0 in
  try_login sv "admin" (guess 60 "correct horse battery") d =
    (audit "g" "identity.login" "denied" (Some user) None None d, Err Locked).
Proof.
  apply (guessing_locks_account sv "admin" user admin [guess 1 "a"; guess 2 "b"; guess 3 "c"; guess 4 "d"] (guess 5 "e") db0
    (guess 60 "correct horse battery")).
  - split; [apply (reachable_unique sv db0 reach0) |]. repeat split; vm_compute; reflexivity.
  - vm_compute. reflexivity.
  - vm_compute. reflexivity.
  - vm_compute. discriminate.
  - repeat constructor; vm_compute; reflexivity.
  - vm_compute. reflexivity.
  - vm_compute. reflexivity.
Defined.
