(* ===== verification/Catalog.v ===== *)
(** * Catalog: registered applications and workload observations

    internal/catalog: catalog.go (registry, [Load], [List], [Get],
    [ProjectManagement]), snapshot.go ([Snapshot]), discovery.go (the items of a
    deployment list) and kubernetes.go (the observation of a deployment). The
    workload reader and the discoverer are arguments: a reader maps an entry to its
    observation, a discovery is the decoded list or an error. The four workers of
    [List] and [Snapshot] each write the slot of the index they received, so the
    filled slice is the map of [observe] whatever the schedule. *)
From stdpp Require Import sorting.
From S2P Require Import Prelude GoStd.
From Stdlib Require Import Ascii.

(** ** Data *)
Record Image := mkImage { im_Component : string; im_Image : string }.
#[export] Instance Image_eq : EqDecision Image.
Proof. solve_decision. Defined.

Record Helm := mkHelm {
  he_OCIRef : string; he_ChartName : string; he_ChartVersion : string; he_ManifestDigest : string;
  he_PackageDigest : string; he_PackageSizeBytes : Z; he_TargetNamespace : string;
  he_ReleaseName : string; he_ValuesSource : string }.
#[export] Instance Helm_eq : EqDecision Helm.
Proof. solve_decision. Defined.

(** [Models] and [Images] are slices: nil is [None]. A nil [Capabilities] behaves
    as an empty one (it is [omitempty]). *)
Record Entry := mkEntry {
  en_AppID : string; en_DisplayName : string; en_GroupID : string; en_Brand : string;
  en_SortOrder : Z; en_IconRef : string; en_Description : string; en_Capabilities : list string;
  en_DisabledReason : string; en_Helm : option Helm; en_Models : option (list string);
  en_Source : string; en_Namespace : string; en_WorkloadName : string; en_Version : string;
  en_Images : option (list Image) }.
#[export] Instance Entry_eq : EqDecision Entry.
Proof. solve_decision. Defined.

(** A nil [Ownership] map reads as an empty one. *)
Record Observation := mkObservation {
  ob_UID : string; ob_ManagementStatus : string; ob_Ownership : gmap string string;
  ob_State : string; ob_Reason : string; ob_ObservedAt : Time;
  ob_Desired : option Z; ob_Ready : option Z; ob_Images : list Image }.
#[export] Instance Observation_eq : EqDecision Observation.
Proof. solve_decision. Defined.

Record Item := mkItem { it_Entry : Entry; it_ModelStatus : string; it_Deployment : Observation }.
#[export] Instance Item_eq : EqDecision Item.
Proof. solve_decision. Defined.
Definition it_AppID (i : Item) : string := en_AppID (it_Entry i).

Record SnapshotItem := mkSnapshotItem { si_Item : Item; si_Registered : bool }.
Definition si_AppID (i : SnapshotItem) : string := it_AppID (si_Item i).

Definition with_deployment (d : Observation) (i : Item) : Item := mkItem (it_Entry i) (it_ModelStatus i) d.
Definition with_status (s : string) (d : Observation) : Observation :=
  mkObservation (ob_UID d) s (ob_Ownership d) (ob_State d) (ob_Reason d) (ob_ObservedAt d)
    (ob_Desired d) (ob_Ready d) (ob_Images d).

(** [m[k]] on a map of strings. *)
Definition go_get (m : gmap string string) (k : string) : string := default "" (m !! k).

(** [item.Namespace + "/" + item.WorkloadName]. *)
Definition target (e : Entry) : string := en_Namespace e +:+ "/" +:+ en_WorkloadName e.
Definition location (i : Item) : string := target (it_Entry i).

(** ** Patterns *)
Module CatalogPatterns.
Import Regexp.
Definition dash (c : ascii) : bool := lower_alnum c || bool_decide (c = "-"%char).
(** [^[a-z0-9]([-a-z0-9]*[a-z0-9])?$] *)
Definition dns : re := Cat (Class lower_alnum) (opt (Cat (Star (Class dash)) (Class lower_alnum))).
Definition number : re :=
  Alt (lit "0") (Cat (Class (fun c => is_digit c && negb (bool_decide (c = "0"%char)))) (Star (Class is_digit))).
(** Three numbers without leading zeros, separated by dots. *)
Definition version : re := Cat number (Cat (lit ".") (Cat number (Cat (lit ".") number))).
End CatalogPatterns.
Definition dnsName (s : string) : bool := Regexp.matches CatalogPatterns.dns s.
Definition version (s : string) : bool := Regexp.matches CatalogPatterns.version s.

Definition ValidGroup (group : string) : bool :=
  slices_contains ["image"; "music"; "video"; "channel"; "system"; "desktop"; "blender"] group.
Definition ValidBrand (brand : string) : bool :=
  slices_contains ["vf"; "minimax"; "github"; "blender"; "comfyui"] brand.

(** ** The registry file *)

Definition dns63 (s : string) : bool := dnsName s && (len s <=? 63).

Definition valid_entry (e : Entry) : bool :=
  dns63 (en_AppID e) && dns63 (en_Namespace e) && dns63 (en_WorkloadName e)
  && negb (en_DisplayName e =? "")%string && ValidGroup (en_GroupID e)
  && ((en_Version e =? "")%string || version (en_Version e))
  && negb ((en_Version e =? "")%string && (en_DisabledReason e =? "")%string)
  && ValidBrand (en_Brand e) && bool_decide (is_Some (en_Models e))
  && negb (bool_decide (default [] (en_Images e) = [])) && has_prefix (en_Source e) "deploys/"
  && negb (contains (en_Source e) "..").

Definition valid_images (e : Entry) : bool :=
  forallb (fun im => negb (im_Component im =? "")%string && negb (im_Image im =? "")%string)
    (default [] (en_Images e)).

Fixpoint load_entries (ids targets : gset string) (l : list Entry) : result string unit :=
  match l with
  | [] => Ok ()
  | e :: rest =>
      reject "invalid catalog entry" when
        negb (valid_entry e) || bool_decide (en_AppID e ∈ ids) || bool_decide (target e ∈ targets) ;;
      reject "invalid catalog image" when negb (valid_images e) ;;
      load_entries ({[ en_AppID e ]} ∪ ids) ({[ target e ]} ∪ targets) rest
  end.

(** [Load] of the decoded file: [None] when the JSON is refused, [trailing] when
    text follows the array. *)
Definition Load (decoded : option (list Entry)) (trailing : bool) : result string (list Entry) :=
  match decoded with
  | None => Err "invalid catalog"
  | Some entries =>
      reject "invalid catalog" when (length entries =? 0)%nat || (100 <? Z.of_nat (length entries)) ;;
      reject "invalid catalog trailing data" when trailing ;;
      _ ← load_entries ∅ ∅ entries; Ok entries
  end.

(** ** Reading *)

Definition Reader := Entry -> Observation.
(** One answer of the discoverer. *)
Definition Discovery := result string (list Item).
Record Service := mkService {
  sv_entries : list Entry; sv_reader : option Reader; sv_discoverer : option Discovery }.

(** [Entries] copies every slice, so what it returns is equal, with nil slices
    made empty, and shares nothing. *)
Definition copied (e : Entry) : Entry :=
  mkEntry (en_AppID e) (en_DisplayName e) (en_GroupID e) (en_Brand e) (en_SortOrder e) (en_IconRef e)
    (en_Description e) (en_Capabilities e) (en_DisabledReason e) (en_Helm e)
    (Some (default [] (en_Models e))) (en_Source e) (en_Namespace e) (en_WorkloadName e) (en_Version e)
    (Some (default [] (en_Images e))).
Definition Entries (s : Service) : list Entry := copied <$> sv_entries s.
Definition Entry_of (s : Service) (id : string) : option Entry :=
  List.find (fun e => bool_decide (en_AppID e = id)) (Entries s).
Definition RegisteredAppIDs (s : Service) : list string := en_AppID <$> sv_entries s.

Definition observe (s : Service) (now : Time) (e : Entry) : Item :=
  mkItem e (if (length (default [] (en_Models e)) =? 0)%nat then "not_required" else "unknown")
    match sv_reader s with
    | Some read => read e
    | None => mkObservation "" "" ∅ "unknown" "unavailable" now None None []
    end.

(** A position whose own observation tells nothing. *)
Definition unobserved (o : Observation) : bool :=
  (ob_State o =? "not_installed")%string || (ob_State o =? "unknown")%string.

(** The merge loop of [List]: [seen] maps an application to its slot of [out]. *)
Fixpoint list_merge (group : string) (seen : gmap string nat) (out dynamic : list Item) : list Item :=
  match dynamic with
  | [] => out
  | dyn :: rest =>
      match seen !! it_AppID dyn with
      | Some idx =>
          list_merge group seen
            (alter (fun i => if unobserved (it_Deployment i) then with_deployment (it_Deployment dyn) i else i) idx out) rest
      | None =>
          if (group =? "")%string || (en_GroupID (it_Entry dyn) =? group)%string
          then list_merge group (<[ it_AppID dyn := length out ]> seen) (out ++ [dyn]) rest
          else list_merge group seen out rest
      end
  end.
Definition index_by (key : Item -> string) (l : list Item) : gmap string nat :=
  foldl (fun m p => <[ key (snd p) := fst p ]> m) ∅ (imap pair l).

Definition List (s : Service) (now : Time) (group : string) : list Item :=
  let out := observe s now <$>
    filter (fun e => group = "" \/ en_GroupID e = group) (Entries s) in
  match sv_discoverer s with
  | Some (Ok dynamicItems) => list_merge group (index_by it_AppID out) out dynamicItems
  | _ => out
  end.

Definition find_item (id : string) (l : list Item) : option Item :=
  List.find (fun d => bool_decide (it_AppID d = id)) l.
Definition Get (s : Service) (now : Time) (id : string) : option Item :=
  match Entry_of s id with
  | Some e =>
      let it := observe s now e in
      Some (if unobserved (it_Deployment it) then
              match sv_discoverer s with
              | Some (Ok dyns) =>
                  match find_item id dyns with
                  | Some d => with_deployment (it_Deployment d) it
                  | None => it
                  end
              | _ => it
              end
            else it)
  | None =>
      match sv_discoverer s with
      | Some (Ok dyns) => find_item id dyns
      | _ => None
      end
  end.

(** ** Ownership *)
Definition station_key (name : string) : string := "station.verdantflare.com/" +:+ name.

Definition ProjectManagement (station org : string) (i : Item) : Item :=
  let d := it_Deployment i in
  let status :=
    if (ob_UID d =? "")%string then "unknown"
    else
      let occupied :=
        if existsb (fun kv => has_prefix (fst kv) "station.verdantflare.com/") (map_to_list (ob_Ownership d))
        then "foreign" else "unmanaged" in
      if (go_get (ob_Ownership d) (station_key "station-id") =? station)%string
         && (go_get (ob_Ownership d) (station_key "organization-id") =? org)%string
         && (go_get (ob_Ownership d) (station_key "app-id") =? it_AppID i)%string
         && negb (go_get (ob_Ownership d) (station_key "template-hash") =? "")%string
      then "managed" else occupied in
  with_deployment (with_status status d) i.

(** ** The strict snapshot *)

(** [known] maps a workload position to the slot of [items]. *)
Fixpoint snapshot_merge (known : gmap string nat) (items : list SnapshotItem) (discovered : list Item) :
  result string (list SnapshotItem) :=
  match discovered with
  | [] => Ok items
  | item :: rest =>
      match known !! location item with
      | Some i =>
          reject "catalog workload identity conflict" when
            negb (bool_decide (si_AppID <$> (items !! i) = Some (it_AppID item))) ;;
          snapshot_merge known items rest
      | None => snapshot_merge (<[ location item := length items ]> known)
                  (items ++ [mkSnapshotItem item false]) rest
      end
  end.

Definition snapshot_key (i : SnapshotItem) : string :=
  si_AppID i +:+ "/" +:+ en_Namespace (it_Entry (si_Item i)) +:+ "/" +:+ en_WorkloadName (it_Entry (si_Item i)).

(** [done] tells whether the context ended before the call did; then every path
    returns its error. *)
Definition Snapshot (s : option Service) (now : Time) (done : bool) : result string (list SnapshotItem) :=
  match s with
  | None => Err "catalog unavailable"
  | Some s =>
      reject "context" when done ;;
      let observed := observe s now <$> sv_entries s in
      let items := (fun i => mkSnapshotItem i true) <$> observed in
      items ← (match sv_discoverer s with
               | None => Ok items
               | Some answer =>
                   discovered ← answer;
                   snapshot_merge (index_by location observed) items discovered
               end);
      reject "catalog snapshot limit exceeded" when 1000 <? Z.of_nat (length items) ;;
      Ok (sort_by snapshot_key items)
  end.

(** ** Deployments of the cluster *)

Record Condition := mkCondition { cn_Type : string; cn_Status : string; cn_Reason : string }.
(** The decoded fields of a Deployment; [None] for the absent replica count, and an
    absent map reads as an empty one. *)
Record deployment := mkDeployment {
  d_Name : string; d_Namespace : string; d_Generation : Z; d_UID : string;
  d_Labels : gmap string string; d_Annotations : gmap string string;
  d_SpecReplicas : option Z; d_Containers : list Image;
  d_ObservedGeneration : Z; d_Replicas : Z; d_Ready : Z; d_Available : Z; d_Updated : Z;
  d_Conditions : list Condition }.

Definition failing (c : Condition) : bool :=
  ((cn_Type c =? "Progressing") && (cn_Status c =? "False") && (cn_Reason c =? "ProgressDeadlineExceeded")
   || (cn_Type c =? "ReplicaFailure") && (cn_Status c =? "True"))%string.

Definition observationFromDeployment (now : Time) (d : deployment) : Observation :=
  let refused := mkObservation "" "" ∅ "unknown" "invalid_response" now None None [] in
  if (d_Generation d <? 1) || (length (d_Containers d) =? 0)%nat then refused
  else
    let desired := default 1 (d_SpecReplicas d) in
    if desired <? 0 then refused
    else
      let out state reason :=
        mkObservation (d_UID d) "" (d_Annotations d) state reason now (Some desired) (Some (d_Ready d))
          (d_Containers d) in
      if d_ObservedGeneration d <? d_Generation d then out "starting" "reconciling"
      else if desired =? 0 then
        if d_Replicas d =? 0 then out "stopped" "scaled_to_zero" else out "stopping" "scaling_down"
      else if existsb failing (d_Conditions d) then out "degraded" "deployment_failed"
      else if (d_Replicas d =? desired) && (d_Updated d =? desired) && (d_Ready d =? desired)
              && (d_Available d =? desired)
      then out "ready" "replicas_ready"
      else out "starting" "reconciling".

Definition nonempty_or (v fallback : string) : string := if (v =? "")%string then fallback else v.

Definition itemFromDeployment (now : Time) (d : deployment) : option Item :=
  if negb (go_get (d_Labels d) "apps.verdantflare.com/managed" =? "true")%string then None
  else
    let appID := nonempty_or (go_get (d_Labels d) "app.kubernetes.io/name") (d_Name d) in
    if negb (dns63 appID) then None
    else
      let groupID := go_get (d_Labels d) "apps.verdantflare.com/group" in
      if negb (ValidGroup groupID) then None
      else
        let brand := go_get (d_Labels d) "apps.verdantflare.com/brand" in
        let brand := if slices_contains ["vf"; "minimax"; "github"] brand then brand else "github" in
        let ver := go_get (d_Labels d) "app.kubernetes.io/version" in
        let ver := if version ver then ver else "0.1.0" in
        let displayName := nonempty_or (go_get (d_Annotations d) "apps.verdantflare.com/display-name") appID in
        let models := filter (fun p => p <> "")
          (TrimSpace <$> split_byte ","%char (go_get (d_Annotations d) "apps.verdantflare.com/models")) in
        let source := go_get (d_Annotations d) "apps.verdantflare.com/source" in
        let source := if (source =? "")%string || contains source ".." || negb (has_prefix source "deploys/")
                      then "deploys/k8s/discovered.yaml" else source in
        if negb (dns63 (d_Namespace d)) || negb (dns63 (d_Name d)) then None
        else
          let images := filter (fun c => im_Component c <> "" /\ im_Image c <> "") (d_Containers d) in
          if (length images =? 0)%nat then None
          else
            Some (mkItem
              (mkEntry appID displayName groupID brand 0 "" "" [] "" None (Some models) source
                 (d_Namespace d) (d_Name d) ver (Some images))
              (if (length models =? 0)%nat then "not_required" else "unknown")
              (observationFromDeployment now d)).

(** [seen] by application: later items of the same application are dropped. *)
Fixpoint first_per_app (seen : gset string) (l : list Item) : list Item :=
  match l with
  | [] => []
  | it :: rest =>
      if bool_decide (it_AppID it ∈ seen) then first_per_app seen rest
      else it :: first_per_app ({[ it_AppID it ]} ∪ seen) rest
  end.

(** [decodeDeploymentList] of the decoded list; [None] when the JSON is refused. *)
Definition decodeDeploymentList (now : Time) (body : option (list deployment)) : result string (list Item) :=
  match body with
  | None => Err "decode"
  | Some items => Ok (first_per_app ∅ (omap (itemFromDeployment now) items))
  end.

Definition defaultDiscoveryNamespaces : list string :=
  ["verdantflare-app"; "verdantflare-station"; "verdantflare-video"; "verdantflare-image";
   "verdantflare-music"; "verdantflare-speech"; "verdantflare-comfyui"; "verdantflare-blender";
   "verdantflare-google"; "verdantflare-chatgpt"; "verdantflare-grok"].

Fixpoint configured_namespaces (seen : gset string) (parts : list string) : list string :=
  match parts with
  | [] => []
  | part :: rest =>
      let ns := TrimSpace part in
      if (ns =? "")%string || negb (dns63 ns) || bool_decide (ns ∈ seen) then configured_namespaces seen rest
      else ns :: configured_namespaces ({[ ns ]} ∪ seen) rest
  end.
Definition DiscoveryNamespaces (raw : string) : list string :=
  let out := configured_namespaces ∅ (split_byte ","%char raw) in
  if (0 <? length out)%nat then out else defaultDiscoveryNamespaces.

(** The API server: the answer to a list request (of the cluster or of one
    namespace). [None] is a failed request or another status. *)
Record Cluster := mkCluster {
  cl_list : option (option (list deployment));
  cl_namespace : string -> option (option (list deployment)) }.

Definition namespace_items (now : Time) (k : Cluster) (ns : string) : list Item :=
  match cl_namespace k ns with
  | Some body => match decodeDeploymentList now body with Ok items => items | Err _ => [] end
  | None => []
  end.
Definition Discover (now : Time) (configured : string) (k : Cluster) : Discovery :=
  match cl_list k with
  | Some body => decodeDeploymentList now body
  | None => Ok (first_per_app ∅ (mjoin (namespace_items now k <$> DiscoveryNamespaces configured)))
  end.

(** One answer of the strict list request. *)
Record ListAnswer := mkListAnswer {
  la_status : Z; la_items : option (list deployment);   (** nil when the field is absent *)
  la_decodes : bool; la_trailing : bool; la_over_limit : bool; la_continue : string }.

Fixpoint strict_items (now : Time) (seen : gset string) (l : list deployment) : result string (list Item) :=
  match l with
  | [] => Ok []
  | d :: rest =>
      match itemFromDeployment now d with
      | None => strict_items now seen rest
      | Some item =>
          let key := location item in
          reject "duplicate workload identity" when bool_decide (key ∈ seen) ;;
          let label := go_get (d_Labels d) "app.kubernetes.io/version" in
          let e := it_Entry item in
          let item := mkItem
            (mkEntry (en_AppID e) (en_DisplayName e) (en_GroupID e) (en_Brand e) (en_SortOrder e) (en_IconRef e)
               (en_Description e) (en_Capabilities e) (en_DisabledReason e) (en_Helm e) (en_Models e)
               (en_Source e) (en_Namespace e) (en_WorkloadName e) (if version label then label else "")
               (en_Images e)) (it_ModelStatus item) (it_Deployment item) in
          items ← strict_items now ({[ key ]} ∪ seen) rest;
          Ok (item :: items)
      end
  end.

Definition DiscoverSnapshot (now : Time) (answer : option ListAnswer) : Discovery :=
  match answer with
  | None => Err "workload discovery unavailable"
  | Some a =>
      reject "workload discovery unavailable" when negb (la_status a =? 200) ;;
      reject "invalid workload snapshot" when negb (la_decodes a) ;;
      match la_items a with
      | None => Err "incomplete workload snapshot"
      | Some items =>
          reject "incomplete workload snapshot" when
            la_trailing a || la_over_limit a || negb (la_continue a =? "")%string
            || (1000 <? Z.of_nat (length items)) ;;
          strict_items now ∅ items
      end
  end.

(** The answer to a read of one Deployment: the status, and the decoded body
    ([None] when it is refused). *)
Definition Observe (now : Time) (answer : option (Z * option deployment)) : Observation :=
  let out state reason := mkObservation "" "" ∅ state reason now None None [] in
  match answer with
  | None => out "unknown" "unavailable"
  | Some (status, body) =>
      if status =? 404 then out "not_installed" "not_found"
      else if (status =? 401) || (status =? 403) then out "unknown" "forbidden"
      else if negb (status =? 200) then out "unknown" "unavailable"
      else match body with
           | None => out "unknown" "invalid_response"
           | Some d => observationFromDeployment now d
           end
  end.

(** ** The strict snapshot loses nothing and registers nothing

    Facts about [Catalog.Snapshot]: the merge of the registered observations with
    the discovered workloads. *)
#[local] Open Scope list_scope.
#[local] Open Scope Z_scope.

Definition si_location (i : SnapshotItem) : string := location (si_Item i).

(** [known] names exactly the positions of [items]. *)
Definition indexes (known : gmap string nat) (items : list SnapshotItem) : Prop :=
  forall key i, known !! key = Some i <-> si_location <$> items !! i = Some key.

Lemma indexes_NoDup known items : indexes known items -> NoDup (si_location <$> items).
Proof.
  intros H. apply NoDup_alt. intros i j key Hi Hj. rewrite list_lookup_fmap in Hi, Hj.
  apply H in Hi, Hj. congruence.
Qed.

Lemma indexes_snoc known items item : indexes known items -> known !! si_location item = None ->
  indexes (<[ si_location item := length items ]> known) (items ++ [item]).
Proof.
  intros H Hnone key i. rewrite lookup_insert. case_decide as Hk; subst.
  - split; [intros [= <-]; by rewrite lookup_app_r, Nat.sub_diag |].
    intros E. destruct (decide (i < length items)%nat).
    + rewrite lookup_app_l in E by done. apply H in E. congruence.
    + destruct ((items ++ [item]) !! i) eqn:El; [| done].
      apply lookup_lt_Some in El. rewrite length_app in El. simpl in El. f_equal. lia.
  - rewrite (H key i). destruct (decide (i < length items)%nat); [by rewrite lookup_app_l by done |].
    rewrite (lookup_ge_None_2 items i) by lia. split; [done |].
    rewrite lookup_app_r by lia. destruct (i - length items)%nat as [| k] eqn:E; simpl; [congruence | by destruct k].
Qed.

Lemma index_by_indexes (l : list Item) : NoDup (location <$> l) ->
  indexes (index_by location l) ((fun i => mkSnapshotItem i true) <$> l).
Proof.
  induction l as [| x l IH] using rev_ind; intros Hn.
  - intros key i. change (index_by location []) with (∅ : gmap string nat). rewrite lookup_empty. by split.
  - rewrite fmap_app in Hn. apply NoDup_app in Hn as (Hn & Hd & _). specialize (IH Hn).
    assert (index_by location (l ++ [x]) = <[ location x := length l ]> (index_by location l)) as ->.
    { unfold index_by. rewrite imap_app, foldl_app. simpl. by rewrite Nat.add_0_r. }
    rewrite fmap_app. simpl.
    pose proof (indexes_snoc (index_by location l) ((fun i => mkSnapshotItem i true) <$> l) (mkSnapshotItem x true)) as Hs.
    rewrite length_fmap in Hs. apply Hs; [done |].
    destruct (index_by location l !! si_location (mkSnapshotItem x true)) as [i |] eqn:E; [| done]. exfalso.
    apply IH in E. rewrite list_lookup_fmap in E.
    destruct (l !! i) as [y |] eqn:Ey; [| done]. simpl in E. injection E as E.
    apply (Hd (location y)); [apply list_elem_of_fmap; exists y; split; [done | by eapply list_elem_of_lookup_2] |].
    unfold si_location in E. simpl in E. rewrite E. left.
Qed.

Lemma snapshot_merge_spec discovered : forall known items out,
  indexes known items -> snapshot_merge known items discovered = Ok out ->
  (exists added, out = items ++ added /\ Forall (fun i => si_Registered i = false /\ si_Item i ∈ discovered) added) /\
  NoDup (si_location <$> out) /\
  forall d, d ∈ discovered -> exists i, i ∈ out /\ si_location i = location d /\ si_AppID i = it_AppID d.
Proof.
  induction discovered as [| d discovered IH]; intros known items out Hi; simpl.
  { intros [= <-]. split_and!; [exists []; by rewrite app_nil_r | by eapply indexes_NoDup |].
    intros x Hx. by apply elem_of_nil in Hx. }
  destruct (known !! location d) as [i |] eqn:E.
  - destruct (negb (bool_decide _)) eqn:Ea; [done |]. bool_norm.
    intros ((added & -> & Hadd) & Hn & Hd)%IH; [| done]. split_and!; [| done |].
    + exists added. split; [done |]. eapply Forall_impl; [exact Hadd |]. intros x [? ?]. split; [done | by right].
    + intros x [-> | Hx]%elem_of_cons; [| by apply Hd].
      apply Hi in E. destruct (items !! i) as [y |] eqn:Ey; [| done]. simpl in E, Ea. simplify_eq.
      exists y. split_and!; try done. apply elem_of_app. left. by eapply list_elem_of_lookup_2.
  - intros H. apply IH in H as ((added & -> & Hadd) & Hn & Hd);
      [| by apply (indexes_snoc known items (mkSnapshotItem d false))].
    rewrite <- app_assoc in *. split_and!; [| done |].
    + exists ([mkSnapshotItem d false] ++ added). split; [done |]. constructor; [split; [done | left] |].
      eapply Forall_impl; [exact Hadd |]. intros x [? ?]. split; [done | by right].
    + intros x [-> | Hx]%elem_of_cons; [| by apply Hd].
      exists (mkSnapshotItem d false). split_and!; try done. set_solver.
Qed.

(** What a complete snapshot of a service is: every registered entry with its own
    direct observation, every discovered workload under its own position and
    application, and nothing else; no position twice. *)
Record complete_snapshot (s : Service) (now : Time) (items : list SnapshotItem) : Prop := {
  cs_registered e : e ∈ sv_entries s -> mkSnapshotItem (observe s now e) true ∈ items;
  cs_discovered answer d : sv_discoverer s = Some (Ok answer) -> d ∈ answer ->
    exists i, i ∈ items /\ si_location i = location d /\ si_AppID i = it_AppID d;
  cs_origin i : i ∈ items ->
    if si_Registered i then exists e, e ∈ sv_entries s /\ si_Item i = observe s now e
    else exists answer, sv_discoverer s = Some (Ok answer) /\ si_Item i ∈ answer;
  cs_positions : NoDup (si_location <$> items) }.

Lemma complete_snapshot_perm s now a b : a ≡ₚ b -> complete_snapshot s now a -> complete_snapshot s now b.
Proof.
  intros Hp [H1 H2 H3 H4]. split.
  - intros e. rewrite <- Hp. apply H1.
  - intros answer d Ha Hd. destruct (H2 answer d Ha Hd) as (i & Hi & H). exists i. by rewrite <- Hp.
  - intros i. rewrite <- Hp. apply H3.
  - by rewrite <- Hp.
Qed.

Lemma complete_snapshot_base s now added :
  let base := (fun e => mkSnapshotItem (observe s now e) true) <$> sv_entries s in
  Forall (fun i => si_Registered i = false /\ exists answer, sv_discoverer s = Some (Ok answer) /\ si_Item i ∈ answer) added ->
  NoDup (si_location <$> base ++ added) ->
  (forall answer d, sv_discoverer s = Some (Ok answer) -> d ∈ answer ->
     exists i, i ∈ base ++ added /\ si_location i = location d /\ si_AppID i = it_AppID d) ->
  complete_snapshot s now (base ++ added).
Proof.
  intros base Hadd Hn Hd. split; [| done | | done].
  - intros e He. apply elem_of_app. left. apply list_elem_of_fmap. by exists e.
  - intros i [(e & -> & He)%list_elem_of_fmap | Hi]%elem_of_app; simpl; [eauto |].
    rewrite Forall_forall in Hadd. by destruct (Hadd i Hi) as [-> ?].
Qed.

(** The strict snapshot is lossless. When it answers, it is complete (every
    registered entry with its own direct observation, every discovered workload
    under its own position and application, no position twice), holds at most 1000
    items sorted by their key, and marks an item registered exactly when it is the
    observation of a registered entry: discovery never makes an application
    installable nor replaces a registered observation. *)
Theorem snapshot_is_lossless s now items :
  NoDup (target <$> sv_entries s) -> Snapshot (Some s) now false = Ok items ->
  complete_snapshot s now items /\ Z.of_nat (length items) <= 1000 /\
  exists unsorted, items = sort_by snapshot_key unsorted.
Proof.
  intros Hn. unfold Snapshot. rewrite <- list_fmap_compose.
  set (observed := observe s now <$> sv_entries s).
  assert (NoDup (location <$> observed)) as Hno.
  { unfold observed. rewrite <- list_fmap_compose. exact Hn. }
  pose proof (index_by_indexes observed Hno) as Hidx. unfold observed in Hidx at 2. rewrite <- list_fmap_compose in Hidx.
  set (base := ((fun i => mkSnapshotItem i true) ∘ observe s now) <$> sv_entries s) in *.
  assert (forall out, complete_snapshot s now out ->
    (reject "catalog snapshot limit exceeded"%string when (1000 <? Z.of_nat (length out)) ;; Ok (sort_by snapshot_key out)) = Ok items ->
    complete_snapshot s now items /\ Z.of_nat (length items) <= 1000 /\
    exists unsorted, items = sort_by snapshot_key unsorted) as Hfinish.
  { intros out Hc. destruct (1000 <? _) eqn:Elim; [done |]. intros [= <-]. bool_norm.
    assert (sort_by snapshot_key out ≡ₚ out) as Hp by apply merge_sort_Permutation.
    split_and!; [by eapply complete_snapshot_perm | by rewrite Hp | by exists out]. }
  simpl. destruct (sv_discoverer s) as [[answer | e] |] eqn:Ed; simpl; [| done |].
  - destruct (snapshot_merge (index_by location observed) base answer) as [out | e] eqn:Em; [| done]. simpl.
    destruct (snapshot_merge_spec answer _ _ _ Hidx Em) as ((added & -> & Hadd) & Hnd & Hdisc).
    apply Hfinish. apply complete_snapshot_base; [| done |].
    + eapply Forall_impl; [exact Hadd |]. intros i [? ?]. split; [done |]. eauto.
    + intros a d Ha. rewrite Ed in Ha. simplify_eq. apply Hdisc.
  - apply Hfinish. rewrite <- (app_nil_r base). apply complete_snapshot_base; [constructor | | by intros; congruence].
    rewrite app_nil_r. by eapply indexes_NoDup.
Qed.
