(* ===== verification/SemVer.v ===== *)
(** * Application versions: internal/appcenter/version.go

    [VersionNewer] decides whether an upgrade may be offered. *)
From S2P Require Import Prelude GoStd.
From Stdlib Require Import Ascii.

(** [strings.Compare]. *)
Definition str_compare (a b : string) : Z :=
  if str_ltb a b then -1 else if str_ltb b a then 1 else 0.

Definition semver_part (part : string) : option Z :=
  match atoi part with
  | None => None
  | Some n =>
      if (n <? 0) || (part =? "")%string || ((1 <? len part) && has_prefix part "0") then None else Some n
  end.

(** The core numbers and the pre-release text. *)
Definition parseSemVer (value : string) : option (Z * Z * Z * string) :=
  let value := trim_prefix (TrimSpace value) "v" in
  let value := fst (fst (cut_byte "+"%char value)) in
  let '(base, pre, _) := cut_byte "-"%char value in
  match split_byte "."%char base with
  | [x; y; z] =>
      a ← semver_part x; b ← semver_part y; c ← semver_part z; Some (a, b, c, pre)
  | _ => None
  end.

(** One step of the loop: [0] continues with the next identifier. *)
Definition identifier_step (a b : string) : Z :=
  match atoi a, atoi b with
  | Some an, Some bn => if negb (an =? bn) then (if bn <? an then 1 else -1) else 0
  | Some _, None => -1
  | None, Some _ => 1
  | None, None => if negb (a =? b)%string then str_compare a b else 0
  end.
Fixpoint compare_identifiers (l m : list string) : Z :=
  match l, m with
  | a :: l', b :: m' =>
      let c := identifier_step a b in
      if negb (c =? 0) then c else compare_identifiers l' m'
  | _, _ => Z.of_nat (length l) - Z.of_nat (length m)
  end.
Definition comparePreRelease (a b : string) : Z :=
  compare_identifiers (split_byte "."%char a) (split_byte "."%char b).

Definition VersionNewer (target installed : string) : bool :=
  match parseSemVer target with
  | None => false
  | Some (t0, t1, t2, tPre) =>
      match parseSemVer installed with
      | None => false
      | Some (i0, i1, i2, iPre) =>
          if negb (t0 =? i0) then i0 <? t0
          else if negb (t1 =? i1) then i1 <? t1
          else if negb (t2 =? i2) then i2 <? t2
          else if (tPre =? iPre)%string then false
          else if (tPre =? "")%string then true
          else if (iPre =? "")%string then false
          else 0 <? comparePreRelease tPre iPre
      end
  end.

(** Precedence of the SemVer text, and its edges. *)
Example newer_examples :
  VersionNewer "1.10.0" "1.9.9" = true /\ VersionNewer "v1.0.0" "1.0.0-rc.1" = true /\
  VersionNewer "1.0.0-rc.11" "1.0.0-rc.2" = true /\ VersionNewer "1.0.0-rc.beta" "1.0.0-rc.2" = true /\
  VersionNewer "1.0.0+build" "1.0.0" = false /\ VersionNewer "1.0" "0.9.0" = false /\
  VersionNewer "01.0.0" "0.9.0" = false.
Proof. vm_compute. auto 10. Qed.

(** ** Comparators

    A three-way comparator whose weak order is total. *)
Record comparator {A} (cmp : A -> A -> Z) : Prop := {
  cmp_refl a : cmp a a = 0;
  cmp_flip a b : Z.sgn (cmp b a) = - Z.sgn (cmp a b);
  cmp_trans a b c : 0 <= cmp a b -> 0 <= cmp b c -> 0 <= cmp a c }.
Arguments cmp_refl {A cmp}. Arguments cmp_flip {A cmp}. Arguments cmp_trans {A cmp}.

Lemma comparator_nonneg {A} (cmp : A -> A -> Z) (C : comparator cmp) a b :
  0 <= cmp a b <-> ~ 0 < cmp b a.
Proof. pose proof (cmp_flip C a b). lia. Qed.

(** The strict order of a comparator. *)
Lemma comparator_strict {A} (cmp : A -> A -> Z) (C : comparator cmp) a b c :
  0 < cmp a b -> 0 <= cmp b c -> 0 < cmp a c.
Proof.
  intros H1 H2. destruct (Z_lt_le_dec 0 (cmp a c)) as [| H3]; [done |]. exfalso.
  assert (0 <= cmp c a) as H4 by (pose proof (cmp_flip C a c); lia).
  pose proof (cmp_trans C b c a H2 H4). pose proof (cmp_flip C a b). lia.
Qed.
Lemma comparator_strict_l {A} (cmp : A -> A -> Z) (C : comparator cmp) a b c :
  0 <= cmp a b -> 0 < cmp b c -> 0 < cmp a c.
Proof.
  intros H1 H2. destruct (Z_lt_le_dec 0 (cmp a c)) as [| H3]; [done |]. exfalso.
  assert (0 <= cmp c a) as H4 by (pose proof (cmp_flip C a c); lia).
  pose proof (cmp_trans C c a b H4 H1). pose proof (cmp_flip C b c). lia.
Qed.

Lemma comparator_pullback {A B} (f : A -> B) (cmp : B -> B -> Z) :
  comparator cmp -> comparator (fun a b => cmp (f a) (f b)).
Proof. intros C. split; intros; by eapply C. Qed.

(** First by [c1], then by [c2]. *)
Lemma comparator_then {A} (c1 c2 : A -> A -> Z) :
  comparator c1 -> comparator c2 ->
  comparator (fun a b => if c1 a b =? 0 then c2 a b else c1 a b).
Proof.
  intros C1 C2. split.
  - intros a. by rewrite (cmp_refl C1), (cmp_refl C2).
  - intros a b. pose proof (cmp_flip C1 a b). pose proof (cmp_flip C2 a b).
    destruct (c1 a b =? 0) eqn:E1, (c1 b a =? 0) eqn:E2; bool_norm; lia.
  - intros a b c. pose proof (cmp_trans C1 a b c) as Ht. pose proof (cmp_trans C2 a b c).
    pose proof (comparator_strict c1 C1 a b c). pose proof (comparator_strict_l c1 C1 a b c).
    destruct (c1 a b =? 0) eqn:E1, (c1 b c =? 0) eqn:E2, (c1 a c =? 0) eqn:E3; bool_norm; lia.
Qed.

Lemma Z_comparator : comparator (fun a b => a - b).
Proof. split; intros; lia. Qed.

Lemma str_compare_comparator : comparator str_compare.
Proof.
  unfold str_compare. split.
  - intros a. by rewrite str_ltb_irrefl.
  - intros a b. destruct (str_ltb a b) eqn:E1, (str_ltb b a) eqn:E2; try done.
    apply str_ltb_asym in E1. congruence.
  - intros a b c. destruct (str_ltb a b) eqn:E1, (str_ltb b c) eqn:E2; try (simpl; lia).
    destruct (str_ltb a c) eqn:E3; [| destruct (str_ltb c a); lia]. intros _ _.
    destruct (str_ltb b a) eqn:E4.
    + rewrite (str_ltb_trans _ _ _ E4 E3) in E2. done.
    + pose proof (str_ltb_total _ _ E1 E4). subst. congruence.
Qed.

(** The sort of an identifier: numeric ones come first. *)
Definition identifier_rank (a : string) : Z := match atoi a with Some _ => 0 | None => 1 end.
Definition identifier_number (a : string) : Z := from_nil 0 (atoi a).
Definition identifier_text (a : string) : string := match atoi a with Some _ => "" | None => a end.

Lemma identifier_step_comparator : comparator identifier_step.
Proof.
  set (c a b := if identifier_rank a - identifier_rank b =? 0 then
         (if identifier_number a - identifier_number b =? 0
          then str_compare (identifier_text a) (identifier_text b)
          else identifier_number a - identifier_number b)
       else identifier_rank a - identifier_rank b).
  assert (comparator c) as C.
  { unfold c. apply (comparator_then (fun a b => identifier_rank a - identifier_rank b)
      (fun a b => if identifier_number a - identifier_number b =? 0
          then str_compare (identifier_text a) (identifier_text b)
          else identifier_number a - identifier_number b)).
    - apply (comparator_pullback identifier_rank _ Z_comparator).
    - apply (comparator_then (fun a b => identifier_number a - identifier_number b)
               (fun a b => str_compare (identifier_text a) (identifier_text b))).
      + apply (comparator_pullback identifier_number _ Z_comparator).
      + apply (comparator_pullback identifier_text _ str_compare_comparator). }
  assert (forall a b, Z.sgn (identifier_step a b) = Z.sgn (c a b)) as Hs.
  { intros a b. unfold c, identifier_step, identifier_rank, identifier_number, identifier_text.
    destruct (atoi a) as [x |], (atoi b) as [y |]; simpl; try done.
    - destruct (x =? y) eqn:E; bool_norm; simpl.
      + subst. by rewrite Z.sub_diag.
      + destruct (x - y =? 0) eqn:E2; bool_norm; [lia |]. destruct (y <? x) eqn:E3; bool_norm; lia.
    - destruct (a =? b)%string eqn:E; bool_norm; simpl; [subst; by rewrite (cmp_refl str_compare_comparator) | done]. }
  split.
  - intros a. pose proof (Hs a a). rewrite (cmp_refl C) in H. lia.
  - intros a b. rewrite !Hs. apply C.
  - intros x y z. pose proof (Hs x y). pose proof (Hs y z). pose proof (Hs x z).
    pose proof (cmp_trans C x y z). lia.
Qed.

Lemma compare_identifiers_comparator : comparator compare_identifiers.
Proof.
  pose proof identifier_step_comparator as C. split.
  - intros l. induction l as [| a l IH]; simpl; [done |]. by rewrite (cmp_refl C).
  - intros l. induction l as [| a l IH]; intros [| b m]; simpl; try lia.
    pose proof (cmp_flip C a b). specialize (IH m).
    destruct (identifier_step a b =? 0) eqn:E1, (identifier_step b a =? 0) eqn:E2; bool_norm; simpl; lia.
  - intros l. induction l as [| a l IH]; intros [| b m] [| c n]; simpl; try lia.
    specialize (IH m n). pose proof (cmp_trans C a b c).
    pose proof (comparator_strict identifier_step C a b c).
    pose proof (comparator_strict_l identifier_step C a b c).
    destruct (identifier_step a b =? 0) eqn:E1, (identifier_step b c =? 0) eqn:E2,
      (identifier_step a c =? 0) eqn:E3; bool_norm; simpl; lia.
Qed.

(** ** VersionNewer as a comparator *)

(** A release is above every pre-release of its core. *)
Definition pre_compare (a b : string) : Z :=
  if (if (a =? "")%string then 1 else 0) - (if (b =? "")%string then 1 else 0) =? 0
  then comparePreRelease a b
  else (if (a =? "")%string then 1 else 0) - (if (b =? "")%string then 1 else 0).

Definition semver_compare (x y : Z * Z * Z * string) : Z :=
  let '(a0, a1, a2, p) := x in
  let '(b0, b1, b2, q) := y in
  if a0 - b0 =? 0 then if a1 - b1 =? 0 then if a2 - b2 =? 0 then pre_compare p q
  else a2 - b2 else a1 - b1 else a0 - b0.

Lemma pre_compare_comparator : comparator pre_compare.
Proof.
  apply (comparator_then (fun a b : string => (if (a =? "")%string then 1 else 0) - (if (b =? "")%string then 1 else 0))
           comparePreRelease).
  - apply (comparator_pullback (fun a : string => if (a =? "")%string then 1 else 0) _ Z_comparator).
  - apply (comparator_pullback (split_byte "."%char) _ compare_identifiers_comparator).
Qed.

Lemma semver_comparator : comparator semver_compare.
Proof.
  set (n0 := fun x : Z * Z * Z * string => fst (fst (fst x))).
  set (n1 := fun x : Z * Z * Z * string => snd (fst (fst x))).
  set (n2 := fun x : Z * Z * Z * string => snd (fst x)).
  pose proof (comparator_then (fun x y => n2 x - n2 y) (fun x y => pre_compare (snd x) (snd y))
    (comparator_pullback n2 _ Z_comparator) (comparator_pullback snd _ pre_compare_comparator)) as C2.
  pose proof (comparator_then (fun x y => n1 x - n1 y) _ (comparator_pullback n1 _ Z_comparator) C2) as C1.
  pose proof (comparator_then (fun x y => n0 x - n0 y) _ (comparator_pullback n0 _ Z_comparator) C1) as C0.
  split; [intros [[[??]?]?] | intros [[[??]?]?] [[[??]?]?] | intros [[[??]?]?] [[[??]?]?] [[[??]?]?]];
    [apply (cmp_refl C0 (_, _, _, _)) | apply (cmp_flip C0 (_, _, _, _) (_, _, _, _)) |
     apply (cmp_trans C0 (_, _, _, _) (_, _, _, _) (_, _, _, _))].
Qed.

Lemma VersionNewer_compare t i :
  VersionNewer t i = true <->
  exists x y, parseSemVer t = Some x /\ parseSemVer i = Some y /\ 0 < semver_compare x y.
Proof.
  unfold VersionNewer. destruct (parseSemVer t) as [[[[t0 t1] t2] p] |]; [| naive_solver].
  destruct (parseSemVer i) as [[[[i0 i1] i2] q] |]; [| naive_solver].
  transitivity (0 < semver_compare (t0, t1, t2, p) (i0, i1, i2, q)); [| naive_solver].
  assert (forall a b : Z, (a =? b) = (a - b =? 0)) as Hz.
  { intros a b. destruct (a =? b) eqn:E1, (a - b =? 0) eqn:E2; bool_norm; lia. }
  simpl. rewrite (Hz t0), (Hz t1), (Hz t2). destruct (t0 - i0 =? 0) eqn:E0; simpl; [| rewrite Z.ltb_lt; lia].
  destruct (t1 - i1 =? 0) eqn:E1; simpl; [| rewrite Z.ltb_lt; lia].
  destruct (t2 - i2 =? 0) eqn:E2; simpl; [| rewrite Z.ltb_lt; lia].
  unfold pre_compare. destruct (p =? q)%string eqn:Ep.
  - bool_norm. subst q. rewrite Z.sub_diag. simpl.
    unfold comparePreRelease. rewrite (cmp_refl compare_identifiers_comparator). done.
  - destruct (p =? "")%string eqn:Ep0, (q =? "")%string eqn:Eq0; bool_norm; simpl; subst; try done.
    apply Z.ltb_lt.
Qed.

(** [VersionNewer] is a strict weak order on the versions it can parse and
    never holds of any other: no version is newer than itself, two versions are
    never each newer than the other, upgrades compose, and a third version is
    always either below the target or above the installed one, so offering only
    newer versions never cycles. *)
Theorem version_newer_is_strict_weak_order t i :
  VersionNewer t t = false /\
  (VersionNewer t i = true -> VersionNewer i t = false) /\
  (VersionNewer t i = true -> is_Some (parseSemVer t) /\ is_Some (parseSemVer i)) /\
  (forall u, VersionNewer t u = true -> VersionNewer u i = true -> VersionNewer t i = true) /\
  (forall u, is_Some (parseSemVer u) -> VersionNewer t i = true ->
     VersionNewer t u = true \/ VersionNewer u i = true).
Proof.
  pose proof semver_comparator as C. split_and!.
  - apply not_true_is_false. rewrite VersionNewer_compare. intros (x & y & -> & [= ->] & H).
    rewrite (cmp_refl C) in H. lia.
  - rewrite VersionNewer_compare. intros (x & y & Hx & Hy & H). apply not_true_is_false.
    rewrite VersionNewer_compare. rewrite Hx, Hy. intros (? & ? & [= <-] & [= <-] & H').
    pose proof (cmp_flip C x y). lia.
  - rewrite VersionNewer_compare. intros (x & y & -> & -> & _). eauto.
  - intros u. rewrite !VersionNewer_compare. intros (x & z & Hx & Hz & H) (z' & y & Hz' & Hy & H').
    simplify_eq. exists x, y. split_and!; try done. apply (comparator_strict _ C x z y); [done | lia].
  - intros u [z Hz]. rewrite !VersionNewer_compare. intros (x & y & Hx & Hy & H).
    destruct (Z_lt_le_dec 0 (semver_compare x z)) as [H1 | H1]; [left; by exists x, z |].
    right. exists z, y. split_and!; try done. apply (comparator_strict_l _ C z x y); [| done].
    pose proof (cmp_flip C x z). lia.
Qed.
