(* ===== verification/Market.v ===== *)
(** * The market catalog: internal/catalog/market.go

    A [Service] configured with a market replaces its entries by the verified
    releases of the market's apps.yaml. HTTP answers are arguments in decoded form
    (the YAML and JSON decoders, the transport and the files are outside), a call
    reads the clock where the code does, and the version cache and the record of
    recent misses are threaded through every lookup: they survive a refresh that
    fails half-way. *)
From S2P Require Import Prelude GoStd Catalog.
From stdpp Require Import sorting.
From Stdlib Require Import Ascii.
#[local] Open Scope Z_scope.

(** ** Data *)
Record MarketConfig := mkMarketConfig { mc_BaseURL : string; mc_Token : string }.

Record marketYAMLItem := mkYAMLItem {
  my_AppID : string; my_DisplayName : string; my_SortOrder : option Z; my_GroupID : string;
  my_Brand : string; my_IconRef : string; my_Version : string; my_Description : string;
  my_Models : option (list string); my_Capabilities : list string; my_Images : list Image;
  my_DisabledReason : string }.
Record marketAppsYAML := mkAppsYAML {
  ma_SchemaVersion : Z; ma_Apps : list marketYAMLItem; ma_Items : list marketYAMLItem }.

Record marketChart := mkChart {
  ch_OCIRef : string; ch_Name : string; ch_Version : string; ch_ManifestDigest : string;
  ch_PackageDigest : string; ch_PackageSizeBytes : Z }.
Record marketAppVersion := mkAppVersion { mv_AppID : string; mv_Version : string; mv_Chart : option marketChart }.

Inductive MarketError : Type :=
| errMarketVersionNotFound
| errMarketVersionMissCached
| MarketFailed (text : string).
#[export] Instance MarketError_eq : EqDecision MarketError.
Proof. solve_decision. Defined.

(** The mutable part of a market [Service]. *)
Record Market := mkMarket {
  mk_entries : list Entry; mk_ETag : string;
  mk_versionCache : gmap string marketAppVersion; mk_versionMiss : gmap string Time }.
Definition set_lookups cache miss (m : Market) : Market := mkMarket (mk_entries m) (mk_ETag m) cache miss.
Definition setEntries (entries : list Entry) (m : Market) : Market :=
  mkMarket entries (mk_ETag m) (mk_versionCache m) (mk_versionMiss m).

Definition defaultWorkloadName (appID : string) : string :=
  if (appID =? "tryon")%string then "tryon-mcp-server"
  else if slices_contains ["image-mcp"; "video-mcp"; "music-mcp"; "speech-mcp"] appID then appID +:+ "-server"
  else if slices_contains ["blender"; "comfyui"] appID then appID +:+ "-manager"
  else if slices_contains ["project"; "world"; "resources"; "network"] appID then "app-" +:+ appID
  else if slices_contains ["higgsfield"; "fal"; "google"; "chatgpt"; "grok"] appID then appID +:+ "-channel"
  else appID.
Definition defaultValuesSource (appID : string) : string :=
  "deploys/k8s.dev.verdantflarehub.com/verdantflare-app/" +:+ appID +:+ ".yaml".

Module MarketPatterns.
Import Regexp.
(** [^sha256:[a-f0-9]{64}$] *)
Definition digest : re := Cat (lit "sha256:") (times 64 (Class lower_hex)).
End MarketPatterns.
Definition digestPattern (s : string) : bool := Regexp.matches MarketPatterns.digest s.

(** ** Version lookups *)
Definition marketVersionMissTTL : Time := 10 * minute.
Definition marketVersionErrorTTL : Time := 30 * second.

(** The answer to a version request: none, or a status and the decoded body. *)
Definition VersionAnswer : Type := option (Z * option marketAppVersion).
Definition requestMarketVersion (answer : VersionAnswer) : result MarketError marketAppVersion :=
  match answer with
  | None => Err (MarketFailed "transport")
  | Some (status, body) =>
      reject errMarketVersionNotFound when status =? 404 ;;
      reject (MarketFailed "status") when negb (status =? 200) ;;
      match body with Some out => Ok out | None => Err (MarketFailed "decode") end
  end.

(** [now] is read before the request and [later] after it; [ended] tells whether
    the context ended meanwhile. *)
Record Lookup := mkLookup { lk_now : Time; lk_later : Time; lk_ended : bool; lk_answer : VersionAnswer }.

Definition version_key (appID ver : string) : string := appID +:+ "@" +:+ ver.

Definition fetchMarketVersion (appID ver : string) (l : Lookup) (m : Market) :
  Market * result MarketError marketAppVersion :=
  let key := version_key appID ver in
  match mk_versionCache m !! key with
  | Some cached => (m, Ok cached)
  | None =>
      if match mk_versionMiss m !! key with Some t => time_before (lk_now l) t | None => false end
      then (m, Err errMarketVersionMissCached)
      else match requestMarketVersion (lk_answer l) with
           | Err e =>
               let ttl := if decide (e = errMarketVersionNotFound) then marketVersionMissTTL else marketVersionErrorTTL in
               if lk_ended l then (m, Err e)
               else
                 let miss := if 4096 <=? Z.of_nat (size (mk_versionMiss m)) then ∅ else mk_versionMiss m in
                 (set_lookups (mk_versionCache m) (<[ key := lk_later l + ttl ]> miss) m, Err e)
           | Ok out => (set_lookups (<[ key := out ]> (mk_versionCache m)) (delete key (mk_versionMiss m)) m, Ok out)
           end
  end.

(** The release of a version, when its chart is complete and pinned by digests. *)
Definition chart_helm (appID : string) (v : marketAppVersion) : option Helm :=
  match mv_Chart v with
  | None => None
  | Some c =>
      if (ch_OCIRef c =? "")%string || (ch_Version c =? "")%string
         || negb (digestPattern (ch_ManifestDigest c)) || negb (digestPattern (ch_PackageDigest c)) then None
      else Some (mkHelm (ch_OCIRef c) (if (ch_Name c =? "")%string then appID else ch_Name c) (ch_Version c)
                   (ch_ManifestDigest c) (ch_PackageDigest c) (ch_PackageSizeBytes c) "verdantflare-app" appID
                   (defaultValuesSource appID))
  end.

(** An entry's own release, as [ResolveHelm] finds it in the registry. *)
Definition entry_helm (appID appVersion : string) (e : Entry) : option Helm :=
  if (en_AppID e =? appID)%string && (en_Version e =? appVersion)%string then
    match en_Helm e with
    | Some h => if digestPattern (he_ManifestDigest h) && digestPattern (he_PackageDigest h) then Some h else None
    | None => None
    end
  else None.
Definition ResolveHelm (configured : bool) (appID appVersion : string) (l : Lookup) (m : Market) :
  Market * option Helm :=
  if (appID =? "")%string || (appVersion =? "")%string then (m, None)
  else match head (omap (entry_helm appID appVersion) (mk_entries m)) with
       | Some h => (m, Some h)
       | None =>
           if negb configured then (m, None)
           else match fetchMarketVersion appID appVersion l m with
                | (m', Ok v) => (m', chart_helm appID v)
                | (m', Err _) => (m', None)
                end
       end.

(** ** apps.yaml *)

(** What follows the last occurrence of a non-empty [sub] ([strings.LastIndex]). *)
Fixpoint after_last (sub s : string) : option string :=
  match s with
  | EmptyString => None
  | String _ s' =>
      match after_last sub s' with
      | Some rest => Some rest
      | None => if has_prefix s sub then Some (drop_str (String.length sub) s) else None
      end
  end.

Definition sort_order (idx : nat) (order : option Z) : Z :=
  match order with
  | Some n => if (0 <=? n) && (n <=? 1000000) then n else 100 + Z.of_nat idx
  | None => 100 + Z.of_nat idx
  end.

Definition unreleased : string := "尚未发布可安装的 Chart OCI 版本".

(** The version shown for an item that is not installable. *)
Definition shown_version (ver : string) (images : list Image) : string :=
  let ver := if negb (ver =? "")%string && negb (version ver) then "" else ver in
  if (ver =? "")%string then
    match images with
    | [] => ver
    | im :: _ => match after_last "-v" (im_Image im) with
                 | Some cand => if version (TrimSpace cand) then TrimSpace cand else ver
                 | None => ver
                 end
    end
  else ver.

(** The release of an item: its version, the reason it is disabled and its chart. *)
Definition item_release (appID ver disabledReason : string) (images : list Image) (l : Lookup) (m : Market) :
  Market * result MarketError (string * string * option Helm) :=
  if negb (ver =? "")%string && (disabledReason =? "")%string then
    if negb (version ver) then (m, Err (MarketFailed "invalid version"))
    else match fetchMarketVersion appID ver l m with
         | (m', Err _) => (m', Err (MarketFailed "fetch market version"))
         | (m', Ok v) => (m', Ok (ver, disabledReason, chart_helm appID v))
         end
  else (m, Ok (shown_version ver images, if (disabledReason =? "")%string then unreleased else disabledReason, None)).

Definition market_entry (idx : nat) (item : marketYAMLItem) (appID : string) (images : list Image)
    (ver disabledReason : string) (helm : option Helm) : Entry :=
  mkEntry appID
    (if (TrimSpace (my_DisplayName item) =? "")%string then appID else TrimSpace (my_DisplayName item))
    (TrimSpace (my_GroupID item)) (TrimSpace (my_Brand item)) (sort_order idx (my_SortOrder item))
    (TrimSpace (my_IconRef item)) (TrimSpace (my_Description item)) (my_Capabilities item) disabledReason helm
    (Some (default [] (my_Models item))) (defaultValuesSource appID) "verdantflare-app" (defaultWorkloadName appID)
    ver (Some images).

(** One turn of the loop: the entry, or [None] when the release is not verified.
    [ids] and [targets] are the applications and workloads already seen. *)
Definition market_item (idx : nat) (ids targets : gset string) (item : marketYAMLItem) (l : Lookup) (m : Market) :
  Market * result MarketError (string * string * option Entry) :=
  let appID := TrimSpace (my_AppID item) in
  if negb (dns63 appID) || bool_decide (appID ∈ ids) then (m, Err (MarketFailed "invalid or duplicate market appId"))
  else if negb (ValidGroup (TrimSpace (my_GroupID item))) then (m, Err (MarketFailed "unsupported market groupId"))
  else if negb (ValidBrand (TrimSpace (my_Brand item))) then (m, Err (MarketFailed "unsupported market brand"))
  else
    let target := "verdantflare-app/" +:+ defaultWorkloadName appID in
    if bool_decide (target ∈ targets) then (m, Err (MarketFailed "duplicate target workload"))
    else
      let images := if (length (my_Images item) =? 0)%nat
                    then [mkImage "app" ("registry.verdantflare.ai/verdantflare/" +:+ appID +:+ ":unreleased")]
                    else my_Images item in
      match item_release appID (TrimSpace (my_Version item)) (TrimSpace (my_DisabledReason item)) images l m with
      | (m', Err e) => (m', Err e)
      | (m', Ok (ver, disabledReason, helm)) =>
          (m', Ok (appID, target,
             if bool_decide (helm = None) || negb (disabledReason =? "")%string then None
             else Some (market_entry idx item appID images ver disabledReason helm)))
      end.

Fixpoint market_items (lookup : nat -> string -> string -> Lookup) (idx : nat) (ids targets : gset string)
    (items : list marketYAMLItem) (m : Market) : Market * result MarketError (list Entry) :=
  match items with
  | [] => (m, Ok [])
  | item :: rest =>
      match market_item idx ids targets item
              (lookup idx (TrimSpace (my_AppID item)) (TrimSpace (my_Version item))) m with
      | (m', Err e) => (m', Err e)
      | (m', Ok (appID, target, entry)) =>
          match market_items lookup (S idx) ({[ appID ]} ∪ ids) ({[ target ]} ∪ targets) rest m' with
          | (m'', Err e) => (m'', Err e)
          | (m'', Ok entries) => (m'', Ok (match entry with Some e => e :: entries | None => entries end))
          end
      end
  end.

(** [SortOrder], then [AppID]. *)
Definition entry_before (a b : Entry) : bool :=
  if negb (en_SortOrder a =? en_SortOrder b) then en_SortOrder a <? en_SortOrder b
  else str_ltb (en_AppID a) (en_AppID b).
Definition entry_le (a b : Entry) : Prop := entry_before b a = false.
#[export] Instance entry_le_dec a b : Decision (entry_le a b).
Proof. unfold entry_le. apply _. Defined.
Definition by_order (l : list Entry) : list Entry := merge_sort entry_le l.

(** The answer to the apps.yaml request, which carries [If-None-Match] when the
    first argument is [Some]: none, or a status, the ETag header and the decoded
    document ([None] when it cannot be read or parsed). *)
Definition AppsAnswer : Type := option string -> option (Z * string * option marketAppsYAML).

Definition if_none_match (m : Market) : option string :=
  if negb (mk_ETag m =? "")%string && (0 <? length (mk_entries m))%nat then Some (mk_ETag m) else None.

(** [RefreshMarket]: the new state, the error, and what is written to the cache
    file (its failure is ignored). *)
Definition RefreshMarket (cfg : option MarketConfig) (http : AppsAnswer)
    (lookup : nat -> string -> string -> Lookup) (m : Market) : Market * result MarketError (option (list Entry)) :=
  match cfg with
  | None => (m, Err (MarketFailed "market catalog not configured"))
  | Some _ =>
      match http (if_none_match m) with
      | None => (m, Err (MarketFailed "transport"))
      | Some (status, etag, body) =>
          if (status =? 304) && (0 <? length (mk_entries m))%nat then (m, Ok None)
          else if negb (status =? 200) then (m, Err (MarketFailed "market catalog returned status"))
          else match body with
               | None => (m, Err (MarketFailed "invalid market apps.yaml"))
               | Some doc =>
                   let rawItems := if (length (ma_Apps doc) =? 0)%nat then ma_Items doc else ma_Apps doc in
                   if negb (ma_SchemaVersion doc =? 2) || (length rawItems =? 0)%nat
                      || (200 <? Z.of_nat (length rawItems))
                   then (m, Err (MarketFailed "invalid market apps.yaml schema or item count"))
                   else match market_items lookup 0 ∅ ∅ rawItems m with
                        | (m', Err e) => (m', Err e)
                        | (m', Ok entries) =>
                            let entries := by_order entries in
                            let etag := TrimSpace etag in
                            (mkMarket entries (if negb (etag =? "")%string then etag else mk_ETag m')
                               (mk_versionCache m') (mk_versionMiss m'), Ok (Some entries))
                        end
               end
      end
  end.

Definition verifiedCatalogEntries (entries : list Entry) : list Entry :=
  filter (fun e => is_Some (en_Helm e) /\ TrimSpace (en_DisabledReason e) = "") entries.

(** The decoded cache file; an empty one is invalid. *)
Definition loadEntriesFile (file : option (list Entry)) : option (list Entry) :=
  match file with Some (e :: rest) => Some (e :: rest) | _ => None end.

(** [strings.TrimRight(s, "/")]. *)
Definition trim_slashes (s : string) : string := str_rev (strip ["/"] 0 (str_rev s)).

(** [LoadMarket]: [cache] and [fallback] are [None] when not configured. *)
Definition LoadMarket (cfg : MarketConfig) (http : AppsAnswer) (lookup : nat -> string -> string -> Lookup)
    (cache : option (option (list Entry))) (fallback : option (option (list Entry) * bool)) :
  result MarketError Market :=
  reject (MarketFailed "market base URL required") when (trim_slashes (TrimSpace (mc_BaseURL cfg)) =? "")%string ;;
  let m0 := mkMarket [] "" ∅ ∅ in
  match RefreshMarket (Some cfg) http lookup m0 with
  | (m, Ok _) => Ok m
  | (m, Err e) =>
      match cache ≫= loadEntriesFile with
      | Some cached => Ok (setEntries (verifiedCatalogEntries cached) m)
      | None =>
          match fallback with
          | Some (decoded, trailing) =>
              match Load decoded trailing with
              | Ok entries => Ok (setEntries (verifiedCatalogEntries (copied <$> entries)) m)
              | Err _ => Err e
              end
          | None => Err e
          end
      end
  end.

(** ** Installation grants *)
Record Grant := mkGrant { gr_AppID : string; gr_Version : string; gr_Allowed : bool }.

(** The decision of Control, asked at every admission: [answer] is the status and the
    decoded grant. *)
Definition CheckInstallGrant (cfg : option MarketConfig) (answer : option (Z * option Grant))
    (appID version stationOrganizationID : string) : result MarketError bool :=
  match cfg with
  | None => Err (MarketFailed "market entitlement configuration unavailable")
  | Some c =>
      reject (MarketFailed "market entitlement configuration unavailable") when
        (mc_Token c =? "")%string || (appID =? "")%string || (version =? "")%string
        || (stationOrganizationID =? "")%string ;;
      match answer with
      | None => Err (MarketFailed "transport")
      | Some (status, body) =>
          if status =? 403 then Ok false
          else if negb (status =? 200) then Err (MarketFailed "install grant endpoint")
          else match body with
               | None => Err (MarketFailed "decode")
               | Some g =>
                   reject (MarketFailed "install grant identity mismatch") when
                     negb (gr_AppID g =? appID)%string || negb (gr_Version g =? version)%string ;;
                   Ok (gr_Allowed g)
               end
      end
  end.

(** ** The market catalog holds verified releases only

    Facts about [Market]: what a lookup may change, what one item of apps.yaml
    yields, and the theorem about a refresh. *)
#[local] Open Scope list_scope.
#[local] Open Scope Z_scope.

(** ** Lookups *)

(** A lookup keeps the registry and every cached version, and keeps the misses bounded. *)
Definition miss_limit : Z := 4096.
Record lookups_grow (m m' : Market) : Prop := {
  lg_entries : mk_entries m' = mk_entries m;
  lg_etag : mk_ETag m' = mk_ETag m;
  lg_cache : mk_versionCache m ⊆ mk_versionCache m';
  lg_miss : Z.of_nat (size (mk_versionMiss m)) <= miss_limit -> Z.of_nat (size (mk_versionMiss m')) <= miss_limit }.

#[export] Instance lookups_grow_preorder : PreOrder lookups_grow.
Proof.
  split.
  - intros m. by split.
  - intros a b c [] []. split; [congruence | congruence | by etrans | auto].
Qed.

Lemma fetch_grows appID ver l m : lookups_grow m (fst (fetchMarketVersion appID ver l m)).
Proof.
  unfold fetchMarketVersion. destruct (mk_versionCache m !! version_key appID ver) as [v |] eqn:Ec; [by simpl |].
  destruct (match mk_versionMiss m !! _ with Some t => _ | None => _ end); [by simpl |].
  destruct (requestMarketVersion (lk_answer l)) as [v | e].
  - simpl. split; simpl; try done.
    + by apply insert_subseteq.
    + intros H. enough (size (delete (version_key appID ver) (mk_versionMiss m)) <= size (mk_versionMiss m))%nat by lia.
      apply map_subseteq_size, delete_subseteq.
  - destruct (lk_ended l); [by simpl |]. simpl. split; simpl; try done. intros H.
    set (miss := if 4096 <=? _ then _ else _).
    assert (Z.of_nat (size miss) < miss_limit).
    { unfold miss, miss_limit in *. destruct (4096 <=? _) eqn:E; [by rewrite map_size_empty | by bool_norm]. }
    rewrite map_size_insert. case_match; simpl; unfold miss_limit in *; lia.
Qed.

(** A chart is a release only with both digests pinned. *)
Definition pinned (h : Helm) : Prop :=
  digestPattern (he_ManifestDigest h) = true /\ digestPattern (he_PackageDigest h) = true /\
  he_OCIRef h <> "" /\ he_ChartVersion h <> "".
Lemma chart_helm_pinned appID v h : chart_helm appID v = Some h -> pinned h.
Proof.
  unfold chart_helm. destruct (mv_Chart v) as [c |]; [| done].
  destruct (_ || _) eqn:E; [done |]. bool_norm. intros [= <-]. done.
Qed.

(** ** One item *)
Record verified (e : Entry) : Prop := {
  ve_app : dns63 (en_AppID e) = true;
  ve_group : ValidGroup (en_GroupID e) = true;
  ve_brand : ValidBrand (en_Brand e) = true;
  ve_version : version (en_Version e) = true;
  ve_enabled : en_DisabledReason e = "";
  ve_release : exists h, en_Helm e = Some h /\ pinned h /\ he_ReleaseName h = en_AppID e;
  ve_place : target e = "verdantflare-app/" +:+ defaultWorkloadName (en_AppID e) }.

Lemma item_release_grows appID ver disabled images l m :
  lookups_grow m (fst (item_release appID ver disabled images l m)).
Proof.
  pose proof (fetch_grows appID ver l m) as Hg. unfold item_release.
  destruct (_ && _); [| done]. destruct (negb _); [done |].
  destruct (fetchMarketVersion _ _ _ _) as [m' [v | e]]; exact Hg.
Qed.

Lemma item_release_verified appID ver disabled images l m m' ver' disabled' h :
  item_release appID ver disabled images l m = (m', Ok (ver', disabled', Some h)) ->
  disabled' = "" /\ version ver' = true /\ pinned h /\ he_ReleaseName h = appID.
Proof.
  unfold item_release. destruct (negb (ver =? "")%string && _) eqn:E1; [| done]. bool_norm.
  destruct (version ver) eqn:E2; simpl; [| done].
  destruct (fetchMarketVersion _ _ _ _) as [m1 [v | e]] eqn:Ef; [| done].
  intros [= <- <- <- Eh]. split_and!; try done; [by eapply chart_helm_pinned |].
  revert Eh. unfold chart_helm. destruct (mv_Chart v); [| done]. destruct (_ || _); [done |]. by intros [= <-].
Qed.

Lemma market_item_spec idx ids targets item l m m' r :
  market_item idx ids targets item l m = (m', r) ->
  lookups_grow m m' /\
  forall appID t entry, r = Ok (appID, t, entry) ->
    appID ∉ ids /\ t ∉ targets /\
    forall e, entry = Some e -> verified e /\ en_AppID e = appID /\ target e = t.
Proof.
  unfold market_item. set (appID := TrimSpace (my_AppID item)).
  destruct (negb (dns63 appID) || _) eqn:E1; [by intros [= <- <-] |].
  destruct (negb (ValidGroup _)) eqn:E2; [by intros [= <- <-] |].
  destruct (negb (ValidBrand _)) eqn:E3; [by intros [= <- <-] |].
  destruct (bool_decide (_ ∈ targets)) eqn:E4; [by intros [= <- <-] |].
  set (images := if (length (my_Images item) =? 0)%nat then _ else _).
  destruct (item_release appID _ _ images l m) as [m1 [[[ver dis] helm] | e]] eqn:Er;
    pose proof (item_release_grows appID (TrimSpace (my_Version item)) (TrimSpace (my_DisabledReason item)) images l m) as Hg;
    rewrite Er in Hg; intros [= <- <-]; (split; [done |]); [| done].
  intros ? ? ? [= <- <- <-]. bool_norm. split_and!; [done | done |].
  intros en. destruct (bool_decide (helm = None) || _) eqn:E5; [done |]. bool_norm. intros [= <-].
  destruct helm as [h |]; [| done].
  apply item_release_verified in Er as (-> & Hv & Hp & Hn).
  split_and!; [| done | done]. split; simpl; try done. by exists h.
Qed.

(** ** The whole document *)
Lemma market_items_spec lookup items : forall idx ids targets m m' r,
  market_items lookup idx ids targets items m = (m', r) ->
  lookups_grow m m' /\
  forall entries, r = Ok entries ->
    Forall verified entries /\ NoDup (en_AppID <$> entries) /\ NoDup (target <$> entries) /\
    (forall e, e ∈ entries -> en_AppID e ∉ ids /\ target e ∉ targets).
Proof.
  induction items as [| item items IH]; intros idx ids targets m m' r; simpl.
  { intros [= <- <-]. split; [done |]. intros ? [= <-]. split_and!; [constructor | constructor | constructor |].
    intros x Hx. by apply elem_of_nil in Hx. }
  destruct (market_item _ _ _ _ _ _) as [m1 [[[appID t] entry] | e]] eqn:Ei;
    apply market_item_spec in Ei as [Hg Hi]; [| by intros [= <- <-]].
  destruct (market_items _ _ _ _ items m1) as [m2 [es | e]] eqn:Es; apply IH in Es as [Hg2 Hes];
    intros [= <- <-]; (split; [by etrans |]); [| done].
  intros ? [= <-]. destruct (Hi _ _ _ eq_refl) as (Ha & Ht & He). destruct (Hes _ eq_refl) as (Hv & Hn1 & Hn2 & Hout).
  assert (forall e, e ∈ es -> en_AppID e <> appID /\ target e <> t /\ en_AppID e ∉ ids /\ target e ∉ targets) as Hsep.
  { intros e Hin. specialize (Hout e Hin). set_solver. }
  destruct entry as [en |]; [| split_and!; try done; intros x Hin; split; by apply Hsep].
  destruct (He en eq_refl) as (Hve & <- & <-). split_and!.
  - by constructor.
  - apply NoDup_cons. split; [| done]. intros (x & Hx & Hin)%list_elem_of_fmap. destruct (Hsep x Hin). congruence.
  - apply NoDup_cons. split; [| done]. intros (x & Hx & Hin)%list_elem_of_fmap. destruct (Hsep x Hin) as (_ & ? & _). congruence.
  - intros x [-> | Hin]%elem_of_cons; [done |]. split; by apply Hsep.
Qed.

#[export] Instance entry_le_total : Total entry_le.
Proof.
  intros a b. unfold entry_le, entry_before.
  destruct (en_SortOrder a =? en_SortOrder b) eqn:E1, (en_SortOrder b =? en_SortOrder a) eqn:E2; bool_norm; simpl; try lia.
  destruct (str_ltb (en_AppID b) (en_AppID a)) eqn:E; [right | by left]. by apply str_ltb_asym.
Qed.
#[export] Instance entry_le_trans : Transitive entry_le.
Proof.
  intros a b c. unfold entry_le, entry_before.
  destruct (en_SortOrder b =? en_SortOrder a) eqn:E1, (en_SortOrder c =? en_SortOrder b) eqn:E2,
    (en_SortOrder c =? en_SortOrder a) eqn:E3; bool_norm; simpl; rewrite ?Z.ltb_ge; try lia.
  intros H1 H2. destruct (str_ltb (en_AppID c) (en_AppID a)) eqn:E; [| done].
  destruct (str_ltb (en_AppID a) (en_AppID b)) eqn:E4.
  - by rewrite (str_ltb_trans _ _ _ E E4) in H2.
  - rewrite (str_ltb_total _ _ E4 H1) in E. congruence.
Qed.

(** C26: a refresh of the market catalog publishes either exactly one complete,
    sorted list of verified releases (a valid application, group and brand, an
    exact version, no disabling reason, a chart pinned by two SHA-256 digests; no
    application and no workload twice) or, on any failure, nothing: registry and
    ETag stay as they were. Either way versions already looked up stay cached and
    the table of misses keeps its bound. *)
Theorem refresh_publishes_verified_or_nothing cfg http lookup m :
  let '(m', answer) := RefreshMarket cfg http lookup m in
  mk_versionCache m ⊆ mk_versionCache m' /\
  (Z.of_nat (size (mk_versionMiss m)) <= miss_limit -> Z.of_nat (size (mk_versionMiss m')) <= miss_limit) /\
  match answer with
  | Ok (Some entries) =>
      mk_entries m' = entries /\ Forall verified entries /\ NoDup (en_AppID <$> entries) /\
      NoDup (target <$> entries) /\ StronglySorted entry_le entries
  | _ => mk_entries m' = mk_entries m /\ mk_ETag m' = mk_ETag m
  end.
Proof.
  destruct (RefreshMarket cfg http lookup m) as [m' answer] eqn:E. revert E. unfold RefreshMarket.
  destruct cfg; [| by intros [= <- <-]].
  destruct (http _) as [[[status etag] body] |]; [| by intros [= <- <-]].
  destruct (_ && _); [by intros [= <- <-] |]. destruct (negb _); [by intros [= <- <-] |].
  destruct body as [doc |]; [| by intros [= <- <-]].
  destruct (_ || _); [by intros [= <- <-] |].
  destruct (market_items _ _ _ _ _ m) as [m1 [entries | e]] eqn:Es;
    apply market_items_spec in Es as [[Hg1 Hg2 Hg3 Hg4] Hes]; intros [= <- <-]; [| done].
  simpl. destruct (Hes _ eq_refl) as (Hv & Hn1 & Hn2 & _).
  pose proof (merge_sort_Permutation entry_le entries) as Hp.
  split_and!; try done.
  - unfold by_order. by rewrite Hp.
  - unfold by_order. by rewrite Hp.
  - unfold by_order. by rewrite Hp.
  - apply StronglySorted_merge_sort; apply _.
Qed.
