(* ===== verification/AppSnapshot.v ===== *)
(** * What the observation memory shows: legacy bindings, catalog, candidates

    internal/appstate/legacy.go (the operator's registry of pre-existing workloads
    and the joint projection [snapshotLocked]), catalog.go (the application catalog
    over that projection) and preinstalled.go (the inspection of a candidate).

    Each of these runs under the memory's lock, so it is a function of the memory;
    a call that reads the clock more than once takes one instant per reading. The
    loops over [m.collectors] leave at the first collector of a namespace: no two
    collectors share one ([Memory.add_collectors]), so the order of the map is
    irrelevant. *)
From S2P Require Import Prelude GoStd Sha256 GoJson Uuid Observation Memory Catalog.
From Stdlib Require Import Ascii.
#[local] Open Scope Z_scope.

(** ** The registry of legacy bindings *)
Definition observation_key (ns name uid : string) : string := "obs:" +:+ digest_hex (jstrs [ns; name; uid]).

(** Former positions of the applications that moved. *)
Definition legacy_candidates (app : string) : list (string * string) :=
  if (app =? "image-mcp")%string then
    [("verdantflare-app", "image-mcp-server"); ("verdantflare-image", "image-mcp-server")]
  else if (app =? "video-mcp")%string then
    [("verdantflare-app", "video-mcp-server"); ("verdantflare-video", "video-mcp-server")]
  else if (app =? "blender")%string then
    [("verdantflare-app", "blender-manager"); ("verdantflare-app", "blender"); ("verdantflare-blender", "blender")]
  else [].

Definition key_matches (b : legacyBinding) (position : string * string) : bool :=
  (lb_ObservationKey b =? observation_key (fst position) (snd position) (lb_WorkloadUID b))%string.
(** The position whose digest is the binding's key: the entry's own, a former one,
    or the entry's own again when none matches. *)
Definition matched_position (e : Entry) (b : legacyBinding) : string * string :=
  let own := (en_Namespace e, en_WorkloadName e) in
  if key_matches b own then own
  else default own (List.find (key_matches b) (legacy_candidates (en_AppID e))).

Section Legacy.
Context {U : UuidLib}.

Fixpoint registry_of (entries : list Entry) (registry : gmap string Entry) : option (gmap string Entry) :=
  match entries with
  | [] => Some registry
  | e :: rest =>
      if bool_decide (is_Some (registry !! en_AppID e)) then None
      else registry_of rest (<[en_AppID e := e]> registry)
  end.

Record Seen := mkSeen { sn_IDs : gset string; sn_Apps : gset string; sn_Positions : gset string; sn_UIDs : gset string }.
Definition positioned (b : legacyBinding) (position : string * string) : legacyBinding :=
  mkLegacy (lb_BindingID b) (lb_AppID b) (lb_OrganizationID b) (lb_StationID b) (lb_ObservationKey b) (lb_WorkloadUID b)
    (fst position) (snd position).

(** One binding of the loop. *)
Definition validate_one (station : string) (registry : gmap string Entry) (seen : Seen) (b : legacyBinding)
    : option (Seen * legacyBinding) :=
  match registry !! lb_AppID b with
  | None => None
  | Some e =>
      let position := matched_position e b in
      let key := loc_key (fst position) (snd position) in
      if (lb_BindingID b =? "")%string || bool_decide (lb_BindingID b ∈ sn_IDs seen) || bool_decide (lb_AppID b ∈ sn_Apps seen)
         || bool_decide (key ∈ sn_Positions seen) || bool_decide (lb_WorkloadUID b ∈ sn_UIDs seen)
         || negb (lb_StationID b =? station)%string || negb (validID (lb_OrganizationID b)) || negb (validID (lb_WorkloadUID b))
         || negb (dns (fst position)) || negb (dns (snd position)) || negb (key_matches b position)
      then None
      else Some (mkSeen ({[ lb_BindingID b ]} ∪ sn_IDs seen) ({[ lb_AppID b ]} ∪ sn_Apps seen) ({[ key ]} ∪ sn_Positions seen)
                   ({[ lb_WorkloadUID b ]} ∪ sn_UIDs seen), positioned b position)
  end.
Fixpoint validate_all (station : string) (registry : gmap string Entry) (seen : Seen) (bs : list legacyBinding)
    : option (list legacyBinding) :=
  match bs with
  | [] => Some []
  | b :: rest =>
      '(seen', b') ← validate_one station registry seen b;
      rest' ← validate_all station registry seen' rest;
      Some (b' :: rest')
  end.

Definition validateLegacy (station : string) (bindings : list legacyBinding) (entries : list Entry)
    : result Memory.Fault (list legacyBinding) :=
  if negb (validID station) || (128 <? Z.of_nat (length bindings)) || (1000 <? Z.of_nat (length entries)) then Err ErrStreamFrame
  else match (registry ← registry_of entries ∅; validate_all station registry (mkSeen ∅ ∅ ∅ ∅) bindings) with
       | Some bs => Ok (sort_by lb_AppID bs)
       | None => Err ErrStreamFrame
       end.

(** [LoadLegacy]. [input] is [None] without a path, else the file: refused, or its
    decoded records. [organizations] are those of the database, if it answers. *)
Definition LoadLegacy (m : Memory) (input : option (result Memory.Fault (list legacyBinding))) (entries : list Entry)
    (organizations : option (gset string)) : Memory * option Memory.Fault :=
  if negb (validID (m_station m)) then (m, Some ErrUnavailable)
  else match input with
  | None => (with_legacy [] m, None)
  | Some (Err f) => (m, Some f)
  | Some (Ok records) =>
      match validateLegacy (m_station m) records entries with
      | Err f => (m, Some f)
      | Ok bs =>
          match organizations with
          | None => (m, Some ErrUnavailable)
          | Some known =>
              if existsb (fun b => negb (bool_decide (lb_OrganizationID b ∈ known))) bs then (m, Some ErrStreamFrame)
              else (with_legacy bs m, None)
          end
      end
  end.

(** ** Views of legacy bindings *)

(** The collector of a namespace. *)
Definition collector_of (m : Memory) (ns : string) : option memoryCollector :=
  snd <$> List.find (fun ic => slices_contains (c_Namespaces (mc_config (snd ic))) ns) (map_to_list (m_collectors m)).

(** Marks of an owner, which no legacy workload carries. *)
Definition owned_object (o : memoryResource) : bool :=
  let r := mr_obs o in
  negb (ro_StationID r =? "")%string || negb (ro_OrganizationID r =? "")%string || negb (ro_InstallationID r =? "")%string
  || negb (ro_InstanceID r =? "")%string || negb (ro_AppID r =? "")%string
  || match ro_Metadata r with None => true | Some d => rm_OwnershipMarked d end.

Definition legacy_runtime (m : Memory) (b : legacyBinding) (now : Time)
    : Runtime * option ResourceObservation * string :=
  match collector_of m (lb_namespace b) with
  | None => (unknown_runtime "NOT_SYNCED", None, "")
  | Some c =>
      match mc_objects c !! loc_key (lb_namespace b) (lb_name b) with
      | Some o =>
          if negb (ro_UID (mr_obs o) =? lb_WorkloadUID b)%string || owned_object o
          then (unknown_runtime "IDENTITY_CONFLICT", None, "")
          else
            let '(state, reason) := evaluate (current_fact now o) (slices_contains (c_HealthRequiredApps (mc_config c)) (lb_AppID b)) in
            (RuntimeView now (Some state) (Some reason) (Some (mr_received o)) (Some (mr_expires o)) false,
             Some (mr_obs (sampled (mr_obs o) (mr_received o))), mr_metadataDigest o)
      | None =>
          if negb (is_zero (mc_inventoryAt c))
          then (RuntimeView now (Some "absent") (Some "RESOURCE_ABSENT") (Some (mc_inventoryAt c)) (Some (mc_inventoryExpires c)) false, None, "")
          else (unknown_runtime "NOT_SYNCED", None, "")
      end
  end.

Definition legacyView (m : Memory) (b : legacyBinding) (now : Time) : MemoryView :=
  let '(v, resource, metadata) := legacy_runtime m b now in
  mkView v
    (m_boot m +:+ ":" +:+ digest_hex (jstrs [lb_ObservationKey b; rt_State v; rt_Quality v; rt_ReasonCode v;
                                             default "" (rt_LastKnownState v); metadata]))
    resource.

(** ** The joint projection *)
Record memorySnapshot := mkMemorySnapshot {
  ms_installations : gmap string MemoryView;
  ms_legacy : gmap string (gmap string MemoryView);
  ms_revisions : gmap string string }.

Definition legacy_views (m : Memory) (bs : list Binding) (now : Time) : gmap string (gmap string MemoryView) :=
  let installed : gset string := list_to_set (b_AppID <$> bs) in
  foldl (fun out b =>
    if bool_decide (lb_AppID b ∈ installed) then out
    else <[lb_OrganizationID b := <[lb_AppID b := legacyView m b now]> (default ∅ (out !! lb_OrganizationID b))]> out)
    ∅ (m_legacy m).

(** The revision of an organization with legacy views covers them. *)
Definition legacy_revision (m : Memory) (base : string) (apps : gmap string MemoryView) : string :=
  m_boot m +:+ ":" +:+ digest_hex (JObj [("Base", JStr base); ("Apps", jmap (fun v => JStr (v_Revision v)) apps)]).
Definition snapshot_revisions (m : Memory) (revisions : gmap string string) (legacy : gmap string (gmap string MemoryView))
    : gmap string string :=
  map_imap (fun org apps => Some (legacy_revision m (default (token m 0) (revisions !! org)) apps)) legacy ∪ revisions.

Definition snapshotLocked (m : Memory) (bs : list Binding) (now later : Time) : Memory * result Memory.Fault memorySnapshot :=
  match viewsLocked m bs now with
  | (m', Err f) => (m', Err f)
  | (m', Ok (views, revisions)) =>
      let legacy := legacy_views m' bs later in
      (m', Ok (mkMemorySnapshot views legacy (snapshot_revisions m' revisions legacy)))
  end.
End Legacy.

(** ** The catalog over the projection *)

Definition catalogState (v : Runtime) : string * string :=
  let s := rt_State v in
  if (s =? "absent")%string then ("not_installed", "not_found")
  else if (s =? "ready")%string then ("ready", "replicas_ready")
  else if (s =? "starting")%string then ("starting", "reconciling")
  else if (s =? "stopping")%string then ("stopping", "scaling_down")
  else if (s =? "stopped")%string then ("stopped", "scaled_to_zero")
  else if (s =? "degraded")%string then ("degraded", "deployment_failed")
  else ("unknown", "unavailable").

Definition ownership_of (r : ResourceObservation) : gmap string string :=
  let base : gmap string string :=
    <[station_key "station-id" := ro_StationID r]> (<[station_key "organization-id" := ro_OrganizationID r]>
      (<[station_key "app-id" := ro_AppID r]> (<[station_key "installation-id" := ro_InstallationID r]> ∅))) in
  match ro_Metadata r with Some d => <[station_key "template-hash" := rm_TemplateHash d]> base | None => base end.
Definition images_of (r : ResourceObservation) : list Image :=
  match ro_Metadata r with
  | Some d => if rm_ImagesComplete d then (fun i => mkImage (ri_Component i) (ri_Image i)) <$> default [] (rm_Images d) else []
  | None => []
  end.
Definition catalogObservation (v : MemoryView) : Catalog.Observation :=
  let '(state, reason) := catalogState (v_Runtime v) in
  let at_ := default zero_time (rt_ObservedAt (v_Runtime v)) in
  match v_Resource v with
  | None => mkObservation "" "" ∅ state reason at_ None None []
  | Some r => mkObservation (ro_UID r) "" (ownership_of r) state reason at_ (Some (ro_Desired r)) (Some (ro_Ready r)) (images_of r)
  end.
(** A legacy observation carries no ownership. *)
Definition without_ownership (o : Catalog.Observation) : Catalog.Observation :=
  mkObservation (ob_UID o) (ob_ManagementStatus o) ∅ (ob_State o) (ob_Reason o) (ob_ObservedAt o) (ob_Desired o) (ob_Ready o) (ob_Images o).

(** A registered position that nobody may look into. *)
Definition catalogPosition (m : Memory) (e : Entry) (now : Time) : Catalog.Observation :=
  foldl (fun obs ic =>
    let c := snd ic in
    if negb (slices_contains (c_Namespaces (mc_config c)) (en_Namespace e)) then obs
    else if bool_decide (is_Some (mc_objects c !! target e)) then
      mkObservation (ob_UID obs) "" ∅ (ob_State obs) "unavailable" (ob_ObservedAt obs) None None []
    else if negb (is_zero (mc_inventoryAt c)) && time_before now (mc_inventoryExpires c) then
      mkObservation (ob_UID obs) "" ∅ "not_installed" "not_found" (mc_inventoryAt c) None None []
    else obs)
    (mkObservation "" "" ∅ "unknown" "unavailable" zero_time None None []) (map_to_list (m_collectors m)).

(** The views of the organization's bindings, and those with a workload by position. *)
Definition org_views (org : string) (bs : list Binding) (s : memorySnapshot) : gmap string MemoryView :=
  foldl (fun vs b => if (b_OrganizationID b =? org)%string
                     then <[b_InstallationID b := default (mkView (mkRuntime "" "" "" None None None) "" None) (ms_installations s !! b_InstallationID b)]> vs
                     else vs) ∅ bs.
Definition locate (org : string) (s : memorySnapshot) (ls : gmap string MemoryView) (b : Binding) : gmap string MemoryView :=
  if negb (b_OrganizationID b =? org)%string then ls
  else match ms_installations s !! b_InstallationID b with
  | Some v => match v_Resource v with Some r => <[loc_key (ro_Namespace r) (ro_Name r) := v]> ls | None => ls end
  | None => ls
  end.
Definition org_locations (org : string) (bs : list Binding) (s : memorySnapshot) : gmap string MemoryView :=
  foldl (locate org s) ∅ bs.

(** A located view that belongs to the registered application. *)
Definition located (locations : gmap string MemoryView) (e : Entry) : option MemoryView :=
  v ← locations !! target e; r ← v_Resource v;
  if (ro_AppID r =? en_AppID e)%string then Some v else None.
Definition entry_observation (m : Memory) (org : string) (s : memorySnapshot) (locations : gmap string MemoryView) (now : Time)
    (e : Entry) : Catalog.Observation :=
  match located locations e with
  | Some v => catalogObservation v
  | None =>
      match apps ← ms_legacy s !! org; apps !! en_AppID e with
      | Some v => without_ownership (catalogObservation v)
      | None => catalogPosition m e now
      end
  end.
Definition registered_item (m : Memory) (org : string) (s : memorySnapshot) (locations : gmap string MemoryView) (now : Time)
    (e : Entry) : SnapshotItem :=
  let status := match en_Models e with None | Some [] => "not_required" | _ => "unknown" end in
  mkSnapshotItem (mkItem e status (entry_observation m org s locations now e)) true.

Definition bare_entry (app ns name : string) : Entry :=
  mkEntry app "" "" "" 0 "" "" [] "" None None "" ns name "" None.
Definition discovered_item (v : MemoryView) : option SnapshotItem :=
  r ← v_Resource v;
  Some (mkSnapshotItem (mkItem (bare_entry (ro_AppID r) (ro_Namespace r) (ro_Name r)) "unknown" (catalogObservation v)) false).

Definition used_positions (locations : gmap string MemoryView) (entries : list Entry) : gset string :=
  list_to_set (target <$> List.filter (fun e => bool_decide (is_Some (located locations e))) entries).

Definition catalogSnapshotLocked (m : Memory) (org : string) (entries : list Entry) (bs : list Binding) (s : memorySnapshot)
    (now : Time) : result Memory.Fault (list SnapshotItem * gmap string MemoryView) :=
  let locations := org_locations org bs s in
  let used := used_positions locations entries in
  let rest := omap (fun kv => if bool_decide (fst kv ∈ used) then None else discovered_item (snd kv)) (map_to_list locations) in
  let items := ((registered_item m org s locations now <$> entries) ++ rest)%list in
  if 1000 <? Z.of_nat (length items) then Err ErrLimit
  else Ok (sort_by snapshot_key items, org_views org bs s).

Section CatalogCalls.
Context {U : UuidLib}.

(** The three readings of the clock of a call. *)
Record Instants := mkInstants { at_views : Time; at_legacy : Time; at_items : Time }.

Definition catalogSnapshot (m : Memory) (org : string) (entries : list Entry) (bs : list Binding) (t : Instants)
    : Memory * result Memory.Fault (list SnapshotItem * gmap string MemoryView) :=
  if negb (validID org) || (1000 <? Z.of_nat (length entries)) then (m, Err ErrLimit)
  else match snapshotLocked m bs (at_views t) (at_legacy t) with
  | (m', Err f) => (m', Err f)
  | (m', Ok s) => (m', catalogSnapshotLocked m' org entries bs s (at_items t))
  end.

Definition ids_of_app (org : string) (bs : list Binding) (app : string) : list string :=
  b_InstallationID <$> List.filter (fun b => (b_OrganizationID b =? org)%string && (b_AppID b =? app)%string) bs.

(** One registered item of the public catalog: the exact installation's view, an
    unknown one when several exist. *)
Definition public_item (m : Memory) (org : string) (bs : list Binding) (s : memorySnapshot) (i : Item) : Item :=
  let nothing := mkView (mkRuntime "" "" "" None None None) "" None in
  ProjectManagement (m_station m) org
    (match ids_of_app org bs (it_AppID i) with
     | [] => i
     | [id] => with_deployment (catalogObservation (default nothing (ms_installations s !! id))) i
     | _ => with_deployment (catalogObservation nothing) i
     end).
Definition registeredCatalog (m : Memory) (org : string) (entries : list Entry) (bs : list Binding) (t : Instants)
    : Memory * result Memory.Fault (list Item) :=
  if negb (validID org) || (1000 <? Z.of_nat (length entries)) then (m, Err ErrLimit)
  else match snapshotLocked m bs (at_views t) (at_legacy t) with
  | (m', Err f) => (m', Err f)
  | (m', Ok s) =>
      (m', '(items, _) ← catalogSnapshotLocked m' org entries bs s (at_items t);
           Ok (public_item m' org bs s <$> (si_Item <$> List.filter si_Registered items)))
  end.

(** ** Inspecting a candidate *)
Definition unknownPreinstalled : Catalog.Observation := mkObservation "" "unknown" ∅ "unknown" "unavailable" zero_time None None [].

(** A candidate at the trusted position, which no binding of the application owns. *)
Definition candidate_observation (m : Memory) (entry : Entry) (canManage : bool) (now : Time) : Catalog.Observation :=
  match collector_of m (en_Namespace entry) with
  | None => unknownPreinstalled
  | Some c =>
      match mc_objects c !! target entry with
      | None => with_status "unknown" (catalogPosition m entry now)
      | Some o =>
          if negb canManage || owned_object o then unknownPreinstalled
          else
            let fact := if negb (time_before now (mr_healthExpires o)) then set_Health "not_checked" (mr_obs o) else mr_obs o in
            let '(state, reason) := evaluate fact (slices_contains (c_HealthRequiredApps (mc_config c)) (en_AppID entry)) in
            let view := RuntimeView now (Some state) (Some reason) (Some (mr_received o)) (Some (mr_expires o)) false in
            if negb (rt_Quality view =? "known")%string then unknownPreinstalled
            else with_status "unmanaged" (without_ownership (catalogObservation (mkView view "" (Some fact))))
      end
  end.

Definition project_known (m : Memory) (org : string) (entry : Entry) (v : MemoryView) : Catalog.Observation :=
  if negb (rt_Quality (v_Runtime v) =? "known")%string then unknownPreinstalled
  else it_Deployment (ProjectManagement (m_station m) org (mkItem entry "" (catalogObservation v))).

Definition preinstalledObservation (m : Memory) (org : string) (entry : Entry) (bs : list Binding) (canManage : bool) (t : Instants)
    : Memory * result Memory.Fault Catalog.Observation :=
  match snapshotLocked m bs (at_views t) (at_legacy t) with
  | (m', Err f) => (m', Err f)
  | (m', Ok s) =>
      let all := List.filter (fun b => (b_AppID b =? en_AppID entry)%string) bs in
      (m', if existsb (fun b => negb (b_OrganizationID b =? org)%string) all then Ok unknownPreinstalled
           else match all with
           | _ :: _ :: _ => Ok unknownPreinstalled
           | [b] =>
               match ms_installations s !! b_InstallationID b with
               | Some v =>
                   if bool_decide (is_Some (v_Resource v)) then Ok (project_known m' org entry v)
                   else if (rt_ReasonCode (v_Runtime v) =? "IDENTITY_CONFLICT")%string then Ok unknownPreinstalled
                   else Ok (candidate_observation m' entry canManage (at_items t))
               | None => Ok (candidate_observation m' entry canManage (at_items t))
               end
           | [] => Ok (candidate_observation m' entry canManage (at_items t))
           end)
  end.
End CatalogCalls.
