(* ===== verification/AppSnapshotFacts.v ===== *)
(** * What the catalog and the candidate inspection disclose

    Theorems about [AppSnapshot]: the operator's legacy registry is checked as a
    whole, the catalog of an organization shows that organization's own workloads
    and its registered legacy ones only, and a candidate is disclosed to managers
    only. *)
From stdpp Require Import gmap list strings.
From S2P Require Import Prelude GoStd Sha256 GoJson Uuid Observation Memory MemoryInv MemorySafety MemoryViews Catalog AppSnapshot.
From Stdlib Require Import Ascii.
#[local] Open Scope Z_scope.

(** ** Lists *)
Lemma filter_all_true {A} (p : A -> bool) (l : list A) : (forall x, x ∈ l -> p x = true) -> List.filter p l = l.
Proof.
  intros H. induction l as [| x l IH]; simpl; [done |]. rewrite H by left. f_equal. apply IH. intros y Hy. apply H. by right.
Qed.
Lemma filter_all_false {A} (p : A -> bool) (l : list A) : (forall x, x ∈ l -> p x = false) -> List.filter p l = [].
Proof.
  intros H. induction l as [| x l IH]; simpl; [done |]. rewrite H by left. apply IH. intros y Hy. apply H. by right.
Qed.
Lemma filter_perm {A} (p : A -> bool) (l k : list A) : l ≡ₚ k -> List.filter p l ≡ₚ List.filter p k.
Proof.
  induction 1 as [| x l k _ IH | x y l | l k j _ IH1 _ IH2]; simpl; [done | | | by transitivity (List.filter p k)].
  - destruct (p x); [by constructor | done].
  - destruct (p x), (p y); try done. constructor.
Qed.
Lemma sort_by_filter_perm {A} (p : A -> bool) (key : A -> string) (l : list A) :
  List.filter p (sort_by key l) ≡ₚ List.filter p l.
Proof. apply filter_perm, sort_by_perm. Qed.

Section Facts.
Context {U : UuidLib}.

(** ** The legacy registry *)

Definition position_of (b : legacyBinding) : string := loc_key (lb_namespace b) (lb_name b).

(** What one accepted binding satisfies. *)
Definition legacy_ok (station : string) (registry : gmap string Entry) (b : legacyBinding) : Prop :=
  lb_BindingID b <> "" /\ lb_StationID b = station /\ validID (lb_OrganizationID b) = true /\ validID (lb_WorkloadUID b) = true /\
  dns (lb_namespace b) = true /\ dns (lb_name b) = true /\
  lb_ObservationKey b = observation_key (lb_namespace b) (lb_name b) (lb_WorkloadUID b) /\
  exists e, registry !! lb_AppID b = Some e /\
    (lb_namespace b, lb_name b) ∈ (en_Namespace e, en_WorkloadName e) :: legacy_candidates (lb_AppID b).

Lemma matched_position_elem e b : matched_position e b ∈ (en_Namespace e, en_WorkloadName e) :: legacy_candidates (en_AppID e).
Proof.
  unfold matched_position. destruct (key_matches b _); [left |].
  destruct (List.find (key_matches b) (legacy_candidates (en_AppID e))) as [p |] eqn:E; [| left].
  right. apply List.find_some in E as [E _]. by apply list_elem_of_In.
Qed.

Definition registry_keys (registry : gmap string Entry) : Prop := forall k e, registry !! k = Some e -> en_AppID e = k.

Lemma validate_one_spec station registry seen b seen' b' : registry_keys registry ->
  validate_one station registry seen b = Some (seen', b') ->
  legacy_ok station registry b' /\ lb_BindingID b' ∉ sn_IDs seen /\ lb_AppID b' ∉ sn_Apps seen /\
  position_of b' ∉ sn_Positions seen /\ lb_WorkloadUID b' ∉ sn_UIDs seen /\
  seen' = mkSeen ({[ lb_BindingID b' ]} ∪ sn_IDs seen) ({[ lb_AppID b' ]} ∪ sn_Apps seen)
            ({[ position_of b' ]} ∪ sn_Positions seen) ({[ lb_WorkloadUID b' ]} ∪ sn_UIDs seen) /\
  exists position, b' = positioned b position.
Proof.
  intros Hkeys H. unfold validate_one in H. destruct (registry !! lb_AppID b) as [e |] eqn:Ee; [| done].
  destruct (_ || _) eqn:Ec; [done |]. injection H as <- <-. bool_norm.
  pose proof (matched_position_elem e b) as Hp. rewrite (Hkeys _ _ Ee) in Hp. set (p := matched_position e b) in *.
  split_and!; try done; [| by exists p].
  unfold legacy_ok. simpl. split_and!; try done.
  - unfold key_matches in *. by bool_norm.
  - exists e. split; [done |]. by destruct p.
Qed.

(** A key that was added to a [seen] set before the rest was checked is new there. *)
Lemma seen_head (f : legacyBinding -> string) (b : legacyBinding) (seen : gset string) rest :
  (forall x, x ∈ rest -> f x ∉ ({[ f b ]} ∪ seen : gset string)) -> NoDup (f <$> rest) -> NoDup (f <$> b :: rest).
Proof.
  intros Hall Hn. apply NoDup_cons. split; [| done]. intros (x & Hx & Hin)%list_elem_of_fmap.
  apply (Hall _ Hin), elem_of_union_l. rewrite <- Hx. by apply elem_of_singleton.
Qed.
Lemma seen_tail (x b : string) (seen : gset string) : x ∉ ({[ b ]} ∪ seen : gset string) -> x ∉ seen.
Proof. intros H Hx. by apply H, elem_of_union_r. Qed.

Lemma validate_all_spec station registry bs seen out : registry_keys registry ->
  validate_all station registry seen bs = Some out ->
  (forall b, b ∈ out -> legacy_ok station registry b /\ lb_BindingID b ∉ sn_IDs seen /\ lb_AppID b ∉ sn_Apps seen /\
     position_of b ∉ sn_Positions seen /\ lb_WorkloadUID b ∉ sn_UIDs seen) /\
  NoDup (lb_BindingID <$> out) /\ NoDup (lb_AppID <$> out) /\ NoDup (position_of <$> out) /\ NoDup (lb_WorkloadUID <$> out) /\
  lb_BindingID <$> out = lb_BindingID <$> bs.
Proof.
  intros Hkeys. revert seen out. induction bs as [| b bs IH]; intros seen out H; simpl in H.
  - injection H as <-. split; [by intros x Hx%elem_of_nil |]. split_and!; by constructor.
  - destruct (validate_one station registry seen b) as [[seen' b'] |] eqn:E1; [| done]. simpl in H.
    destruct (validate_all station registry seen' bs) as [rest |] eqn:E2; [| done]. injection H as <-.
    apply validate_one_spec in E1 as (Hok & H1 & H2 & H3 & H4 & -> & position & Hpos); [| done].
    apply IH in E2 as (Hall & N1 & N2 & N3 & N4 & Hids). simpl in *.
    split_and!.
    + intros x [-> | Hx]%elem_of_cons; [done |]. destruct (Hall _ Hx) as (? & ? & ? & ? & ?).
      split; [done |]. split_and!; by eapply seen_tail.
    + eapply seen_head; [| done]. intros x Hx. by apply Hall.
    + eapply seen_head; [| done]. intros x Hx. by apply Hall.
    + eapply seen_head; [| done]. intros x Hx. by apply Hall.
    + eapply seen_head; [| done]. intros x Hx. by apply Hall.
    + f_equal; [by rewrite Hpos | exact Hids].
Qed.

Lemma registry_of_spec entries registry out : registry_keys registry -> registry_of entries registry = Some out ->
  registry_keys out /\ forall k e, out !! k = Some e -> registry !! k = Some e \/ e ∈ entries.
Proof.
  revert registry. induction entries as [| e entries IH]; intros registry Hk H; simpl in H; [injection H as <-; eauto |].
  case_bool_decide; [done |]. apply IH in H as [H1 H2].
  - split; [done |]. intros k x [Hx | Hx]%H2; [| right; by right]. apply lookup_insert_Some in Hx as [[<- <-] | [_ ?]]; [right; left | by left].
  - intros k x [[<- <-] | [_ Hx]]%lookup_insert_Some; [done | eauto].
Qed.

(** The legacy registry is accepted as a whole or not at all. Accepted, its
    bindings are the records of the file in the order of their applications, no two
    of them sharing an identifier, an application, a position or a workload; each
    belongs to this station and a well-formed organization, names a registered
    application at its present or a former position, and carries the digest of
    exactly that position and workload. *)
Theorem legacy_registry_is_sound station records entries bs :
  validateLegacy station records entries = Ok bs ->
  (length records <= 128)%nat /\ (lb_BindingID <$> bs) ≡ₚ (lb_BindingID <$> records) /\
  NoDup (lb_BindingID <$> bs) /\ NoDup (lb_AppID <$> bs) /\ NoDup (position_of <$> bs) /\ NoDup (lb_WorkloadUID <$> bs) /\
  forall b, b ∈ bs -> exists registry, legacy_ok station registry b /\ forall k e, registry !! k = Some e -> e ∈ entries /\ en_AppID e = k.
Proof.
  unfold validateLegacy. destruct (_ || _) eqn:Ec; [done |]. bool_norm.
  destruct (registry_of entries ∅) as [registry |] eqn:Er; [| done]. simpl.
  destruct (validate_all station registry _ records) as [out |] eqn:Ev; [| done]. intros [= <-].
  apply registry_of_spec in Er as [Hkeys Hin]; [| intros k e; by rewrite lookup_empty].
  apply validate_all_spec in Ev as (Hall & N1 & N2 & N3 & N4 & Hids); [| done].
  pose proof (sort_by_perm lb_AppID out) as Hp. split_and!; rewrite ?Hp; try done; [lia | by rewrite Hids |].
  intros b Hb. rewrite Hp in Hb. exists registry. split; [by apply Hall |].
  intros k e Hk. split; [| by apply Hkeys]. destruct (Hin _ _ Hk) as [He | ?]; [by rewrite lookup_empty in He | done].
Qed.

(** ** The projection *)

Lemma views_legacy m bs now m' r : viewsLocked m bs now = (m', r) -> m_legacy m' = m_legacy m /\ m_station m' = m_station m.
Proof.
  unfold viewsLocked. destruct (collect_bindings m bs ∅); [| by intros [= <- _]].
  destruct (maxBindings <? _); intros [= <- _]; [done |]. unfold projectAll, register_bindings, reclaim. by case_match.
Qed.

Lemma snapshotLocked_ok m bs now later m' s : snapshotLocked m bs now later = (m', Ok s) ->
  exists views revisions, viewsLocked m bs now = (m', Ok (views, revisions)) /\
    ms_installations s = views /\ ms_legacy s = legacy_views m' bs later.
Proof.
  unfold snapshotLocked. destruct (viewsLocked m bs now) as [m1 [[views revisions] | f]]; [| done].
  intros [= <- <-]. by exists views, revisions.
Qed.

Lemma legacy_views_lookup m bs now org apps app v :
  legacy_views m bs now !! org = Some apps -> apps !! app = Some v ->
  exists l, l ∈ m_legacy m /\ lb_OrganizationID l = org /\ lb_AppID l = app /\ app ∉ (b_AppID <$> bs) /\ v = legacyView m l now.
Proof.
  unfold legacy_views. set (installed := list_to_set (b_AppID <$> bs)).
  assert (Hgen : forall ls acc, foldl (fun (out : gmap string (gmap string MemoryView)) b =>
      if bool_decide (lb_AppID b ∈ installed) then out
      else <[lb_OrganizationID b := <[lb_AppID b := legacyView m b now]> (default ∅ (out !! lb_OrganizationID b))]> out) acc ls !! org = Some apps ->
    apps !! app = Some v ->
    (exists apps', acc !! org = Some apps' /\ apps' !! app = Some v) \/
    exists l, l ∈ ls /\ lb_OrganizationID l = org /\ lb_AppID l = app /\ lb_AppID l ∉ installed /\ v = legacyView m l now).
  { induction ls as [| l ls IH]; intros acc Ho Ha; simpl in Ho; [by left; eauto |].
    destruct (IH _ Ho Ha) as [(apps' & Ho' & Ha') | (l' & Hl' & ?)]; [| right; exists l'; split; [by right | done]].
    case_bool_decide as Hin; [by left; eauto |]. apply lookup_insert_Some in Ho' as [[Horg <-] | [_ Ho']]; [| by left; eauto].
    apply lookup_insert_Some in Ha' as [[Happ <-] | [_ Ha']].
    - right. exists l. split_and!; try done. by left.
    - left. rewrite Horg in Ha'. destruct (acc !! org) as [x |]; simpl in Ha'; [eauto | by rewrite lookup_empty in Ha']. }
  intros Ho Ha. destruct (Hgen _ _ Ho Ha) as [(x & Hx & _) | (l & Hl & <- & <- & Hin & ->)]; [by rewrite lookup_empty in Hx |].
  exists l. split_and!; try done. intros Hbad. by apply Hin, elem_of_list_to_set.
Qed.

Lemma legacyView_resource m b now r : v_Resource (legacyView m b now) = Some r -> ro_UID r = lb_WorkloadUID b.
Proof.
  unfold legacyView, legacy_runtime. destruct (collector_of m (lb_namespace b)) as [c |]; [| done].
  destruct (mc_objects c !! _) as [o |].
  - destruct (negb (ro_UID (mr_obs o) =? lb_WorkloadUID b)%string || owned_object o) eqn:E; [done |].
    destruct (evaluate _ _). intros [= <-]. bool_norm. done.
  - by destruct (negb (is_zero (mc_inventoryAt c))).
Qed.

(** ** The catalog *)

(** A workload in the inventory that carries the identity of the binding. *)
Definition own_workload (m : Memory) (b : Binding) (o : ResourceObservation) : Prop :=
  identity_matches m b o /\ exists id c k st, m_collectors m !! id = Some c /\ mc_objects c !! k = Some st /\ mr_obs st = o.

Lemma installation_own m bs now m' views revisions b v o :
  viewsLocked m bs now = (m', Ok (views, revisions)) -> b ∈ bs -> views !! b_InstallationID b = Some v ->
  v_Resource v = Some o -> own_workload m' b o.
Proof.
  intros Hv Hb Hl Ho. destruct (view_resource_is_own _ _ _ _ _ _ _ _ _ Hv Hl Ho) as (_ & mb & Hmb & Hid & _ & st & Hst & Hobs).
  destruct (registry_is_bounded _ _ _ _ _ _ Hv) as (_ & _ & Hreg). specialize (Hreg b Hb). rewrite Hmb in Hreg.
  injection Hreg as Heq. rewrite Heq in Hid. split; [done |]. unfold object_at in Hst.
  destruct (m_collectors m' !! mb_collector mb) as [c |] eqn:Ec; [| done]. simpl in Hst. by eexists (mb_collector mb), c, _, st.
Qed.

Lemma org_locations_lookup org bs s k v : org_locations org bs s !! k = Some v ->
  exists b r, b ∈ bs /\ b_OrganizationID b = org /\ ms_installations s !! b_InstallationID b = Some v /\
    v_Resource v = Some r /\ k = loc_key (ro_Namespace r) (ro_Name r).
Proof.
  unfold org_locations.
  assert (Hgen : forall ls acc, foldl (locate org s) acc ls !! k = Some v ->
    acc !! k = Some v \/ exists b r, b ∈ ls /\ b_OrganizationID b = org /\ ms_installations s !! b_InstallationID b = Some v /\
      v_Resource v = Some r /\ k = loc_key (ro_Namespace r) (ro_Name r)).
  { induction ls as [| b ls IH]; intros acc H; simpl in H; [by left |].
    apply IH in H as [H | (b' & r & Hb' & ?)]; [| right; exists b', r; split; [by right | done]].
    unfold locate in H. destruct (b_OrganizationID b =? org)%string eqn:Eo; simpl in H; [| by left]. bool_norm.
    destruct (ms_installations s !! b_InstallationID b) as [w |] eqn:Ew; [| by left].
    destruct (v_Resource w) as [r |] eqn:Er; [| by left].
    apply lookup_insert_Some in H as [[<- <-] | [_ H]]; [| by left]. right. exists b, r. split_and!; try done. by left. }
  intros H. destruct (Hgen _ _ H) as [Hx | Hx]; [by rewrite lookup_empty in Hx | done].
Qed.

Definition no_workload (d : Catalog.Observation) : Prop :=
  ob_UID d = "" /\ ob_Ownership d = ∅ /\ ob_Images d = [] /\ ob_Desired d = None /\ ob_Ready d = None.

Lemma catalogPosition_none m e now : no_workload (catalogPosition m e now).
Proof.
  unfold catalogPosition. generalize (map_to_list (m_collectors m)). intros l.
  assert (H0 : no_workload (mkObservation "" "" ∅ "unknown" "unavailable" zero_time None None [])) by done.
  revert H0. generalize (mkObservation "" "" ∅ "unknown" "unavailable" zero_time None None []).
  induction l as [| ic l IH]; intros o Ho; simpl; [done |]. apply IH. destruct Ho as (H1 & H2 & H3 & H4 & H5).
  destruct (negb _); [done |]. case_bool_decide; [done |]. by destruct (_ && _).
Qed.

Lemma catalogObservation_uid v : match v_Resource v with
  | Some r => ob_UID (catalogObservation v) = ro_UID r
  | None => no_workload (catalogObservation v) end.
Proof. unfold catalogObservation. destruct (catalogState (v_Runtime v)). by destruct (v_Resource v). Qed.

(** What an item may show: nothing, an own workload at the item's position, or the
    workload of a legacy binding of the organization, without ownership. *)
Inductive shows (m : Memory) (org : string) (bs : list Binding) (i : SnapshotItem) : Prop :=
| shows_nothing : no_workload (it_Deployment (si_Item i)) -> shows m org bs i
| shows_own b o : b ∈ bs -> b_OrganizationID b = org -> own_workload m b o -> si_AppID i = b_AppID b ->
    ob_UID (it_Deployment (si_Item i)) = ro_UID o -> location (si_Item i) = obs_key o -> shows m org bs i
| shows_legacy l : si_Registered i = true -> l ∈ m_legacy m -> lb_OrganizationID l = org -> lb_AppID l = si_AppID i ->
    lb_AppID l ∉ (b_AppID <$> bs) -> ob_UID (it_Deployment (si_Item i)) = lb_WorkloadUID l ->
    ob_Ownership (it_Deployment (si_Item i)) = ∅ -> shows m org bs i.

Lemma registered_shows m bs now later m' s org locations e at_ :
  snapshotLocked m bs now later = (m', Ok s) -> locations = org_locations org bs s ->
  shows m' org bs (registered_item m' org s locations at_ e).
Proof.
  intros Hs ->. apply snapshotLocked_ok in Hs as (views & revisions & Hv & Hi & Hl).
  unfold registered_item, entry_observation, located.
  destruct (v ← org_locations org bs s !! target e; r ← v_Resource v; if (ro_AppID r =? en_AppID e)%string then Some v else None) as [v |] eqn:E.
  - destruct (org_locations org bs s !! target e) as [w |] eqn:Ew; [| done]. simpl in E.
    apply org_locations_lookup in Ew as (b & r & Hb & Hbo & Hinst & Hr & Hk). rewrite Hr in E. simpl in E.
    destruct (ro_AppID r =? en_AppID e)%string eqn:Ea; [| done]. injection E as ->. bool_norm.
    rewrite Hi in Hinst. pose proof (installation_own _ _ _ _ _ _ _ _ _ Hv Hb Hinst Hr) as Hown.
    destruct Hown as [Hid Hin]. pose proof (catalogObservation_uid v) as Hu. rewrite Hr in Hu.
    apply (shows_own m' org bs _ b r); try done. destruct Hid as (_ & _ & _ & _ & Happ). unfold si_AppID, it_AppID. simpl. by rewrite <- Happ.
  - destruct (apps ← ms_legacy s !! org; apps !! en_AppID e) as [v |] eqn:El; [| apply shows_nothing, catalogPosition_none].
    destruct (ms_legacy s !! org) as [apps |] eqn:Eo; [| done]. simpl in El. rewrite Hl in Eo.
    destruct (legacy_views_lookup _ _ _ _ _ _ _ Eo El) as (l & Hin & Horg & Happ & Hnot & ->).
    pose proof (catalogObservation_uid (legacyView m' l later)) as Hu.
    destruct (v_Resource (legacyView m' l later)) as [r |] eqn:Er.
    + apply (shows_legacy m' org bs _ l); try done; [by rewrite Happ | simpl]. rewrite Hu. by eapply legacyView_resource.
    + apply shows_nothing. simpl. destruct Hu as (H1 & _ & H3 & H4 & H5). done.
Qed.

Lemma discovered_shows m bs now later m' s org v i k :
  snapshotLocked m bs now later = (m', Ok s) -> org_locations org bs s !! k = Some v -> discovered_item v = Some i ->
  shows m' org bs i /\ si_Registered i = false /\ exists app ns name, it_Entry (si_Item i) = bare_entry app ns name.
Proof.
  intros Hs Hk Hd. apply snapshotLocked_ok in Hs as (views & revisions & Hv & Hi & _).
  apply org_locations_lookup in Hk as (b & r & Hb & Hbo & Hinst & Hr & _). unfold discovered_item in Hd. rewrite Hr in Hd.
  injection Hd as <-. rewrite Hi in Hinst. pose proof (installation_own _ _ _ _ _ _ _ _ _ Hv Hb Hinst Hr) as Hown.
  pose proof (catalogObservation_uid v) as Hu. rewrite Hr in Hu. split; [| by split; eauto].
  apply (shows_own m' org bs _ b r); try done. destruct Hown as [(_ & _ & _ & _ & Happ) _]. done.
Qed.

(** C29: the catalog an organization reads discloses no workload of anybody else.
    Every item shows nothing of any workload, or a workload that carries the
    station, organization, application and installation of one of the
    organization's own bindings, at that very position, or the workload of a legacy
    binding of the organization, of an application nobody has installed, and then
    without ownership; there is exactly one registered item per catalog entry, and an
    unregistered one carries no release metadata. *)
Theorem catalog_discloses_own_workloads_only m org entries bs t m' items views :
  catalogSnapshot m org entries bs t = (m', Ok (items, views)) ->
  (forall i, i ∈ items -> shows m' org bs i /\
     (si_Registered i = false -> exists app ns name, it_Entry (si_Item i) = bare_entry app ns name)) /\
  ((fun i => it_Entry (si_Item i)) <$> List.filter si_Registered items) ≡ₚ entries /\
  (length items <= 1000)%nat.
Proof.
  unfold catalogSnapshot. destruct (_ || _); [done |].
  destruct (snapshotLocked m bs (at_views t) (at_legacy t)) as [m1 [s | f]] eqn:Es; [| done].
  unfold catalogSnapshotLocked. set (ls := org_locations org bs s). set (used := used_positions ls entries).
  set (rest := omap _ (map_to_list ls)). destruct (1000 <? _) eqn:El; [done |]. intros [= <- <- _].
  set (reg := registered_item m1 org s ls (at_items t) <$> entries) in *.
  assert (Hreg : forall i, i ∈ reg -> shows m1 org bs i /\ si_Registered i = true).
  { intros i (e & -> & _)%list_elem_of_fmap. split; [by eapply registered_shows | done]. }
  assert (Hrest : forall i, i ∈ rest -> shows m1 org bs i /\ si_Registered i = false /\
    exists app ns name, it_Entry (si_Item i) = bare_entry app ns name).
  { intros i ([k v] & Hk & Hi)%list_elem_of_omap. simpl in Hi. case_bool_decide; [done |].
    apply elem_of_map_to_list in Hk. by eapply discovered_shows. }
  split_and!.
  - intros i Hi. rewrite sort_by_perm in Hi. apply elem_of_app in Hi as [Hi | Hi].
    + destruct (Hreg _ Hi) as [? Ht]. split; [done |]. by rewrite Ht.
    + destruct (Hrest _ Hi) as (? & _ & ?). by split.
  - rewrite (sort_by_filter_perm si_Registered), List.filter_app, filter_all_true, filter_all_false, app_nil_r.
    + unfold reg. rewrite <- list_fmap_compose. simpl. by rewrite list_fmap_id.
    + intros i Hi. by apply Hrest.
    + intros i Hi. by apply Hreg.
  - rewrite length_sort_by. bool_norm. lia.
Qed.

(** ** Candidates *)

Lemma app_bindings_elem (app : string) (bs : list Binding) b :
  b ∈ List.filter (fun b => (b_AppID b =? app)%string) bs <-> b ∈ bs /\ b_AppID b = app.
Proof. by rewrite !list_elem_of_In, List.filter_In, String.eqb_eq. Qed.

Lemma candidate_disclosed m e canManage now : ob_UID (candidate_observation m e canManage now) <> "" ->
  canManage = true /\ exists c o, collector_of m (en_Namespace e) = Some c /\ mc_objects c !! target e = Some o /\
    owned_object o = false /\ mr_received o <= now < mr_expires o /\
    ob_UID (candidate_observation m e canManage now) = ro_UID (mr_obs o) /\
    ob_Ownership (candidate_observation m e canManage now) = ∅ /\
    ob_ManagementStatus (candidate_observation m e canManage now) = "unmanaged".
Proof.
  unfold candidate_observation. destruct (collector_of m (en_Namespace e)) as [c |]; [| done].
  destruct (mc_objects c !! target e) as [o |] eqn:Eo.
  2:{ intros H. exfalso. apply H. destruct (catalogPosition_none m e now) as [Hu _]. exact Hu. }
  destruct (negb canManage || owned_object o) eqn:Em; [done |]. bool_norm.
  set (fact := if negb _ then _ else _). destruct (evaluate fact _) as [state reason].
  destruct (negb (rt_Quality _ =? "known")%string) eqn:Eq; [done |]. apply negb_false_iff, String.eqb_eq in Eq. intros _.
  apply RuntimeView_known in Eq as (st & rs & rcv & exp & _ & _ & Hr & He & _ & _ & Ht & _).
  match goal with |- context [catalogObservation ?v] => pose proof (catalogObservation_uid v) as Hu end.
  injection Hr as <-. injection He as <-. split; [done |]. exists c, o. split_and!; try done; try lia.
  etransitivity; [exact Hu |]. clear. subst fact. unfold set_Health. cbn [v_Resource]. by destruct (negb (time_before _ _)), (mr_obs o).
Qed.

(** Inspecting a candidate discloses a workload in two cases only: it belongs
    to the one installation of the application, which is the organization's own; or
    nobody has a binding of the application, the caller may manage, and a fresh
    object without any mark of an owner occupies the trusted position, which is then
    reported as unmanaged and without ownership. *)
Theorem candidate_is_disclosed_to_managers_only m org e bs canManage t m' d :
  preinstalledObservation m org e bs canManage t = (m', Ok d) -> ob_UID d <> "" ->
  (forall b, b ∈ bs -> b_AppID b = en_AppID e -> b_OrganizationID b = org) /\
  ((exists b o, b ∈ bs /\ b_AppID b = en_AppID e /\ own_workload m' b o /\ ob_UID d = ro_UID o) \/
   (canManage = true /\ ob_ManagementStatus d = "unmanaged" /\ ob_Ownership d = ∅ /\
    exists c o, collector_of m' (en_Namespace e) = Some c /\ mc_objects c !! target e = Some o /\
      owned_object o = false /\ mr_received o <= at_items t < mr_expires o /\ ob_UID d = ro_UID (mr_obs o))).
Proof.
  unfold preinstalledObservation. destruct (snapshotLocked m bs (at_views t) (at_legacy t)) as [m1 [s | f]] eqn:Es; [| done].
  apply snapshotLocked_ok in Es as (views & revisions & Hv & Hi & _).
  pose proof (app_bindings_elem (en_AppID e) bs) as Hall. set (all := List.filter _ bs) in *. intros H Hd.
  destruct (existsb _ all) eqn:Ef; [by injection H as _ <- |].
  assert (Horg : forall b, b ∈ bs -> b_AppID b = en_AppID e -> b_OrganizationID b = org).
  { intros b Hb Ha. destruct (b_OrganizationID b =? org)%string eqn:E; [by bool_norm |]. exfalso.
    assert (existsb (fun b => negb (b_OrganizationID b =? org)%string) all = true); [| congruence].
    apply existsb_exists. exists b. rewrite E. split; [| done]. apply list_elem_of_In. by apply Hall. }
  split; [done |].
  assert (Hcand : d = candidate_observation m1 e canManage (at_items t) -> m' = m1 ->
    canManage = true /\ ob_ManagementStatus d = "unmanaged" /\ ob_Ownership d = ∅ /\
    exists c o, collector_of m' (en_Namespace e) = Some c /\ mc_objects c !! target e = Some o /\
      owned_object o = false /\ mr_received o <= at_items t < mr_expires o /\ ob_UID d = ro_UID (mr_obs o)).
  { intros -> ->. destruct (candidate_disclosed _ _ _ _ Hd) as (Hm & c & o & Hc & Ho & Hw & Ht & Hu & How & Hs). by eauto 12. }
  destruct all as [| b [| b2 rest]] eqn:Ea; [by injection H as <- <-; right; apply Hcand | | by injection H as _ <-].
  assert (Hb : b ∈ bs /\ b_AppID b = en_AppID e) by (apply Hall; by left).
  destruct (ms_installations s !! b_InstallationID b) as [v |] eqn:Ev; [| injection H as <- <-; right; by apply Hcand].
  case_bool_decide as Hres.
  - left. destruct Hres as [r Hr]. injection H as <- <-. rewrite Hi in Ev. exists b, r. destruct Hb. split_and!; try done.
    + by eapply installation_own.
    + unfold project_known in *. destruct (negb _); [done |]. simpl in *. pose proof (catalogObservation_uid v) as Hu. by rewrite Hr in Hu.
  - destruct (_ =? _)%string; injection H as <- <-; [done |]. right. by apply Hcand.
Qed.
End Facts.

(** ** A station with an own, a legacy and an unmanaged workload

    The station of [MemoryWitness] with two more objects: the pre-existing workload
    of image-mcp, listed in the operator's registry, and a recorder that carries no
    mark of an owner. *)

Module SnapshotSample.
Import CanonicalUuid MemorySample.

Definition legacy_org : string := "66666666-6666-4666-8666-666666666666".
Definition legacy_uid : string := "77777777-7777-4777-8777-777777777777".
Definition plain : ResourceMetadata := mkResourceMetadata false "" false (Some []) (mkResourceDiscovery false "" "" "" "" "" "" "").
Definition unowned (ns name uid : string) : ResourceObservation :=
  mkResourceObservation ns name uid "18" "" "" "" "" 3 3 1 1 1 1 1 false false false false "not_checked" "" (Some plain).
Definition old_image : ResourceObservation := unowned "verdantflare-image" "image-mcp-server" legacy_uid.
Definition recorder : ResourceObservation := unowned "media" "recorder" "uid-3".

Definition entry (app ns name : string) : Entry := mkEntry app "" "" "" 0 "" "" [] "" None None "" ns name "" None.
Definition entries : list Entry := [entry "camera" "media" "camera"; entry "image-mcp" "media" "image-mcp"; entry "recorder" "media" "recorder"].
Definition record : legacyBinding := Eval vm_compute in
  mkLegacy "binding-1" "image-mcp" legacy_org station
    (observation_key "verdantflare-image" "image-mcp-server" legacy_uid) legacy_uid "" "".
Definition loaded : list legacyBinding :=
  Eval vm_compute in match validateLegacy station [record] entries with Ok bs => bs | Err _ => [] end.

Definition world_cfg : Collector := mkCollector "apps" ["media"; "verdantflare-image"] [].
Definition world : Memory := Eval vm_compute in
  match NewMemory station boot [world_cfg] with
  | Ok m =>
      let '(m, r) := Open m "apps" t0 "session" in
      let r := match r with Ok r => r | Err _ => O end in
      let m := fst (Receive m r t0 (FBegin sync)) in
      let m := fst (Receive m r t0 (FObjects sync [obs; old_image; recorder])) in
      with_legacy loaded (fst (Receive m r t0 (FEnd sync 3)))
  | Err _ => empty
  end.
Definition readings : Instants := mkInstants (t0 + second) (t0 + second) (t0 + second).
Definition organization_catalog (org : string) : Memory * result Memory.Fault (list SnapshotItem * gmap string MemoryView) :=
  catalogSnapshot world org entries [binding] readings.
Definition items_of (r : Memory * result Memory.Fault (list SnapshotItem * gmap string MemoryView)) : list SnapshotItem :=
  match snd r with Ok (items, _) => items | Err _ => [] end.
Definition views_of (r : Memory * result Memory.Fault (list SnapshotItem * gmap string MemoryView)) : gmap string MemoryView :=
  match snd r with Ok (_, views) => views | Err _ => ∅ end.
Definition uids (items : list SnapshotItem) : list (string * string) :=
  (fun i => (si_AppID i, ob_UID (it_Deployment (si_Item i)))) <$> items.
Definition inspect (canManage : bool) : Memory * result Memory.Fault Catalog.Observation :=
  preinstalledObservation world org (entry "recorder" "media" "recorder") [binding] canManage readings.
Definition candidate (canManage : bool) : option (string * string) :=
  match snd (inspect canManage) with Ok o => Some (ob_UID o, ob_ManagementStatus o) | Err _ => None end.
Definition registry_world : Memory := Eval vm_compute in fst (organization_catalog legacy_org).
Definition registry_items : list SnapshotItem := Eval vm_compute in items_of (organization_catalog legacy_org).
Definition registry_views : gmap string MemoryView := Eval vm_compute in views_of (organization_catalog legacy_org).
Definition inspected_world : Memory := Eval vm_compute in fst (inspect true).
Definition inspected : Catalog.Observation := Eval vm_compute in
  match snd (inspect true) with Ok o => o | Err _ => unknownPreinstalled end.
End SnapshotSample.
Import CanonicalUuid MemorySample SnapshotSample.

(** What the three workloads look like to the owner, to the organization of the
    registry and to a manager. *)
Example owner_reads_camera : uids (items_of (organization_catalog MemorySample.org)) =
  [("camera", "uid-1"); ("image-mcp", ""); ("recorder", "")].
Proof. vm_compute. reflexivity. Qed.
Example registry_reads_legacy : uids (items_of (organization_catalog legacy_org)) =
  [("camera", ""); ("image-mcp", legacy_uid); ("recorder", "")].
Proof. vm_compute. reflexivity. Qed.
Example only_managers_see_candidates : candidate true = Some ("uid-3", "unmanaged") /\ candidate false = Some ("", "unknown").
Proof. split; vm_compute; reflexivity. Qed.

Lemma legacy_registry_is_sound_witness :
  validateLegacy station [record] entries = Ok loaded /\
  forall b, b ∈ loaded -> exists registry, legacy_ok station registry b /\
    forall k e, registry !! k = Some e -> e ∈ entries /\ en_AppID e = k.
Proof.
  assert (H : validateLegacy station [record] entries = Ok loaded) by (vm_compute; reflexivity).
  split; [exact H |]. apply (legacy_registry_is_sound station [record] entries loaded H).
Defined.

Lemma catalog_discloses_own_workloads_only_witness :
  (forall i, i ∈ registry_items -> shows registry_world legacy_org [binding] i /\
     (si_Registered i = false -> exists app ns name, it_Entry (si_Item i) = bare_entry app ns name)) /\
  ((fun i => it_Entry (si_Item i)) <$> List.filter si_Registered registry_items) ≡ₚ entries /\
  (length registry_items <= 1000)%nat.
Proof.
  apply (catalog_discloses_own_workloads_only world legacy_org entries [binding] readings registry_world registry_items registry_views).
  vm_compute. reflexivity.
Defined.

Lemma candidate_is_disclosed_to_managers_only_witness :
  (forall b, b ∈ [binding] -> b_AppID b = "recorder" -> b_OrganizationID b = org) /\
  ((exists b o, b ∈ [binding] /\ b_AppID b = "recorder" /\ own_workload inspected_world b o /\ ob_UID inspected = ro_UID o) \/
   (true = true /\ ob_ManagementStatus inspected = "unmanaged" /\ ob_Ownership inspected = ∅ /\
    exists c o, collector_of inspected_world "media" = Some c /\ mc_objects c !! loc_key "media" "recorder" = Some o /\
      owned_object o = false /\ mr_received o <= at_items readings < mr_expires o /\ ob_UID inspected = ro_UID (mr_obs o))).
Proof.
  apply (candidate_is_disclosed_to_managers_only world org (entry "recorder" "media" "recorder") [binding] true readings
           inspected_world inspected); vm_compute; [reflexivity | discriminate].
Defined.
