(* ===== verification/AppState.v ===== *)
(** * The application state API: internal/appstate/store.go

    [Snapshot] joins the installations, operations and transitions of an
    organization, in one repeatable-read transaction, with the observation memory;
    [SyncCatalog] persists the registered applications; the triggers of
    migrations/0018 raise the revision of an organization at every visible change.
    The same file offers the service wrappers of catalog.go and preinstalled.go.

    [text_le] is the order in which PostgreSQL sorts text (a collation); uuids sort
    by their bytes, and so do their texts, whose hyphens all stand at the same
    places. *)
From stdpp Require Import sorting.
From S2P Require Import Prelude GoStd Sha256 GoJson Uuid Observation Memory Catalog AppSnapshot OperationTypes.
#[local] Open Scope Z_scope.

(** ** The tables *)
Definition scope_key : Type := string * string.
Record State := mkState {
  st_DB : DB;
  app_state_catalog : gset (string * string);
  app_state_scopes : gmap scope_key Z;
  app_state_items : gmap (scope_key * string) Z;
  st_organizations : gset string }.

Definition with_DB db (st : State) : State :=
  mkState db (app_state_catalog st) (app_state_scopes st) (app_state_items st) (st_organizations st).
Definition with_catalog c (st : State) : State :=
  mkState (st_DB st) c (app_state_scopes st) (app_state_items st) (st_organizations st).
Definition with_organization o (st : State) : State :=
  mkState (st_DB st) (app_state_catalog st) (app_state_scopes st) (app_state_items st) ({[ o ]} ∪ st_organizations st).

(** *** station.mark_app_state and its triggers *)
Definition mark_app_state (scope : scope_key) (app : string) (st : State) : State :=
  let v := default 0 (app_state_scopes st !! scope) + 1 in
  mkState (st_DB st) (app_state_catalog st) (<[scope := v]> (app_state_scopes st))
    (<[(scope, app) := v]> (app_state_items st)) (st_organizations st).
Definition mark_all (marks : list (scope_key * string)) (st : State) : State :=
  foldl (fun st mk => mark_app_state (fst mk) (snd mk) st) st marks.

(** The columns whose change counts; poll timestamps and byte counters do not. *)
Definition installation_columns (i : OperationTypes.Installation) :=
  (i_StationID i, i_OrganizationID i, i_AppID i, i_InstallationID i, i_AppVersion i, i_State i, i_Revision i, i_LastOperationID i).
Definition operation_columns (o : OperationRow) :=
  (o_StationID o, o_OrganizationID o, o_AppID o, o_InstallationID o, o_OperationID o, o_UserID o, o_Status o, o_Phase o).
Definition transition_columns (r : TransitionRow) :=
  (tr_StationID r, tr_OrganizationID r, tr_AppID r, t_InstallationID (tr_T r), t_OperationID (tr_T r), tr_UserID r,
   t_Status (tr_T r), t_Phase (tr_T r)).

(** What the trigger marks when a row goes from [old] to [new]; a row that would
    leave its scope raises, and the transaction with it. *)
Definition app_state_business_changed {A B} `{EqDecision B} (columns : A -> B) (mark : A -> scope_key * string)
    (old new : option A) : result string (option (scope_key * string)) :=
  match old, new with
  | Some a, Some b =>
      if bool_decide (columns a = columns b) then Ok None
      else if negb (bool_decide (mark a = mark b)) then Err "immutable application state scope"
      else Ok (Some (mark b))
  | None, Some b => Ok (Some (mark b))
  | Some a, None => Ok (Some (mark a))
  | None, None => Ok None
  end.
Definition installation_mark (i : OperationTypes.Installation) : scope_key * string := ((i_StationID i, i_OrganizationID i), i_AppID i).
Definition operation_mark (o : OperationRow) : scope_key * string := ((o_StationID o, o_OrganizationID o), o_AppID o).
Definition transition_mark (r : TransitionRow) : scope_key * string := ((tr_StationID r, tr_OrganizationID r), tr_AppID r).

(** A transaction from [db] to [db'] marks every row it changed. A trigger fires
    per statement, so a transaction may mark more often, and also mark a row that it
    wrote and restored. *)
Definition marks_of {A B} `{EqDecision B} (columns : A -> B) (mark : A -> scope_key * string) (old new : gmap string A)
    (marks : list (scope_key * string)) : Prop :=
  forall k, exists mk, app_state_business_changed columns mark (old !! k) (new !! k) = Ok mk /\
    forall x, mk = Some x -> x ∈ marks.
Definition triggered (db db' : DB) (marks : list (scope_key * string)) : Prop :=
  marks_of installation_columns installation_mark (app_installations db) (app_installations db') marks /\
  marks_of operation_columns operation_mark (app_operations db) (app_operations db') marks /\
  marks_of transition_columns transition_mark (app_installation_transitions db) (app_installation_transitions db') marks.

(** ** Answers *)
(** [Driver] is an error of the connection that a call passes on as it is. *)
Inductive Error := Denied | Invalid | StateErr (f : Memory.Fault) | Driver.
#[export] Instance Error_eq : EqDecision Error.
Proof. solve_decision. Defined.

Record Scope := mkScope { sc_StationID : string; sc_OrganizationID : string }.
Record Installation := mkInstallation {
  in_Revision : Z; in_AppVersion : string; in_State : string; in_LastOperationID : option string }.
Record Operation := mkOperation {
  op_OperationID : string; op_Protocol : string; op_Status : string; op_Phase : string; op_Blocking : bool }.
Record Item := mkItem {
  im_AppID : string; im_InstallationID : option string; im_StateRevision : string;
  im_Installation : option Installation; im_Runtime : Runtime; im_Operation : option Operation }.
Record Snapshot := mkSnapshot {
  sn_SchemaVersion : Z; sn_Scope : Scope; sn_Revision : string; sn_GeneratedAt : Time; sn_Items : list Item }.

(** *** Their JSON *)
Definition runtime_json (v : Runtime) : json :=
  JObj [("state", JStr (rt_State v)); ("quality", JStr (rt_Quality v)); ("reasonCode", JStr (rt_ReasonCode v));
        ("observedAt", jopt jtime (rt_ObservedAt v)); ("expiresAt", jopt jtime (rt_ExpiresAt v));
        ("lastKnownState", jopt JStr (rt_LastKnownState v))].
Definition installation_json (i : Installation) : json :=
  JObj [("revision", JInt (in_Revision i)); ("appVersion", JStr (in_AppVersion i)); ("state", JStr (in_State i));
        ("lastOperationId", jopt JStr (in_LastOperationID i))].
Definition operation_json (o : Operation) : json :=
  JObj [("operationId", JStr (op_OperationID o)); ("protocol", JStr (op_Protocol o)); ("status", JStr (op_Status o));
        ("phase", JStr (op_Phase o)); ("blocking", JBool (op_Blocking o))].
Definition item_json (i : Item) : json :=
  JObj [("appId", JStr (im_AppID i)); ("installationId", jopt JStr (im_InstallationID i));
        ("stateRevision", JStr (im_StateRevision i)); ("installation", jopt installation_json (im_Installation i));
        ("runtime", runtime_json (im_Runtime i)); ("operation", jopt operation_json (im_Operation i))].
Definition snapshot_json (s : Snapshot) : json :=
  JObj [("schemaVersion", JInt (sn_SchemaVersion s));
        ("scope", JObj [("stationId", JStr (sc_StationID (sn_Scope s))); ("organizationId", JStr (sc_OrganizationID (sn_Scope s)))]);
        ("revision", JStr (sn_Revision s)); ("generatedAt", jtime (sn_GeneratedAt s));
        ("items", JArr (item_json <$> sn_Items s))].

(** ** The query of [Snapshot] *)

(** A boolean order as a decidable relation, and ORDER BY under it. *)
Definition le_of {A} (le : A -> A -> bool) (a b : A) : Prop := le a b = true.
#[local] Instance le_of_dec {A} (le : A -> A -> bool) : RelDecision (le_of le).
Proof. intros a b. unfold le_of. apply _. Defined.
Definition order_by {A} (le : A -> A -> bool) (l : list A) : list A := merge_sort (le_of le) l.

Section Query.
Variable text_le : string -> string -> bool.

(** A row of the common table [visible]. *)
Record Visible := mkVisible { vi_AppID : string; vi_Installed : option OperationTypes.Installation }.

Definition of_organization (station : string) (u : IdentityContext) (i : OperationTypes.Installation) : bool :=
  (i_StationID i =? station)%string && (i_OrganizationID i =? u_OrganizationID u)%string.
Definition is_current (i : OperationTypes.Installation) : bool := negb (i_State i =? "removed")%string.
Definition visible_installations (station : string) (u : IdentityContext) (id : string) (db : DB) : list Visible :=
  snd <$> map_to_list (omap (fun i =>
    if of_organization station u i && (((id =? "")%string && is_current i) || (i_InstallationID i =? id)%string)
    then Some (mkVisible (i_AppID i) (Some i)) else None) (app_installations db)).
Definition uninstalled (station : string) (u : IdentityContext) (db : DB) (app : string) : bool :=
  negb (exists_row (fun i => of_organization station u i && (i_AppID i =? app)%string && is_current i) (app_installations db)).
Definition catalog_of (station : string) (catalog : gset (string * string)) : gset string :=
  set_map snd (filter (fun row => fst row = station) catalog).
Definition visible_catalog (station : string) (u : IdentityContext) (id : string) (catalog : gset (string * string)) (db : DB)
    : list Visible :=
  if negb (id =? "")%string then []
  else omap (fun app => if uninstalled station u db app then Some (mkVisible app None) else None)
         (elements (catalog_of station catalog)).

(** ORDER BY app_id, installation_id, where NULL comes last. *)
Definition visible_le (a b : Visible) : bool :=
  negb (text_le (vi_AppID b) (vi_AppID a))
  || (text_le (vi_AppID a) (vi_AppID b)
      && match vi_Installed a, vi_Installed b with
         | Some i, Some j => negb (str_ltb (i_InstallationID j) (i_InstallationID i))
         | None, Some _ => false
         | _, None => true
         end).
Definition visible_order (l : list Visible) : list Visible := order_by visible_le l.

(** The operations a row may show, and the one it shows: an unfinished one first,
    then the most recently touched, then the greatest identifier. *)
Record Candidate := mkCandidate {
  cd_OperationID : string; cd_Protocol : string; cd_Status : string; cd_Phase : string; cd_UpdatedAt : Time }.
Definition unfinished (status : string) : bool := negb ((status =? "succeeded")%string || (status =? "failed")%string).
Definition newer (a b : Candidate) : bool :=
  let ua := unfinished (cd_Status a) in let ub := unfinished (cd_Status b) in
  (ua && negb ub)
  || (Bool.eqb ua ub && ((cd_UpdatedAt b <? cd_UpdatedAt a)
        || ((cd_UpdatedAt b =? cd_UpdatedAt a) && str_ltb (cd_OperationID b) (cd_OperationID a)))).
Definition newest (l : list Candidate) : option Candidate :=
  foldr (fun c best => match best with
                       | Some b => if newer b c then Some b else Some c
                       | None => Some c
                       end) None l.

Definition installation_of (v : Visible) : option string := i_InstallationID <$> vi_Installed v.
(** SQL's NULL for an installation without an operation. *)
Definition last_operation (v : Visible) : option string :=
  i ← vi_Installed v; if (i_LastOperationID i =? "")%string then None else Some (i_LastOperationID i).

Definition shown_operation (station : string) (u : IdentityContext) (v : Visible) (o : OperationRow) : bool :=
  (o_StationID o =? station)%string && (o_OrganizationID o =? u_OrganizationID u)%string && (o_UserID o =? u_UserID u)%string
  && (o_AppID o =? vi_AppID v)%string && bool_decide (o_InstallationID o = installation_of v)
  && ((o_Status o =? "accepted")%string || (o_Status o =? "running")%string || bool_decide (Some (o_OperationID o) = last_operation v)).
Definition shown_transition (station : string) (u : IdentityContext) (v : Visible) (r : TransitionRow) : bool :=
  (tr_StationID r =? station)%string && (tr_OrganizationID r =? u_OrganizationID u)%string && (tr_UserID r =? u_UserID u)%string
  && bool_decide (Some (t_InstallationID (tr_T r)) = installation_of v).
Definition operation_candidate (o : OperationRow) : Candidate :=
  mkCandidate (o_OperationID o) "lifecycle" (o_Status o) (o_Phase o) (o_UpdatedAt o).
Definition transition_candidate (r : TransitionRow) : Candidate :=
  mkCandidate (t_OperationID (tr_T r)) "transition" (t_Status (tr_T r)) (t_Phase (tr_T r)) (t_UpdatedAt (tr_T r)).
Definition candidates (station : string) (u : IdentityContext) (db : DB) (v : Visible) : list Candidate :=
  ((snd <$> map_to_list (omap (fun o => if shown_operation station u v o then Some (operation_candidate o) else None) (app_operations db)))
   ++ (snd <$> map_to_list (omap (fun r => if shown_transition station u v r then Some (transition_candidate r) else None)
                              (app_installation_transitions db))))%list.
Definition blocking_operation (c : Candidate) : Operation :=
  mkOperation (cd_OperationID c) (cd_Protocol c) (cd_Status c) (cd_Phase c) (unfinished (cd_Status c)).

(** The last operation of an installation, for the one who ran it. *)
Definition own_last_operation (u : IdentityContext) (db : DB) (v : Visible) : option string :=
  id ← last_operation v; o ← app_operations db !! id;
  if (o_UserID o =? u_UserID u)%string && (o_OrganizationID o =? u_OrganizationID u)%string then Some id else None.

(** A row of the answer before the memory is read: its revision is the table's. *)
Definition item_of (station : string) (u : IdentityContext) (st : State) (v : Visible) : Item :=
  mkItem (vi_AppID v) (installation_of v)
    (format_int (default 0 (app_state_items st !! ((station, u_OrganizationID u), vi_AppID v))))
    ((fun i => mkInstallation (i_Revision i) (i_AppVersion i) (i_State i) (own_last_operation u (st_DB st) v)) <$> vi_Installed v)
    (mkRuntime "" "" "" None None None)
    (blocking_operation <$> newest (candidates station u (st_DB st) v)).
Definition snapshot_rows (station : string) (u : IdentityContext) (id : string) (st : State) : list Item :=
  item_of station u st <$>
    take 1001 (visible_order (visible_installations station u id (st_DB st)
                              ++ visible_catalog station u id (app_state_catalog st) (st_DB st))%list).
Definition scope_revision (station : string) (u : IdentityContext) (st : State) : string :=
  format_int (default 0 (app_state_scopes st !! (station, u_OrganizationID u))).

(** ** Calls *)
Section Calls.
Context {U : UuidLib}.

(** What becomes of the connection: whether its statements answer, whether the
    final commit does. *)
Record Connection := mkConnection { answers : bool; commits : bool }.

Definition is_actor (station : string) (u : IdentityContext) : bool :=
  (u_StationID u =? station)%string && validID (u_StationID u) && validID (u_OrganizationID u) && validID (u_UserID u)
  && slices_contains (u_Roles u) "admin" && slices_contains (u_Scopes u) "app:read".

(** [readBindings]: ORDER BY installation_id LIMIT 1001. *)
Definition binding_of (i : OperationTypes.Installation) : Binding :=
  mkBinding (i_InstallationID i) (i_OrganizationID i) (i_AppID i).
Definition readBindings (station : string) (db : DB) (extra : string) : result Error (list Binding) :=
  let rows := take 1001 (sort_by i_InstallationID (List.filter (fun i =>
    (i_StationID i =? station)%string && (is_current i || (i_InstallationID i =? extra)%string))
    (snd <$> map_to_list (app_installations db)))) in
  if maxBindings <? Z.of_nat (length rows) then Err (StateErr ErrLimit) else Ok (binding_of <$> rows).

(** The view of one row: of its installation, or of the legacy workload of an
    application nobody installed. *)
Definition view_for (m : Memory) (org : string) (s : memorySnapshot) (i : Item) : MemoryView :=
  default (mkView (unknown_runtime "NOT_SYNCED") (token m 0) None)
    (match im_InstallationID i with
     | Some id => ms_installations s !! id
     | None => apps ← ms_legacy s !! org; apps !! im_AppID i
     end).
Definition with_view (v : MemoryView) (i : Item) : Item :=
  mkItem (im_AppID i) (im_InstallationID i) (im_StateRevision i +:+ ":" +:+ v_Revision v) (im_Installation i) (v_Runtime v) (im_Operation i).
Definition scope_token (m : Memory) (org : string) (s : memorySnapshot) : string :=
  match ms_revisions s !! org with
  | Some t => if (t =? "")%string then token m 0 else t
  | None => token m 0
  end.
Definition joined (station : string) (u : IdentityContext) (st : State) (rows : list Item) (m : Memory) (s : memorySnapshot) (now : Time)
    : Snapshot :=
  let org := u_OrganizationID u in
  mkSnapshot 1 (mkScope station org) (scope_revision station u st +:+ ":" +:+ scope_token m org s) now
    ((fun i => with_view (view_for m org s i) i) <$> rows).

(** The memory is projected in the course of the call, at [at_views t] and
    [at_legacy t], and the answer is stamped at [at_items t]. *)
Definition Snapshot_of (station : string) (c : Connection) (u : IdentityContext) (id : string) (st : State) (m : Memory) (t : Instants)
    : Memory * result Error Snapshot :=
  if negb (is_actor station u) then (m, Err Denied)
  else if negb (id =? "")%string && negb (validID id) then (m, Err Invalid)
  else if negb (answers c) then (m, Err (StateErr ErrUnavailable))
  else
    let rows := snapshot_rows station u id st in
    if 1000 <? Z.of_nat (length rows) then (m, Err (StateErr ErrLimit))
    else if negb (id =? "")%string && (length rows =? 0)%nat then (m, Err (StateErr ErrNotFound))
    else match readBindings station (st_DB st) id with
    | Err e => (m, Err e)
    | Ok bs =>
        match snapshotLocked m bs (at_views t) (at_legacy t) with
        | (m', Err f) => (m', Err (StateErr f))
        | (m', Ok s) =>
            let out := joined station u st rows m' s (at_items t) in
            (m', if 4 * 1024 * 1024 <? len (marshal (snapshot_json out)) then Err (StateErr ErrLimit)
                 else if negb (commits c) then Err (StateErr ErrUnavailable) else Ok out)
        end
    end.

(** *** [SyncCatalog] *)
Definition app_name (app : string) : bool := negb (63 <? len app) && appIDPattern app.
Definition catalog_apps (station : string) (st : State) : list string :=
  order_by text_le (elements (catalog_of station (app_state_catalog st))).
Definition catalog_rows (station : string) (apps : list string) : gset (string * string) :=
  list_to_set ((fun a => (station, a)) <$> apps).
Definition changed_apps (old apps : list string) : list string :=
  sort_strings (List.filter (fun a => negb (slices_contains apps a)) old
                ++ List.filter (fun a => negb (slices_contains old a)) apps)%list.
(** ORDER BY organization_id, app_id. *)
Definition catalog_marks (station : string) (st : State) (changed : list string) : list (scope_key * string) :=
  o ← sort_strings (elements (st_organizations st));
  (fun a => ((station, o), a)) <$> order_by text_le changed.

Definition SyncCatalog (station : string) (c : Connection) (apps : list string) (st : State) : State * option Error :=
  if negb (validID station) then (st, Some (StateErr ErrUnavailable))
  else if 1000 <? Z.of_nat (length apps) then (st, Some (StateErr ErrLimit))
  else if negb (scan_distinct app_name (fun a => a) ∅ apps) then (st, Some Invalid)
  else
    let apps := sort_strings apps in
    let old := catalog_apps station st in
    if negb (answers c) then (st, Some (StateErr ErrUnavailable))
    else if negb (commits c) then (st, Some Driver)
    else if bool_decide (old = apps) then (st, None)
    else
      let kept := filter (fun row => ~ (fst row = station /\ snd row ∉ apps)) (app_state_catalog st) in
      (mark_all (catalog_marks station st (changed_apps old apps)) (with_catalog (catalog_rows station apps ∪ kept) st), None).

(** *** The service calls of catalog.go and preinstalled.go *)
Definition CatalogSnapshot (station org : string) (c : Connection) (entries : list Entry) (db : DB) (m : Memory) (t : Instants)
    : Memory * result Error (list SnapshotItem * gmap string MemoryView) :=
  if negb (validID station) || negb (validID org) || negb (answers c) then (m, Err (StateErr ErrUnavailable))
  else match readBindings station db "" with
  | Err e => (m, Err e)
  | Ok bs => match catalogSnapshot m org entries bs t with
             | (m', Ok x) => (m', Ok x)
             | (m', Err f) => (m', Err (StateErr f))
             end
  end.

Definition RegisteredCatalog (station : string) (c : Connection) (u : IdentityContext) (entries : list Entry) (db : DB) (m : Memory) (t : Instants)
    : Memory * result Error (list Catalog.Item) :=
  if negb (is_actor station u) then (m, Err Denied)
  else if negb (answers c) then (m, Err (StateErr ErrUnavailable))
  else match readBindings station db "" with
  | Err e => (m, Err e)
  | Ok bs => match registeredCatalog m (u_OrganizationID u) entries bs t with
             | (m', Ok x) => (m', if commits c then Ok x else Err (StateErr ErrUnavailable))
             | (m', Err f) => (m', Err (StateErr f))
             end
  end.

Definition PreinstalledObservation (station : string) (c : Connection) (u : IdentityContext) (entry : option Entry) (db : DB) (m : Memory) (t : Instants)
    : Memory * result Error Catalog.Observation :=
  if negb (validID station) || negb (is_actor station u) then (m, Err Denied)
  else match entry with
  | None => (m, Ok unknownPreinstalled)
  | Some e =>
      if negb (answers c) then (m, Err (StateErr ErrUnavailable))
      else match readBindings station db "" with
      | Err x => (m, Err x)
      | Ok bs => match preinstalledObservation m (u_OrganizationID u) e bs (slices_contains (u_Scopes u) "app:manage") t with
                 | (m', Ok x) => (m', Ok x)
                 | (m', Err f) => (m', Err (StateErr f))
                 end
      end
  end.
End Calls.
End Query.
