(* ===== verification/AppStateSteps.v ===== *)
(** * What moves the revision of an organization

    One site: the operations of [OperationsInv] with the triggers that mark every
    visible change, the synchronization of the registered applications and new
    organizations. The revision of a scope never decreases, and as long as it stays
    the same nothing an API reader can see of the scope's tables changes. *)
From stdpp Require Import sorting.
From S2P Require Import Prelude GoStd Sha256 GoJson Uuid Observation Memory Catalog AppSnapshot OperationTypes Transitions TransitionFacts Dispatch Forward Installations Lifecycle LifecycleWorker OperationsInv OperationsFrame OperationsSteps OperationsWorkers OperationsBarrier OperationsReach LifecycleEffect LifecycleSafety AppState.
#[local] Open Scope Z_scope.

(** ** Marks *)
Definition revision_of (k : scope_key) (st : State) : Z := default 0 (app_state_scopes st !! k).

Lemma mark_all_frame marks st : st_DB (mark_all marks st) = st_DB st /\
  app_state_catalog (mark_all marks st) = app_state_catalog st /\ st_organizations (mark_all marks st) = st_organizations st.
Proof. revert st. induction marks as [| mk marks IH]; intros st; [done |]. exact (IH (mark_app_state _ _ st)). Qed.

Lemma mark_revision k scope app st :
  revision_of k (mark_app_state scope app st) = if decide (k = scope) then revision_of k st + 1 else revision_of k st.
Proof. unfold revision_of. simpl. case_decide; subst; by simplify_map_eq. Qed.

Lemma mark_all_cons mk marks st : mark_all (mk :: marks) st = mark_all marks (mark_app_state (fst mk) (snd mk) st).
Proof. done. Qed.

Lemma mark_all_grows k marks st : revision_of k st <= revision_of k (mark_all marks st).
Proof.
  revert st. induction marks as [| mk marks IH]; intros st; [done |]. rewrite mark_all_cons.
  specialize (IH (mark_app_state (fst mk) (snd mk) st)). rewrite mark_revision in IH. case_decide; lia.
Qed.

Lemma mark_all_raises k marks st : k ∈ (fst <$> marks) -> revision_of k st < revision_of k (mark_all marks st).
Proof.
  revert st. induction marks as [| mk marks IH]; intros st Hk; [by apply elem_of_nil in Hk |]. rewrite mark_all_cons.
  apply elem_of_cons in Hk as [-> | Hk].
  - pose proof (mark_all_grows (fst mk) marks (mark_app_state (fst mk) (snd mk) st)) as H.
    rewrite mark_revision, decide_True in H by done. lia.
  - specialize (IH (mark_app_state (fst mk) (snd mk) st) Hk). rewrite mark_revision in IH. case_decide; lia.
Qed.

Lemma mark_all_items k app marks st : k ∉ (fst <$> marks) ->
  app_state_items (mark_all marks st) !! (k, app) = app_state_items st !! (k, app).
Proof.
  revert st. induction marks as [| mk marks IH]; intros st Hk; [done |]. rewrite mark_all_cons.
  apply not_elem_of_cons in Hk as [Hne Hk]. rewrite (IH _ Hk). simpl. rewrite lookup_insert_ne by congruence. done.
Qed.

(** ** What stays while a scope is not marked *)
Definition in_scope {A} (mark : A -> scope_key * string) (k : scope_key) (a : option A) : option A :=
  match a with Some x => if bool_decide (fst (mark x) = k) then Some x else None | None => None end.
Definition kept {A} (mark : A -> scope_key * string) (k : scope_key) (R : relation A) (m m' : gmap string A) : Prop :=
  forall id, option_Forall2 R (in_scope mark k (m !! id)) (in_scope mark k (m' !! id)).

Lemma in_scope_some {A} mark k (a : option A) x : in_scope mark k a = Some x <-> a = Some x /\ fst (mark x) = k.
Proof. destruct a as [y |]; simpl; [| naive_solver]. case_bool_decide; naive_solver. Qed.

Lemma kept_refl {A} mark k (R : relation A) m : (forall a, R a a) -> kept mark k R m m.
Proof. intros HR id. destruct (in_scope mark k (m !! id)); by constructor. Qed.
Lemma kept_trans {A} mark k (R : relation A) a b c : (forall x y z, R x y -> R y z -> R x z) ->
  kept mark k R a b -> kept mark k R b c -> kept mark k R a c.
Proof.
  intros HR H1 H2 id. specialize (H1 id). specialize (H2 id).
  destruct H1 as [x y Hxy |]; inversion H2; subst; constructor. eauto.
Qed.
(** A row of the scope has its counterpart, in both directions. *)
Lemma kept_to {A} mark k (R : relation A) m m' id x : kept mark k R m m' -> m !! id = Some x -> fst (mark x) = k ->
  exists y, m' !! id = Some y /\ fst (mark y) = k /\ R x y.
Proof.
  intros H Hx Hk. specialize (H id). rewrite (proj2 (in_scope_some mark k (m !! id) x)) in H by done.
  inversion H as [? y HR E1 E2 |]; subst. symmetry in E2. apply in_scope_some in E2 as [? ?]. eauto.
Qed.
Lemma kept_from {A} mark k (R : relation A) m m' id y : kept mark k R m m' -> m' !! id = Some y -> fst (mark y) = k ->
  exists x, m !! id = Some x /\ fst (mark x) = k /\ R x y.
Proof.
  intros H Hy Hk. specialize (H id). rewrite (proj2 (in_scope_some mark k (m' !! id) y)) in H by done.
  inversion H as [x ? HR E1 E2 |]; subst. symmetry in E1. apply in_scope_some in E1 as [? ?]. eauto.
Qed.

(** The trigger keeps what it does not mark. *)
Lemma marks_kept {A B} `{EqDecision B} (columns : A -> B) mark m m' marks k (R : relation A) :
  marks_of columns mark m m' marks -> k ∉ (fst <$> marks) ->
  (forall a b, columns a = columns b -> mark a = mark b) ->
  (forall id a b, m !! id = Some a -> m' !! id = Some b -> columns a = columns b -> R a b) ->
  kept mark k R m m'.
Proof.
  intros Hm Hk Hc HR id. destruct (Hm id) as (mk & Hch & Hin). specialize (HR id).
  assert (Hout : forall x, mk = Some x -> fst x <> k).
  { intros x Hx <-. apply Hk, list_elem_of_fmap. exists x. split; [done |]. by apply Hin. }
  unfold app_state_business_changed in Hch. destruct (m !! id) as [a |], (m' !! id) as [b |]; simpl.
  - case_bool_decide as Hab.
    + rewrite (Hc a b Hab). case_bool_decide; constructor. by apply HR.
    + destruct (negb _) eqn:En; [done |]. apply negb_false_iff, bool_decide_eq_true in En. injection Hch as <-.
      rewrite En. rewrite bool_decide_false by (by apply Hout). constructor.
  - injection Hch as <-. rewrite bool_decide_false by (by apply Hout). constructor.
  - injection Hch as <-. rewrite bool_decide_false by (by apply Hout). constructor.
  - constructor.
Qed.

Definition same_operation (o o' : OperationRow) : Prop :=
  operation_columns o = operation_columns o' /\ (op_active o = false -> o' = o).
Definition same_transition (r r' : TransitionRow) : Prop :=
  transition_columns r = transition_columns r' /\ (tr_active r = false -> r' = r).

Record quiet (k : scope_key) (st st' : State) : Prop := {
  q_items : forall app, app_state_items st' !! (k, app) = app_state_items st !! (k, app);
  q_catalog : catalog_of (fst k) (app_state_catalog st') = catalog_of (fst k) (app_state_catalog st);
  q_installations : kept installation_mark k eq (app_installations (st_DB st)) (app_installations (st_DB st'));
  q_operations : kept operation_mark k same_operation (app_operations (st_DB st)) (app_operations (st_DB st'));
  q_transitions : kept transition_mark k same_transition (app_installation_transitions (st_DB st)) (app_installation_transitions (st_DB st'));
}.

Lemma same_operation_trans a b c : same_operation a b -> same_operation b c -> same_operation a c.
Proof.
  intros [H1 F1] [H2 F2]. split; [congruence |]. intros Ha. rewrite (F1 Ha) in F2, H2. rewrite (F2 Ha). done.
Qed.
Lemma same_transition_trans a b c : same_transition a b -> same_transition b c -> same_transition a c.
Proof.
  intros [H1 F1] [H2 F2]. split; [congruence |]. intros Ha. rewrite (F1 Ha) in F2, H2. rewrite (F2 Ha). done.
Qed.

Lemma quiet_refl k st : quiet k st st.
Proof. split; try done; apply kept_refl; by repeat split. Qed.
Lemma quiet_trans k a b c : quiet k a b -> quiet k b c -> quiet k a c.
Proof.
  intros [A1 A2 A3 A4 A5] [B1 B2 B3 B4 B5]. split.
  - intros app. by rewrite B1, A1.
  - by rewrite B2, A2.
  - eapply kept_trans; eauto. congruence.
  - eapply kept_trans; eauto using same_operation_trans.
  - eapply kept_trans; eauto using same_transition_trans.
Qed.
(** Only the tables of the database, the marks and the catalog matter. *)
Lemma quiet_same k st st' : st_DB st' = st_DB st -> app_state_items st' = app_state_items st ->
  app_state_catalog st' = app_state_catalog st -> quiet k st st'.
Proof. intros E1 E2 E3. split; rewrite ?E1, ?E2, ?E3; try done; apply kept_refl; by repeat split. Qed.

(** ** The site *)
Section Site.
Context {U : UuidLib}.
Variable station : string.
Variable text_le : string -> string -> bool.

Record site := mkSite { si_W : world; si_S : State }.
Inductive sstep : site -> site -> Prop :=
| ss_write w w' st marks : ostep station w w' -> triggered (w_db w) (w_db w') marks ->
    sstep (mkSite w st) (mkSite w' (mark_all marks (with_DB (w_db w') st)))
| ss_catalog w st c apps : sstep (mkSite w st) (mkSite w (fst (SyncCatalog text_le station c apps st)))
| ss_organization w st o : sstep (mkSite w st) (mkSite w (with_organization o st)).
Definition site_0 : site := mkSite (mkWorld empty_db [] []) (mkState empty_db ∅ ∅ ∅ ∅).
Definition site_reachable (s : site) : Prop := rtc sstep site_0 s.

(** *** One write *)
Lemma installation_columns_mark a b : installation_columns a = installation_columns b -> installation_mark a = installation_mark b.
Proof. unfold installation_columns, installation_mark. congruence. Qed.
Lemma operation_columns_mark a b : operation_columns a = operation_columns b -> operation_mark a = operation_mark b.
Proof. unfold operation_columns, operation_mark. congruence. Qed.
Lemma transition_columns_mark a b : transition_columns a = transition_columns b -> transition_mark a = transition_mark b.
Proof. unfold transition_columns, transition_mark. congruence. Qed.

Lemma write_quiet k w w' st marks : st_DB st = w_db w -> world_wf w -> ostep station w w' ->
  triggered (w_db w) (w_db w') marks -> k ∉ (fst <$> marks) -> quiet k st (mark_all marks (with_DB (w_db w') st)).
Proof.
  intros Hdb Hwf Hs (T1 & T2 & T3) Hk.
  destruct (step_effect station w w' (proj1 Hwf) Hs) as [G E%effect_persist].
  destruct (world_wf_step station w w' Hs Hwf) as [_ [P _]].
  destruct (mark_all_frame marks (with_DB (w_db w') st)) as (F1 & F2 & _). split.
  - intros app. by rewrite mark_all_items.
  - by rewrite F2.
  - rewrite F1, Hdb. eapply marks_kept; [exact T1 | exact Hk | apply installation_columns_mark |].
    intros id i i' Hi Hi' Hc. simpl in Hi'. destruct (G id i Hi) as (j & Hj & _ & [-> | Hlt]); simplify_eq; [done |].
    unfold installation_columns in Hc. assert (i_Revision i = i_Revision i') by congruence. lia.
  - rewrite F1, Hdb. eapply marks_kept; [exact T2 | exact Hk | apply operation_columns_mark |].
    intros id o o' Ho Ho' Hc. simpl in Ho'. destruct (E id o Ho) as (x & Hx & _ & Hf). rewrite Hx in Ho'. injection Ho' as ->. by split.
  - rewrite F1, Hdb. eapply marks_kept; [exact T3 | exact Hk | apply transition_columns_mark |].
    intros id r r' Hr Hr' Hc. simpl in Hr'. destruct (P id r Hr) as (x & Hx & _ & _ & _ & _ & Hf). rewrite Hx in Hr'. injection Hr' as ->. by split.
Qed.

(** *** The catalog *)
Lemma elem_of_catalog_of app catalog : app ∈ catalog_of station catalog <-> (station, app) ∈ catalog.
Proof.
  unfold catalog_of. rewrite elem_of_map. split.
  - intros ([s a] & -> & [Hs Hin]%elem_of_filter). simpl in *. by subst.
  - intros H. exists (station, app). split; [done |]. by apply elem_of_filter.
Qed.

Lemma elem_of_catalog_apps app st : app ∈ catalog_apps text_le station st <-> (station, app) ∈ app_state_catalog st.
Proof.
  unfold catalog_apps, order_by. rewrite (merge_sort_Permutation _ _), elem_of_elements. apply elem_of_catalog_of.
Qed.

Lemma changed_nil old apps : changed_apps old apps = [] -> forall a, a ∈ old <-> a ∈ apps.
Proof.
  unfold changed_apps. intros H. pose proof (sort_by_perm (fun s => s)
    (List.filter (fun a => negb (slices_contains apps a)) old ++ List.filter (fun a => negb (slices_contains old a)) apps)) as Hp.
  unfold sort_strings in H. rewrite H in Hp. symmetry in Hp. apply Permutation_nil_r, app_eq_nil in Hp as [H1 H2].
  assert (Hsub : forall l l', List.filter (fun a => negb (slices_contains l' a)) l = [] -> forall a : string, a ∈ l -> a ∈ l').
  { intros l l' E a Ha. destruct (slices_contains l' a) eqn:Ec; [by apply slices_contains_true |]. exfalso.
    assert (Hin : In a (List.filter (fun a => negb (slices_contains l' a)) l)); [| by rewrite E in Hin].
    apply List.filter_In. rewrite Ec. split; [by apply list_elem_of_In | done]. }
  intros a. split; eauto.
Qed.

(** The outcome of a synchronization: nothing, or exactly [apps] for this station. *)
Lemma SyncCatalog_cases c apps st st' e : SyncCatalog text_le station c apps st = (st', e) ->
  st' = st \/
  (e = None /\ exists changed, (changed = [] -> forall a, (station, a) ∈ app_state_catalog st <-> a ∈ apps) /\
   (forall a, (station, a) ∈ app_state_catalog st' <-> a ∈ apps) /\
   (forall s a, s <> station -> (s, a) ∈ app_state_catalog st' <-> (s, a) ∈ app_state_catalog st) /\
   st' = mark_all (catalog_marks text_le station st changed) (with_catalog (app_state_catalog st') st)).
Proof.
  unfold SyncCatalog. destruct (negb (validID station)); [intros [= <- _]; by left |].
  destruct (1000 <? _); [intros [= <- _]; by left |]. destruct (negb (scan_distinct _ _ _ _)); [intros [= <- _]; by left |].
  destruct (negb (answers c)); [intros [= <- _]; by left |]. destruct (negb (commits c)); [intros [= <- _]; by left |]. case_bool_decide; [intros [= <- _]; by left |]. intros [= <- <-].
  right. split; [done |]. eexists. destruct (mark_all_frame (catalog_marks text_le station st (changed_apps (catalog_apps text_le station st) (sort_strings apps)))
    (with_catalog (catalog_rows station (sort_strings apps) ∪ filter (fun row => ~ (fst row = station /\ snd row ∉ sort_strings apps)) (app_state_catalog st)) st)) as (_ & F2 & _).
  assert (Hs : forall a, a ∈ sort_strings apps <-> a ∈ apps) by (intros a; unfold sort_strings; by rewrite sort_by_perm).
  rewrite F2. simpl. split_and!; [| | | done].
  - intros Hc a. rewrite <- Hs, <- (changed_nil _ _ Hc). by rewrite elem_of_catalog_apps.
  - intros a. unfold catalog_rows. rewrite elem_of_union, elem_of_list_to_set, list_elem_of_fmap, elem_of_filter, <- Hs. simpl. split.
    + intros [(x & [= <-] & Hx) | [Hn _]]; [done |]. destruct (decide (a ∈ sort_strings apps)); [done |]. exfalso. by apply Hn.
    + intros Ha. left. by exists a.
  - intros s a Hne. unfold catalog_rows. rewrite elem_of_union, elem_of_list_to_set, list_elem_of_fmap, elem_of_filter. simpl. split.
    + intros [(x & [= -> _] & _) | [_ Ha]]; [congruence | done].
    + intros Ha. right. split; [by intros [? _] | done].
Qed.

Lemma catalog_marks_scope st changed org : org ∈ st_organizations st -> changed <> [] ->
  (station, org) ∈ (fst <$> catalog_marks text_le station st changed).
Proof.
  intros Ho Hc. destruct changed as [| a0 rest] eqn:E; [done |]. rewrite <- E in *. clear Hc.
  apply list_elem_of_fmap. assert (Ha : a0 ∈ order_by text_le changed).
  { unfold order_by. rewrite (merge_sort_Permutation _ _), E. left. }
  exists ((station, org), a0). split; [done |]. unfold catalog_marks. apply list_elem_of_bind. exists org. split.
  - apply list_elem_of_fmap. by exists a0.
  - unfold sort_strings. rewrite sort_by_perm. by apply elem_of_elements.
Qed.

(** *** One step of the site *)
Definition site_wf (s : site) : Prop :=
  st_DB (si_S s) = w_db (si_W s) /\ world_reachable station (si_W s).

Lemma step_site s s' org : sstep s s' -> site_wf s -> org ∈ st_organizations (si_S s) ->
  site_wf s' /\ org ∈ st_organizations (si_S s') /\
  revision_of (station, org) (si_S s) <= revision_of (station, org) (si_S s') /\
  (revision_of (station, org) (si_S s') = revision_of (station, org) (si_S s) -> quiet (station, org) (si_S s) (si_S s')).
Proof.
  intros [w w' st marks Hs Ht | w st c apps | w st o] [Hdb Hr] Ho; simpl in *.
  - destruct (mark_all_frame marks (with_DB (w_db w') st)) as (F1 & F2 & F3). split; [split; [done |] |].
    { eapply rtc_r; eauto. }
    split; [by rewrite F3 |]. assert (E0 : revision_of (station, org) (with_DB (w_db w') st) = revision_of (station, org) st) by done.
    rewrite <- E0. split; [apply mark_all_grows |]. intros E.
    apply (write_quiet _ w); try done; [by apply reachable_wf in Hr |].
    intros Hin. pose proof (mark_all_raises _ _ (with_DB (w_db w') st) Hin). lia.
  - destruct (SyncCatalog text_le station c apps st) as [st' e] eqn:E. simpl.
    apply SyncCatalog_cases in E as [-> | (_ & changed & H0 & H1 & H2 & ->)]; [split_and!; try done; try lia; intros; apply quiet_refl |].
    set (cat := app_state_catalog st') in *. set (marks := catalog_marks _ _ _ _).
    destruct (mark_all_frame marks (with_catalog cat st)) as (F1 & F2 & F3). split; [split; simpl; [by rewrite F1 | done] |].
    split; [by rewrite F3 |]. assert (E0 : revision_of (station, org) (with_catalog cat st) = revision_of (station, org) st) by done.
    rewrite <- E0. split; [apply mark_all_grows |]. intros E.
    assert (Hk : (station, org) ∉ (fst <$> marks)).
    { intros Hin. pose proof (mark_all_raises _ _ (with_catalog cat st) Hin). lia. }
    destruct (decide (changed = [])) as [-> | Hne]; [| by destruct Hk; apply catalog_marks_scope].
    split; try (rewrite F1; apply kept_refl; by repeat split).
    + intros app. by rewrite mark_all_items.
    + rewrite F2. simpl. apply set_eq. intros a. rewrite !elem_of_catalog_of, H0 by done. apply H1.
  - split; [done |]. split; [simpl; set_solver |]. split; [unfold revision_of; simpl; lia | intros _; by apply quiet_same].
Qed.

Lemma steps_site s s' org : rtc sstep s s' -> site_wf s -> org ∈ st_organizations (si_S s) ->
  site_wf s' /\ revision_of (station, org) (si_S s) <= revision_of (station, org) (si_S s') /\
  (revision_of (station, org) (si_S s') = revision_of (station, org) (si_S s) -> quiet (station, org) (si_S s) (si_S s')).
Proof.
  induction 1 as [s | s s1 s2 H Hs IH]; intros Hwf Ho; [split_and!; try done; try lia; intros; apply quiet_refl |].
  destruct (step_site s s1 org H Hwf Ho) as (Hwf1 & Ho1 & Hle & Hq). destruct (IH Hwf1 Ho1) as (Hwf2 & Hle2 & Hq2).
  split; [done |]. split; [lia |]. intros E. eapply quiet_trans; [apply Hq | apply Hq2]; lia.
Qed.

Lemma site_0_wf : site_wf site_0.
Proof. split; [done | apply rtc_refl]. Qed.

Lemma step_site_wf s s' : sstep s s' -> site_wf s -> site_wf s'.
Proof.
  intros [w w' st marks Hs Ht | w st c apps | w st o] [Hdb Hr]; split; simpl in *; try done.
  - apply (mark_all_frame marks (with_DB (w_db w') st)).
  - eapply rtc_r; eauto.
  - destruct (SyncCatalog text_le station c apps st) as [st' e] eqn:E. simpl.
    apply SyncCatalog_cases in E as [-> | (_ & changed & _ & _ & _ & ->)]; [done |].
    by destruct (mark_all_frame (catalog_marks text_le station st changed) (with_catalog (app_state_catalog st') st)) as (-> & _).
Qed.
Lemma reachable_site_wf s : site_reachable s -> site_wf s.
Proof. intros H. eapply (rtc_ind_r site_wf); [apply site_0_wf | | exact H]. intros x y _ Hs Hx. by eapply step_site_wf. Qed.
End Site.
