(* ===== verification/AppStateSafety.v ===== *)
(** * The revision of a snapshot is a version of its facts

    A reader that keeps the revision of its last [Snapshot] and sees it again may
    keep the installations and operations it read: they are the same. The revision
    does not count poll timestamps, which order the operations of a row, so the
    argument needs that at most one operation of a row is unfinished and that
    finished ones never change. *)
From stdpp Require Import pretty sorting.
From S2P Require Import Prelude GoStd Sha256 GoJson Uuid Observation Memory Catalog AppSnapshot OperationTypes Transitions TransitionFacts Dispatch Forward Installations Lifecycle LifecycleWorker OperationsInv OperationsFrame OperationsSteps OperationsWorkers OperationsBarrier OperationsReach LifecycleEffect LifecycleSafety AppState AppStateSteps.
From Stdlib Require Import Ascii.
#[local] Open Scope Z_scope.

(** ** The number before a colon *)
Fixpoint lacks (sep : ascii) (s : string) : Prop :=
  match s with EmptyString => True | String c s => c <> sep /\ lacks sep s end.

Lemma cut_lacks sep s t : lacks sep s -> cut_byte sep (s +:+ String sep t) = (s, t, true).
Proof.
  induction s as [| c s IH]; intros H; simpl.
  - by rewrite bool_decide_true.
  - destruct H as [Hc Hs]. rewrite bool_decide_false by done. fold (String.app s (String sep t)). by rewrite (IH Hs).
Qed.

Lemma lacks_digits x s : lacks ":" s -> lacks ":" (pretty_N_go x s).
Proof.
  revert s. induction (N.lt_wf_0 x) as [x _ IH]; intros s Hs.
  destruct (decide (x = 0)%N) as [-> | Hx]; [by rewrite pretty_N_go_0 |].
  rewrite pretty_N_go_step by lia. apply IH; [apply N.div_lt; lia |]. split; [| done].
  unfold pretty_N_char. by repeat case_match.
Qed.

Lemma lacks_number n : 0 <= n -> lacks ":" (format_int n).
Proof.
  intros Hn. unfold format_int. destruct (n <? 0) eqn:E; [bool_norm; lia |]. unfold pretty, pretty_N.
  case_decide; [by split | by apply lacks_digits].
Qed.

Lemma numbered_inj a b s t : 0 <= a -> 0 <= b -> format_int a +:+ ":" +:+ s = format_int b +:+ ":" +:+ t -> a = b.
Proof.
  intros Ha Hb H. assert (E : forall n s, 0 <= n -> cut_byte ":" (format_int n +:+ ":" +:+ s) = (format_int n, s, true)).
  { intros n x Hn. by apply cut_lacks, lacks_number. }
  pose proof (E a s Ha) as E1. rewrite H, (E b t Hb) in E1. injection E1 as E1 _. unfold format_int in E1.
  destruct (a <? 0) eqn:Ea, (b <? 0) eqn:Eb; bool_norm; try lia. apply (inj pretty) in E1. lia.
Qed.

(** ** The operation a row shows *)
Lemma newest_elem l b : newest l = Some b -> b ∈ l.
Proof.
  revert b. induction l as [| c l IH]; intros b; [done |]. simpl. fold (newest l).
  destruct (newest l) as [x |]; [| intros [= ->]; left]. destruct (newer x c); intros [= ->]; [right; by apply IH | left].
Qed.

Lemma newest_unfinished l c : c ∈ l -> unfinished (cd_Status c) = true ->
  exists b, newest l = Some b /\ unfinished (cd_Status b) = true.
Proof.
  intros Hc Hu. induction l as [| x l IH]; [by apply elem_of_nil in Hc |]. simpl. fold (newest l).
  apply elem_of_cons in Hc as [<- | Hc].
  - destruct (newest l) as [b |]; [| by eexists]. destruct (newer b c) eqn:E; [| by eexists].
    exists b. split; [done |]. unfold newer in E. rewrite Hu in E. by destruct (unfinished (cd_Status b)).
  - destruct (IH Hc) as (b & -> & Hb). destruct (newer b x) eqn:E; [by eexists |]. exists x. split; [done |].
    unfold newer in E. rewrite Hb in E. by destruct (unfinished (cd_Status x)).
Qed.

Lemma newest_unique l c : c ∈ l -> unfinished (cd_Status c) = true ->
  (forall x, x ∈ l -> unfinished (cd_Status x) = true -> blocking_operation x = blocking_operation c) ->
  blocking_operation <$> newest l = Some (blocking_operation c).
Proof.
  intros Hc Hu H. destruct (newest_unfinished l c Hc Hu) as (b & Hb & Hbu). rewrite Hb. simpl. f_equal.
  apply H; [by apply newest_elem | done].
Qed.

(** ** Lists of rows *)
Lemma omap_rows {A B} (f : A -> option B) (m m' : gmap string A) :
  (forall id, (m !! id ≫= f) = (m' !! id ≫= f)) -> omap f m = omap f m'.
Proof. intros H. apply map_eq. intros id. by rewrite !lookup_omap. Qed.

Lemma elem_of_omap_rows {A B} (f : A -> option B) (m : gmap string A) x :
  x ∈ (snd <$> map_to_list (omap f m)) <-> exists id a, m !! id = Some a /\ f a = Some x.
Proof.
  rewrite list_elem_of_fmap. split.
  - intros ([id y] & -> & Hy%elem_of_map_to_list). rewrite lookup_omap in Hy. apply bind_Some in Hy as (a & ? & ?). eauto.
  - intros (id & a & Ha & Hf). exists (id, x). split; [done |]. apply elem_of_map_to_list. rewrite lookup_omap. by rewrite Ha.
Qed.

Lemma kept_bind {A B} mark k (R : relation A) (m m' : gmap string A) (f : A -> option B) :
  kept mark k R m m' -> (forall a, f a <> None -> fst (mark a) = k) -> 
  (forall id a b, m !! id = Some a -> m' !! id = Some b -> R a b -> f a = f b) -> omap f m = omap f m'.
Proof.
  intros H Hout HR. apply omap_rows. intros id.
  assert (Hn : forall (o : option A), in_scope mark k o = None -> o ≫= f = None).
  { intros [a |] E; [| done]. simpl in *. case_bool_decide as Ek; [done |].
    destruct (f a) eqn:Ef; [| done]. destruct Ek. apply Hout. congruence. }
  specialize (H id). specialize (HR id). remember (in_scope mark k (m !! id)) as x eqn:Ex. remember (in_scope mark k (m' !! id)) as y eqn:Ey.
  symmetry in Ex, Ey. destruct H as [a b Hab |]; [| by rewrite !Hn].
  apply in_scope_some in Ex as [Ea _], Ey as [Eb _]. rewrite Ea, Eb. exact (HR a b Ea Eb Hab).
Qed.

Lemma kept_exists {A} mark k (R : relation A) (m m' : gmap string A) (P : A -> bool) :
  kept mark k R m m' -> (forall a, P a = true -> fst (mark a) = k) -> (forall a b, R a b -> P a = P b) -> exists_row P m = exists_row P m'.
Proof.
  intros H Hout HR. apply eq_true_iff_eq. rewrite !exists_row_true. split.
  - intros (id & a & Ha & HP). destruct (kept_to mark k R m m' id a H Ha (Hout a HP)) as (b & Hb & _ & Hab). exists id, b. by rewrite <- (HR a b).
  - intros (id & b & Hb & HP). destruct (kept_from mark k R m m' id b H Hb (Hout b HP)) as (a & Ha & _ & Hab). exists id, a. by rewrite (HR a b).
Qed.

(** ** The rows of a snapshot *)
Section Rows.
Context {U : UuidLib}.
Variable station : string.
Variable text_le : string -> string -> bool.

(** What the tables of a reachable site satisfy. *)
Definition ops_ok (db : DB) : Prop :=
  map_Forall (fun _ o => o_StationID o = station /\ operation_checks o = true) (app_operations db).
Record good (db : DB) : Prop := { g_wf : db_wf db; g_unique : op_unique db; g_ok : ops_ok db }.

Lemma effect_ok db db' : ops_effect station db db' -> ops_ok db -> ops_ok db'.
Proof.
  intros [E | id o _ _ Hs Hc E | id o o' Ho _ Hr Hc E] Hok; unfold ops_ok; rewrite E; [done | by apply map_Forall_insert_2 |].
  apply map_Forall_insert_2; [| done]. destruct Hr as (_ & _ & _ & _ & -> & _). split; [| done]. by apply (Hok id o Ho).
Qed.

Lemma reachable_good w : world_reachable station w -> good (w_db w).
Proof.
  intros H. assert (Hg : world_wf w /\ good (w_db w)); [| apply Hg].
  unfold world_reachable in H. eapply (rtc_ind_r (fun w => world_wf w /\ good (w_db w))); [| | exact H].
  - split; [apply empty_wf |]. split; [apply empty_wf | | apply map_Forall_empty]. intros j k o o' Ho. simpl in Ho; by rewrite lookup_empty in Ho.
  - intros x y _ Hs [Hw [Hwf Hu Hok]]. destruct (world_wf_step station x y Hs Hw) as [Hw' _]. split; [done |].
    destruct (step_effect station x y Hwf Hs) as [_ He].
    split; [apply Hw' | by eapply effect_unique | by eapply effect_ok].
Qed.

Lemma unfinished_active o : operation_checks o = true -> unfinished (o_Status o) = op_active o.
Proof.
  unfold operation_checks, unfinished, op_active. intros H. repeat (apply andb_true_iff in H as [H ?]).
  assert (Hs : slices_contains ["accepted"; "running"; "succeeded"; "failed"] (o_Status o) = true) by done.
  apply slices_contains_true in Hs. set_unfold. by destruct Hs as [-> | [-> | [-> | [-> | []]]]].
Qed.

Variable u : IdentityContext.
Notation org := (u_OrganizationID u).
Notation k := (station, u_OrganizationID u).

(** A row of [visible] that the tables contain. *)
Definition proper (db : DB) (v : Visible) : Prop :=
  forall i, vi_Installed v = Some i -> app_installations db !! i_InstallationID i = Some i /\
    i_AppID i = vi_AppID v /\ i_StationID i = station /\ i_OrganizationID i = org.

Lemma shown_operation_scope v o : shown_operation station u v o = true ->
  fst (operation_mark o) = k /\ o_AppID o = vi_AppID v.
Proof. unfold shown_operation, operation_mark. intros H. bool_norm. simpl. split; congruence. Qed.
Lemma shown_transition_scope v r : shown_transition station u v r = true ->
  fst (transition_mark r) = k /\ exists i, vi_Installed v = Some i /\ i_InstallationID i = t_InstallationID (tr_T r).
Proof.
  unfold shown_transition, transition_mark. intros H. bool_norm. simpl. split; [congruence |].
  unfold installation_of in *. destruct (vi_Installed v) as [i |]; [| done]. exists i. split; [done |]. simpl in *. congruence.
Qed.
Lemma shown_operation_columns v o o' : operation_columns o = operation_columns o' ->
  shown_operation station u v o = shown_operation station u v o' /\
  blocking_operation (operation_candidate o) = blocking_operation (operation_candidate o').
Proof.
  unfold operation_columns, shown_operation, operation_candidate, blocking_operation. simpl. intros H.
  injection H as -> -> -> -> -> -> -> ->. done.
Qed.
Lemma shown_transition_columns v r r' : transition_columns r = transition_columns r' ->
  shown_transition station u v r = shown_transition station u v r' /\
  blocking_operation (transition_candidate r) = blocking_operation (transition_candidate r').
Proof.
  unfold transition_columns, shown_transition, transition_candidate, blocking_operation. simpl. intros H.
  injection H as -> -> _ -> -> -> -> ->. done.
Qed.

Lemma candidates_elem db v c : c ∈ candidates station u db v <->
  (exists id o, app_operations db !! id = Some o /\ shown_operation station u v o = true /\ c = operation_candidate o) \/
  (exists id r, app_installation_transitions db !! id = Some r /\ shown_transition station u v r = true /\ c = transition_candidate r).
Proof.
  unfold candidates. rewrite elem_of_app, !elem_of_omap_rows. split.
  - intros [(id & o & Ho & Hf) | (id & r & Hr & Hf)]; [left | right]; case_match; try done; injection Hf as <-; eauto.
  - intros [(id & o & Ho & Hs & ->) | (id & r & Hr & Hs & ->)]; [left | right]; eexists id, _; (split; [done |]); by rewrite Hs.
Qed.

(** At most one operation of a row is unfinished. *)
Lemma one_unfinished db v x y : good db -> proper db v -> x ∈ candidates station u db v -> y ∈ candidates station u db v ->
  unfinished (cd_Status x) = true -> unfinished (cd_Status y) = true -> x = y.
Proof.
  intros [Hwf Hu Hok] Hv. rewrite !candidates_elem.
  assert (Hop : forall id o, app_operations db !! id = Some o -> unfinished (cd_Status (operation_candidate o)) = true -> op_active o = true).
  { intros id o Ho H. rewrite <- unfinished_active; [done | by apply (Hok id o Ho)]. }
  assert (Htr : forall id r, app_installation_transitions db !! id = Some r -> shown_transition station u v r = true ->
    tr_StationID r = station /\ tr_AppID r = vi_AppID v).
  { intros id r Hr Hs. apply shown_transition_scope in Hs as ([= ? _] & i & Hi & Hid). split; [done |].
    destruct (Hv i Hi) as (Hrow & Happ & _). destruct (db_trs _ Hwf id r Hr) as (_ & _ & _ & _ & i' & Hi' & <- & _).
    rewrite <- Hid, Hrow in Hi'. by injection Hi' as <-. }
  assert (Hx : forall id o id' r, app_operations db !! id = Some o -> shown_operation station u v o = true ->
    app_installation_transitions db !! id' = Some r -> shown_transition station u v r = true -> op_active o = true -> tr_active r = true -> False).
  { intros id o id' r Ho Hso Hr Hsr Ha Hb. apply shown_operation_scope in Hso as [[= Hs _] Happ]. destruct (Htr id' r Hr Hsr) as [Hs' Happ'].
    apply (db_exclusion _ Hwf id id' o r Ho Hr Ha Hb). split; congruence. }
  intros [(id & o & Ho & Hso & ->) | (id & r & Hr & Hsr & ->)] [(id' & o' & Ho' & Hso' & ->) | (id' & r' & Hr' & Hsr' & ->)] Hux Huy.
  - assert (id = id') as <-; [| by simplify_eq]. apply (Hu id id' o o' Ho Ho'); eauto;
      apply shown_operation_scope in Hso as [[= ? _] ?], Hso' as [[= ? _] ?]; congruence.
  - exfalso. eapply (Hx id o id' r'); eauto.
  - exfalso. eapply (Hx id' o' id r); eauto.
  - assert (id = id') as <-; [| by simplify_eq]. apply (db_one_active _ Hwf id id' r r' Hr Hr' Hux Huy).
    apply shown_transition_scope in Hsr as (_ & i & Hi & <-), Hsr' as (_ & i' & Hi' & <-). by simplify_eq.
Qed.

(** *** Two states whose scope was not marked between them *)
Section Quiet.
Variable st st' : State.
Hypothesis Hq : quiet k st st'.
Hypothesis Hg : good (st_DB st).
Hypothesis Hg' : good (st_DB st').

Lemma proper_quiet v : proper (st_DB st) v -> proper (st_DB st') v.
Proof.
  intros Hv i Hi. destruct (Hv i Hi) as (Hrow & Ha & Hs & Ho).
  destruct (kept_to _ _ _ _ _ _ i (q_installations _ _ _ Hq) Hrow) as (j & Hj & _ & <-); [| done].
  unfold installation_mark. simpl. congruence.
Qed.

Lemma visible_installations_quiet id : visible_installations station u id (st_DB st) = visible_installations station u id (st_DB st').
Proof.
  unfold visible_installations. f_equal. f_equal. eapply kept_bind; [apply (q_installations _ _ _ Hq) | | by intros ? ? ? _ _ ->].
  intros i Hi. unfold of_organization, installation_mark in *. case_match eqn:E; [| done]. bool_norm. simpl. congruence.
Qed.
Lemma uninstalled_quiet app : uninstalled station u (st_DB st) app = uninstalled station u (st_DB st') app.
Proof.
  unfold uninstalled. f_equal. eapply kept_exists; [apply (q_installations _ _ _ Hq) | | by intros ? ? ->].
  intros i Hi. unfold of_organization, installation_mark in *. bool_norm. simpl. congruence.
Qed.
Lemma visible_catalog_quiet id : visible_catalog station u id (app_state_catalog st) (st_DB st) =
  visible_catalog station u id (app_state_catalog st') (st_DB st').
Proof.
  unfold visible_catalog. pose proof (q_catalog _ _ _ Hq) as Ec. simpl in Ec. rewrite Ec. destruct (negb _); [done |]. simpl.
  apply list_omap_ext. apply Forall_Forall2_diag, Forall_forall. intros app _. by rewrite uninstalled_quiet.
Qed.

Lemma own_last_operation_quiet v : own_last_operation u (st_DB st) v = own_last_operation u (st_DB st') v.
Proof.
  unfold own_last_operation. destruct (last_operation v) as [id |]; [| done]. simpl.
  assert (Hs : forall db o, good db -> app_operations db !! id = Some o ->
    ((o_UserID o =? u_UserID u)%string && (o_OrganizationID o =? org)%string) = true -> fst (operation_mark o) = k).
  { intros db o [_ _ Hok] Ho E. destruct (Hok id o Ho) as [Hst _]. unfold operation_mark. bool_norm. simpl. congruence. }
  assert (Hc : forall o o' : OperationRow, same_operation o o' ->
    ((o_UserID o =? u_UserID u)%string && (o_OrganizationID o =? org)%string) =
    ((o_UserID o' =? u_UserID u)%string && (o_OrganizationID o' =? org)%string)).
  { intros o o' [H _]. unfold operation_columns in H. by injection H as _ -> _ _ _ -> _ _. }
  destruct (app_operations (st_DB st) !! id) as [o |] eqn:Eo; simpl.
  - destruct (_ && _) eqn:E.
    + destruct (kept_to _ _ _ _ _ id o (q_operations _ _ _ Hq) Eo (Hs _ o Hg Eo E)) as (o' & -> & _ & Hr). simpl. by rewrite <- (Hc o o' Hr), E.
    + destruct (app_operations (st_DB st') !! id) as [o' |] eqn:Eo'; [| done]. simpl. destruct (_ && _) eqn:E' in |- *; [| done].
      destruct (kept_from _ _ _ _ _ id o' (q_operations _ _ _ Hq) Eo' (Hs _ o' Hg' Eo' E')) as (x & Hx & _ & Hr). simplify_eq.
      by rewrite (Hc o o' Hr), E' in E.
  - destruct (app_operations (st_DB st') !! id) as [o' |] eqn:Eo'; [| done]. simpl. destruct (_ && _) eqn:E'; [| done].
    destruct (kept_from _ _ _ _ _ id o' (q_operations _ _ _ Hq) Eo' (Hs _ o' Hg' Eo' E')) as (x & Hx & _ & Hr). congruence.
Qed.

(** An unfinished operation of a row is shown by both. *)
Lemma candidate_to v c : c ∈ candidates station u (st_DB st) v ->
  exists c', c' ∈ candidates station u (st_DB st') v /\ blocking_operation c' = blocking_operation c /\ cd_Status c' = cd_Status c.
Proof.
  rewrite candidates_elem. intros [(id & o & Ho & Hs & ->) | (id & r & Hr & Hs & ->)].
  - destruct (kept_to _ _ _ _ _ id o (q_operations _ _ _ Hq) Ho (proj1 (shown_operation_scope v o Hs))) as (o' & Ho' & _ & [Hc _]).
    destruct (shown_operation_columns v o o' Hc) as [Es Eb]. exists (operation_candidate o'). split_and!; [| done |].
    + apply candidates_elem. left. exists id, o'. by rewrite <- Es.
    + simpl. unfold operation_columns in Hc. congruence.
  - destruct (kept_to _ _ _ _ _ id r (q_transitions _ _ _ Hq) Hr (proj1 (shown_transition_scope v r Hs))) as (r' & Hr' & _ & [Hc _]).
    destruct (shown_transition_columns v r r' Hc) as [Es Eb]. exists (transition_candidate r'). split_and!; [| done |].
    + apply candidates_elem. right. exists id, r'. by rewrite <- Es.
    + simpl. unfold transition_columns in Hc. congruence.
Qed.
Lemma candidate_from v c' : c' ∈ candidates station u (st_DB st') v ->
  exists c, c ∈ candidates station u (st_DB st) v /\ blocking_operation c' = blocking_operation c /\ cd_Status c' = cd_Status c.
Proof.
  rewrite candidates_elem. intros [(id & o & Ho & Hs & ->) | (id & r & Hr & Hs & ->)].
  - destruct (kept_from _ _ _ _ _ id o (q_operations _ _ _ Hq) Ho (proj1 (shown_operation_scope v o Hs))) as (o' & Ho' & _ & [Hc _]).
    destruct (shown_operation_columns v o' o Hc) as [Es Eb]. exists (operation_candidate o'). split_and!; [| done |].
    + apply candidates_elem. left. exists id, o'. by rewrite Es.
    + simpl. unfold operation_columns in Hc. congruence.
  - destruct (kept_from _ _ _ _ _ id r (q_transitions _ _ _ Hq) Hr (proj1 (shown_transition_scope v r Hs))) as (r' & Hr' & _ & [Hc _]).
    destruct (shown_transition_columns v r' r Hc) as [Es Eb]. exists (transition_candidate r'). split_and!; [| done |].
    + apply candidates_elem. right. exists id, r'. by rewrite Es.
    + simpl. unfold transition_columns in Hc. congruence.
Qed.

(** Finished candidates are the same rows. *)
Lemma finished_candidates v : (forall c, c ∈ candidates station u (st_DB st) v -> unfinished (cd_Status c) = false) ->
  candidates station u (st_DB st) v = candidates station u (st_DB st') v.
Proof.
  intros Hf. unfold candidates. f_equal; (f_equal; f_equal).
  - eapply kept_bind; [apply (q_operations _ _ _ Hq) | |].
    + intros o Ho. case_match eqn:E; [| done]. by apply shown_operation_scope in E as [? _].
    + intros id o o' Ho _ [Hc Heq]. destruct (shown_operation_columns v o o' Hc) as [Es _].
      destruct (shown_operation station u v o) eqn:E; [| by rewrite <- Es]. rewrite Heq; [by rewrite E |].
      destruct Hg as [_ _ Hok]. rewrite <- unfinished_active by (by apply (Hok id o Ho)).
      apply (Hf (operation_candidate o)). apply candidates_elem. left. by exists id, o.
  - eapply kept_bind; [apply (q_transitions _ _ _ Hq) | |].
    + intros r Hr. case_match eqn:E; [| done]. by apply shown_transition_scope in E as [? _].
    + intros id r r' Hr _ [Hc Heq]. destruct (shown_transition_columns v r r' Hc) as [Es _].
      destruct (shown_transition station u v r) eqn:E; [| by rewrite <- Es]. rewrite Heq; [by rewrite E |].
      apply (Hf (transition_candidate r)). apply candidates_elem. right. by exists id, r.
Qed.

Lemma shown_quiet v : proper (st_DB st) v ->
  blocking_operation <$> newest (candidates station u (st_DB st) v) = blocking_operation <$> newest (candidates station u (st_DB st') v).
Proof.
  intros Hv. destruct (existsb (fun c => unfinished (cd_Status c)) (candidates station u (st_DB st) v)) eqn:E.
  - apply existsb_exists in E as (c & Hc & Hu). apply list_elem_of_In in Hc.
    destruct (candidate_to v c Hc) as (c' & Hc' & Hb & Hst).
    rewrite (newest_unique _ c Hc Hu), (newest_unique _ c' Hc'); [by rewrite Hb | congruence | |].
    + intros x Hx Hxu. f_equal. eapply (one_unfinished _ v x c' Hg'); try done; [by apply proper_quiet | congruence].
    + intros x Hx Hxu. f_equal. by eapply (one_unfinished _ v x c Hg).
  - rewrite finished_candidates; [done |]. intros c Hc. destruct (unfinished (cd_Status c)) eqn:Eu; [| done].
    rewrite <- E. symmetry. apply existsb_exists. exists c. split; [by apply list_elem_of_In | done].
Qed.

Lemma visible_proper id v :
  v ∈ (visible_installations station u id (st_DB st) ++ visible_catalog station u id (app_state_catalog st) (st_DB st))%list ->
  proper (st_DB st) v.
Proof.
  intros [Hv | Hv]%elem_of_app i Hi.
  - apply elem_of_omap_rows in Hv as (j & x & Hx & Hf). case_match eqn:E; [| done]. injection Hf as <-. simpl in *. injection Hi as ->.
    destruct Hg as [Hwf _ _]. rewrite (db_inst_keys _ Hwf j i Hx). unfold of_organization in E. by bool_norm.
  - unfold visible_catalog in Hv. destruct (negb _); [by apply elem_of_nil in Hv |].
    apply list_elem_of_omap in Hv as (app & _ & Hf). case_match; [| done]. by injection Hf as <-.
Qed.

Lemma item_quiet v : proper (st_DB st) v -> item_of station u st v = item_of station u st' v.
Proof.
  intros Hv. unfold item_of. rewrite (q_items _ _ _ Hq), (shown_quiet v Hv), own_last_operation_quiet. done.
Qed.

Lemma rows_quiet id : snapshot_rows text_le station u id st = snapshot_rows text_le station u id st'.
Proof.
  unfold snapshot_rows. rewrite <- visible_installations_quiet, <- visible_catalog_quiet. apply list_fmap_ext. intros n v Hn.
  apply item_quiet, (visible_proper id). apply list_elem_of_lookup_2, elem_of_take in Hn as (m & Hm & _).
  apply list_elem_of_lookup_2 in Hm. unfold visible_order, order_by in Hm. by rewrite (merge_sort_Permutation _ _) in Hm.
Qed.
End Quiet.

(** ** The theorem *)

(** What an item says besides the volatile view. *)
Definition facts_of (i : Item) : string * option string * option Installation * option Operation :=
  (im_AppID i, im_InstallationID i, im_Installation i, im_Operation i).

Lemma Snapshot_ok c id st m t m' out : Snapshot_of text_le station c u id st m t = (m', Ok out) ->
  facts_of <$> sn_Items out = facts_of <$> snapshot_rows text_le station u id st /\
  exists tok, sn_Revision out = scope_revision station u st +:+ ":" +:+ tok.
Proof.
  unfold Snapshot_of. destruct (negb (is_actor _ _)); [done |]. destruct (_ && _); [done |]. destruct (negb (answers c)); [done |].
  destruct (1000 <? _); [done |]. destruct (_ && _); [done |]. destruct (readBindings _ _ _) as [bs |]; [| done].
  destruct (snapshotLocked _ _ _ _) as [m1 [s |]]; [| done].
  intros H. apply (f_equal snd) in H. cbn [snd] in H. destruct (_ <? _); [done |]. destruct (negb (commits c)); [done |]. injection H as <-. split; [| by eexists].
  unfold joined. cbn [sn_Items]. rewrite <- list_fmap_compose. by apply list_fmap_ext.
Qed.
End Rows.

Section Cursor.
Context {U : UuidLib}.
Variable station : string.
Variable text_le : string -> string -> bool.

Lemma revision_nonneg s org : site_reachable station text_le s -> 0 <= revision_of (station, org) (si_S s).
Proof.
  intros H. unfold site_reachable in H. eapply (rtc_ind_r (fun s => 0 <= revision_of (station, org) (si_S s))); [| | exact H].
  - done.
  - intros x y _ [w w' st marks _ _ | w st c apps | w st o] Hx; simpl in *; [| | done].
    + pose proof (mark_all_grows (station, org) marks (with_DB (w_db w') st)) as Hm. unfold revision_of in *. simpl in *. lia.
    + destruct (SyncCatalog text_le station c apps st) as [st' e] eqn:E. simpl.
      apply SyncCatalog_cases in E as [-> | (_ & changed & _ & _ & _ & ->)]; [done |].
      pose proof (mark_all_grows (station, org) (catalog_marks text_le station st changed) (with_catalog (app_state_catalog st') st)) as Hm.
      unfold revision_of in *. simpl in *. lia.
Qed.

(** C28: the revision of a snapshot is a version of its facts. Whatever commands,
    workers, recoveries and catalog synchronizations run between two snapshots that
    one actor reads, and whatever the observation memory does, two snapshots with
    the same revision list the same applications, installations and operations. *)
Theorem revision_versions_facts u s s' c c' id m m' t t' m1 m1' out out' :
  site_reachable station text_le s -> rtc (sstep station text_le) s s' -> u_OrganizationID u ∈ st_organizations (si_S s) ->
  Snapshot_of text_le station c u id (si_S s) m t = (m1, Ok out) ->
  Snapshot_of text_le station c' u id (si_S s') m' t' = (m1', Ok out') ->
  sn_Revision out' = sn_Revision out ->
  facts_of <$> sn_Items out' = facts_of <$> sn_Items out.
Proof.
  intros Hr Hs Ho (E1 & tok & R1)%Snapshot_ok (E2 & tok' & R2)%Snapshot_ok Heq. rewrite E1, E2. f_equal. symmetry.
  pose proof (reachable_site_wf _ _ _ Hr) as Hwf. destruct (steps_site _ _ _ _ _ Hs Hwf Ho) as (Hwf' & Hle & Hq).
  assert (Hr' : site_reachable station text_le s') by (unfold site_reachable in *; by etransitivity).
  pose proof (revision_nonneg s (u_OrganizationID u) Hr). pose proof (revision_nonneg s' (u_OrganizationID u) Hr').
  rewrite R1, R2 in Heq. unfold scope_revision in Heq. apply numbered_inj in Heq; [| done | done].
  destruct Hwf as [Hdb Hw], Hwf' as [Hdb' Hw'].
  apply rows_quiet; [by apply Hq | rewrite Hdb; by apply reachable_good | rewrite Hdb'; by apply reachable_good].
Qed.
End Cursor.
