(* ===== verification/Notifications.v ===== *)
(** * Hints that an organization's view changed: internal/appstate/notifications.go

    [NotificationRevisions] computes one opaque hint per organization from the
    revision of its tables, the volatile revision of the memory and the few facts
    of others its redacted view depends on; [Publisher.step] publishes the hints
    that changed. The sink (etcd) is an argument: which publications it accepts. *)
From stdpp Require Import gmap list strings.
From S2P Require Import Prelude GoStd Sha256 GoJson Uuid Observation Memory Catalog AppSnapshot OperationTypes Transitions OperationsInv AppState TransitionFacts Dispatch Forward Installations Lifecycle LifecycleWorker AppStateSteps AppStateSafety DispatchFair.
#[local] Open Scope Z_scope.

(** ** The hints *)
Record notificationPosition := mkPosition { np_AppID : string; np_State : string; np_Reason : string }.
Record notificationAvailability := mkAvailability { na_AppID : string; na_ForeignInstallation : bool; na_Blocking : Z }.

Definition position_json (p : notificationPosition) : json :=
  JObj [("AppID", JStr (np_AppID p)); ("State", JStr (np_State p)); ("Reason", JStr (np_Reason p))].
Definition availability_json (a : notificationAvailability) : json :=
  JObj [("AppID", JStr (na_AppID a)); ("ForeignInstallation", JBool (na_ForeignInstallation a)); ("Blocking", JInt (na_Blocking a))].

Definition notificationDigest (value : json) : string := "hint:" +:+ digest_hex value.

Definition catalog_position (m : Memory) (now : Time) (e : Entry) : notificationPosition :=
  let o := catalogPosition m e now in mkPosition (en_AppID e) (ob_State o) (ob_Reason o).

Section Hints.
Context {U : UuidLib}.

Definition notificationViews (m : Memory) (bs : list Binding) (entries : list Entry) (t : Instants)
    : Memory * result Memory.Fault (gmap string string * list notificationPosition) :=
  if 1000 <? Z.of_nat (length entries) then (m, Err ErrLimit)
  else match snapshotLocked m bs (at_views t) (at_legacy t) with
  | (m', Err f) => (m', Err f)
  | (m', Ok s) => (m', Ok (ms_revisions s, sort_by np_AppID (catalog_position m' (at_items t) <$> entries)))
  end.

(** LEAST(count, 2) of the unfinished operations and transitions of each app. *)
Definition count_app (app : string) (blockers : gmap string Z) : gmap string Z :=
  <[app := Z.min 2 (default 0 (blockers !! app) + 1)]> blockers.
Definition blocking_apps (station : string) (db : DB) : list string :=
  ((o_AppID <$> List.filter (fun o => (o_StationID o =? station)%string && op_active o) (snd <$> map_to_list (app_operations db)))
   ++ (tr_AppID <$> List.filter (fun r => (tr_StationID r =? station)%string && tr_active r)
                      (snd <$> map_to_list (app_installation_transitions db))))%list.
Definition notificationBlockers (station : string) (db : DB) : result Error (gmap string Z) :=
  let out := foldr count_app ∅ (blocking_apps station db) in
  if 1000 <? Z.of_nat (size out) then Err (StateErr ErrLimit) else Ok out.

(** The applications an organization sees, and what others do with them. *)
Definition visible_apps (org : string) (entries : list Entry) (bs : list Binding) : gset string :=
  list_to_set (en_AppID <$> entries)
  ∪ list_to_set (b_AppID <$> List.filter (fun b => (b_OrganizationID b =? org)%string) bs).
Definition foreign_app (org : string) (bs : list Binding) (app : string) : bool :=
  existsb (fun b => negb (b_OrganizationID b =? org)%string && (b_AppID b =? app)%string) bs.
Definition availability_of (org : string) (bs : list Binding) (blockers : gmap string Z) (app : string) : notificationAvailability :=
  mkAvailability app (foreign_app org bs app) (default 0 (blockers !! app)).
Definition hint_json (state : string) (positions : list notificationPosition) (available : list notificationAvailability) : json :=
  JObj [("State", JStr state); ("Positions", JArr (position_json <$> positions)); ("Availability", JArr (availability_json <$> available))].
Definition hint_of (m : Memory) (scopes : gmap string string) (entries : list Entry) (bs : list Binding) (positions : list notificationPosition)
    (blockers : gmap string Z) (org revision : string) : string :=
  let volatile := match scopes !! org with
                  | Some v => if (v =? "")%string then token m 0 else v
                  | None => token m 0
                  end in
  notificationDigest (hint_json (revision +:+ ":" +:+ volatile) positions
    (sort_by na_AppID (availability_of org bs blockers <$> elements (visible_apps org entries bs)))).

(** The revision of every organization: LIMIT 1001. *)
Definition organization_revisions (station : string) (st : State) : gmap string string :=
  set_to_map (fun o => (o, format_int (default 0 (app_state_scopes st !! (station, o)))))
    (list_to_set (take 1001 (sort_strings (elements (st_organizations st)))) : gset string).

Definition NotificationRevisions (station : string) (c : Connection) (entries : list Entry) (st : State) (m : Memory) (t : Instants)
    : Memory * result Error (gmap string string) :=
  if negb (validID station) || negb (answers c) then (m, Err (StateErr ErrUnavailable))
  else
    let revisions := organization_revisions station st in
    if 1000 <? Z.of_nat (size revisions) then (m, Err (StateErr ErrLimit))
    else match readBindings station (st_DB st) "" with
    | Err e => (m, Err e)
    | Ok bs =>
        match notificationBlockers station (st_DB st) with
        | Err e => (m, Err e)
        | Ok blockers =>
            match notificationViews m bs entries t with
            | (m', Err f) => (m', Err (StateErr f))
            | (m', Ok (scopes, positions)) =>
                (m', if negb (commits c) then Err (StateErr ErrUnavailable)
                     else Ok (map_imap (fun org revision => Some (hint_of m' scopes entries bs positions blockers org revision)) revisions))
            end
        end
    end.
End Hints.

(** ** The publisher *)
Record Notification := mkNotification { nt_SchemaVersion : Z; nt_Revision : string; nt_ChangedAt : string }.
Definition NotificationPrefix : string := "/station/app-state-notifications/v1/".

Record Publisher := mkPublisher { pu_station : string; pu_last : gmap string string }.
Definition with_last l (p : Publisher) : Publisher := mkPublisher (pu_station p) l.

(** Which publications of one step the sink accepts, and when each is made. *)
Record Sink := mkSink { accepts : string -> bool; instant : string -> Time }.

(** One organization of the loop: the remembered hints, the accepted publications
    and whether one was refused. *)
Definition publish_one (p : Publisher) (sink : Sink) (revisions : gmap string string)
    (acc : gmap string string * list (string * Notification) * bool) (org : string) : gmap string string * list (string * Notification) * bool :=
  let '(last, out, failed) := acc in
  let revision := default "" (revisions !! org) in
  if (default "" (last !! org) =? revision)%string then acc
  else
    let hint := mkNotification 1 revision (rfc3339 (instant sink org)) in
    if accepts sink org then (<[org := revision]> last, (out ++ [(NotificationPrefix +:+ pu_station p +:+ "/" +:+ org, hint)])%list, failed)
    else (last, out, true).

Definition step (p : Publisher) (sink : Sink) (source : result Error (gmap string string))
    : Publisher * list (string * Notification) * option Error :=
  match source with
  | Err e => (p, [], Some e)
  | Ok revisions =>
      let '(last, out, failed) := foldl (publish_one p sink revisions) (pu_last p, [], false) (sort_strings (fst <$> map_to_list revisions)) in
      (with_last (filter (fun kv => is_Some (revisions !! fst kv)) last) p, out,
       if failed then Some (StateErr ErrUnavailable) else None)
  end.

(** ** Every change is published until it is accepted, and then once

    What one pass of [Publisher.step] publishes and remembers, and that a pass
    without a refusal leaves nothing to publish. *)

Section Pass.
Variable p : Publisher.
Variable sink : Sink.
Variable revisions : gmap string string.

Definition changed (last : gmap string string) (org : string) : bool :=
  negb (default "" (last !! org) =? default "" (revisions !! org))%string.
Definition publication (org : string) : string * Notification :=
  (NotificationPrefix +:+ pu_station p +:+ "/" +:+ org, mkNotification 1 (default "" (revisions !! org)) (rfc3339 (instant sink org))).
Definition published (last : gmap string string) (org : string) : bool := changed last org && accepts sink org.
Definition refused (last : gmap string string) (org : string) : bool := changed last org && negb (accepts sink org).

(** One organization of the loop. *)
Lemma publish_one_spec last out failed org :
  publish_one p sink revisions (last, out, failed) org =
  (if published last org then <[org := default "" (revisions !! org)]> last else last,
   if published last org then (out ++ [publication org])%list else out, failed || refused last org).
Proof.
  unfold publish_one, published, refused, changed. destruct (_ =? _)%string; simpl; [by rewrite orb_false_r |].
  destruct (accepts sink org); simpl; [by rewrite orb_false_r | by rewrite orb_true_r].
Qed.

(** The loop: every organization is decided by what was remembered before it. *)
Lemma publish_all l last out failed : NoDup l ->
  let '(last', out', failed') := foldl (publish_one p sink revisions) (last, out, failed) l in
  (forall org, last' !! org = if bool_decide (org ∈ l) && published last org then Some (default "" (revisions !! org)) else last !! org) /\
  out' = (out ++ (publication <$> List.filter (published last) l))%list /\
  failed' = failed || existsb (refused last) l.
Proof.
  revert last out failed. induction l as [| o l IH]; intros last out failed Hnd; cbn [foldl].
  { split_and!; [done | by rewrite app_nil_r | by rewrite orb_false_r]. }
  apply NoDup_cons in Hnd as [Ho Hnd]. rewrite publish_one_spec.
  set (last1 := if published last o then _ else last).
  assert (Hother : forall x, x <> o -> last1 !! x = last !! x).
  { intros x Hx. unfold last1. destruct (published last o); [by rewrite lookup_insert_ne | done]. }
  assert (Hch : forall x, x ∈ l -> changed last1 x = changed last x).
  { intros x Hx. unfold changed. rewrite Hother; [done | congruence]. }
  specialize (IH last1 (if published last o then (out ++ [publication o])%list else out) (failed || refused last o) Hnd).
  destruct (foldl _ _ l) as [[last' out'] failed']. destruct IH as (H1 & -> & ->). split_and!.
  - intros org. rewrite H1. destruct (decide (org = o)) as [-> | Hne].
    + rewrite bool_decide_false, (bool_decide_true (o ∈ o :: l)) by (done || left). simpl. unfold last1.
      destruct (published last o); [by rewrite lookup_insert_eq | done].
    + rewrite (Hother org Hne). rewrite (bool_decide_ext (org ∈ o :: l) (org ∈ l)) by (rewrite elem_of_cons; naive_solver).
      case_bool_decide as Hin; [| done]. simpl. unfold published. by rewrite (Hch org Hin).
  - simpl. rewrite (filter_ext_in (published last1) (published last) l).
    + destruct (published last o); [by rewrite <- app_assoc | done].
    + intros x Hx%list_elem_of_In. unfold published. by rewrite (Hch x Hx).
  - simpl. rewrite <- orb_assoc. do 2 f_equal. apply eq_true_iff_eq. rewrite !existsb_exists.
    split; intros (x & Hx & Hr); exists x; (split; [done |]); unfold refused in *; apply list_elem_of_In in Hx;
      [by rewrite <- (Hch x Hx) | by rewrite (Hch x Hx)].
Qed.
End Pass.

Lemma organizations_nodup (revisions : gmap string string) : NoDup (sort_strings (fst <$> map_to_list revisions)).
Proof. unfold sort_strings. rewrite sort_by_perm. apply NoDup_fst_map_to_list. Qed.
Lemma organizations_elem (revisions : gmap string string) org :
  org ∈ sort_strings (fst <$> map_to_list revisions) <-> is_Some (revisions !! org).
Proof.
  unfold sort_strings. rewrite sort_by_perm, list_elem_of_fmap. split.
  - intros ([k r] & -> & H%elem_of_map_to_list). simpl. by eexists.
  - intros [r H]. exists (org, r). split; [done |]. by apply elem_of_map_to_list.
Qed.

(** ** One pass *)
Section Outcome.
Variable revisions : gmap string string.
Hypothesis nonempty : forall org r, revisions !! org = Some r -> r <> "".
Notation orgs := (sort_strings (fst <$> map_to_list revisions)).
(** What a pass keeps in mind. *)
Definition present (last : gmap string string) : gmap string string :=
  filter (fun kv : string * string => is_Some (revisions !! fst kv)) last.

Lemma unchanged_iff last org r : revisions !! org = Some r -> changed revisions last org = false <-> last !! org = Some r.
Proof.
  intros Hr. unfold changed. rewrite Hr. simpl. rewrite negb_false_iff, String.eqb_eq.
  destruct (last !! org); simpl; [naive_solver |]. split; [intros <-; by destruct (nonempty org "" Hr) | done].
Qed.

Lemma remembered sink last last' org :
  (forall org, last' !! org = if bool_decide (org ∈ orgs) && published sink revisions last org
     then Some (default "" (revisions !! org)) else last !! org) ->
  present last' !! org = r ← revisions !! org; if accepts sink org then Some r else last !! org.
Proof.
  intros H1. unfold present. rewrite map_lookup_filter, H1. destruct (revisions !! org) as [r |] eqn:Er; simpl.
  - rewrite bool_decide_true by (by apply organizations_elem; eexists). simpl. unfold published.
    assert (Hin : is_Some (revisions !! org)) by (by rewrite Er).
    destruct (accepts sink org); rewrite ?andb_true_r, ?andb_false_r; simpl.
    + destruct (changed revisions last org) eqn:Ec; simpl; [by rewrite option_guard_True |].
      apply (unchanged_iff _ _ r Er) in Ec. rewrite Ec. simpl. by rewrite option_guard_True.
    + destruct (last !! org); simpl; [by rewrite option_guard_True | done].
  - match goal with |- ?x ≫= _ = _ => destruct x end; simpl; [| done]. rewrite option_guard_False; [done |]. rewrite Er. by intros [? ?].
Qed.

Lemma none_refused sink last : existsb (refused sink revisions last) orgs = false <->
  forall org r, revisions !! org = Some r -> accepts sink org = true \/ last !! org = Some r.
Proof.
  rewrite <- not_true_iff_false, existsb_exists. split.
  - intros Hn org r Er. destruct (accepts sink org) eqn:Ea; [by left | right]. apply (unchanged_iff _ _ r Er).
    destruct (changed revisions last org) eqn:Ec; [| done]. destruct Hn. exists org. split.
    + apply list_elem_of_In, organizations_elem. by eexists.
    + unfold refused. by rewrite Ec, Ea.
  - intros Hall (org & Hin & Hr). apply list_elem_of_In, organizations_elem in Hin as [r Er]. unfold refused in Hr.
    apply andb_true_iff in Hr as [Hc Ha]. destruct (Hall org r Er) as [Hacc | Hl]; [by rewrite Hacc in Ha |].
    apply (unchanged_iff _ _ r Er) in Hl. congruence.
Qed.

Lemma present_all : present revisions = revisions.
Proof. apply map_filter_id. intros k x Hx. simpl. by rewrite Hx. Qed.

(** Once everything is remembered there is nothing to publish. *)
Lemma silent_pass p sink : pu_last p = revisions -> step p sink (Ok revisions) = (p, [], None).
Proof.
  intros Hp. pose proof (publish_all p sink revisions orgs revisions [] false (organizations_nodup revisions)) as H.
  assert (Hq : forall org, org ∈ orgs -> changed revisions revisions org = false).
  { intros org [r Er]%organizations_elem. by apply (unchanged_iff _ _ r Er). }
  unfold step. rewrite Hp. destruct (foldl _ _ _) as [[last out] failed]. destruct H as (H1 & -> & ->).
  assert (last = revisions) as ->.
  { apply map_eq. intros org. rewrite H1. case_bool_decide as Hin; [| done]. unfold published. by rewrite Hq. }
  rewrite (filter_ext_in _ (fun _ => false)) by (intros x Hx%list_elem_of_In; unfold published; by rewrite Hq).
  assert (Hnil : forall l : list string, List.filter (fun _ => false) l = []) by (intros l; by induction l).
  assert (existsb (refused sink revisions revisions) orgs = false) as ->.
  { apply none_refused. by right. }
  rewrite Hnil. fold (present revisions). rewrite present_all. destruct p as [station last]. simpl in *. by subst.
Qed.
End Outcome.

(** C30: a pass publishes one hint for each organization whose hint is not the one
    remembered, unless the sink refuses it, under the organization's own key; it
    remembers what was accepted, keeps what was refused for the next pass, and
    forgets the organizations that are gone. A pass without an error leaves the
    current hints remembered, and the next pass over the same hints is silent. *)
Theorem publisher_converges p sink revisions p' out e :
  (forall org r, revisions !! org = Some r -> r <> "") ->
  step p sink (Ok revisions) = (p', out, e) ->
  let orgs := sort_strings (fst <$> map_to_list revisions) in
  out = publication p sink revisions <$> List.filter (published sink revisions (pu_last p)) orgs /\ NoDup orgs /\
  (forall org, pu_last p' !! org = r ← revisions !! org; if accepts sink org then Some r else pu_last p !! org) /\
  (e = None <-> forall org r, revisions !! org = Some r -> accepts sink org = true \/ pu_last p !! org = Some r) /\
  (e = None -> pu_last p' = revisions /\ forall sink', step p' sink' (Ok revisions) = (p', [], None)).
Proof.
  intros Hne. unfold step. pose proof (publish_all p sink revisions (sort_strings (fst <$> map_to_list revisions)) (pu_last p) [] false
    (organizations_nodup revisions)) as H.
  destruct (foldl _ _ _) as [[last' out'] failed']. destruct H as (H1 & -> & ->). intros [= <- <- <-]. simpl.
  fold (present revisions last'). pose proof (remembered revisions Hne sink (pu_last p) last') as Hlast.
  pose proof (none_refused revisions Hne sink (pu_last p)) as Hnone.
  destruct (existsb _ _) in Hnone |- *; (split_and!; [done | apply organizations_nodup | by intros org; apply Hlast | | ]).
  - split; [done |]. by intros Hall%Hnone.
  - done.
  - split; [intros _; by apply Hnone | done].
  - intros _. assert (Heq : present revisions last' = revisions).
    { apply map_eq. intros org. rewrite Hlast by done. destruct (revisions !! org) as [r |] eqn:Er; [| done]. simpl.
      destruct (accepts sink org) eqn:Ea; [done |]. by destruct (proj1 Hnone eq_refl org r Er); [congruence |]. }
    split; [done |]. intros sink'. by apply silent_pass.
Qed.

(** ** A site between two reads of the state API

    One organization installs an application while Runtime is offline: the worker
    touches the operation, the revision stays, and the reader sees the same facts.
    A second part publishes hints through a sink that refuses one of them. *)

(** The marks of a concrete transaction, decided on the keys of both tables. *)
Definition marks_check {A B} `{EqDecision B} (columns : A -> B) mark (old new : gmap string A) (marks : list (scope_key * string)) : bool :=
  forallb (fun k => match app_state_business_changed columns mark (old !! k) (new !! k) with
                    | Ok None => true
                    | Ok (Some x) => bool_decide (x ∈ marks)
                    | Err _ => false
                    end) (elements (dom old ∪ dom new : gset string)).

Lemma marks_check_ok {A B} `{EqDecision B} (columns : A -> B) mark old new marks :
  marks_check columns mark old new marks = true -> marks_of columns mark old new marks.
Proof.
  intros H k. unfold marks_check in H. rewrite forallb_forall in H.
  destruct (decide (k ∈ (dom old ∪ dom new : gset string))) as [Hk | Hk].
  - specialize (H k). rewrite <- list_elem_of_In, elem_of_elements in H. specialize (H Hk).
    destruct (app_state_business_changed _ _ _ _) as [[x |] |]; [| by exists None | done].
    exists (Some x). split; [done |]. intros y [= <-]. by case_bool_decide.
  - apply not_elem_of_union in Hk as [H1 H2].
    apply not_elem_of_dom in H1, H2. rewrite H1, H2. by exists None.
Qed.

Module StateSample.
Import CanonicalUuid OperationsSample.

Definition user : string := "99999999-9999-4999-8999-999999999999".
Definition reader : IdentityContext := mkActor station "session" user org ["admin"] ["app:read"; "app:manage"].
Definition v0 : world := mkWorld empty_db [] [].
Definition v1_of (w : world) : world := with_db (fst (submit env None reader install None None None (w_db w))) w.
Definition v1 : world := Eval vm_compute in v1_of v0.
Definition v2_of (w : world) : world := with_db (fst (offline 200 w)) w.
Definition v2 : world := Eval vm_compute in v2_of v1.

Definition bytewise (a b : string) : bool := negb (str_ltb b a).
Definition marks1 : list (scope_key * string) := [((station, org), "world")].
Definition s1 : site := mkSite v0 (with_organization org (mkState empty_db ∅ ∅ ∅ ∅)).
Definition s2 : site := mkSite v1 (mark_all marks1 (with_DB (w_db v1) (si_S s1))).
Definition s3 : site := mkSite v2 (mark_all [] (with_DB (w_db v2) (si_S s2))).

Definition quiet_memory : Memory := mkMemory station "22222222-2222-4222-8222-222222222222" ∅ ∅ ∅ [] ∅.
Definition up : Connection := mkConnection true true.
Definition read_of (s : site) (now : Time) : Memory * result Error Snapshot :=
  Snapshot_of bytewise station up reader "" (si_S s) quiet_memory (mkInstants now now now).
Definition nothing : Snapshot := mkSnapshot 0 (mkScope "" "") "" 0 [].
Definition answer (s : site) (now : Time) : Snapshot := match snd (read_of s now) with Ok out => out | Err _ => nothing end.
Definition answer2 : Snapshot := Eval vm_compute in answer s2 150.
Definition answer3 : Snapshot := Eval vm_compute in answer s3 250.
Definition memory2 : Memory := Eval vm_compute in fst (read_of s2 150).
Definition memory3 : Memory := Eval vm_compute in fst (read_of s3 250).
End StateSample.
Import CanonicalUuid OperationsSample StateSample.

(** The operation is shown as blocking, and touching it changed its row. *)
Example reader_sees_operation : facts_of <$> sn_Items answer2 =
  [("world", Some inst, Some (mkInstallation 2 "0.1.4" "pending" (Some op1)), Some (mkOperation op1 "lifecycle" "accepted" "checking" true))] /\
  w_db v1 <> w_db v2.
Proof. split; [vm_compute; reflexivity |]. intros H. apply (f_equal (fun db => o_UpdatedAt <$> app_operations db !! op1)) in H. vm_compute in H. discriminate. Qed.

Lemma v1_made : v1 = v1_of v0.
Proof. vm_compute. reflexivity. Qed.
Lemma v1_marks : triggered (w_db v0) (w_db v1) marks1.
Proof. split_and!; apply marks_check_ok; vm_compute; reflexivity. Qed.
Lemma v1_step : ostep station v0 v1.
Proof. rewrite v1_made. by apply (os_lifecycle station v0 env None reader install None None None). Qed.
Lemma site_reach : site_reachable station bytewise s2.
Proof.
  eapply rtc_l; [apply ss_organization |]. apply rtc_once.
  apply (ss_write station bytewise v0 v1 (si_S s1) marks1); [apply v1_step | apply v1_marks].
Qed.

Lemma v2_made : v2 = v2_of v1.
Proof. vm_compute. reflexivity. Qed.
Lemma v2_marks : triggered (w_db v1) (w_db v2) [].
Proof. split_and!; apply marks_check_ok; vm_compute; reflexivity. Qed.
Lemma v2_step : ostep station v1 v2.
Proof. rewrite v2_made. apply (os_worker station v1 (fun _ => true) (fun _ => true) true (fun _ => inr OtherCode) None 200). Qed.
Lemma site_offline : sstep station bytewise s2 s3.
Proof. apply (ss_write station bytewise v1 v2 (si_S s2) []); [apply v2_step | apply v2_marks]. Qed.

Lemma revision_versions_facts_witness : facts_of <$> sn_Items answer3 = facts_of <$> sn_Items answer2.
Proof.
  apply (revision_versions_facts station bytewise reader s2 s3 up up "" quiet_memory quiet_memory (mkInstants 150 150 150) (mkInstants 250 250 250)
           memory2 memory3 answer2 answer3).
  - apply site_reach.
  - apply rtc_once, site_offline.
  - vm_compute. reflexivity.
  - vm_compute. reflexivity.
  - vm_compute. reflexivity.
  - vm_compute. reflexivity.
Defined.

Module HintSample.
Definition hints : gmap string string := {[ "north" := "hint:1"; "south" := "hint:2" ]}.
Definition publisher : Publisher := mkPublisher station {[ "east" := "hint:0" ]}.
Definition sink : Sink := mkSink (fun org => (org =? "north")%string) (fun _ => 0).
Definition sink_up : Sink := mkSink (fun _ => true) (fun _ => second).
Definition pass1 := step publisher sink (Ok hints).
Definition pass2 := step (fst (fst pass1)) sink_up (Ok hints).
End HintSample.
Import HintSample.

(** The refused hint is published by the next pass, the accepted one is not. *)
Example refused_hint_is_retried : (fst <$> snd (fst pass1)) = ["/station/app-state-notifications/v1/11111111-1111-7111-8111-111111111111/north"] /\
  (fst <$> snd (fst pass2)) = ["/station/app-state-notifications/v1/11111111-1111-7111-8111-111111111111/south"] /\ snd pass2 = None.
Proof. vm_compute. done. Qed.

Lemma publisher_converges_witness :
  pu_last (fst (fst pass2)) = hints /\ forall sink', step (fst (fst pass2)) sink' (Ok hints) = (fst (fst pass2), [], None).
Proof.
  apply (publisher_converges (fst (fst pass1)) sink_up hints (fst (fst pass2)) (snd (fst pass2)) (snd pass2)).
  - intros org r H. assert (Hr : r ∈ (snd <$> map_to_list hints)).
    { apply list_elem_of_fmap. exists (org, r). split; [done |]. by apply elem_of_map_to_list. }
    vm_compute in Hr. by set_unfold; naive_solver.
  - vm_compute. reflexivity.
  - vm_compute. reflexivity.
Defined.
