(* ===== verification/AppFacts.v ===== *)
(** * Application facts: internal/appcenter/facts.go

    The snapshot the application center shows to one actor: [Build] joins the
    catalog, the installations and the operations into one fact per card, with the
    lifecycle candidates, the source statuses and the semantic revision. *)
From S2P Require Import Prelude GoStd Sha256 GoJson Identity Catalog SemVer.
From Stdlib Require Import Ascii.

(** ** Data *)
Inductive FactsError : Type :=
| Denied            (** identity.Denied *)
| ErrUnavailable | ErrLimit | ErrConflict.
#[export] Instance FactsError_eq : EqDecision FactsError.
Proof. solve_decision. Defined.

Record Scope := mkScope {
  sc_UserID : string; sc_OrganizationID : string; sc_StationID : string; sc_AuthorizationEpoch : string }.
Record SourceStatus := mkSource {
  so_Source : string; so_Quality : string; so_Revision : option string; so_ObservedAt : option Time;
  so_ReasonCode : option string }.
Record Installation := mkInstalled {
  in_InstallationID : string; in_Revision : Z; in_AppVersion : string; in_State : string;
  in_LastOperationID : option string }.
Record InstallationRecord := mkRecord { re_AppID : string; re_Installation : Installation }.
Record Service := mkServiceFact {
  sf_Quality : string; sf_State : string; sf_ObservedAt : option Time; sf_ReasonCode : option string;
  sf_ObservationKey : option string; sf_WorkloadUID : option string }.
Record Operation := mkOperationFact {
  of_Quality : string; of_Blocking : bool; of_OperationID : option string; of_Protocol : option string;
  of_Status : option string; of_Phase : option string; of_CanRead : bool; of_UpdatedAt : option Time }.
Record OperationRecord := mkOperationRecord {
  or_AppID : string; or_OperationID : string; or_UserID : string; or_OrganizationID : string;
  or_Protocol : string; or_Status : string; or_Phase : string; or_UpdatedAt : Time }.
Record Candidate := mkCandidateFact {
  ca_Kind : string; ca_Enabled : bool; ca_ReasonCode : option string; ca_AppVersion : string;
  ca_ReleaseDigest : option string; ca_ExpectedWorkloadUID : option string }.
Record Lifecycle := mkLifecycle { li_PolicyRevision : string; li_Candidates : list Candidate }.
Record Fact := mkFact {
  fa_CardKey : string; fa_AppID : string; fa_Origin : string; fa_Catalog : option Item;
  fa_Installation : option Installation; fa_InstallationQuality : string; fa_Service : Service;
  fa_Operation : Operation; fa_Lifecycle : Lifecycle }.
Record Facts := mkFacts {
  fs_SchemaVersion : Z; fs_RequestID : string; fs_Scope : Scope; fs_Revision : string;
  fs_GeneratedAt : Time; fs_Sources : list SourceStatus; fs_Items : list Fact }.

Definition Text (value : string) : option string := if (value =? "")%string then None else Some value.
Definition LastOperationIDValue (i : Installation) : string := default "" (in_LastOperationID i).

Definition with_service (s : Service) (f : Fact) : Fact :=
  mkFact (fa_CardKey f) (fa_AppID f) (fa_Origin f) (fa_Catalog f) (fa_Installation f) (fa_InstallationQuality f) s
    (fa_Operation f) (fa_Lifecycle f).
Definition with_lifecycle (l : Lifecycle) (f : Fact) : Fact :=
  mkFact (fa_CardKey f) (fa_AppID f) (fa_Origin f) (fa_Catalog f) (fa_Installation f) (fa_InstallationQuality f)
    (fa_Service f) (fa_Operation f) l.

(** ** The actor *)
Definition ActorScope (user : IdentityContext) : Scope :=
  let roles := sort_strings (ic_Roles user) in
  let scopes := sort_strings (ic_Scopes user) in
  let epoch := digest_hex (JObj
    [("Session", JStr (ic_SessionID user)); ("Revocation", JInt (ic_RevocationVersion user));
     ("Policy", JInt (ic_PolicyVersion user)); ("Roles", jstrs (compact roles)); ("Scopes", jstrs (compact scopes))]) in
  mkScope (ic_UserID user) (ic_OrganizationID user) (ic_StationID user) epoch.

Definition canRead (user : IdentityContext) : bool :=
  negb (ic_UserID user =? "")%string && negb (ic_OrganizationID user =? "")%string
  && negb (ic_StationID user =? "")%string && slices_contains (ic_Roles user) "admin"
  && slices_contains (ic_Scopes user) "app:read".

(** ** Observations *)
Definition noService (reason : string) : Service :=
  mkServiceFact "unknown" "unknown" None (Text reason) None None.
Definition idle : Operation := mkOperationFact "known" false None None None None false None.

Definition observationKey (item : Item) : string :=
  let d := it_Deployment item in
  if (ob_UID d =? "")%string then ""
  else "obs:" +:+ digest_hex (jstrs [en_Namespace (it_Entry item); en_WorkloadName (it_Entry item); ob_UID d]).

Definition observation (item : Item) : Service :=
  let d := it_Deployment item in
  let state := if (ob_State d =? "not_installed")%string then "absent" else ob_State d in
  let known := negb (state =? "unknown")%string
    && slices_contains ["absent"; "ready"; "stopped"; "starting"; "stopping"; "degraded"] state
    && negb (is_zero (ob_ObservedAt d)) in
  mkServiceFact (if known then "known" else "unknown") (if known then state else "unknown")
    (if is_zero (ob_ObservedAt d) then None else Some (ob_ObservedAt d))
    (Text (ob_Reason d)) (Text (observationKey item)) (Text (ob_UID d)).

Definition scopedItem (user : IdentityContext) (item : Item) : Item :=
  ProjectManagement (ic_StationID user) (ic_OrganizationID user) item.
Definition foreign (item : Item) : bool := (ob_ManagementStatus (it_Deployment item) =? "foreign")%string.

Definition publicCatalog (item : Item) : Item :=
  if foreign item
  then with_deployment (mkObservation "" "foreign" ∅ "unknown" "forbidden" zero_time None None []) item
  else item.

(** ** Operations *)
Definition own_operation (user : IdentityContext) (r : OperationRecord) : bool :=
  (or_UserID r =? ic_UserID user)%string && (or_OrganizationID r =? ic_OrganizationID user)%string.
Definition active_record (r : OperationRecord) : bool :=
  negb (or_Status r =? "succeeded")%string && negb (or_Status r =? "failed")%string.

(** The loop of [opFor]: [None] when two operations of the application are active. *)
Fixpoint op_scan (app : string) (user : IdentityContext) (active terminal : option OperationRecord)
    (records : list OperationRecord) : option (option OperationRecord * option OperationRecord) :=
  match records with
  | [] => Some (active, terminal)
  | r :: rest =>
      if negb (or_AppID r =? app)%string then op_scan app user active terminal rest
      else if active_record r then
        match active with
        | Some _ => None
        | None => op_scan app user (Some r) terminal rest
        end
      else if own_operation user r
              && match terminal with
                 | None => true
                 | Some t => time_after (or_UpdatedAt r) (or_UpdatedAt t)
                             || ((or_UpdatedAt r =? or_UpdatedAt t) && str_ltb (or_OperationID r) (or_OperationID t))
                 end
      then op_scan app user active (Some r) rest
      else op_scan app user active terminal rest
  end.

Definition opFor (app : string) (records : list OperationRecord) (user : IdentityContext) : Operation :=
  match op_scan app user None None records with
  | None => mkOperationFact "conflict" true None None None None false None
  | Some (active, terminal) =>
      let blocking := bool_decide (is_Some active) in
      match (match active with Some a => Some a | None => terminal end) with
      | Some r =>
          if own_operation user r
          then mkOperationFact "known" blocking (Text (or_OperationID r)) (Text (or_Protocol r)) (Text (or_Status r))
                 (Text (or_Phase r)) true (Some (or_UpdatedAt r))
          else mkOperationFact "known" blocking None None None None false None
      | None => mkOperationFact "known" blocking None None None None false None
      end
  end.

(** ** Installations *)
Definition removed (r : InstallationRecord) : bool := (in_State (re_Installation r) =? "removed")%string.
Definition record_valid (r : InstallationRecord) : bool :=
  negb (in_InstallationID (re_Installation r) =? "")%string && negb (re_AppID r =? "")%string
  && (1 <=? in_Revision (re_Installation r))
  && slices_contains ["pending"; "installed"; "failed"] (in_State (re_Installation r)).

(** How many installations each application has. *)
Fixpoint count_installations (ids : gset string) (counts : gmap string nat) (l : list InstallationRecord) :
  result FactsError (gmap string nat) :=
  match l with
  | [] => Ok counts
  | r :: rest =>
      if removed r then count_installations ids counts rest
      else
        let id := in_InstallationID (re_Installation r) in
        reject ErrConflict when negb (record_valid r) || bool_decide (id ∈ ids) ;;
        count_installations ({[ id ]} ∪ ids) (<[ re_AppID r := S (default O (counts !! re_AppID r)) ]> counts) rest
  end.
Definition installed_count (counts : gmap string nat) (app : string) : nat := default O (counts !! app).

(** Does a catalog item carry the label of an installation. *)
Definition bound_to (user : IdentityContext) (r : InstallationRecord) (source : SnapshotItem) : bool :=
  (si_AppID source =? re_AppID r)%string
  && (go_get (ob_Ownership (it_Deployment (scopedItem user (si_Item source)))) (station_key "installation-id")
      =? in_InstallationID (re_Installation r))%string.

(** The inner loop over the catalog: the metadata, the service and the matches. *)
Record Binding := mkFactBinding { bi_Catalog : option Item; bi_Service : Service; bi_matches : nat }.
Definition bind_item (user : IdentityContext) (r : InstallationRecord) (b : Binding) (source : SnapshotItem) : Binding :=
  if negb (si_AppID source =? re_AppID r)%string then b
  else
    let candidate := scopedItem user (si_Item source) in
    let catalog := match bi_Catalog b with
                   | None => if si_Registered source then Some (publicCatalog candidate) else None
                   | c => c
                   end in
    if negb (bound_to user r source) then mkFactBinding catalog (bi_Service b) (bi_matches b)
    else mkFactBinding catalog
           (if negb (ob_ManagementStatus (it_Deployment candidate) =? "managed")%string
            then mkServiceFact "conflict" "unknown" None (Text "WORKLOAD_BINDING_CONFLICT") None None
            else observation candidate)
           (S (bi_matches b)).

Definition conflicting (s : Service) : Service :=
  mkServiceFact "conflict" (sf_State s) (sf_ObservedAt s) (Text "MULTIPLE_INSTALLATIONS") (sf_ObservationKey s) (sf_WorkloadUID s).

Definition no_lifecycle : Lifecycle := mkLifecycle "" [].

Definition installation_fact (user : IdentityContext) (catalogItems : list SnapshotItem)
    (operations : list OperationRecord) (states : option (gmap string Service)) (counts : gmap string nat)
    (r : InstallationRecord) : Fact :=
  let i := re_Installation r in
  let operation := opFor (re_AppID r) operations user in
  let b := foldl (bind_item user r) (mkFactBinding None (noService "WORKLOAD_BINDING_MISSING") 0) catalogItems in
  let service :=
    match states with
    | None => if (1 <? bi_matches b)%nat
              then mkServiceFact "conflict" "unknown" None (Text "MULTIPLE_WORKLOAD_BINDINGS") None None
              else bi_Service b
    | Some st => default (noService "NOT_SYNCED") (st !! in_InstallationID i)
    end in
  let several := (1 <? installed_count counts (re_AppID r))%nat in
  let last := match of_OperationID operation with
              | Some id => if of_CanRead operation && (id =? LastOperationIDValue i)%string then Some id else None
              | None => None
              end in
  mkFact ("installation:" +:+ in_InstallationID i) (re_AppID r) "installation" (bi_Catalog b)
    (Some (mkInstalled (in_InstallationID i) (in_Revision i) (in_AppVersion i) (in_State i) last))
    (if several then "conflict" else "known") (if several then conflicting service else service)
    operation no_lifecycle.

(** ** Catalog cards *)

(** A card of the catalog, or [None] when the item is not shown, with the
    applications whose plain card was made. *)
Definition catalog_fact (user : IdentityContext) (operations : list OperationRecord) (counts : gmap string nat)
    (seen : gset string) (source : SnapshotItem) : result FactsError (option Fact * gset string) :=
  let item := scopedItem user (si_Item source) in
  let uid := ob_UID (it_Deployment item) in
  if negb (si_Registered source) && foreign item then Ok (None, seen)
  else if (0 <? installed_count counts (it_AppID item))%nat && ((uid =? "")%string || foreign item) then Ok (None, seen)
  else
    let operation := opFor (it_AppID item) operations user in
    (* the catalog pointer of a fact is the item that [publicCatalog] overwrites *)
    let shown := if si_Registered source then Some (publicCatalog item) else None in
    let fact key origin service :=
      mkFact key (it_AppID item) origin shown None "known" service operation no_lifecycle in
    if foreign item then
      Ok (Some (fact ("catalog:" +:+ it_AppID item) "catalog"
            (mkServiceFact "conflict" "unknown" None (Text "FOREIGN_WORKLOAD") None None)), seen)
    else if negb (uid =? "")%string then
      Ok (Some (fact (observationKey item) "observation" (observation item)), seen)
    else if negb (si_Registered source) then Ok (None, seen)
    else
      reject ErrConflict when bool_decide (it_AppID item ∈ seen) ;;
      Ok (Some (fact ("catalog:" +:+ it_AppID item) "catalog" (observation item)), {[ it_AppID item ]} ∪ seen).

Fixpoint catalog_facts (user : IdentityContext) (operations : list OperationRecord) (counts : gmap string nat)
    (seen : gset string) (items : list SnapshotItem) : result FactsError (list Fact) :=
  match items with
  | [] => Ok []
  | source :: rest =>
      '(fact, seen) ← catalog_fact user operations counts seen source;
      facts ← catalog_facts user operations counts seen rest;
      Ok (match fact with Some f => f :: facts | None => facts end)
  end.

(** ** Lifecycle candidates *)
Definition pending_policy : string := Digest (JStr "appcenter-constrained-commands-pending-v1").

Definition base_candidates (user : IdentityContext) (f : Fact) : Fact :=
  let version :=
    match fa_Installation f with
    | Some i => in_AppVersion i
    | None => match fa_Catalog f with Some c => en_Version (it_Entry c) | None => "" end
    end in
  let reason :=
    if of_Blocking (fa_Operation f) then "OPERATION_IN_PROGRESS"
    else if negb (slices_contains (ic_Scopes user) "app:manage") then "PERMISSION_DENIED" else "ACTION_UNSUPPORTED" in
  let candidate kind v := mkCandidateFact kind false (Text reason) v None None in
  with_lifecycle (mkLifecycle pending_policy
    (if (version =? "")%string || (fa_Origin f =? "observation")%string then []
     else ((fun kind => candidate kind version) <$> ["install"; "start"; "stop"; "restart"; "delete"])
          ++ match fa_Installation f, fa_Catalog f with
             | Some i, Some c =>
                 if (in_State i =? "installed")%string && bool_decide (is_Some (en_Helm (it_Entry c)))
                    && VersionNewer (en_Version (it_Entry c)) (in_AppVersion i)
                 then [candidate "upgrade" (en_Version (it_Entry c))] else []
             | _, _ => []
             end)) f.

(** ** The revision *)
Definition source_json (s : SourceStatus) : json :=
  JObj [("source", JStr (so_Source s)); ("quality", JStr (so_Quality s)); ("revision", jopt JStr (so_Revision s));
        ("observedAt", jopt jtime (so_ObservedAt s)); ("reasonCode", jopt JStr (so_ReasonCode s))].
Definition image_json (i : Image) : json :=
  JObj [("component", JStr (im_Component i)); ("image", JStr (im_Image i))].
Definition helm_json (h : Helm) : json :=
  JObj [("oci_ref", JStr (he_OCIRef h)); ("chart_name", JStr (he_ChartName h));
        ("chart_version", JStr (he_ChartVersion h)); ("manifest_digest", JStr (he_ManifestDigest h));
        ("package_digest", JStr (he_PackageDigest h)); ("package_size_bytes", JInt (he_PackageSizeBytes h));
        ("target_namespace", JStr (he_TargetNamespace h)); ("release_name", JStr (he_ReleaseName h));
        ("values_source", JStr (he_ValuesSource h))].
(** [omitempty] on a string. *)
Definition omit (k v : string) : list (string * json) := if (v =? "")%string then [] else [(k, JStr v)].
Definition deployment_json (d : Observation) : json :=
  JObj (omit "uid" (ob_UID d) ++ omit "management_status" (ob_ManagementStatus d) ++
        [("state", JStr (ob_State d)); ("reason", JStr (ob_Reason d)); ("observed_at", jtime (ob_ObservedAt d));
         ("desired_replicas", jopt JInt (ob_Desired d)); ("ready_replicas", jopt JInt (ob_Ready d));
         ("images", JArr (image_json <$> ob_Images d))]).
Definition item_json (i : Item) : json :=
  let e := it_Entry i in
  JObj ([("app_id", JStr (en_AppID e)); ("display_name", JStr (en_DisplayName e)); ("group_id", JStr (en_GroupID e));
         ("brand", JStr (en_Brand e))] ++
        (if en_SortOrder e =? 0 then [] else [("sort_order", JInt (en_SortOrder e))]) ++
        omit "icon_ref" (en_IconRef e) ++ omit "description" (en_Description e) ++
        (if (length (en_Capabilities e) =? 0)%nat then [] else [("capabilities", jstrs (en_Capabilities e))]) ++
        omit "disabled_reason" (en_DisabledReason e) ++
        (match en_Helm e with Some h => [("helm", helm_json h)] | None => [] end) ++
        [("models", jopt jstrs (en_Models e)); ("source", JStr (en_Source e)); ("namespace", JStr (en_Namespace e));
         ("workload_name", JStr (en_WorkloadName e)); ("version", JStr (en_Version e));
         ("images", jopt (fun l => JArr (image_json <$> l)) (en_Images e));
         ("model_status", JStr (it_ModelStatus i)); ("deployment", deployment_json (it_Deployment i))]).
Definition installation_json (i : Installation) : json :=
  JObj [("installationId", JStr (in_InstallationID i)); ("revision", JInt (in_Revision i));
        ("appVersion", JStr (in_AppVersion i)); ("state", JStr (in_State i));
        ("lastOperationId", jopt JStr (in_LastOperationID i))].
Definition service_json (s : Service) : json :=
  JObj [("quality", JStr (sf_Quality s)); ("state", JStr (sf_State s)); ("observedAt", jopt jtime (sf_ObservedAt s));
        ("reasonCode", jopt JStr (sf_ReasonCode s)); ("observationKey", jopt JStr (sf_ObservationKey s));
        ("workloadUID", jopt JStr (sf_WorkloadUID s))].
Definition operation_json (o : Operation) : json :=
  JObj [("quality", JStr (of_Quality o)); ("blocking", JBool (of_Blocking o));
        ("operationId", jopt JStr (of_OperationID o)); ("protocol", jopt JStr (of_Protocol o));
        ("status", jopt JStr (of_Status o)); ("phase", jopt JStr (of_Phase o)); ("canRead", JBool (of_CanRead o));
        ("updatedAt", jopt jtime (of_UpdatedAt o))].
Definition candidate_json (c : Candidate) : json :=
  JObj [("kind", JStr (ca_Kind c)); ("enabled", JBool (ca_Enabled c)); ("reasonCode", jopt JStr (ca_ReasonCode c));
        ("appVersion", JStr (ca_AppVersion c)); ("releaseDigest", jopt JStr (ca_ReleaseDigest c));
        ("expectedWorkloadUID", jopt JStr (ca_ExpectedWorkloadUID c))].
Definition fact_json (f : Fact) : json :=
  JObj [("cardKey", JStr (fa_CardKey f)); ("appId", JStr (fa_AppID f)); ("origin", JStr (fa_Origin f));
        ("catalog", jopt item_json (fa_Catalog f)); ("installation", jopt installation_json (fa_Installation f));
        ("installationQuality", JStr (fa_InstallationQuality f)); ("service", service_json (fa_Service f));
        ("operation", operation_json (fa_Operation f));
        ("lifecycle", JObj [("policyRevision", JStr (li_PolicyRevision (fa_Lifecycle f)));
                            ("candidates", JArr (candidate_json <$> li_Candidates (fa_Lifecycle f)))])].
Definition scope_json (s : Scope) : json :=
  JObj [("userId", JStr (sc_UserID s)); ("organizationId", JStr (sc_OrganizationID s));
        ("stationId", JStr (sc_StationID s)); ("authorizationEpoch", JStr (sc_AuthorizationEpoch s))].
Definition facts_json (f : Facts) : json :=
  JObj [("schemaVersion", JInt (fs_SchemaVersion f)); ("requestId", JStr (fs_RequestID f));
        ("scope", scope_json (fs_Scope f)); ("revision", JStr (fs_Revision f));
        ("generatedAt", jtime (fs_GeneratedAt f)); ("sources", JArr (source_json <$> fs_Sources f));
        ("items", JArr (fact_json <$> fs_Items f))].

(** The copy the revision is taken of: no request, no clock, no revision. *)
Definition timeless_fact (f : Fact) : Fact :=
  let s := fa_Service f in
  let o := fa_Operation f in
  mkFact (fa_CardKey f) (fa_AppID f) (fa_Origin f)
    (match fa_Catalog f with
     | Some c => let d := it_Deployment c in
         Some (with_deployment (mkObservation (ob_UID d) (ob_ManagementStatus d) (ob_Ownership d) (ob_State d)
                 (ob_Reason d) zero_time (ob_Desired d) (ob_Ready d) (ob_Images d)) c)
     | None => None
     end)
    (fa_Installation f) (fa_InstallationQuality f)
    (mkServiceFact (sf_Quality s) (sf_State s) None (sf_ReasonCode s) (sf_ObservationKey s) (sf_WorkloadUID s))
    (mkOperationFact (of_Quality o) (of_Blocking o) (of_OperationID o) (of_Protocol o) (of_Status o) (of_Phase o)
       (of_CanRead o) None)
    (fa_Lifecycle f).
Definition timeless (f : Facts) : Facts :=
  mkFacts (fs_SchemaVersion f) "" (fs_Scope f) "" zero_time
    ((fun s => mkSource (so_Source s) (so_Quality s) None None (so_ReasonCode s)) <$> fs_Sources f)
    (timeless_fact <$> fs_Items f).

(** [semanticRevision] copies the facts through JSON, which keeps every field that
    is written, and digests the timeless copy. *)
Definition semanticRevision (f : Facts) : string := Digest (facts_json (timeless f)).

Definition RecomputeRevision (f : Facts) : Facts :=
  let revision := semanticRevision f in
  mkFacts (fs_SchemaVersion f) (fs_RequestID f) (fs_Scope f) revision (fs_GeneratedAt f)
    ((fun s => mkSource (so_Source s) (so_Quality s) (Text revision) (so_ObservedAt s) (so_ReasonCode s)) <$> fs_Sources f)
    (fs_Items f).

(** ** The snapshot *)
Definition source_status (now : Time) (items : list Fact) (name : string) : SourceStatus :=
  let partial := (name =? "observations")%string
                 && existsb (fun f => negb (sf_Quality (fa_Service f) =? "known")%string) items in
  mkSource name (if partial then "unknown" else "known") None (Some now)
    (if partial then Text "OBSERVATIONS_PARTIAL" else None).

Definition buildFacts (user : IdentityContext) (request : string) (now : Time) (catalogItems : list SnapshotItem)
    (installations : list InstallationRecord) (operations : list OperationRecord)
    (states : option (gmap string Service)) : result FactsError Facts :=
  reject Denied when negb (canRead user) ;;
  reject ErrLimit when (1000 <? Z.of_nat (length catalogItems)) || (1000 <? Z.of_nat (length installations))
                       || (1000 <? Z.of_nat (length operations)) ;;
  reject ErrUnavailable when is_zero now ;;
  counts ← count_installations ∅ ∅ installations;
  let present := filter (fun r => removed r = false) installations in
  let cards := installation_fact user catalogItems operations states counts <$> present in
  (* [used]: the items an installation was matched with *)
  let unused := filter (fun s => existsb (fun r => bound_to user r s) present = false) catalogItems in
  plain ← catalog_facts user operations counts ∅ unused;
  let items := (cards ++ plain)%list in
  reject ErrLimit when 1000 <? Z.of_nat (length items) ;;
  let items := sort_by fa_CardKey (base_candidates user <$> items) in
  Ok (RecomputeRevision
        (mkFacts 1 request (ActorScope user) "" now
           (source_status now items <$> ["catalog"; "installations"; "observations"; "operations"]) items)).

Definition Build (user : IdentityContext) (request : string) (now : Time) (catalogItems : list SnapshotItem)
    (installations : list InstallationRecord) (operations : list OperationRecord) : result FactsError Facts :=
  buildFacts user request now catalogItems installations operations None.
Definition BuildState (user : IdentityContext) (request : string) (now : Time) (catalogItems : list SnapshotItem)
    (installations : list InstallationRecord) (operations : list OperationRecord) (states : gmap string Service) :
  result FactsError Facts :=
  buildFacts user request now catalogItems installations operations (Some states).
