(* ===== verification/AppFactsSafety.v ===== *)
(** * What the application facts disclose

    Two theorems about [AppFacts]: the facts of an actor are a function of what
    the actor may know (foreign workloads and other actors' operations are seen
    through their redaction only), and the cards are sound (one per installation,
    no install card for an installed application, nothing enabled before the
    admission reader has spoken). *)
From S2P Require Import Prelude GoStd Sha256 GoJson Identity Catalog SemVer AppFacts.
From stdpp Require Import sorting.
From Stdlib Require Import Ascii.
#[local] Open Scope Z_scope.

Lemma canRead_named user : canRead user = true ->
  ic_UserID user <> "" /\ ic_OrganizationID user <> "" /\ ic_StationID user <> "".
Proof. unfold canRead. intros. by bool_norm. Qed.

(** ** Redactions *)

(** What an actor may know of an operation of somebody else: that the application
    is busy, or nothing. *)
Definition redact_operation (user : IdentityContext) (r : OperationRecord) : OperationRecord :=
  if own_operation user r then r
  else mkOperationRecord (or_AppID r) "" "" "" "" (if active_record r then "accepted" else "failed") "" 0.

(** What an actor may know of a workload of another owner: the application it
    claims to be, the installation its label names and, when the entry is
    registered, the public metadata. *)
Definition anonymous_entry (appID : string) : Entry :=
  mkEntry appID "" "" "" 0 "" "" [] "" None None "" "" "" "" None.
Definition redact_item (user : IdentityContext) (s : SnapshotItem) : SnapshotItem :=
  if foreign (scopedItem user (si_Item s)) then
    let label := go_get (ob_Ownership (it_Deployment (si_Item s))) (station_key "installation-id") in
    let hidden := mkObservation "hidden" "" {[ station_key "installation-id" := label ]} "" "" 0 None None [] in
    mkSnapshotItem
      (if si_Registered s then with_deployment hidden (si_Item s)
       else mkItem (anonymous_entry (si_AppID s)) "" hidden) (si_Registered s)
  else s.

(** ** Operations *)
Section Redaction.
Context (user : IdentityContext).
Hypothesis named : canRead user = true.

Lemma redact_own r : own_operation user (redact_operation user r) = own_operation user r.
Proof.
  unfold redact_operation. destruct (own_operation user r) eqn:E; [done |].
  unfold own_operation. cbn [or_UserID]. destruct (canRead_named _ named) as (H & _ & _).
  destruct ("" =? ic_UserID user)%string eqn:E2; bool_norm; [congruence | done].
Qed.
Lemma redact_active r : active_record (redact_operation user r) = active_record r.
Proof. unfold redact_operation. destruct (own_operation user r); [done |]. by destruct (active_record r). Qed.
Lemma redact_app r : or_AppID (redact_operation user r) = or_AppID r.
Proof. unfold redact_operation. by destruct (own_operation user r). Qed.
Lemma redact_id_own r : own_operation user r = true -> redact_operation user r = r.
Proof. unfold redact_operation. by intros ->. Qed.

Definition redact_scan (p : option OperationRecord * option OperationRecord) :
    option OperationRecord * option OperationRecord :=
  (redact_operation user <$> fst p, snd p).

Lemma op_scan_redact app l : forall active terminal,
  match terminal with Some t => own_operation user t = true | None => True end ->
  op_scan app user (redact_operation user <$> active) terminal (redact_operation user <$> l) =
    option_map redact_scan (op_scan app user active terminal l) /\
  match op_scan app user active terminal l with
  | Some (_, Some t) => own_operation user t = true
  | _ => True
  end.
Proof.
  induction l as [| r l IH]; intros active terminal Ht; simpl; [by split; destruct terminal |].
  rewrite redact_app, redact_active, redact_own.
  destruct (negb _); [by apply IH |].
  destruct (active_record r).
  { destruct active; [done |]. by apply (IH (Some r)). }
  destruct (own_operation user r) eqn:Eo; simpl; [| by apply IH].
  rewrite (redact_id_own _ Eo). destruct (match terminal with None => true | Some _ => _ end); by apply IH.
Qed.

Lemma opFor_redact app l : opFor app (redact_operation user <$> l) user = opFor app l user.
Proof.
  unfold opFor. destruct (op_scan_redact app l None None I) as [E Ht]. change (redact_operation user <$> None) with (@None OperationRecord) in E.
  rewrite E. clear E. destruct (op_scan app user None None l) as [[active terminal] |]; [| done]. simpl.
  destruct active as [a |]; simpl.
  - rewrite redact_own. destruct (own_operation user a) eqn:Eo; [by rewrite redact_id_own | done].
  - by destruct terminal.
Qed.

(** ** Items *)
Lemma scoped_parts i :
  it_Entry (scopedItem user i) = it_Entry i /\ it_ModelStatus (scopedItem user i) = it_ModelStatus i /\
  ob_Ownership (it_Deployment (scopedItem user i)) = ob_Ownership (it_Deployment i) /\
  ob_UID (it_Deployment (scopedItem user i)) = ob_UID (it_Deployment i).
Proof. done. Qed.

Lemma bound_to_label r s : bound_to user r s =
  ((si_AppID s =? re_AppID r)%string
   && (go_get (ob_Ownership (it_Deployment (si_Item s))) (station_key "installation-id")
       =? in_InstallationID (re_Installation r))%string).
Proof. done. Qed.

(** A hidden workload is still foreign. *)
Lemma hidden_foreign e m label :
  foreign (scopedItem user (mkItem e m
    (mkObservation "hidden" "" {[ station_key "installation-id" := label ]} "" "" 0 None None []))) = true.
Proof.
  destruct (canRead_named _ named) as (_ & _ & Hs). unfold foreign, scopedItem, ProjectManagement.
  cbn [it_Deployment with_deployment ob_ManagementStatus with_status ob_UID ob_Ownership].
  rewrite (map_to_list_singleton (M := gmap string) (station_key "installation-id") label).
  assert (go_get {[ station_key "installation-id" := label ]} (station_key "station-id") = "") as ->.
  { unfold go_get. rewrite lookup_singleton_ne; [done | by vm_compute]. }
  destruct ("" =? ic_StationID user)%string eqn:E; bool_norm; [congruence | done].
Qed.

Lemma publicCatalog_foreign i j : foreign i = true -> foreign j = true ->
  it_Entry i = it_Entry j -> it_ModelStatus i = it_ModelStatus j -> publicCatalog i = publicCatalog j.
Proof. unfold publicCatalog, with_deployment. by intros -> -> -> ->. Qed.

Lemma redact_kept s :
  si_Registered (redact_item user s) = si_Registered s /\ si_AppID (redact_item user s) = si_AppID s /\
  foreign (scopedItem user (si_Item (redact_item user s))) = foreign (scopedItem user (si_Item s)) /\
  (forall r, bound_to user r (redact_item user s) = bound_to user r s) /\
  (si_Registered s = true ->
     publicCatalog (scopedItem user (si_Item (redact_item user s))) = publicCatalog (scopedItem user (si_Item s))) /\
  (foreign (scopedItem user (si_Item s)) = false -> redact_item user s = s).
Proof.
  unfold redact_item. destruct (foreign (scopedItem user (si_Item s))) eqn:Ef; [| by rewrite Ef].
  cbn [si_Registered]. split_and!; [done | by destruct (si_Registered s) | | | | done].
  - destruct (si_Registered s); apply hidden_foreign.
  - intros r. rewrite !bound_to_label. cbn [si_Item si_Registered].
    replace (si_AppID (mkSnapshotItem _ _)) with (si_AppID s) by by destruct (si_Registered s).
    f_equal. f_equal. destruct (si_Registered s); cbn [it_Deployment with_deployment ob_Ownership];
      unfold go_get at 1; by rewrite lookup_singleton.
  - intros ->. apply publicCatalog_foreign; [apply hidden_foreign | done..].
Qed.

Lemma foreign_not_managed i : foreign (scopedItem user i) = true ->
  (ob_ManagementStatus (it_Deployment (scopedItem user i)) =? "managed")%string = false.
Proof. unfold foreign. intros. bool_norm. by rewrite H. Qed.

Lemma bind_item_redact r b s : bind_item user r b (redact_item user s) = bind_item user r b s.
Proof.
  destruct (redact_kept s) as (Hr & Ha & Hf & Hb & Hp & Hid).
  destruct (foreign (scopedItem user (si_Item s))) eqn:Ef; [| by rewrite Hid].
  unfold bind_item. rewrite Ha, Hb, Hr.
  rewrite (foreign_not_managed _ Ef), (foreign_not_managed _ Hf).
  destruct (negb _); [done |]. destruct (bi_Catalog b); [done |].
  destruct (si_Registered s); [by rewrite Hp | done].
Qed.

Lemma installation_fact_redact items ops states counts r :
  installation_fact user (redact_item user <$> items) (redact_operation user <$> ops) states counts r =
  installation_fact user items ops states counts r.
Proof.
  unfold installation_fact. rewrite opFor_redact.
  assert (forall b, foldl (bind_item user r) b (redact_item user <$> items) = foldl (bind_item user r) b items) as ->; [| done].
  induction items as [| s items IH]; intros b; simpl; [done |]. by rewrite bind_item_redact, IH.
Qed.

Lemma catalog_fact_redact ops counts seen s :
  catalog_fact user (redact_operation user <$> ops) counts seen (redact_item user s) =
  catalog_fact user ops counts seen s.
Proof.
  destruct (redact_kept s) as (Hr & Ha & Hf & Hb & Hp & Hid).
  destruct (foreign (scopedItem user (si_Item s))) eqn:Ef.
  - unfold catalog_fact. rewrite Hf, Ef, Hr, !andb_true_r, !orb_true_r.
    change (it_AppID (scopedItem user (si_Item (redact_item user s)))) with (si_AppID (redact_item user s)).
    change (it_AppID (scopedItem user (si_Item s))) with (si_AppID s). rewrite Ha, opFor_redact.
    destruct (si_Registered s); [by rewrite Hp | done].
  - rewrite Hid by done. unfold catalog_fact. by rewrite opFor_redact.
Qed.

Lemma catalog_facts_redact ops counts items : forall seen,
  catalog_facts user (redact_operation user <$> ops) counts seen (redact_item user <$> items) =
  catalog_facts user ops counts seen items.
Proof.
  induction items as [| s items IH]; intros seen; simpl; [done |].
  rewrite catalog_fact_redact. destruct (catalog_fact _ _ _ _ _) as [[f seen'] | e]; simpl; [by rewrite IH | done].
Qed.

Lemma matched_redact present s :
  existsb (fun r => bound_to user r (redact_item user s)) present = existsb (fun r => bound_to user r s) present.
Proof.
  induction present as [| r present IH]; simpl; [done |].
  destruct (redact_kept s) as (_ & _ & _ & Hb & _). by rewrite IH, Hb.
Qed.

Lemma unused_redact present (items : list SnapshotItem) :
  filter (fun s => existsb (fun r => bound_to user r s) present = false) (redact_item user <$> items) =
  redact_item user <$> filter (fun s => existsb (fun r => bound_to user r s) present = false) items.
Proof.
  induction items as [| s items IH]; [done |]. rewrite fmap_cons, !filter_cons.
  rewrite matched_redact. case_decide; [by rewrite fmap_cons, IH | done].
Qed.
End Redaction.

(** C22: the facts an actor receives are a function of the redacted inputs. Of a
    workload that belongs to another station or organization nothing reaches the
    answer but the application it claims to be, the installation its label names
    and, when registered, the public metadata (its UID, state, images, replica
    counts, times and remaining labels do not, nor, when it is only discovered,
    its names); of another actor's operation nothing but whether the application
    is busy. This covers the cards, the conflicts, the candidates, the revision
    and the errors. *)
Theorem facts_disclose_redacted_inputs_only user request now items installations operations states :
  buildFacts user request now items installations operations states =
  buildFacts user request now (redact_item user <$> items) installations
    (redact_operation user <$> operations) states.
Proof.
  unfold buildFacts. destruct (canRead user) eqn:Hc; [| done]. rewrite !length_fmap. simpl negb. cbv iota.
  destruct (_ || _); [done |]. destruct (is_zero now); [done |].
  destruct (count_installations ∅ ∅ installations) as [counts | e]; [| done]. simpl.
  rewrite (unused_redact user Hc), (catalog_facts_redact user Hc).
  assert (forall l, installation_fact user (redact_item user <$> items) (redact_operation user <$> operations) states counts <$> l
          = installation_fact user items operations states counts <$> l) as ->; [| done].
  intros l. apply list_fmap_ext. intros _ r _. by apply installation_fact_redact.
Qed.

(** ** The cards *)
Section Cards.
Context (user : IdentityContext).

Definition record_id (r : InstallationRecord) : string := in_InstallationID (re_Installation r).
(** The installations the cards carry. *)
Definition card_owner (c : Fact) : option string := in_InstallationID <$> fa_Installation c.
Definition card_owners (l : list Fact) : list string := omap card_owner l.
Definition present (l : list InstallationRecord) : list InstallationRecord := filter (fun r => removed r = false) l.

Lemma installed_count_bump counts a b :
  installed_count (<[ a := S (default O (counts !! a)) ]> counts) b =
    if decide (a = b) then S (installed_count counts a) else installed_count counts b.
Proof. unfold installed_count at 1. rewrite lookup_insert. by case_decide. Qed.

Lemma count_installations_spec l : forall ids counts counts',
  count_installations ids counts l = Ok counts' ->
  NoDup (record_id <$> present l) /\ (forall r, r ∈ present l -> record_id r ∉ ids) /\
  (forall app, (installed_count counts app <= installed_count counts' app)%nat) /\
  (forall r, r ∈ present l -> (0 < installed_count counts' (re_AppID r))%nat).
Proof.
  induction l as [| r l IH]; intros ids counts counts'; simpl.
  - intros [= <-]. split_and!; [constructor | | done |]; intros r Hr; by apply elem_of_nil in Hr.
  - unfold present. rewrite filter_cons. destruct (removed r) eqn:Er; [apply IH |]. rewrite decide_True by done.
    destruct (negb (record_valid r) || _) eqn:E; [done |]. bool_norm.
    intros (Hn & Hi & Hm & Hp)%IH.
    split_and!.
    + apply NoDup_cons. split; [| done]. intros (x & Hx & Hin)%list_elem_of_fmap.
      apply (Hi x Hin). unfold record_id in *. set_solver.
    + intros x [-> | Hin]%elem_of_cons; [done |]. specialize (Hi x Hin). set_solver.
    + intros app. specialize (Hm app). rewrite installed_count_bump in Hm. case_decide; subst; lia.
    + intros x [-> | Hin]%elem_of_cons; [| by apply Hp].
      specialize (Hm (re_AppID r)). rewrite installed_count_bump, decide_True in Hm by done. lia.
Qed.

(** What a card of the catalog says. *)
Lemma catalog_fact_spec ops counts seen s f seen' :
  catalog_fact user ops counts seen s = Ok (Some f, seen') ->
  fa_Installation f = None /\
  (fa_Origin f = "catalog" -> installed_count counts (fa_AppID f) = O /\ is_Some (fa_Catalog f)).
Proof.
  unfold catalog_fact. set (item := scopedItem user (si_Item s)).
  destruct (negb (si_Registered s) && foreign item) eqn:E1; [done |].
  destruct ((0 <? installed_count counts (it_AppID item))%nat
            && ((ob_UID (it_Deployment item) =? "")%string || foreign item)) eqn:E2; [done |].
  assert ((ob_UID (it_Deployment item) =? "")%string || foreign item = true -> installed_count counts (it_AppID item) = O) as H0.
  { intros E. apply andb_false_iff in E2 as [E2 | E2]; [apply Nat.ltb_ge in E2; lia |].
    rewrite <- not_true_iff_false in E2. by destruct E2. }
  destruct (foreign item) eqn:Ef.
  { intros [= <- <-]. simpl. rewrite orb_true_r in H0. split; [done |]. intros _.
    split; [auto |]. destruct (si_Registered s); [by eauto | done]. }
  destruct (ob_UID (it_Deployment item) =? "")%string eqn:Eu; simpl; [| by intros [= <- <-]].
  destruct (si_Registered s); simpl; [| done]. destruct (bool_decide _); [done |].
  intros [= <- <-]. simpl. split; [done |]. intros _. split; [by apply H0 | by eauto].
Qed.

Lemma catalog_facts_spec ops counts items : forall seen fs,
  catalog_facts user ops counts seen items = Ok fs ->
  Forall (fun f => fa_Installation f = None /\
    (fa_Origin f = "catalog" -> installed_count counts (fa_AppID f) = O /\ is_Some (fa_Catalog f))) fs.
Proof.
  induction items as [| s items IH]; intros seen fs; simpl; [intros [= <-]; constructor |].
  destruct (catalog_fact user ops counts seen s) as [[[f |] seen'] | e] eqn:E; simpl; [| | done];
    destruct (catalog_facts user ops counts seen' items) as [fs' | e] eqn:Es; simpl; try done; intros [= <-].
  - constructor; [by eapply catalog_fact_spec | by eapply IH].
  - by eapply IH.
Qed.

Lemma base_candidates_kept f :
  fa_Installation (base_candidates user f) = fa_Installation f /\ fa_Origin (base_candidates user f) = fa_Origin f /\
  fa_AppID (base_candidates user f) = fa_AppID f /\ fa_Catalog (base_candidates user f) = fa_Catalog f.
Proof. done. Qed.

Lemma card_owners_base l : card_owners (base_candidates user <$> l) = card_owners l.
Proof.
  unfold card_owners. induction l as [| x l IH]; [done |].
  transitivity (match card_owner x with
                | Some y => y :: omap card_owner (base_candidates user <$> l)
                | None => omap card_owner (base_candidates user <$> l)
                end); [done | by rewrite IH].
Qed.
Lemma card_owners_plain l : Forall (fun f => fa_Installation f = None) l -> card_owners l = [].
Proof. induction 1 as [| x l Hx _ IH]; [done |]. unfold card_owners, card_owner in *. simpl. by rewrite Hx. Qed.
Lemma card_owners_cards items ops states counts (l : list InstallationRecord) :
  omap card_owner (installation_fact user items ops states counts <$> l) = record_id <$> l.
Proof.
  induction l as [| r l IH]; [done |].
  transitivity (record_id r :: omap card_owner (installation_fact user items ops states counts <$> l));
    [done | by rewrite IH].
Qed.

Lemma base_candidates_spec f k : k ∈ li_Candidates (fa_Lifecycle (base_candidates user f)) ->
  ca_Enabled k = false /\ ca_ReleaseDigest k = None /\ ca_ExpectedWorkloadUID k = None /\
  (ca_Kind k = "upgrade" -> exists i, fa_Installation f = Some i /\ in_State i = "installed" /\
     VersionNewer (ca_AppVersion k) (in_AppVersion i) = true).
Proof.
  unfold base_candidates. cbn [fa_Lifecycle with_lifecycle li_Candidates].
  destruct (_ || _); [by intros ?%elem_of_nil |].
  intros [(kind & -> & Hk)%list_elem_of_fmap | H]%elem_of_app.
  - simpl. split_and!; try done. intros ->. exfalso. revert Hk. rewrite !elem_of_cons, elem_of_nil. naive_solver.
  - destruct (fa_Installation f) as [i |], (fa_Catalog f) as [c |]; try by apply elem_of_nil in H.
    destruct (_ && _) eqn:E; [| by apply elem_of_nil in H]. bool_norm.
    apply list_elem_of_singleton in H as ->. simpl. split_and!; try done. intros _. by exists i.
Qed.
End Cards.

(** The cards are sound. Each installation that is not removed has exactly one
    card and nothing else carries an installation; a catalog card names a
    registered release of an application without installation, so the page never
    offers to install what is installed; and before the admission reader has
    spoken no candidate is enabled or carries a release or workload to bind, an
    upgrade being offered only to a strictly newer version of an installed
    application. *)
Theorem cards_are_sound user request now items installations operations states f :
  buildFacts user request now items installations operations states = Ok f ->
  card_owners (fs_Items f) ≡ₚ (record_id <$> present installations) /\ NoDup (card_owners (fs_Items f)) /\
  forall c, c ∈ fs_Items f ->
    (fa_Installation c = None -> fa_Origin c = "catalog" ->
       is_Some (fa_Catalog c) /\ forall r, r ∈ installations -> re_AppID r = fa_AppID c -> removed r = true) /\
    forall k, k ∈ li_Candidates (fa_Lifecycle c) ->
      ca_Enabled k = false /\ ca_ReleaseDigest k = None /\ ca_ExpectedWorkloadUID k = None /\
      (ca_Kind k = "upgrade" -> exists i, fa_Installation c = Some i /\ in_State i = "installed" /\
         VersionNewer (ca_AppVersion k) (in_AppVersion i) = true).
Proof.
  unfold buildFacts. intros H. inv_ok H.
  destruct (count_installations ∅ ∅ installations) as [counts | e] eqn:Ec; [| done]. simpl in H.
  apply count_installations_spec in Ec as (Hn & _ & _ & Hp). fold (present installations) in H.
  set (cards := installation_fact user items operations states counts <$> present installations) in *.
  destruct (catalog_facts user operations counts ∅ _) as [plain | e] eqn:Es; [| done]. simpl in H. inv_ok H.
  apply catalog_facts_spec in Es. cbn [RecomputeRevision fs_Items].
  set (l := base_candidates user <$> (cards ++ plain)%list).
  assert (sort_by fa_CardKey l ≡ₚ l) as Hsort by apply merge_sort_Permutation.
  assert (card_owners (sort_by fa_CardKey l) ≡ₚ (record_id <$> present installations)) as Ho.
  { unfold card_owners. rewrite Hsort. fold (card_owners l). unfold l.
    rewrite card_owners_base. unfold card_owners. rewrite omap_app. fold (card_owners plain).
    rewrite (card_owners_plain plain) by (eapply Forall_impl; [exact Es | by intros ? []]).
    rewrite app_nil_r. unfold cards. rewrite card_owners_cards. done. }
  split_and!; [exact Ho | by rewrite Ho |].
  intros c Hin. rewrite Hsort in Hin.
  apply list_elem_of_fmap in Hin as (x & -> & Hx). split; [| intros k Hk; by apply base_candidates_spec in Hk].
  destruct (base_candidates_kept user x) as (-> & -> & -> & ->). intros Hnone Hcat.
  apply elem_of_app in Hx as [Hx | Hx].
  { apply list_elem_of_fmap in Hx as (r & -> & _). done. }
  rewrite Forall_forall in Es. destruct (Es x Hx) as [_ Hx2]. destruct (Hx2 Hcat) as [H0 Hsome]. split; [done |].
  intros r Hr Happ. destruct (removed r) eqn:Er; [done |]. exfalso.
  assert (r ∈ present installations) as Hin by (apply list_elem_of_filter; done).
  specialize (Hp r Hin). rewrite Happ in Hp. lia.
Qed.
