(* ===== verification/StrictJson.v ===== *)
(** * Strict JSON: internal/strictjson/decode.go

    [Decode] accepts a message only when its text is one JSON value without
    duplicate members, nulls or deep nesting, decodes into the destination type,
    and has exactly the shape of what the destination marshals to; [ReadValue]
    validates an opaque value. The tokenizer of encoding/json is a parameter that
    turns a text into the tree of its tokens, duplicate members kept. *)
From S2P Require Import Prelude GoStd GoJson.
From Stdlib Require Import Ascii.

(** The tokens of a value; a number keeps its text ([UseNumber]). *)
Inductive raw : Type :=
| RNull
| RBool (b : bool)
| RNumber (text : string)
| RString (s : string)
| RArray (l : list raw)
| RObject (members : list (string * raw)).

(** encoding/json and strconv: [tokens] of a text that is exactly one value, and
    whether a number fits a float64. *)
Class JsonLib := { json_tokens : string -> option raw; parses_float : string -> bool }.

(** A destination type: [json.Decoder] with [DisallowUnknownFields] on the tokens,
    and the tokens of what [json.Marshal] writes for a value. *)
Class Codec (A : Type) := { unmarshal : raw -> option A; remarshal : A -> raw }.

Section StrictJson.
Context {J : JsonLib}.

(** The members of an object: distinct names, and every value scanned. *)
Fixpoint scan_members (scan : raw -> bool) (seen : gset string) (l : list (string * raw)) : bool :=
  match l with
  | [] => true
  | (name, v) :: rest =>
      if bool_decide (name ∈ seen) then false
      else scan v && scan_members scan ({[ name ]} ∪ seen) rest
  end.

(** [scanValue]: the nesting left is [32 - depth]. *)
Fixpoint scanValue (left : nat) (allowNull : bool) (v : raw) : bool :=
  match v with
  | RNull => allowNull
  | RBool _ | RString _ => true
  | RNumber text => if allowNull then parses_float text else true
  | RArray l => match left with O => bool_decide (l = []) | S n => forallb (scanValue n allowNull) l end
  | RObject m => match left with O => bool_decide (m = []) | S n => scan_members (scanValue n allowNull) ∅ m end
  end.

(** [json.Unmarshal] into [any]: every number must fit a float64. *)
Fixpoint to_any (v : raw) : bool :=
  match v with
  | RNumber text => parses_float text
  | RArray l => forallb to_any l
  | RObject m => forallb (fun '(_, x) => to_any x) m
  | _ => true
  end.

Definition member (m : list (string * raw)) (k : string) : option raw :=
  snd <$> List.find (fun p => bool_decide (fst p = k)) m.

(** [shape] on values without duplicate members. *)
Fixpoint shape (a b : raw) : bool :=
  match a with
  | RObject x =>
      match b with
      | RObject y =>
          (length x =? length y)%nat &&
          forallb (fun '(k, v) => match member y k with Some w => shape v w | None => false end) x
      | _ => false
      end
  | RArray x =>
      match b with
      | RArray y =>
          (fix go (x y : list raw) : bool :=
             match x, y with
             | [], [] => true
             | v :: x', w :: y' => shape v w && go x' y'
             | _, _ => false
             end) x y
      | _ => false
      end
  | RString _ => match b with RString _ => true | _ => false end
  | RBool _ => match b with RBool _ => true | _ => false end
  | RNumber _ => match b with RNumber _ => true | _ => false end
  | RNull => false
  end.

Definition within (limit : Z) (text : string) : bool := (0 <? limit) && (len text <=? limit) && utf8_valid text.

(** [None] is [ErrInvalid]. *)
Definition Decode {A} `{Codec A} (limit : Z) (text : string) : option A :=
  if negb (within limit text) then None
  else
    v ← json_tokens text;
    if negb (scanValue 32 false v) then None
    else
      dst ← unmarshal v;
      if to_any v && to_any (remarshal dst) && shape v (remarshal dst) then Some dst else None.

Definition ReadValue (limit : Z) (text : string) : option raw :=
  if negb (within limit text) then None
  else v ← json_tokens text; if scanValue 32 true v then Some v else None.

(** ** What is accepted *)

Lemma NoDup_fst_inj {K V} (l : list (K * V)) k a b :
  NoDup l.*1 -> (k, a) ∈ l -> (k, b) ∈ l -> a = b.
Proof.
  induction l as [| [k' v'] l IH]; intros Hn Ha Hb; [by apply elem_of_nil in Ha |].
  apply NoDup_cons in Hn as [Hk Hn].
  assert (forall c, (k', c) ∈ l -> False) as Hout.
  { intros c Hc. apply Hk, list_elem_of_fmap. by exists (k', c). }
  apply elem_of_cons in Ha as [Ha | Ha]; apply elem_of_cons in Hb as [Hb | Hb]; simplify_eq; eauto; exfalso; eauto.
Qed.


(** Members are distinct at every depth, nothing is null, nesting is bounded. *)
Inductive strict : nat -> raw -> Prop :=
| strict_bool n b : strict n (RBool b)
| strict_number n t : strict n (RNumber t)
| strict_string n s : strict n (RString s)
| strict_array n l : Forall (strict n) l -> strict (S n) (RArray l)
| strict_object n m : NoDup m.*1 -> Forall (fun p => strict n (snd p)) m -> strict (S n) (RObject m).

Lemma scan_members_true scan seen m : scan_members scan seen m = true <->
  NoDup m.*1 /\ Forall (fun p => scan (snd p) = true) m /\ (forall k, k ∈ m.*1 -> k ∉ seen).
Proof.
  revert seen. induction m as [| [k v] m IH]; intros seen; simpl.
  - split; [| done]. intros _. split_and!; [constructor | constructor | intros k Hk; by apply elem_of_nil in Hk].
  - destruct (bool_decide (k ∈ seen)) eqn:E.
    + split; [done |]. intros (_ & _ & H). bool_norm. exfalso. apply (H k); [by left | done].
    + bool_norm. rewrite andb_true_iff, IH, NoDup_cons, Forall_cons. simpl. split.
      * intros (Hv & Hn & Hf & Hs). split_and!; [set_solver | done | done | done |].
        intros k' [-> | Hk']%elem_of_cons; [done | set_solver].
      * intros ([Hk Hn] & [Hv Hf] & Hs). split_and!; try done. intros k' Hk'.
        assert (k' ∉ seen) by (apply Hs; by right). assert (k' <> k) by (intros ->; done). set_solver.
Qed.

Lemma scanValue_strict n v : scanValue n false v = true -> strict (S n) v.
Proof.
  revert v. induction n as [| n IH]; intros [| b | t | t | l | m]; simpl; intros Hs; try constructor; try done; bool_norm;
    subst; try constructor.
  - rewrite forallb_forall in Hs. apply Forall_forall. intros x Hx. by apply IH, Hs, list_elem_of_In.
  - by apply scan_members_true in Hs as (? & _).
  - apply scan_members_true in Hs as (_ & Hf & _). eapply Forall_impl; [exact Hf |]. intros p. apply IH.
Qed.

(** Equal up to the order of members and the leaves' values. *)
Inductive same_shape : raw -> raw -> Prop :=
| same_bool a b : same_shape (RBool a) (RBool b)
| same_number a b : same_shape (RNumber a) (RNumber b)
| same_string a b : same_shape (RString a) (RString b)
| same_array x y : Forall2 same_shape x y -> same_shape (RArray x) (RArray y)
| same_object x y : x.*1 ≡ₚ y.*1 ->
    (forall k v w, (k, v) ∈ x -> (k, w) ∈ y -> same_shape v w) -> same_shape (RObject x) (RObject y).

Lemma member_some m k w : member m k = Some w -> (k, w) ∈ m.
Proof.
  unfold member. intros ([k' w'] & [Hin E]%find_some & ->)%fmap_Some. bool_norm. simpl in E. subst.
  by apply list_elem_of_In.
Qed.

(** Distinct names all found among as many names are the same names. *)
Lemma same_names (x y : list (string * raw)) :
  NoDup x.*1 -> length x = length y -> (forall k, k ∈ x.*1 -> k ∈ y.*1) -> x.*1 ≡ₚ y.*1.
Proof.
  intros Hn Hl Hi. apply submseteq_length_Permutation; [by apply NoDup_submseteq | by rewrite !length_fmap, Hl].
Qed.

Lemma shape_member x y k v : shape (RObject x) (RObject y) = true -> (k, v) ∈ x ->
  exists w, (k, w) ∈ y /\ shape v w = true.
Proof.
  simpl. intros Hs Hin. bool_norm. rewrite forallb_forall in H0.
  specialize (H0 (k, v) (proj1 (list_elem_of_In _ _) Hin)). simpl in H0.
  destruct (member y k) as [w |] eqn:E; [| done]. apply member_some in E. eauto.
Qed.
Lemma shape_names x y : NoDup x.*1 -> shape (RObject x) (RObject y) = true -> x.*1 ≡ₚ y.*1.
Proof.
  intros Hn Hs. apply same_names; [done | |].
  - simpl in Hs. bool_norm. by apply Nat.eqb_eq.
  - intros k ((k' & v) & -> & Hin)%list_elem_of_fmap. destruct (shape_member _ _ _ _ Hs Hin) as (w & Hw & _).
    apply list_elem_of_fmap. by exists (k', w).
Qed.

Lemma shape_same n v w : strict n v -> shape v w = true -> same_shape v w.
Proof.
  intros Hv. revert w. revert v Hv. induction n as [| n IH]; intros v Hv w.
  { inversion Hv; subst; destruct w; try done; constructor. }
  inversion Hv as [| | | ? l Hl | ? m Hn Hm]; subst; destruct w as [| | | | y | y]; try done; intros Hs; try constructor.
  - clear Hv. revert y Hs. induction Hl as [| a l Ha _ IHl]; intros [| b y] Hs; try done; constructor;
      simpl in Hs; bool_norm; [by apply IH | by apply IHl].
  - by apply shape_names.
  - intros k v w Hin Hw. destruct (shape_member _ _ _ _ Hs Hin) as (w' & Hw' & Hvw).
    assert (NoDup y.*1) as Hny by by rewrite <- (shape_names _ _ Hn Hs).
    rewrite (NoDup_fst_inj y k w w') by done.
    rewrite Forall_forall in Hm. apply IH; [exact (Hm _ Hin) | done].
Qed.

(** C27: what [Decode] accepts is a bounded, valid UTF-8 text of one JSON value with
    distinct members at every level, no null anywhere and at most 33 levels of
    containers, which the destination type decodes, and whose objects have exactly
    the members, and whose leaves exactly the types, of the destination's own
    encoding: no field is missing, added or misspelt, at any depth. *)
Theorem decode_accepts_exact_shape {A} `{Codec A} limit text (dst : A) :
  Decode limit text = Some dst ->
  0 < limit /\ len text <= limit /\ utf8_valid text = true /\
  exists v, json_tokens text = Some v /\ unmarshal v = Some dst /\ strict 33 v /\ same_shape v (remarshal dst).
Proof.
  unfold Decode, within. destruct (negb _) eqn:E; [done |]. bool_norm.
  destruct (json_tokens text) as [v |]; [| done]. cbn [mbind option_bind].
  destruct (scanValue 32 false v) eqn:Es; [| done]. cbn [negb].
  destruct (unmarshal v) as [d |] eqn:Eu; [| done]. cbn [mbind option_bind].
  destruct (_ && _) eqn:Ec; [| done]. bool_norm. intros [= ->]. apply scanValue_strict in Es.
  split_and!; try done. exists v. split_and!; try done. by eapply shape_same.
Qed.
End StrictJson.
