(* ===== verification/Egress.v ===== *)
(** * Outbound proxies: data and validation

    internal/egress/model.go: the endpoints an administrator manages, their input
    and its normalization, the credentials and how they are sealed, the result of a
    probe, and the right to manage.

    The authenticated cipher is the interface [cipher.AEAD] the service holds: a
    record of its operations. [Unmarshal] of the sealed credentials works on the
    tokens of the text ([JsonLib]). *)
From S2P Require Import Prelude GoStd Sha256 GoJson GoText Uuid Identity StrictJson.
From Stdlib Require Import Ascii SpecFloat.
#[local] Open Scope Z_scope.

(** ** Faults *)
Inductive EgressError : Type :=
| ErrNotFound | ErrConflict | ErrBusy | ErrDisabled | ErrEndpoint
| IdentityFault (f : Fault)
| ErrServer.        (** any other error: a statement, the connection, the cipher *)
#[export] Instance EgressError_eq : EqDecision EgressError.
Proof. solve_decision. Defined.

(** ** Data *)
Record Input := mkInput {
  in_Name : string; in_Protocol : string; in_Host : string; in_Port : Z;
  in_Username : option string; in_Password : option string; in_ClearAuth : bool; in_Status : string;
  in_Tag : string; in_Note : string; in_ExpiresAt : string; in_Revision : Z }.

Record Credentials := mkCredentials { cr_Username : string; cr_Password : string }.
#[export] Instance Credentials_eq : EqDecision Credentials.
Proof. solve_decision. Defined.

Record Sample := mkSample { sm_At : Time; sm_LatencyMS : Z; sm_IP : string; sm_Error : string }.

Record Observation := mkObs {
  ob_Source : string; ob_URL : string; ob_At : Time; ob_Status : string; ob_IP : string;
  ob_Country : string; ob_CountryCode : string; ob_Region : string; ob_City : string; ob_ASN : string;
  ob_ISP : string; ob_Organization : string; ob_ASNType : string; ob_Company : string; ob_CompanyType : string;
  ob_Datacenter : option bool; ob_Proxy : option bool; ob_VPN : option bool; ob_Tor : option bool;
  ob_Mobile : option bool; ob_RiskScore : option Z; ob_Error : string }.

(** [SuccessRate] is a float64: 53 bits of mantissa, exponents up to 1024. *)
Record Result := mkResult {
  rs_Status : string; rs_Target : string; rs_StartedAt : Time; rs_FinishedAt : Time;
  rs_Samples : list Sample; rs_Successes : Z; rs_Attempts : Z; rs_SuccessRate : spec_float;
  rs_MeanLatencyMS : Z; rs_JitterMS : Z; rs_ExitIP : string; rs_ExitChanged : bool;
  rs_Observations : list Observation; rs_LocationConflict : bool; rs_BlacklistStatus : string }.

Record Endpoint := mkEndpoint {
  ep_ID : string; ep_Name : string; ep_Protocol : string; ep_Host : string; ep_Port : Z; ep_Status : string;
  ep_Tag : string; ep_Note : string; ep_ExpiresAt : option Time; ep_AuthConfigured : bool;
  ep_AssignedApps : list string; ep_Revision : Z; ep_Probe : option Result; ep_Testing : bool;
  ep_UpdatedAt : Time; ep_credentials : string }.

(** ** Normalization *)
Module EgressPatterns.
Import Regexp.
Definition host_byte (c : ascii) : bool := lower_alnum c || one_of ".-" c.
(** [^[a-z0-9](?:[a-z0-9.-]{0,251}[a-z0-9])?$] *)
Definition hostname : re :=
  Cat (Class lower_alnum) (opt (Cat (upto 251 (Class host_byte)) (Class lower_alnum))).
End EgressPatterns.
Definition hostname (s : string) : bool := Regexp.matches EgressPatterns.hostname s.

Definition protocols : list string := ["http"; "https"; "socks5"; "socks5h"].

Section Model.
Context {N : UnicodeLib} {U : UuidLib} {J : JsonLib}.

Definition invalid {A} : result EgressError A := Err (IdentityFault Invalid).

(** The fields [normalize] rewrites. *)
Definition normalized (i : Input) : Input :=
  mkInput (TrimSpace (in_Name i)) (ToLower (in_Protocol i)) (trim_dot (ToLower (TrimSpace (in_Host i)))) (in_Port i)
    (in_Username i) (in_Password i) (in_ClearAuth i) (in_Status i) (in_Tag i) (in_Note i) (in_ExpiresAt i) (in_Revision i).
Definition fields_valid (i : Input) : bool :=
  (1 <=? rune_count (in_Name i)) && (rune_count (in_Name i) <=? 120) && (len (in_Note i) <=? 4000)
  && (len (in_Tag i) <=? 256) && (1 <=? in_Port i) && (in_Port i <=? 65535)
  && slices_contains protocols (in_Protocol i).
Definition host_valid (host : string) : bool :=
  ParseIP_ok host || (hostname host && negb (contains host "..")).

Definition normalize (i : Input) : result EgressError (Input * option Time) :=
  let i := normalized i in
  if negb (fields_valid i) then invalid
  else if negb (host_valid (in_Host i)) then invalid
  else if contains_any control_byte (in_Name i +:+ in_Tag i) || contains_any nul_byte (in_Note i) then invalid
  else if negb (slices_contains [""; "pending"; "off"] (in_Status i)) then invalid
  else if in_ClearAuth i && (bool_decide (is_Some (in_Username i)) || bool_decide (is_Some (in_Password i))) then invalid
  else if (in_ExpiresAt i =? "")%string then Ok (i, None)
  else match ParseRFC3339 (in_ExpiresAt i) with
       | Some t => Ok (i, Some t)
       | None => invalid
       end.

Definition validCredentials (c : Credentials) : bool :=
  (len (cr_Username c) <=? 255) && (len (cr_Password c) <=? 255)
  && negb (contains_any control_byte (cr_Username c +:+ cr_Password c))
  && (negb (cr_Username c =? "")%string || (cr_Password c =? "")%string).

(** The credentials of a save: the stored ones, cleared or overridden. *)
Definition merge_credentials (i : Input) (old : Credentials) : Credentials :=
  let c := if in_ClearAuth i then mkCredentials "" "" else old in
  mkCredentials (default (cr_Username c) (in_Username i)) (default (cr_Password c) (in_Password i)).

Definition authorize (u : IdentityContext) (station : string) : result EgressError unit :=
  if negb (ic_StationID u =? station)%string || negb (slices_contains (ic_Roles u) "admin")
     || negb (slices_contains (ic_Scopes u) "app:manage") then Err (IdentityFault Denied)
  else match uuid_parse (ic_OrganizationID u) with
       | Some _ => Ok tt
       | None => Err (IdentityFault Denied)
       end.

(** ** Sealed credentials *)

(** [cipher.AEAD]: nonce, text, additional data. *)
Record Aead := mkAead {
  NonceSize : nat;
  Seal : string -> string -> string -> string;
  Open : string -> string -> string -> option string }.

Definition credentials_json (c : Credentials) : json :=
  JObj [("Username", JStr (cr_Username c)); ("Password", JStr (cr_Password c))].

(** [json.Unmarshal] into [Credentials]: members by name or by a name equal under
    folding, in order; a null is skipped, an unknown member ignored. *)
Definition set_member (c : option Credentials) (m : string * raw) : option Credentials :=
  c ← c;
  let known := EqualFold (fst m) "Username" || EqualFold (fst m) "Password" in
  match snd m with
  | RNull => Some c
  | RString v =>
      if EqualFold (fst m) "Username" then Some (mkCredentials v (cr_Password c))
      else if EqualFold (fst m) "Password" then Some (mkCredentials (cr_Username c) v)
      else Some c
  | _ => if known then None else Some c
  end.
Definition decode_credentials (text : string) : option Credentials :=
  match json_tokens text with
  | Some RNull => Some (mkCredentials "" "")
  | Some (RObject members) => foldl set_member (Some (mkCredentials "" "")) members
  | _ => None
  end.

(** The nonce is drawn, [NonceSize] bytes of it. *)
Definition seal (a : Aead) (nonce : string) (c : Credentials) (aad : string) : string :=
  nonce +:+ Seal a nonce (marshal (credentials_json c)) aad.
Definition unseal (a : Aead) (b aad : string) : result EgressError Credentials :=
  if (String.length b <? NonceSize a)%nat then Err ErrServer
  else match Open a (take_str (NonceSize a) b) (drop_str (NonceSize a) b) aad with
       | None => Err ErrServer
       | Some data => match decode_credentials data with Some c => Ok c | None => Err ErrServer end
       end.

Definition endpointKey (i : Input) (c : Credentials) : string :=
  Sha256.hex_sum (marshal (JArr [JStr (in_Protocol i); JStr (in_Host i); JInt (in_Port i); JStr (cr_Username c)])).
End Model.
