(* ===== verification/Probe.v ===== *)
(** * Probing a proxy: internal/egress/probe.go

    [NewProber] (the operator's allowlist), [publicIP], the pinned [transport],
    [fetch] with its error texts, and [Run]: three samples through the proxy, then
    four lookups about the exit address.

    The world outside is an argument: the resolver's answer, the answer of each
    HTTP request (an error, or a status with what reading the body gives), what the
    clock shows, and whether the context was done at each test. [json.Unmarshal]
    into the anonymous structs of the code is a parameter ([ProbeCodecs]). *)
From S2P Require Import Prelude GoStd Sha256 GoJson GoText Uuid Identity StrictJson Egress.
From Stdlib Require Import Ascii SpecFloat.
#[local] Open Scope Z_scope.

(** ** The allowlist *)
Record Prober := mkProber {
  pb_AllowedInternal : gset string;
  pb_target : string; pb_queryURL : string; pb_geoURL : string; pb_ipinfoURL : string; pb_ipinfoTypeURL : string }.

(** What the code tests of an [error] value. *)
Record ProbeFault := mkFault {
  ft_Endpoint : bool;       (** [errors.Is(err, ErrEndpoint)] *)
  ft_Deadline : bool;       (** [errors.Is(err, context.DeadlineExceeded)] *)
  ft_Timeout : bool;        (** a [net.Error] whose [Timeout()] holds *)
  ft_Certificate : bool;    (** a [tls.CertificateVerificationError] *)
  ft_Text : string }.
Definition plain (text : string) : ProbeFault := mkFault false false false false text.
Definition endpoint_fault : ProbeFault := mkFault true false false false "PROXY_ENDPOINT_NOT_ALLOWED".

(** An HTTP exchange: [client.Do] fails, or a status and the result of reading at
    most [128 KiB + 1] bytes of the body. *)
Inductive Answer : Type :=
| Refused (f : ProbeFault)
| Response (status : Z) (read : result ProbeFault string).

Definition ProbeTarget : string := "https://api.ipify.org?format=json".

(** The anonymous structs the bodies are decoded into. *)
Record QueryBody := mkQuery {
  qb_IP : string; qb_ASN : string; qb_Org : string; qb_ISP : string;
  qb_Country : string; qb_CountryCode : string; qb_State : string; qb_City : string;
  qb_Mobile : option bool; qb_VPN : option bool; qb_Tor : option bool; qb_Proxy : option bool;
  qb_Datacenter : option bool; qb_Score : option Z }.
Record GeoBody := mkGeo {
  gb_IP : string; gb_Country : string; gb_Region : string; gb_City : string; gb_ASN : string; gb_Company : string }.
Record InfoBody := mkInfo {
  nb_IP : string; nb_Country : string; nb_Region : string; nb_City : string; nb_Org : string }.
Record TypeBody := mkType {
  tb_Input : string; tb_IP : string; tb_ASN : string; tb_ASNName : string; tb_ASNType : string;
  tb_Company : string; tb_CompanyType : string; tb_Hosting : option bool; tb_Mobile : option bool;
  tb_PrivacyHosting : option bool; tb_Proxy : option bool; tb_VPN : option bool; tb_Tor : option bool }.
Class ProbeCodecs := {
  decode_ip : string -> option string;
  decode_query : string -> option QueryBody;
  decode_geo : string -> option GeoBody;
  decode_info : string -> option InfoBody;
  decode_type : string -> option TypeBody }.

Section Probe.
Context {N : UnicodeLib} {D : ProbeCodecs}.

(** One item of the list; [None] is the configuration error. *)
Definition allow_item (allowed : option (gset string)) (item : string) : option (gset string) :=
  allowed ← allowed;
  let item := TrimSpace item in
  if (item =? "")%string then Some allowed
  else '(host, port) ← SplitHostPort item;
       n ← atoi port;
       if (n <? 1) || (65535 <? n) || (host =? "")%string then None
       else Some ({[ JoinHostPort (ToLower host) port ]} ∪ allowed).
Definition NewProber (allowed : string) : option Prober :=
  set ← foldl allow_item (Some ∅) (split_byte "," allowed);
  Some (mkProber set "" "" "" "" "").

(** ** Public addresses *)
Definition reserved : list Prefix :=
  [P4 0 8; P4 (100 * 2 ^ 24 + 64 * 2 ^ 16) 10; P4 (192 * 2 ^ 24) 24; P4 (192 * 2 ^ 24 + 2 * 2 ^ 8) 24;
   P4 (198 * 2 ^ 24 + 18 * 2 ^ 16) 15; P4 (198 * 2 ^ 24 + 51 * 2 ^ 16 + 100 * 2 ^ 8) 24;
   P4 (203 * 2 ^ 24 + 113 * 2 ^ 8) 24; P4 (240 * 2 ^ 24) 4;
   P6 (8193 * 2 ^ 112 + 3512 * 2 ^ 96) 32; P6 (8193 * 2 ^ 112) 32; P6 (8194 * 2 ^ 112) 16;
   P6 (100 * 2 ^ 112 + 65435 * 2 ^ 96) 96].
Definition publicIP (ip : Addr) : bool :=
  let ip := Unmap ip in
  if negb (IsGlobalUnicast ip) || IsPrivate ip || IsLoopback ip || IsLinkLocalUnicast ip then false
  else negb (existsb (fun p => Contains p ip) reserved).

(** ** The transport

    Every connection to the proxy goes through [direct], which only answers for the
    configured endpoint and always dials the pinned address. With an http or https
    proxy it is the transport's dialer; with socks5 and socks5h it is the dialer
    below the SOCKS client, and socks5 resolves the target locally first. *)
Record Transport := mkTransport {
  tp_endpoint : string; tp_pinned : string; tp_socks : bool; tp_resolves : bool; tp_auth : option Credentials }.

Definition direct (t : Transport) (address : string) : result ProbeFault string :=
  if negb (address =? tp_endpoint t)%string then Err endpoint_fault else Ok (tp_pinned t).

(** [resolved] is the resolver's answer for the endpoint's host. *)
Definition transport (p : Prober) (e : Endpoint) (c : Credentials) (resolved : result ProbeFault (list Addr))
    : result ProbeFault Transport :=
  let endpoint := JoinHostPort (ep_Host e) (format_int (ep_Port e)) in
  ips ← resolved;
  match ips with
  | [] => Err endpoint_fault
  | first :: _ =>
      if existsb (fun ip => negb (publicIP ip) && negb (bool_decide (endpoint ∈ pb_AllowedInternal p))) ips
      then Err endpoint_fault
      else
        let auth := if negb (cr_Username c =? "")%string then Some c else None in
        let http := (ep_Protocol e =? "http")%string || (ep_Protocol e =? "https")%string in
        Ok (mkTransport endpoint (JoinHostPort (addr_text first) (format_int (ep_Port e)))
              (negb http) (ep_Protocol e =? "socks5")%string auth)
  end.

(** [DialContext] of the transport for an address the HTTP client asks for: the
    address of the TCP connection, and with SOCKS the address requested of the
    proxy. [resolve] answers for the target's host. *)
Definition dial (t : Transport) (address : string) (resolve : string -> result ProbeFault (list Addr))
    : result ProbeFault (string * option string) :=
  if negb (tp_socks t) then peer ← direct t address; Ok (peer, None)
  else
    requested ←
      (if tp_resolves t then
         match SplitHostPort address with
         | None => Err (plain "address")
         | Some (host, port) =>
             addrs ← resolve host;
             match addrs with
             | [] => Err endpoint_fault
             | a :: _ => Ok (JoinHostPort (addr_text a) port)
             end
         end
       else Ok address);
    peer ← direct t (tp_endpoint t);
    Ok (peer, Some requested).

(** ** Requests *)
Definition classify (f : ProbeFault) : string :=
  if ft_Endpoint f then "endpoint_not_allowed"
  else if ft_Deadline f then "timeout"
  else if ft_Timeout f then "timeout"
  else if ft_Certificate f then "tls_verification_failed"
  else let text := ToLower (ft_Text f) in
       if contains text "authentication" || contains text "username/password" then "proxy_auth_failed"
       else "connection_failed".

Definition infoError (f : ProbeFault) : string :=
  let v := ft_Text f in
  if has_prefix v "http_status_" || slices_contains ["invalid_response"; "response_too_large"; "invalid_exit_ip"] v
  then v else classify f.

Definition max_body : Z := 128 * 1024.
Definition fetch {A} (decode : string -> option A) (a : Answer) : result ProbeFault A :=
  match a with
  | Refused f => Err f
  | Response status read =>
      if negb (status =? 200) then Err (plain ("http_status_" +:+ format_int status))
      else raw ← read;
           if max_body <? len raw then Err (plain "response_too_large")
           else match decode raw with Some v => Ok v | None => Err (plain "invalid_response") end
  end.

(** ** Samples *)

(** One turn of the loop: its start, the time it took, the answer, and whether the
    context is done at its end. *)
Record Round := mkRound { rd_Start : Time; rd_Elapsed : Z; rd_Answer : Answer; rd_Done : bool }.

Record Tally := mkTally {
  ta_Samples : list Sample; ta_Successes : Z; ta_sum : Z; ta_min : Z; ta_max : Z;
  ta_ExitIP : string; ta_ExitChanged : bool }.
Definition no_tally : Tally := mkTally [] 0 0 0 0 "" false.

Definition exit_address (a : Answer) : result ProbeFault string :=
  text ← fetch decode_ip a;
  match ParseAddr text with
  | Some ip => if publicIP ip then Ok (addr_text ip) else Err (plain "invalid_exit_ip")
  | None => Err (plain "invalid_exit_ip")
  end.
Definition milliseconds (d : Z) : Z := Z.quot d 1000000.

Definition take_sample (r : Round) : Sample :=
  match exit_address (rd_Answer r) with
  | Ok ip => mkSample (rd_Start r) (milliseconds (rd_Elapsed r)) ip ""
  | Err f => mkSample (rd_Start r) (milliseconds (rd_Elapsed r)) "" (infoError f)
  end.
Definition count_sample (r : Round) (t : Tally) : Tally :=
  let s := take_sample r in
  let l := sm_LatencyMS s in
  match exit_address (rd_Answer r) with
  | Err _ => mkTally (ta_Samples t ++ [s]) (ta_Successes t) (ta_sum t) (ta_min t) (ta_max t) (ta_ExitIP t) (ta_ExitChanged t)
  | Ok _ =>
      let n := ta_Successes t + 1 in
      let lo := if n =? 1 then l else ta_min t in
      mkTally (ta_Samples t ++ [s]) n (ta_sum t + l) (if l <? lo then l else lo) (if ta_max t <? l then l else ta_max t)
        (if (ta_ExitIP t =? "")%string then sm_IP s else ta_ExitIP t)
        (if (ta_ExitIP t =? "")%string then ta_ExitChanged t
         else if negb (ta_ExitIP t =? sm_IP s)%string then true else ta_ExitChanged t)
  end.
(** At most [n] turns; a done context ends the loop after the turn. *)
Fixpoint sample_loop (rounds : nat -> Round) (n i : nat) (t : Tally) : Tally :=
  match n with
  | O => t
  | S n' =>
      let t' := count_sample (rounds i) t in
      if rd_Done (rounds i) then t' else sample_loop rounds n' (S i) t'
  end.

(** [float64(successes) * 100 / float64(attempts)]. *)
Definition float_of (n : Z) : spec_float := binary_normalize 53 1024 n 0 false.
Definition success_rate (successes attempts : Z) : spec_float :=
  SFdiv 53 1024 (SFmul 53 1024 (float_of successes) (float_of 100)) (float_of attempts).

(** ** Observations of the exit address *)
Definition unavailable (source url : string) (at_ : Time) (ip : string) (error : string) : Observation :=
  mkObs source url at_ "unavailable" ip "" "" "" "" "" "" "" "" "" "" None None None None None None error.
Definition or_default (override url : string) : string := if negb (override =? "")%string then override else url.

Definition query_observation (p : Prober) (ip : string) (at_ : Time) (a : Answer) : Observation :=
  let url := or_default (pb_queryURL p) ("https://api.ipquery.io/" +:+ PathEscape ip) in
  match fetch decode_query a with
  | Err f => unavailable "IPQuery" url at_ ip (infoError f)
  | Ok raw =>
      if negb (qb_IP raw =? ip)%string then unavailable "IPQuery" url at_ ip "ip_mismatch"
      else mkObs "IPQuery" url at_ "available" ip (qb_Country raw) (qb_CountryCode raw) (qb_State raw) (qb_City raw)
             (qb_ASN raw) (qb_ISP raw) (qb_Org raw) "" "" ""
             (qb_Datacenter raw) (qb_Proxy raw) (qb_VPN raw) (qb_Tor raw) (qb_Mobile raw)
             (s ← qb_Score raw; if (0 <=? s) && (s <=? 100) then Some s else None) ""
  end.

Definition geo_observation (p : Prober) (ip : string) (at_ : Time) (a : Answer) : Observation :=
  let url := or_default (pb_geoURL p) ("https://api.ipapi.is/?q=" +:+ QueryEscape ip) in
  match fetch decode_geo a with
  | Err f => unavailable "ipapi.is (anonymous)" url at_ ip (infoError f)
  | Ok geo =>
      if negb (gb_IP geo =? ip)%string then unavailable "ipapi.is (anonymous)" url at_ ip "ip_mismatch"
      else mkObs "ipapi.is (anonymous)" url at_ "available" ip (gb_Country geo)
             (if len (gb_Country geo) =? 2 then ToUpper (gb_Country geo) else "")
             (gb_Region geo) (gb_City geo) (gb_ASN geo) "" (gb_Company geo) "" "" "" None None None None None None ""
  end.

Definition info_observation (p : Prober) (ip : string) (at_ : Time) (a : Answer) : Observation :=
  let url := or_default (pb_ipinfoURL p) ("https://ipinfo.io/" +:+ PathEscape ip +:+ "/json") in
  match fetch decode_info a with
  | Err f => unavailable "IPinfo" url at_ ip (infoError f)
  | Ok info =>
      if negb (nb_IP info =? ip)%string then unavailable "IPinfo" url at_ ip "ip_mismatch"
      else
        let '(asn, org, found) := cut_byte " " (nb_Org info) in
        let split := found && has_prefix asn "AS" in
        mkObs "IPinfo" url at_ "available" ip (nb_Country info) (nb_Country info) (nb_Region info) (nb_City info)
          (if split then asn else "") "" (if split then org else nb_Org info) "" "" "" None None None None None None ""
  end.

(** [ipinfoType]: the observation, and [ExitChanged] afterwards. [after] is the
    answer of the last request to the target. *)
Definition ipinfoType (p : Prober) (ip : string) (changed : bool) (at_ : Time) (a after : Answer)
    : Observation * bool :=
  let url := or_default (pb_ipinfoTypeURL p) ("https://ipinfo.io/widget/demo/" +:+ PathEscape ip) in
  let o := unavailable "IPinfo (type)" url at_ ip in
  match fetch decode_type a with
  | Err f => (o (infoError f), changed)
  | Ok raw =>
      if negb (tb_Input raw =? ip)%string || negb (tb_IP raw =? ip)%string then (o "ip_mismatch", changed)
      else match fetch decode_ip after with
      | Err f => (o (infoError f), changed)
      | Ok now =>
          if negb (now =? ip)%string || changed then (o "exit_changed", true)
          else
            let datacenter :=
              if negb (bool_decide (is_Some (tb_Hosting raw))) || default false (tb_PrivacyHosting raw)
              then tb_PrivacyHosting raw else tb_Hosting raw in
            (mkObs "IPinfo (type)" url at_ "available" ip "" "" "" "" (tb_ASN raw) "" (tb_ASNName raw)
               (ToLower (TrimSpace (tb_ASNType raw))) (tb_Company raw) (ToLower (TrimSpace (tb_CompanyType raw)))
               datacenter (tb_Proxy raw) (tb_VPN raw) (tb_Tor raw) (tb_Mobile raw) None "", changed)
      end
  end.

(** ** Conflicting locations *)
Definition differ (a b : string) : bool := negb (EqualFold (TrimSpace a) (TrimSpace b)).
Definition disagree (a b : Observation) : bool :=
  ((2 <? len (ob_Country a)) && (2 <? len (ob_Country b)) && differ (ob_Country a) (ob_Country b))
  || existsb (fun pair => negb (fst pair =? "")%string && negb (snd pair =? "")%string && differ (fst pair) (snd pair))
       [(ob_CountryCode a, ob_CountryCode b); (ob_Region a, ob_Region b); (ob_City a, ob_City b); (ob_ASN a, ob_ASN b)].
Definition available (o : Observation) : bool := (ob_Status o =? "available")%string.
Fixpoint observationsConflict (l : list Observation) : bool :=
  match l with
  | [] => false
  | a :: rest =>
      (available a && existsb (fun b => available b && disagree a b) rest) || observationsConflict rest
  end.

(** ** Run *)
Record ProbeEnv := mkEnv {
  pe_Started : Time;                               (** at entry *)
  pe_Resolved : result ProbeFault (list Addr);     (** the endpoint's host *)
  pe_Failed : Time;                                (** when the transport was refused *)
  pe_Rounds : nat -> Round;
  pe_Late : bool;                                  (** the context is done after the samples *)
  pe_Query : Time * Answer; pe_Geo : Time * Answer; pe_Info : Time * Answer; pe_Type : Time * Answer;
  pe_After : Answer;
  pe_Finished : Time }.

Definition observe_exit (p : Prober) (env : ProbeEnv) (ip : string) (changed : bool) : list Observation * bool :=
  let '(o, changed') := ipinfoType p ip changed (fst (pe_Type env)) (snd (pe_Type env)) (pe_After env) in
  ([query_observation p ip (fst (pe_Query env)) (snd (pe_Query env));
    geo_observation p ip (fst (pe_Geo env)) (snd (pe_Geo env));
    info_observation p ip (fst (pe_Info env)) (snd (pe_Info env)); o], changed').

Definition Run (p : Prober) (env : ProbeEnv) (e : Endpoint) (c : Credentials) : Result :=
  let target := or_default (pb_target p) ProbeTarget in
  match transport p e c (pe_Resolved env) with
  | Err f =>
      mkResult "failed" target (pe_Started env) (pe_Finished env) [mkSample (pe_Failed env) 0 "" (classify f)]
        0 1 (S754_zero false) 0 0 "" false [] false "not_checked"
  | Ok _ =>
      let t := sample_loop (pe_Rounds env) 3 0 no_tally in
      let attempts := Z.of_nat (length (ta_Samples t)) in
      let some := 0 <? ta_Successes t in
      let '(observations, changed) :=
        if negb (ta_ExitIP t =? "")%string && negb (pe_Late env)
        then observe_exit p env (ta_ExitIP t) (ta_ExitChanged t) else ([], ta_ExitChanged t) in
      mkResult (if ta_Successes t =? 3 then "passed" else "failed") target (pe_Started env) (pe_Finished env)
        (ta_Samples t) (ta_Successes t) attempts (success_rate (ta_Successes t) attempts)
        (if some then Z.quot (ta_sum t) (ta_Successes t) else 0) (if some then ta_max t - ta_min t else 0)
        (ta_ExitIP t) changed observations (observationsConflict observations) "not_checked"
  end.
End Probe.

(** A zoned address is in no prefix, so the reserved ranges do not apply to it. *)
Example zoned_address_is_public :
  publicIP (V6 (8193 * 2 ^ 112 + 3512 * 2 ^ 96 + 1) "") = false
  /\ publicIP (V6 (8193 * 2 ^ 112 + 3512 * 2 ^ 96 + 1) "x") = true.
Proof. vm_compute. auto. Qed.
