(* ===== verification/ProbeFacts.v ===== *)
(** * What a probe reports

    [Run] against its declarative reading: the summary is a function of the
    recorded samples, a public address is what [Run] reports as the exit, and
    every connection goes to the one admitted address the transport pinned. *)
From S2P Require Import Prelude GoStd Sha256 GoJson GoText Uuid Identity StrictJson Egress Probe.
From Stdlib Require Import Ascii SpecFloat.
#[local] Open Scope Z_scope.

(** The samples that succeeded. *)
Definition succeeded (s : Sample) : bool := (sm_Error s =? "")%string.
Definition successes (l : list Sample) : list Sample := List.filter succeeded l.

Section ProbeFacts.
Context {N : UnicodeLib} {D : ProbeCodecs}.

Lemma classify_nonempty f : classify f <> "".
Proof. unfold classify. repeat case_match; done. Qed.
Lemma infoError_nonempty f : infoError f <> "".
Proof.
  unfold infoError. destruct (has_prefix (ft_Text f) "http_status_" || _) eqn:H; [| apply classify_nonempty].
  intros E. rewrite E in H. vm_compute in H. done.
Qed.

Lemma fetch_error {A} (decode : string -> option A) a f : fetch decode a = Err f -> infoError f <> "".
Proof. intros _. apply infoError_nonempty. Qed.

Lemma take_sample_spec r :
  (exists ip, exit_address (rd_Answer r) = Ok ip /\ take_sample r = mkSample (rd_Start r) (milliseconds (rd_Elapsed r)) ip "") \/
  (exists f, exit_address (rd_Answer r) = Err f /\ succeeded (take_sample r) = false).
Proof.
  unfold take_sample, succeeded. destruct (exit_address (rd_Answer r)) as [ip | f]; [left; eauto | right].
  exists f. split; [done |]. simpl. apply String.eqb_neq, infoError_nonempty.
Qed.

Lemma exit_address_public a ip : exit_address a = Ok ip -> exists x, publicIP x = true /\ ip = addr_text x.
Proof.
  unfold exit_address. intros H. apply mbind_ok in H as (text & _ & H).
  destruct (ParseAddr text) as [x |]; [| done]. destruct (publicIP x) eqn:E; [| done]. injection H as <-. eauto.
Qed.

(** The tally of a list of samples, declaratively. *)
Record tally_of (t : Tally) : Prop := {
  to_count : ta_Successes t = Z.of_nat (length (successes (ta_Samples t)));
  to_sum : ta_sum t = foldr Z.add 0 (sm_LatencyMS <$> successes (ta_Samples t));
  to_exit : ta_ExitIP t = default "" (sm_IP <$> head (successes (ta_Samples t)));
  to_changed : ta_ExitChanged t = existsb (fun s => negb (sm_IP s =? ta_ExitIP t)%string) (successes (ta_Samples t));
  to_public : forall s, s ∈ successes (ta_Samples t) -> exists x, publicIP x = true /\ sm_IP s = addr_text x;
  to_extrema : successes (ta_Samples t) <> [] ->
    ta_min t ∈ (sm_LatencyMS <$> successes (ta_Samples t)) /\ ta_max t ∈ (sm_LatencyMS <$> successes (ta_Samples t)) /\
    forall s, s ∈ successes (ta_Samples t) -> ta_min t <= sm_LatencyMS s <= ta_max t;
  to_none : successes (ta_Samples t) = [] -> ta_max t = 0 }.

Lemma app_nonempty_l (a b : string) : a <> "" -> a +:+ b <> "".
Proof. by destruct a. Qed.
Lemma app_nonempty_r (a b : string) : b <> "" -> a +:+ b <> "".
Proof. by destruct a. Qed.
Lemma join_nonempty sep x l : x <> "" -> join sep (x :: l) <> "".
Proof. simpl. revert x. induction l as [| y l IH]; intros x H; simpl; [done |]. apply IH. by apply app_nonempty_l. Qed.
Lemma addr_text_nonempty a : addr_text a <> "".
Proof.
  destruct a as [n | n zone]; unfold addr_text, dotted; [by apply app_nonempty_r |].
  apply app_nonempty_l. destruct (is_4in6 _); [done |]. unfold string6.
  destruct (best_run _ _ _) as [start l]. destruct (bool_decide (l = O)); [| by apply app_nonempty_r].
  apply join_nonempty. unfold hex_text. by repeat case_match.
Qed.

Lemma successes_app l s : (successes (l ++ [s]) = successes l ++ (if succeeded s then [s] else []))%list.
Proof. unfold successes. rewrite List.filter_app. simpl. by destruct (succeeded s). Qed.

Lemma sum_app (l : list Z) x : foldr Z.add 0 (l ++ [x])%list = foldr Z.add 0 l + x.
Proof. induction l as [| y l IH]; simpl; lia. Qed.

Lemma no_tally_of : tally_of no_tally.
Proof. split; simpl; try done. intros s H. by apply elem_of_nil in H. Qed.

Lemma milliseconds_nonneg d : 0 <= d -> 0 <= milliseconds d.
Proof. intros. unfold milliseconds. by apply Z.quot_pos. Qed.

(** The tally with one more successful sample. *)
Definition add_success (s : Sample) (t : Tally) : Tally :=
  let n := ta_Successes t + 1 in
  let l := sm_LatencyMS s in
  let lo := if n =? 1 then l else ta_min t in
  mkTally (ta_Samples t ++ [s])%list n (ta_sum t + l) (if l <? lo then l else lo) (if ta_max t <? l then l else ta_max t)
    (if (ta_ExitIP t =? "")%string then sm_IP s else ta_ExitIP t)
    (if (ta_ExitIP t =? "")%string then ta_ExitChanged t
     else if negb (ta_ExitIP t =? sm_IP s)%string then true else ta_ExitChanged t).

Section AddSuccess.
Variables (s : Sample) (t : Tally).
Hypothesis ok : succeeded s = true.
Hypothesis nonneg : 0 <= sm_LatencyMS s.
Hypothesis public : exists x, publicIP x = true /\ sm_IP s = addr_text x.
Hypothesis before : tally_of t.

Lemma ip_nonempty : sm_IP s <> "".
Proof. destruct public as (x & _ & ->). apply addr_text_nonempty. Qed.

Lemma successes_snoc : (successes (ta_Samples t ++ [s]) = successes (ta_Samples t) ++ [s])%list.
Proof. by rewrite successes_app, ok. Qed.

Lemma add_first : successes (ta_Samples t) = [] -> tally_of (add_success s t).
Proof.
  intros El. destruct before as [Hc Hs Hx Hh Hp Hm Hn]. rewrite El in *. specialize (Hn eq_refl). simpl in *.
  unfold add_success. rewrite Hx, Hc, Hs, Hh, Hn, Z.ltb_irrefl. simpl.
  assert (Hmax : (if 0 <? sm_LatencyMS s then sm_LatencyMS s else 0) = sm_LatencyMS s) by (case_match; bool_norm; lia).
  rewrite Hmax.
  split; simpl; rewrite ?successes_snoc, ?El; simpl; rewrite ?String.eqb_refl; try done; try lia.
  - by intros y ->%list_elem_of_singleton.
  - intros _. rewrite !list_elem_of_singleton. repeat split; apply list_elem_of_singleton in H as ->; lia.
Qed.

Lemma add_more : successes (ta_Samples t) <> [] -> tally_of (add_success s t).
Proof.
  intros El. destruct before as [Hc Hs Hx Hh Hp Hm Hn]. specialize (Hm El) as (Hlo & Hhi & Hb).
  assert (Hhd : head (successes (ta_Samples t) ++ [s])%list = head (successes (ta_Samples t))) by by destruct (successes _).
  assert (Hne : (ta_ExitIP t =? "")%string = false).
  { apply String.eqb_neq. rewrite Hx. destruct (successes (ta_Samples t)) as [| s0 l]; [done |].
    simpl. destruct (Hp s0) as (y & _ & ->); [by left | apply addr_text_nonempty]. }
  assert (Hn1 : (ta_Successes t + 1 =? 1) = false).
  { apply Z.eqb_neq. rewrite Hc. destruct (successes (ta_Samples t)); [done |]. simpl length. lia. }
  unfold add_success. rewrite Hne, Hn1.
  split; simpl; rewrite ?successes_snoc, ?Hhd.
  - rewrite length_app. simpl. lia.
  - rewrite fmap_app. simpl. rewrite sum_app. lia.
  - done.
  - rewrite existsb_app, <- Hh. simpl. rewrite orb_false_r, (String.eqb_sym (sm_IP s)).
    destruct (ta_ExitIP t =? sm_IP s)%string; simpl; by rewrite ?orb_false_r, ?orb_true_r.
  - intros y [Hi | ->%list_elem_of_singleton]%elem_of_app; [by apply Hp | done].
  - intros _. rewrite fmap_app. simpl. rewrite !elem_of_app, !list_elem_of_singleton. split_and!.
    + case_match; [by right | by left].
    + case_match; [by right | by left].
    + intros y [Hi | ->%list_elem_of_singleton]%elem_of_app; [specialize (Hb _ Hi) |]; repeat case_match; bool_norm; lia.
  - intros Hbad. by destruct (successes (ta_Samples t)).
Qed.
End AddSuccess.

Lemma count_sample_of r t : 0 <= rd_Elapsed r -> tally_of t -> tally_of (count_sample r t).
Proof.
  intros He H. apply milliseconds_nonneg in He.
  destruct (take_sample_spec r) as [(ip & E & Es) | (f & E & Es)]; unfold count_sample; rewrite E.
  2:{ destruct H. split; simpl; rewrite successes_app, Es, app_nil_r; auto. }
  fold (add_success (take_sample r) t). rewrite Es.
  destruct (decide (successes (ta_Samples t) = [])); [apply add_first | apply add_more]; auto; by apply (exit_address_public (rd_Answer r)).
Qed.

Lemma sample_loop_of rounds n i t : (forall j, 0 <= rd_Elapsed (rounds j)) -> tally_of t ->
  tally_of (sample_loop rounds n i t) /\
  exists k, (length (ta_Samples (sample_loop rounds n i t)) = length (ta_Samples t) + k /\ k <= n)%nat /\ (n <> O -> k <> O).
Proof.
  intros He. revert i t. induction n as [| n IH]; intros i t Ht; simpl.
  { split; [done |]. exists O. split; [lia | done]. }
  assert (Hc : tally_of (count_sample (rounds i) t)) by by apply count_sample_of.
  assert (Hl : length (ta_Samples (count_sample (rounds i) t)) = S (length (ta_Samples t))).
  { unfold count_sample. destruct (exit_address _); simpl; rewrite length_app; simpl; lia. }
  destruct (rd_Done (rounds i)).
  - split; [done |]. exists 1%nat. lia.
  - destruct (IH (S i) _ Hc) as [H (k & Hk & _)]. split; [done |]. exists (S k). lia.
Qed.

(** ** The summary of a run *)

(** The declarative reading of a result: its figures from its samples. *)
Definition summary_of (r : Result) : Prop :=
  let ok := successes (rs_Samples r) in
  let latencies := sm_LatencyMS <$> ok in
  1 <= rs_Attempts r <= 3 /\ rs_Attempts r = Z.of_nat (length (rs_Samples r)) /\
  rs_Successes r = Z.of_nat (length ok) /\ (rs_Status r = "passed" <-> length ok = 3%nat) /\
  rs_SuccessRate r = success_rate (rs_Successes r) (rs_Attempts r) /\
  (ok = [] -> rs_MeanLatencyMS r = 0 /\ rs_JitterMS r = 0 /\ rs_Observations r = []) /\
  (ok <> [] ->
    rs_MeanLatencyMS r = foldr Z.add 0 latencies / Z.of_nat (length ok) /\
    exists lo hi, lo ∈ latencies /\ hi ∈ latencies /\ rs_JitterMS r = hi - lo /\ forall l, l ∈ latencies -> lo <= l <= hi) /\
  rs_ExitIP r = default "" (sm_IP <$> head ok) /\
  (forall s, s ∈ ok -> exists x, publicIP x = true /\ sm_IP s = addr_text x) /\
  (rs_ExitChanged r = false -> forall s, s ∈ ok -> sm_IP s = rs_ExitIP r).

Lemma ipinfoType_changed p ip changed at_ a after :
  snd (ipinfoType p ip changed at_ a after) = false -> changed = false.
Proof. unfold ipinfoType. repeat case_match; simpl; try done; by bool_norm. Qed.

Lemma latencies_nonneg t : tally_of t -> (forall s, s ∈ ta_Samples t -> 0 <= sm_LatencyMS s) ->
  0 <= foldr Z.add 0 (sm_LatencyMS <$> successes (ta_Samples t)).
Proof.
  intros _ H. assert (Hs : forall s, s ∈ successes (ta_Samples t) -> 0 <= sm_LatencyMS s).
  { intros s Hi. apply H. apply list_elem_of_In in Hi. apply list_elem_of_In. by apply List.filter_In in Hi as [? _]. }
  revert Hs. generalize (successes (ta_Samples t)). intros l. induction l as [| s l IH]; intros Hs; simpl; [done |].
  assert (0 <= sm_LatencyMS s) by (apply Hs; left). assert (0 <= foldr Z.add 0 (sm_LatencyMS <$> l)) by (apply IH; intros; apply Hs; by right).
  by apply Z.add_nonneg_nonneg.
Qed.

Lemma sample_loop_nonneg rounds n i t : (forall j, 0 <= rd_Elapsed (rounds j)) ->
  (forall s, s ∈ ta_Samples t -> 0 <= sm_LatencyMS s) ->
  forall s, s ∈ ta_Samples (sample_loop rounds n i t) -> 0 <= sm_LatencyMS s.
Proof.
  intros He. revert i t. induction n as [| n IH]; intros i t Ht; simpl; [done |].
  assert (Hc : forall s, s ∈ ta_Samples (count_sample (rounds i) t) -> 0 <= sm_LatencyMS s).
  { intros s. unfold count_sample. destruct (exit_address _); simpl; intros [Hi | ->%list_elem_of_singleton]%elem_of_app;
      try (by apply Ht); unfold take_sample; destruct (exit_address _); simpl; by apply milliseconds_nonneg. }
  destruct (rd_Done (rounds i)); [done | by apply IH].
Qed.

(** C21: what [Run] reports is a function of the samples it recorded: one to three
    attempts, as many successes as samples without an error, passed exactly with
    three; the mean and the jitter are those of the successful samples; the exit is
    the address of the first success, a public one in canonical text, and unless a
    change is reported every success came from that same exit. *)
Theorem probe_summary_is_of_its_samples p env e c :
  (forall i, 0 <= rd_Elapsed (pe_Rounds env i)) -> summary_of (Run p env e c).
Proof.
  intros He. unfold Run, summary_of. destruct (transport p e c (pe_Resolved env)) as [t | f].
  2:{ assert (Hf : succeeded (mkSample (pe_Failed env) 0 "" (classify f)) = false) by apply String.eqb_neq, classify_nonempty.
      simpl. rewrite Hf. simpl. split_and!; try done; [intros s H | intros _ s H]; by apply elem_of_nil in H. }
  destruct (sample_loop_of (pe_Rounds env) 3 0 no_tally He no_tally_of) as [Ht (k & (Hk & Hk3) & Hk0)].
  assert (Hpos := sample_loop_nonneg (pe_Rounds env) 3 0 no_tally He ltac:(intros s H; by apply elem_of_nil in H)).
  set (t3 := sample_loop (pe_Rounds env) 3 0 no_tally) in *. specialize (Hk0 ltac:(done)). simpl in Hk.
  assert (Hsum := latencies_nonneg t3 Ht Hpos). destruct Ht as [Hc Hs Hx Hh Hp Hm Hn]. clearbody t3.
  destruct (if negb (ta_ExitIP t3 =? "")%string && negb (pe_Late env) then _ else _) as [obs changed] eqn:Eobs. simpl.
  split_and!; try done.
  - lia.
  - lia.
  - rewrite Hc. destruct (Z.of_nat _ =? 3) eqn:E; bool_norm; split; intros; try done; lia.
  - intros Hnil. rewrite Hc, Hnil. simpl. split_and!; try done. rewrite Hx, Hnil in Eobs. simpl in Eobs. by injection Eobs as <- <-.
  - intros Hne. specialize (Hm Hne) as (Hlo & Hhi & Hb). destruct (0 <? ta_Successes t3) eqn:E.
    2:{ bool_norm. rewrite Hc in E. destruct (successes (ta_Samples t3)); [done | simpl in E; lia]. }
    bool_norm. rewrite Hs, Hc in *. split; [by apply Z.quot_div_nonneg |].
    exists (ta_min t3), (ta_max t3). split_and!; try done. intros l (s & -> & Hl)%list_elem_of_fmap. by apply Hb.
  - intros Hch s Hi. assert (Hcf : ta_ExitChanged t3 = false).
    { destruct (_ && _) in Eobs; [| by injection Eobs as <- <-]. unfold observe_exit in Eobs.
      destruct (ipinfoType _ _ _ _ _ _) as [o ch] eqn:Ei. injection Eobs as <- <-.
      apply (ipinfoType_changed p (ta_ExitIP t3) _ (fst (pe_Type env)) (snd (pe_Type env)) (pe_After env)). by rewrite Ei. }
    rewrite Hcf in Hh. symmetry in Hh. destruct (sm_IP s =? ta_ExitIP t3)%string eqn:E; [by apply String.eqb_eq |].
    exfalso. apply list_elem_of_In in Hi. assert (existsb (fun s => negb (sm_IP s =? ta_ExitIP t3)%string) (successes (ta_Samples t3)) = true).
    { apply existsb_exists. exists s. by rewrite E. } congruence.
Qed.

(** ** Where a probe connects *)

(** The IPv4 addresses that are not public, as intervals. *)
Definition v4 (a b c d : Z) : Z := ((a * 256 + b) * 256 + c) * 256 + d.
Definition private_ranges : list (Z * Z) :=
  [(v4 0 0 0 0, v4 0 255 255 255); (v4 10 0 0 0, v4 10 255 255 255); (v4 100 64 0 0, v4 100 127 255 255);
   (v4 127 0 0 0, v4 127 255 255 255); (v4 169 254 0 0, v4 169 254 255 255); (v4 172 16 0 0, v4 172 31 255 255);
   (v4 192 0 0 0, v4 192 0 0 255); (v4 192 0 2 0, v4 192 0 2 255); (v4 192 168 0 0, v4 192 168 255 255);
   (v4 198 18 0 0, v4 198 19 255 255); (v4 198 51 100 0, v4 198 51 100 255); (v4 203 0 113 0, v4 203 0 113 255);
   (v4 224 0 0 0, v4 255 255 255 255)].
Definition in_ranges (n : Z) : bool := existsb (fun r => (fst r <=? n) && (n <=? snd r)) private_ranges.

Lemma div_range n k m : 0 < k -> (n / k =? m) = (m * k <=? n) && (n <=? m * k + (k - 1)).
Proof.
  intros Hk. apply eq_true_iff_eq. rewrite andb_true_iff, Z.eqb_eq, !Z.leb_le. split.
  - intros <-. pose proof (Z.div_mod n k ltac:(lia)). pose proof (Z.mod_pos_bound n k Hk). lia.
  - intros [? ?]. symmetry. apply (Z.div_unique n k m (n - m * k)); lia.
Qed.

Lemma if_false_then (b c : bool) : (if b then false else c) = negb b && c.
Proof. by destruct b. Qed.

Lemma publicIP_v4 n : 0 <= n < 2 ^ 32 -> publicIP (V4 n) = negb (in_ranges n).
Proof.
  intros Hn. unfold publicIP, IsGlobalUnicast, IsPrivate, IsLoopback, IsLinkLocalUnicast, IsMulticast, reserved, in_ranges, private_ranges.
  simpl existsb. unfold Unmap, Contains, v4.
  assert (Hv : forall m, bool_decide (V4 n = V4 m) = (n =? m)).
  { intros m. apply eq_true_iff_eq. rewrite bool_decide_eq_true, Z.eqb_eq. split; congruence. }
  rewrite !Hv, bool_decide_eq_false_2 by done. simpl. rewrite !div_range by lia.
  repeat match goal with
  | |- context [Z.div ?a ?b] => let v := eval vm_compute in (Z.div a b) in change (Z.div a b) with v
  | |- context [Z.pow ?a ?b] => let v := eval vm_compute in (Z.pow a b) in change (Z.pow a b) with v
  end.
  rewrite if_false_then. apply eq_true_iff_eq. lia.
Qed.

(** The address may be dialled: public, or the endpoint is on the operator's list. *)
Definition admitted (p : Prober) (e : Endpoint) (ip : Addr) : Prop :=
  JoinHostPort (ep_Host e) (format_int (ep_Port e)) ∈ pb_AllowedInternal p \/
  (publicIP ip = true /\ forall n, Unmap ip = V4 n -> 0 <= n < 2 ^ 32 -> in_ranges n = false).

Lemma publicIP_unmap a : publicIP (Unmap a) = publicIP a.
Proof. unfold publicIP. replace (Unmap (Unmap a)) with (Unmap a); [done |]. unfold Unmap. destruct a; [done |]. by destruct (is_4in6 _) eqn:E; rewrite ?E. Qed.

Lemma admitted_public p e ip :
  negb (publicIP ip) && negb (bool_decide (JoinHostPort (ep_Host e) (format_int (ep_Port e)) ∈ pb_AllowedInternal p)) = false ->
  admitted p e ip.
Proof.
  intros [H | H]%andb_false_iff; bool_norm; [right | by left]. split; [done |].
  intros n Hu Hn. apply negb_true_iff. rewrite <- publicIP_v4, <- Hu, publicIP_unmap by done. done.
Qed.

Lemma transport_admitted p e c resolved t : transport p e c resolved = Ok t ->
  exists first rest, resolved = Ok (first :: rest) /\ Forall (admitted p e) (first :: rest) /\
    tp_endpoint t = JoinHostPort (ep_Host e) (format_int (ep_Port e)) /\
    tp_pinned t = JoinHostPort (addr_text first) (format_int (ep_Port e)).
Proof.
  unfold transport. intros H. apply mbind_ok in H as (ips & -> & H). destruct ips as [| first rest]; [done |].
  destruct (existsb _ _) eqn:E; [done |]. injection H as <-. exists first, rest. split_and!; try done.
  apply Forall_forall. intros ip Hi. apply admitted_public. destruct (_ && _) eqn:Ei; [| done].
  rewrite <- E. symmetry. apply existsb_exists. exists ip. split; [by apply list_elem_of_In | done].
Qed.

(** C20: a probe only ever connects to the proxy. A successful sample means that the
    resolver's answer was entirely admitted (every address public, outside all the
    reserved ranges, unless the operator listed the endpoint), and then every
    connection the HTTP client can ask for, whatever the address, goes to the first
    of these addresses at the endpoint's port, or is refused. *)
Theorem probe_connects_to_admitted_proxy_only p env e c s :
  s ∈ successes (rs_Samples (Run p env e c)) ->
  exists t first rest, transport p e c (pe_Resolved env) = Ok t /\ pe_Resolved env = Ok (first :: rest) /\
    Forall (admitted p e) (first :: rest) /\
    forall address resolve,
      match dial t address resolve with
      | Ok (peer, _) => peer = JoinHostPort (addr_text first) (format_int (ep_Port e))
      | Err _ => tp_socks t = true \/ address <> JoinHostPort (ep_Host e) (format_int (ep_Port e))
      end.
Proof.
  unfold Run. destruct (transport p e c (pe_Resolved env)) as [t | f] eqn:E.
  2:{ simpl. assert (Hf : succeeded (mkSample (pe_Failed env) 0 "" (classify f)) = false) by apply String.eqb_neq, classify_nonempty.
      rewrite Hf. intros H. by apply elem_of_nil in H. }
  intros _. destruct (transport_admitted _ _ _ _ _ E) as (first & rest & Hr & Hf & He & Hp).
  exists t, first, rest. split_and!; try done. intros address resolve. unfold dial, direct.
  destruct (tp_socks t) eqn:Hs; simpl.
  - destruct (if tp_resolves t then _ else _) as [asked | f]; simpl; [| by left]. by rewrite String.eqb_refl.
  - destruct (address =? tp_endpoint t)%string eqn:Ea; simpl; [done |]. right. bool_norm. by rewrite <- He.
Qed.
End ProbeFacts.
