(* ===== verification/EgressService.v ===== *)
(** * Managing and probing proxies: internal/egress/service.go

    The table station.egress_proxies (migrations/0009) and the calls of [Service]
    over it. A write transaction is one atomic function of the tables, as in
    [Identity]. [Test] is not one transaction: it reads the proxy, takes one of four
    slots, leases the row, probes for up to a minute and writes the result back, so
    each of its statements is a definition of its own and everything may happen
    between two of them ([Test] takes what happens as arguments). *)
From stdpp Require Import sorting.
From S2P Require Import Prelude GoStd Sha256 GoJson GoText Uuid Identity StrictJson Egress Probe.
From Stdlib Require Import Ascii.
#[local] Open Scope Z_scope.

(** PostgreSQL's input of a uuid: the canonical text of the forms it accepts. *)
Class PgLib := pg_uuid : string -> option string.

(** A row of station.egress_proxies; its primary key is the key of the table. *)
Record ProxyRow := mkProxy {
  px_StationID : string; px_OrganizationID : string; px_Name : string; px_Protocol : string; px_Host : string;
  px_Port : Z; px_Credentials : string; px_EndpointKey : string; px_Status : string; px_Tag : string;
  px_Note : string; px_ExpiresAt : option Time; px_AssignedApps : list string; px_Revision : Z;
  px_Probe : option Result; px_Token : option string; px_Until : option Time;
  px_CreatedAt : Time; px_UpdatedAt : Time }.

Record EgressDB := mkEgressDB {
  eg_Proxies : gmap string ProxyRow; eg_Stations : gset string; eg_Organizations : gset string;
  eg_Audits : list AuditRow }.
Definition set_proxies (x : gmap string ProxyRow) (db : EgressDB) : EgressDB :=
  mkEgressDB x (eg_Stations db) (eg_Organizations db) (eg_Audits db).

Record Service := mkEgress { sv_StationID : string; sv_cipher : Aead; sv_Prober : Prober }.
Definition slot_count : nat := 4.

Section Service.
Context {N : UnicodeLib} {U : UuidLib} {J : JsonLib} {P : PgLib} {D : ProbeCodecs}.

(** [New]: a 32-byte key gives the cipher. *)
Definition New (station : string) (key : string) (cipher : string -> option Aead) (p : Prober) : option Service :=
  if negb (String.length key =? 32)%nat then None
  else a ← cipher key; Some (mkEgress station a p).

Variable sv : Service.

Definition aad (org id : string) : string := sv_StationID sv +:+ ":" +:+ org +:+ ":" +:+ id.

(** The [WHERE] of the calls: the row of the identifier, when it belongs to the
    station and the organization. *)
Definition owned (org : string) (r : ProxyRow) : bool :=
  bool_decide (pg_uuid (sv_StationID sv) = Some (px_StationID r)) && bool_decide (pg_uuid org = Some (px_OrganizationID r)).
(** The outer result is the statement's: an identifier PostgreSQL cannot read is an error. *)
Definition select (db : EgressDB) (org id : string) : result EgressError (option (string * ProxyRow)) :=
  match pg_uuid id, pg_uuid (sv_StationID sv), pg_uuid org with
  | Some key, Some _, Some _ =>
      Ok (r ← eg_Proxies db !! key; if owned org r then Some (key, r) else None)
  | _, _, _ => Err ErrServer
  end.

Definition endpoint_of (key : string) (r : ProxyRow) (auth : bool) (now : Time) : Endpoint :=
  mkEndpoint key (px_Name r) (px_Protocol r) (px_Host r) (px_Port r) (px_Status r) (px_Tag r) (px_Note r)
    (px_ExpiresAt r) auth (px_AssignedApps r) (px_Revision r) (px_Probe r)
    (match px_Until r with Some t => stored now <? t | None => false end) (px_UpdatedAt r) (px_Credentials r).

(** [scan] of a row that may be missing. *)
Definition scan (org : string) (now : Time) (row : option (string * ProxyRow)) : result EgressError Endpoint :=
  match row with
  | None => Err ErrNotFound
  | Some (key, r) =>
      c ← unseal (sv_cipher sv) (px_Credentials r) (aad org key);
      Ok (endpoint_of key r (negb (cr_Username c =? "")%string) now)
  end.

(** ** Reads *)
Definition newest_first (a b : string * ProxyRow) : Prop := px_CreatedAt (snd b) <= px_CreatedAt (snd a).
#[local] Instance newest_first_dec a b : Decision (newest_first a b).
Proof. unfold newest_first. apply _. Defined.
Definition List (u : IdentityContext) (now : Time) (connected : bool) (db : EgressDB) : result EgressError (list Endpoint) :=
  _ ← authorize u (sv_StationID sv);
  if negb connected || negb (bool_decide (is_Some (pg_uuid (sv_StationID sv))))
     || negb (bool_decide (is_Some (pg_uuid (ic_OrganizationID u)))) then Err ErrServer
  else mapM (fun kr => scan (ic_OrganizationID u) now (Some kr))
         (merge_sort newest_first (List.filter (fun kr => owned (ic_OrganizationID u) (snd kr)) (map_to_list (eg_Proxies db)))).

Definition Get (u : IdentityContext) (id : string) (now : Time) (connected : bool) (db : EgressDB) : result EgressError Endpoint :=
  _ ← authorize u (sv_StationID sv);
  match uuid_parse id with
  | None => Err ErrNotFound
  | Some _ =>
      if negb connected then Err ErrServer
      else row ← select db (ic_OrganizationID u) id; scan (ic_OrganizationID u) now row
  end.

(** ** Save *)

(** [translate]: a violated UNIQUE is a conflict. *)
Definition duplicate (db : EgressDB) (key : string) (r : ProxyRow) : bool :=
  existsb (fun kr => negb (fst kr =? key)%string && (px_StationID (snd kr) =? px_StationID r)%string
                     && (px_OrganizationID (snd kr) =? px_OrganizationID r)%string
                     && (px_EndpointKey (snd kr) =? px_EndpointKey r)%string) (map_to_list (eg_Proxies db)).
(** The CHECKs, and the encoding of text columns. *)
Definition row_checks (r : ProxyRow) : bool :=
  (1 <=? rune_count (px_Name r)) && (rune_count (px_Name r) <=? 120) && slices_contains protocols (px_Protocol r)
  && (1 <=? px_Port r) && (px_Port r <=? 65535) && slices_contains ["pending"; "active"; "off"] (px_Status r)
  && utf8_valid (px_Name r +:+ px_Tag r) && utf8_valid (px_Note r).

Definition audit (u : IdentityContext) (action : string) (db : EgressDB) : EgressDB :=
  mkEgressDB (eg_Proxies db) (eg_Stations db) (eg_Organizations db)
    (eg_Audits db ++ [mkAuditRow (ic_RequestID u) (Some (ic_UserID u)) (Some (ic_OrganizationID u)) (Some (ic_SessionID u))
                        ("egress." +:+ action) "succeeded"]).

(** INSERT and UPDATE of a row under the constraints. *)
Definition write_row (key : string) (r : ProxyRow) (fresh : bool) (db : EgressDB) : result EgressError EgressDB :=
  if duplicate db key r || (fresh && bool_decide (is_Some (eg_Proxies db !! key))) then Err ErrConflict
  else if negb (row_checks r) || negb (bool_decide (px_StationID r ∈ eg_Stations db))
          || negb (bool_decide (px_OrganizationID r ∈ eg_Organizations db)) then Err ErrServer
  else Ok (set_proxies (<[key := r]> (eg_Proxies db)) db).

Definition stored_expiry (expiry : option Time) : option Time := stored <$> expiry.

(** The row a create inserts. *)
Definition created (station org : string) (i : Input) (sealed key status : string) (expiry : option Time) (now : Time) : ProxyRow :=
  mkProxy station org (in_Name i) (in_Protocol i) (in_Host i) (in_Port i) sealed key status (in_Tag i) (in_Note i)
    (stored_expiry expiry) [] 1 None None None (stored now) (stored now).
(** The row an update leaves. *)
Definition updated (r : ProxyRow) (i : Input) (sealed key status : string) (expiry : option Time) (now : Time) : ProxyRow :=
  mkProxy (px_StationID r) (px_OrganizationID r) (in_Name i) (in_Protocol i) (in_Host i) (in_Port i) sealed key status
    (in_Tag i) (in_Note i) (stored_expiry expiry) (px_AssignedApps r) (px_Revision r + 1) None None None
    (px_CreatedAt r) (stored now).

(** What the transaction reads first: the row (none for a create), its credentials
    and the default status. *)
Definition save_base (u : IdentityContext) (id : string) (i : Input) (now : Time) (db : EgressDB)
    : result EgressError (option (string * ProxyRow) * Credentials * string) :=
  if (id =? "")%string
  then if negb (in_Revision i =? 0) then invalid else Ok (None, mkCredentials "" "", "pending")
  else match uuid_parse id with
  | None => Err ErrNotFound
  | Some _ =>
      row ← select db (ic_OrganizationID u) id;
      old ← scan (ic_OrganizationID u) now row;
      if negb (in_Revision i =? ep_Revision old) then Err ErrConflict
      else
        c ← unseal (sv_cipher sv) (ep_credentials old) (aad (ic_OrganizationID u) id);
        Ok (row, c, if (ep_Status old =? "off")%string then "off" else "pending")
  end.

(** The transaction of [Save]: the saved identifier and the tables. [drawn] is the
    new identifier, [nonce] the drawn nonce. *)
Definition save_body (u : IdentityContext) (id drawn nonce : string) (i : Input) (expiry : option Time) (now : Time)
    (db : EgressDB) : result EgressError (string * EgressDB) :=
  '(base, old, status) ← save_base u id i now db;
  let target := if (id =? "")%string then drawn else id in
  let c := merge_credentials i old in
  if negb (validCredentials c) then invalid
  else
    let status := if (in_Status i =? "")%string then status else in_Status i in
    let sealed := seal (sv_cipher sv) nonce c (aad (ic_OrganizationID u) target) in
    let ekey := endpointKey i c in
    let action := if (id =? "")%string then "create" else "update" in
    match base with
    | Some (key, r) =>
        if negb (px_Revision r =? 0)
        then db' ← write_row key (updated r i sealed ekey status expiry now) false db; Ok (target, audit u action db')
        else Err ErrConflict          (* the INSERT repeats the primary key *)
    | None =>
        match pg_uuid target, pg_uuid (sv_StationID sv), pg_uuid (ic_OrganizationID u) with
        | Some key, Some station, Some org =>
            db' ← write_row key (created station org i sealed ekey status expiry now) true db;
            Ok (target, audit u action db')
        | _, _, _ => Err ErrServer
        end
    end.

(** [Save]: the checks, the transaction, and the read of the saved row, between
    which [during] happens. *)
Definition Save (u : IdentityContext) (id drawn nonce : string) (i : Input) (now : Time) (connected reconnected : bool)
    (during : EgressDB -> EgressDB) (db : EgressDB) : EgressDB * result EgressError Endpoint :=
  match authorize u (sv_StationID sv) with
  | Err e => (db, Err e)
  | Ok _ =>
      match normalize i with
      | Err e => (db, Err e)
      | Ok (i, expiry) =>
          if negb connected then (db, Err ErrServer)
          else match save_body u id drawn nonce i expiry now db with
          | Err e => (db, Err e)
          | Ok (target, db') => let db2 := during db' in (db2, Get u target now reconnected db2)
          end
      end
  end.

(** ** Delete *)
Definition delete_body (u : IdentityContext) (id : string) (now : Time) (db : EgressDB) : result EgressError EgressDB :=
  row ← select db (ic_OrganizationID u) id;
  p ← scan (ic_OrganizationID u) now row;
  if negb (bool_decide (ep_AssignedApps p = [])) || ep_Testing p then Err ErrConflict
  else match pg_uuid id with
       | Some key => Ok (audit u "delete" (set_proxies (delete key (eg_Proxies db)) db))
       | None => Err ErrServer
       end.
Definition Delete (u : IdentityContext) (id : string) (now : Time) (connected : bool) (db : EgressDB)
    : EgressDB * result EgressError unit :=
  match authorize u (sv_StationID sv) with
  | Err e => (db, Err e)
  | Ok _ =>
      match uuid_parse id with
      | None => (db, Err ErrNotFound)
      | Some _ =>
          if negb connected then (db, Err ErrServer)
          else match delete_body u id now db with Err e => (db, Err e) | Ok db' => (db', Ok tt) end
      end
  end.

(** ** Test *)

Definition lease : Time := 65 * second.
Definition disabled (p : Endpoint) (now : Time) : bool :=
  (ep_Status p =? "off")%string || match ep_ExpiresAt p with Some t => negb (time_after t now) | None => false end.

Definition set_lease (token : option string) (until : option Time) (r : ProxyRow) : ProxyRow :=
  mkProxy (px_StationID r) (px_OrganizationID r) (px_Name r) (px_Protocol r) (px_Host r) (px_Port r) (px_Credentials r)
    (px_EndpointKey r) (px_Status r) (px_Tag r) (px_Note r) (px_ExpiresAt r) (px_AssignedApps r) (px_Revision r)
    (px_Probe r) token until (px_CreatedAt r) (px_UpdatedAt r).
Definition probed (result : Result) (status : string) (now : Time) (r : ProxyRow) : ProxyRow :=
  mkProxy (px_StationID r) (px_OrganizationID r) (px_Name r) (px_Protocol r) (px_Host r) (px_Port r) (px_Credentials r)
    (px_EndpointKey r) status (px_Tag r) (px_Note r) (px_ExpiresAt r) (px_AssignedApps r) (px_Revision r)
    (Some result) None None (px_CreatedAt r) (stored now).

(** [probe_until IS NULL OR probe_until < now()]. *)
Definition unleased (r : ProxyRow) (now : Time) : bool :=
  match px_Until r with None => true | Some t => t <? stored now end.

(** UPDATE of the owned row that satisfies [guard]: whether one row changed. *)
Definition update_row (org id : string) (guard : ProxyRow -> bool) (f : ProxyRow -> ProxyRow) (db : EgressDB)
    : result EgressError (bool * EgressDB) :=
  row ← select db org id;
  match row with
  | Some (key, r) => if guard r then Ok (true, set_proxies (<[key := f r]> (eg_Proxies db)) db) else Ok (false, db)
  | None => Ok (false, db)
  end.

Definition test_lease (u : IdentityContext) (id token : string) (p : Endpoint) (now : Time) : EgressDB -> result EgressError (bool * EgressDB) :=
  update_row (ic_OrganizationID u) id
    (fun r => (px_Revision r =? ep_Revision p) && negb (px_Status r =? "off")%string && unleased r now)
    (set_lease (Some token) (Some (stored now + lease))).

Definition probe_status (r : Result) : string := if (rs_Status r =? "passed")%string then "active" else "pending".
Definition test_write (u : IdentityContext) (id token : string) (p : Endpoint) (result : Result) (now : Time)
    : EgressDB -> Prelude.result EgressError (bool * EgressDB) :=
  update_row (ic_OrganizationID u) id
    (fun r => bool_decide (px_Token r = Some token) && (px_Revision r =? ep_Revision p) && negb (px_Status r =? "off")%string)
    (probed result (probe_status result) now).

(** The deferred release of the lease; its error is dropped. *)
Definition test_release (id token : string) (db : EgressDB) : EgressDB :=
  match pg_uuid id with
  | Some key => set_proxies (alter (fun r => if bool_decide (px_Token r = Some token) then set_lease None None r else r) key (eg_Proxies db)) db
  | None => db
  end.

(** What a call of [Test] meets: the clock and the connection at each statement, the
    probe's surroundings, whether the context is done after the probe, and what
    happens to the tables before the lease, during the probe and after the write. *)
Record TestEnv := mkTestEnv {
  te_Read : Time * bool; te_Now : Time; te_Free : bool;      (** the read; the clock; a slot is free *)
  te_Before : EgressDB -> EgressDB; te_Token : string; te_Lease : Time * bool;
  te_Probing : EgressDB -> EgressDB; te_Probe : ProbeEnv; te_Done : bool;
  te_Write : Time * bool; te_After : EgressDB -> EgressDB; te_Reread : Time * bool;
  te_Cleanup : bool; te_Last : EgressDB -> EgressDB }.

(** From a held lease on: unseal, probe, write, read back. *)
Definition test_leased (u : IdentityContext) (id : string) (p : Endpoint) (env : TestEnv) (db : EgressDB)
    : EgressDB * result EgressError Endpoint :=
  match unseal (sv_cipher sv) (ep_credentials p) (aad (ic_OrganizationID u) id) with
  | Err e => (db, Err e)
  | Ok c =>
      let result := Run (sv_Prober sv) (te_Probe env) p c in
      let db := te_Probing env db in
      if te_Done env || negb (snd (te_Write env)) then (db, Err ErrServer)
      else match test_write u id (te_Token env) p result (fst (te_Write env)) db with
      | Err e => (db, Err e)
      | Ok (changed, db) =>
          if negb changed then (db, Err ErrConflict)
          else let db := te_After env db in
               (db, Get u id (fst (te_Reread env)) (snd (te_Reread env)) db)
      end
  end.

Definition Test (u : IdentityContext) (id : string) (env : TestEnv) (db : EgressDB) : EgressDB * result EgressError Endpoint :=
  match Get u id (fst (te_Read env)) (snd (te_Read env)) db with
  | Err e => (db, Err e)
  | Ok p =>
      if disabled p (te_Now env) then (db, Err ErrDisabled)
      else if negb (te_Free env) then (db, Err ErrBusy)
      else
        let db := te_Before env db in
        if negb (snd (te_Lease env)) then (db, Err ErrServer)
        else match test_lease u id (te_Token env) p (fst (te_Lease env)) db with
        | Err e => (db, Err e)
        | Ok (false, db) => (db, Err ErrBusy)
        | Ok (true, db) =>
            let '(db, answer) := test_leased u id p env db in
            let db := te_Last env db in
            (if te_Cleanup env then test_release id (te_Token env) db else db, answer)
        end
  end.
End Service.
