(* ===== verification/EgressSteps.v ===== *)
(** * Probes and edits of a proxy interleave safely

    The calls of [EgressService] as a step relation: saves, deletions and
    assignments of any administrator, and any number of tests, each statement of
    which is a step of its own. *)
From stdpp Require Import sorting.
From S2P Require Import Prelude GoStd Sha256 GoJson GoText Uuid Identity StrictJson Egress Probe ProbeFacts EgressService.
From Stdlib Require Import Ascii.
#[local] Open Scope Z_scope.

(** ** The world: the tables, the tests in flight, the identifiers drawn so far *)
Inductive Phase : Type :=
| PRead                        (** the endpoint is read *)
| PSlot                        (** a slot is held *)
| PLeased (token : string)     (** the row was leased, the probe is running *)
| PDone (token : string).      (** written or given up; the lease is still to be released *)
Record TestRun := mkTest { ts_User : IdentityContext; ts_ID : string; ts_Endpoint : Endpoint; ts_Phase : Phase }.
Definition at_phase (ph : Phase) (t : TestRun) : TestRun := mkTest (ts_User t) (ts_ID t) (ts_Endpoint t) ph.
Definition holds_slot (t : TestRun) : bool := match ts_Phase t with PRead => false | _ => true end.
Definition holds_token (t : TestRun) : option string :=
  match ts_Phase t with PLeased k | PDone k => Some k | _ => None end.

Record world := mkWorld { w_db : EgressDB; w_tests : gmap nat TestRun; w_drawn : gset string }.
Definition slots_used (w : world) : nat := size (filter (fun it => holds_slot (snd it) = true) (w_tests w)).

Section Steps.
Context {N : UnicodeLib} {U : UuidLib} {J : JsonLib} {P : PgLib} {D : ProbeCodecs}.
Variable sv : Service.

Definition with_db (db : EgressDB) (w : world) : world := mkWorld db (w_tests w) (w_drawn w).
Definition with_test (i : nat) (t : TestRun) (w : world) : world := mkWorld (w_db w) (<[i := t]> (w_tests w)) (w_drawn w).
Definition without_test (i : nat) (w : world) : world := mkWorld (w_db w) (delete i (w_tests w)) (w_drawn w).
Definition drawing (k : string) (w : world) : world := mkWorld (w_db w) (w_tests w) ({[ k ]} ∪ w_drawn w).

(** [uuid.NewV7] draws canonical identifiers that were not drawn before. *)
Definition fresh (k : string) (w : world) : Prop := k ∉ w_drawn w /\ pg_uuid k = Some k.

Inductive step : world -> world -> Prop :=
| step_save w u id drawn nonce i i' expiry now target db' :
    fresh drawn w -> authorize u (sv_StationID sv) = Ok tt -> normalize i = Ok (i', expiry) ->
    save_body sv u id drawn nonce i' expiry now (w_db w) = Ok (target, db') ->
    step w (drawing drawn (with_db db' w))
| step_delete w u id now db' :
    authorize u (sv_StationID sv) = Ok tt -> delete_body sv u id now (w_db w) = Ok db' ->
    step w (with_db db' w)
| step_assign w key apps :          (* the owner of application routing *)
    step w (with_db (set_proxies (alter (fun r => mkProxy (px_StationID r) (px_OrganizationID r) (px_Name r)
      (px_Protocol r) (px_Host r) (px_Port r) (px_Credentials r) (px_EndpointKey r) (px_Status r) (px_Tag r)
      (px_Note r) (px_ExpiresAt r) apps (px_Revision r) (px_Probe r) (px_Token r) (px_Until r)
      (px_CreatedAt r) (px_UpdatedAt r)) key (eg_Proxies (w_db w))) (w_db w)) w)
| step_read w i u id p now clock :
    w_tests w !! i = None -> Get sv u id now true (w_db w) = Ok p -> disabled p clock = false ->
    step w (with_test i (mkTest u id p PRead) w)
| step_slot w i t :
    w_tests w !! i = Some t -> ts_Phase t = PRead -> (slots_used w < slot_count)%nat ->
    step w (with_test i (at_phase PSlot t) w)
| step_lease w i t token now db' :
    w_tests w !! i = Some t -> ts_Phase t = PSlot -> fresh token w ->
    test_lease sv (ts_User t) (ts_ID t) token (ts_Endpoint t) now (w_db w) = Ok (true, db') ->
    step w (drawing token (with_test i (at_phase (PLeased token) t) (with_db db' w)))
| step_write w i t token c env now db' :
    w_tests w !! i = Some t -> ts_Phase t = PLeased token ->
    unseal (sv_cipher sv) (ep_credentials (ts_Endpoint t)) (aad sv (ic_OrganizationID (ts_User t)) (ts_ID t)) = Ok c ->
    test_write sv (ts_User t) (ts_ID t) token (ts_Endpoint t) (Run (sv_Prober sv) env (ts_Endpoint t) c) now (w_db w) = Ok (true, db') ->
    step w (with_test i (at_phase (PDone token) t) (with_db db' w))
| step_give_up w i t token :        (* the write failed, or the call did *)
    w_tests w !! i = Some t -> ts_Phase t = PLeased token ->
    step w (with_test i (at_phase (PDone token) t) w)
| step_release w i t token db' :    (* the release of the lease may fail *)
    w_tests w !! i = Some t -> ts_Phase t = PDone token ->
    db' = test_release (ts_ID t) token (w_db w) \/ db' = w_db w ->
    step w (without_test i (with_db db' w))
| step_refused w i t :              (* no slot, or no lease *)
    w_tests w !! i = Some t -> ts_Phase t = PRead \/ ts_Phase t = PSlot ->
    step w (without_test i w).

Definition initial (w : world) : Prop := eg_Proxies (w_db w) = ∅ /\ w_tests w = ∅.
Definition reachable (w : world) : Prop := exists w0, initial w0 /\ rtc step w0 w.

(** ** What each call does to the rows *)

(** No lease of the row outlasts [now]. *)
Definition unleased_at (r : ProxyRow) (now : Time) : Prop :=
  match px_Until r with Some t => t <= stored now | None => True end.

Lemma select_spec db org id row : select sv db org id = Ok row ->
  exists key, pg_uuid id = Some key /\ (forall k r, row = Some (k, r) -> k = key /\ eg_Proxies db !! key = Some r /\ owned sv org r = true).
Proof.
  unfold select. destruct (pg_uuid id) as [key |], (pg_uuid (sv_StationID sv)), (pg_uuid org); try done.
  intros H. injection H as <-. exists key. split; [done |]. intros k r Hr.
  destruct (eg_Proxies db !! key) as [r0 |]; simpl in Hr; [| done].
  destruct (owned sv org r0) eqn:E; [| done]. by injection Hr as <- <-.
Qed.

Lemma scan_spec org now row p : scan sv org now row = Ok p ->
  exists key r c, row = Some (key, r) /\ unseal (sv_cipher sv) (px_Credentials r) (aad sv org key) = Ok c /\
    p = endpoint_of key r (negb (cr_Username c =? "")%string) now.
Proof.
  unfold scan. destruct row as [[key r] |]; [| done]. intros H. apply mbind_ok in H as (c & Hc & H).
  injection H as <-. by exists key, r, c.
Qed.

Lemma Get_spec u id now connected db p : Get sv u id now connected db = Ok p ->
  authorize u (sv_StationID sv) = Ok tt /\ connected = true /\ is_Some (uuid_parse id) /\
  exists key r c, pg_uuid id = Some key /\ eg_Proxies db !! key = Some r /\ owned sv (ic_OrganizationID u) r = true /\
    unseal (sv_cipher sv) (px_Credentials r) (aad sv (ic_OrganizationID u) key) = Ok c /\
    p = endpoint_of key r (negb (cr_Username c =? "")%string) now.
Proof.
  unfold Get. intros H. apply mbind_ok in H as ([] & Ha & H). destruct (uuid_parse id) eqn:Eu; [| done].
  destruct connected; [| done]. simpl in H. apply mbind_ok in H as (row & Hs & H).
  apply scan_spec in H as (key & r & c & -> & Hc & ->). apply select_spec in Hs as (key' & Hk & Hr).
  destruct (Hr _ _ eq_refl) as (-> & Hl & Ho). split_and!; eauto 10.
Qed.

Lemma update_row_spec org id guard f db db' : update_row sv org id guard f db = Ok (true, db') ->
  exists key r, pg_uuid id = Some key /\ eg_Proxies db !! key = Some r /\ owned sv org r = true /\ guard r = true /\
    db' = set_proxies (<[key := f r]> (eg_Proxies db)) db.
Proof.
  unfold update_row. intros H. apply mbind_ok in H as (row & Hs & H).
  apply select_spec in Hs as (key & Hk & Hr). destruct row as [[k r] |]; [| done].
  destruct (Hr _ _ eq_refl) as (-> & Hl & Ho). destruct (guard r) eqn:Eg; [| done]. injection H as <-. by exists key, r.
Qed.

Lemma write_row_spec key r fresh db db' : write_row key r fresh db = Ok db' ->
  db' = set_proxies (<[key := r]> (eg_Proxies db)) db /\ (fresh = true -> eg_Proxies db !! key = None).
Proof.
  unfold write_row. destruct (duplicate db key r); simpl; [done |].
  destruct (fresh && _) eqn:E; [done |]. destruct (_ || _); [done |]. intros H. injection H as <-.
  split; [done |]. intros ->. simpl in E. bool_norm. by apply eq_None_not_Some.
Qed.

Lemma normalize_status i i' expiry : normalize i = Ok (i', expiry) ->
  i' = normalized i /\ in_Status i' ∈ [""; "pending"; "off"] /\
  expiry = (if (in_ExpiresAt i' =? "")%string then None else ParseRFC3339 (in_ExpiresAt i')).
Proof.
  unfold normalize, invalid. set (j := normalized i). clearbody j.
  destruct (negb (fields_valid j)); [done |]. destruct (negb (host_valid _)); [done |].
  destruct (contains_any _ _ || _); [done |]. destruct (negb (slices_contains _ (in_Status j))) eqn:Es; [done |].
  apply negb_false_iff, slices_contains_true in Es.
  destruct (in_ClearAuth j && _); [done |]. destruct (in_ExpiresAt j =? "")%string eqn:Ee.
  - intros H. injection H as <- <-. by rewrite Ee.
  - destruct (ParseRFC3339 (in_ExpiresAt j)) eqn:Ep; [| done]. intros H. injection H as <- <-. by rewrite Ee, Ep.
Qed.

(** A save inserts a new row at revision 1, or replaces a row under the next one;
    the probe is gone and the status is not active. *)
Definition reset_row (r : ProxyRow) : Prop :=
  px_Probe r = None /\ px_Token r = None /\ px_Until r = None /\ px_Status r <> "active".

Lemma save_base_spec u id i now db base old status : save_base sv u id i now db = Ok (base, old, status) ->
  status <> "active" /\ match base with
    | None => id = ""
    | Some (key, r) => pg_uuid id = Some key /\ eg_Proxies db !! key = Some r /\ px_Revision r = in_Revision i
    end.
Proof.
  unfold save_base. destruct (id =? "")%string eqn:Eid; intros Hb.
  - destruct (negb (in_Revision i =? 0)); [done |]. injection Hb as <- <- <-. by bool_norm.
  - destruct (uuid_parse id); [| done]. apply mbind_ok in Hb as (row & Hs & Hb). apply mbind_ok in Hb as (p & Hp & Hb).
    destruct (negb (in_Revision i =? ep_Revision p)) eqn:Er; [done |]. bool_norm.
    apply mbind_ok in Hb as (c & _ & Hb). injection Hb as <- <- <-. split; [by destruct (_ =? _)%string |].
    apply scan_spec in Hp as (key & r & c' & -> & _ & ->). apply select_spec in Hs as (key' & Hk & Hr).
    by destruct (Hr _ _ eq_refl) as (-> & Hl & _).
Qed.

Lemma saved_status i status : in_Status i ∈ [""; "pending"; "off"] -> status <> "active" ->
  (if (in_Status i =? "")%string then status else in_Status i) <> "active".
Proof.
  intros Hst Hs. destruct (_ =? _)%string; [done |]. intros E. rewrite E, !elem_of_cons, elem_of_nil in Hst.
  by destruct Hst as [? | [? | [? | []]]].
Qed.

Lemma save_body_spec u id drawn nonce i expiry now db target db' :
  in_Status i ∈ [""; "pending"; "off"] -> save_body sv u id drawn nonce i expiry now db = Ok (target, db') ->
  exists key r', eg_Proxies db' = <[key := r']> (eg_Proxies db) /\ reset_row r' /\
    ((id = "" /\ pg_uuid drawn = Some key /\ eg_Proxies db !! key = None /\ px_Revision r' = 1) \/
     (exists r, pg_uuid id = Some key /\ eg_Proxies db !! key = Some r /\ px_Revision r = in_Revision i /\
        px_OrganizationID r' = px_OrganizationID r /\ px_Revision r' = px_Revision r + 1)).
Proof.
  intros Hst H. unfold save_body in H. apply mbind_ok in H as ([[base old] status] & Hb & H).
  apply save_base_spec in Hb as [Hs Hbase]. apply (saved_status i) in Hs; [| done].
  destruct (negb (validCredentials _)); [done |]. revert H Hs. generalize (if (in_Status i =? "")%string then status else in_Status i).
  intros st H Hs. destruct base as [[key r] |].
  - destruct Hbase as (Hk & Hl & Hr). destruct (negb (px_Revision r =? 0)); [| done].
    apply mbind_ok in H as (db1 & Hw & H). injection H as _ <-. apply write_row_spec in Hw as [-> _].
    eexists key, _. split; [done |]. split; [done |]. right. by exists r.
  - subst id. simpl in H. destruct (pg_uuid drawn) as [key |], (pg_uuid (sv_StationID sv)) as [station |], (pg_uuid (ic_OrganizationID u)) as [org |]; try done.
    apply mbind_ok in H as (db1 & Hw & H). injection H as _ <-. apply write_row_spec in Hw as [-> Hf].
    eexists key, _. split; [done |]. split; [done |]. left. by split_and!; try apply Hf.
Qed.

Lemma delete_body_spec u id now db db' : delete_body sv u id now db = Ok db' ->
  exists key r, pg_uuid id = Some key /\ eg_Proxies db !! key = Some r /\ owned sv (ic_OrganizationID u) r = true /\
    px_AssignedApps r = [] /\ unleased_at r now /\ eg_Proxies db' = delete key (eg_Proxies db).
Proof.
  unfold delete_body. intros H. apply mbind_ok in H as (row & Hs & H). apply mbind_ok in H as (p & Hp & H).
  apply scan_spec in Hp as (key & r & c & -> & _ & ->). apply select_spec in Hs as (key' & Hk & Hr).
  destruct (Hr _ _ eq_refl) as (-> & Hl & Ho). destruct (_ || _) eqn:E; [done |]. rewrite Hk in H. injection H as <-.
  simpl in E. bool_norm. exists key', r. split_and!; try done. unfold unleased_at. destruct (px_Until r); [by bool_norm | done].
Qed.
End Steps.
