(* ===== verification/EgressSafety.v ===== *)
(** * What the interleaving of probes and edits preserves

    Invariants of the worlds reachable by [EgressSteps.step]: a recorded probe was
    measured on the very endpoint and credentials stored beside it, an active proxy
    passed its probe, and at most four tests hold a slot, each with a lease of its
    own. *)
From stdpp Require Import sorting.
From Stdlib Require Import Ascii SpecFloat.
From S2P Require Import Prelude GoStd Sha256 GoJson GoText Uuid Identity StrictJson Egress Probe ProbeFacts EgressService EgressSteps.
From Stdlib Require Import Ascii.
#[local] Open Scope Z_scope.

Definition same_endpoint (p : Endpoint) (r : ProxyRow) : Prop :=
  ep_Protocol p = px_Protocol r /\ ep_Host p = px_Host r /\ ep_Port p = px_Port r /\ ep_credentials p = px_Credentials r.
(** The columns a revision fixes. *)
Definition same_core (r r' : ProxyRow) : Prop :=
  px_Protocol r = px_Protocol r' /\ px_Host r = px_Host r' /\ px_Port r = px_Port r' /\
  px_Credentials r = px_Credentials r' /\ px_OrganizationID r = px_OrganizationID r' /\ px_Revision r = px_Revision r'.
Definition follows (r r' : ProxyRow) : Prop := px_Revision r < px_Revision r' \/ same_core r r'.

Section Safety.
Context {N : UnicodeLib} {U : UuidLib} {J : JsonLib} {P : PgLib} {D : ProbeCodecs}.
Variable sv : Service.

(** [res] is what the prober reported of the stored endpoint, run with the stored
    credentials, at the stored revision. *)
Definition measured (key : string) (r : ProxyRow) (res : Result) : Prop :=
  exists p c env org id,
    res = Run (sv_Prober sv) env p c /\ pg_uuid id = Some key /\ pg_uuid org = Some (px_OrganizationID r) /\
    unseal (sv_cipher sv) (px_Credentials r) (aad sv org id) = Ok c /\ ep_Revision p = px_Revision r /\ same_endpoint p r.

Record row_wf (key : string) (r : ProxyRow) : Prop := {
  rw_revision : 1 <= px_Revision r;
  rw_measured : forall res, px_Probe r = Some res -> measured key r res;
  rw_active : px_Status r = "active" -> exists res, px_Probe r = Some res /\ rs_Status res = "passed" }.

Definition test_wf (db : EgressDB) (drawn : gset string) (t : TestRun) : Prop :=
  exists key, pg_uuid (ts_ID t) = Some key /\ key ∈ drawn /\
  forall r, eg_Proxies db !! key = Some r ->
    ep_Revision (ts_Endpoint t) <= px_Revision r /\
    (ep_Revision (ts_Endpoint t) = px_Revision r -> same_endpoint (ts_Endpoint t) r).

Record data_wf (db : EgressDB) (drawn : gset string) (tests : gmap nat TestRun) : Prop := {
  dw_rows : forall key r, eg_Proxies db !! key = Some r -> key ∈ drawn /\ row_wf key r;
  dw_tests : forall i t, tests !! i = Some t -> test_wf db drawn t }.

Record slots_wf (w : world) : Prop := {
  sw_tokens : forall i t k, w_tests w !! i = Some t -> holds_token t = Some k -> k ∈ w_drawn w;
  sw_distinct : forall i j t t' k, w_tests w !! i = Some t -> w_tests w !! j = Some t' ->
    holds_token t = Some k -> holds_token t' = Some k -> i = j;
  sw_slots : (slots_used w <= slot_count)%nat }.

(** ** Rows *)

Lemma same_core_measured key r r' res : same_core r r' -> measured key r res -> measured key r' res.
Proof.
  intros (H1 & H2 & H3 & H4 & H5 & H6) (p & c & env & org & id & Hr & Hid & Ho & Hu & Hv & Hs1 & Hs2 & Hs3 & Hs4).
  exists p, c, env, org, id. unfold same_endpoint. rewrite <- H1, <- H2, <- H3, <- H4, <- H5, <- H6. done.
Qed.

Lemma follows_test t r r' : follows r r' ->
  ep_Revision (ts_Endpoint t) <= px_Revision r /\ (ep_Revision (ts_Endpoint t) = px_Revision r -> same_endpoint (ts_Endpoint t) r) ->
  ep_Revision (ts_Endpoint t) <= px_Revision r' /\ (ep_Revision (ts_Endpoint t) = px_Revision r' -> same_endpoint (ts_Endpoint t) r').
Proof.
  intros [Hlt | (H1 & H2 & H3 & H4 & H5 & H6)] [Hle Heq]; [split; [lia | intros; lia] |].
  unfold same_endpoint. rewrite <- H1, <- H2, <- H3, <- H4, <- H6. done.
Qed.

(** One row is written: a new identifier, or a row that follows the old one. *)
Lemma data_insert db db' drawn drawn' tests key r' :
  data_wf db drawn tests -> eg_Proxies db' = <[key := r']> (eg_Proxies db) -> drawn ⊆ drawn' -> key ∈ drawn' ->
  row_wf key r' -> (key ∉ drawn \/ exists r, eg_Proxies db !! key = Some r /\ follows r r') ->
  data_wf db' drawn' tests.
Proof.
  intros [Hr Ht] Hdb Hsub Hin Hwf Hcase. split.
  - intros k r. rewrite Hdb, lookup_insert_Some. intros [[<- <-] | [_ Hl]]; [done |].
    destruct (Hr _ _ Hl). split; [set_solver | done].
  - intros i t Hi. destruct (Ht _ _ Hi) as (k & Hk & Hkd & Hrow). exists k. split; [done |]. split; [set_solver |].
    intros r. rewrite Hdb, lookup_insert_Some. intros [[<- <-] | [_ Hl]]; [| by apply Hrow].
    destruct Hcase as [Hno | (r0 & Hl & Hf)]; [done |]. eapply follows_test; [done |]. by apply Hrow.
Qed.

Lemma data_grow db drawn drawn' tests : data_wf db drawn tests -> drawn ⊆ drawn' -> data_wf db drawn' tests.
Proof.
  intros [Hr Ht] Hsub. split; [intros k r Hl; destruct (Hr _ _ Hl); split; [set_solver | done] |].
  intros i t Hi. destruct (Ht _ _ Hi) as (k & Hk & Hd & Hrow). exists k. split_and!; [done | set_solver | done].
Qed.

Lemma data_test db drawn tests i t : data_wf db drawn tests -> test_wf db drawn t -> data_wf db drawn (<[i := t]> tests).
Proof. intros [Hr Ht] Hw. split; [done |]. intros j t'. rewrite lookup_insert_Some. intros [[_ <-] | [_ ?]]; [done | eauto]. Qed.
Lemma data_untest db drawn tests i : data_wf db drawn tests -> data_wf db drawn (delete i tests).
Proof. intros [Hr Ht]. split; [done |]. intros j t'. rewrite lookup_delete_Some. intros [_ ?]. eauto. Qed.
Lemma data_phase db drawn tests i t ph : data_wf db drawn tests -> tests !! i = Some t -> data_wf db drawn (<[i := at_phase ph t]> tests).
Proof. intros H Hi. apply data_test; [done |]. by apply (dw_tests _ _ _ H i t). Qed.

(** An update that keeps the core and the probe keeps a row well formed. *)
Lemma row_wf_core key r r' : same_core r r' -> px_Probe r' = px_Probe r -> px_Status r' = px_Status r -> row_wf key r -> row_wf key r'.
Proof.
  intros Hc Hp Hs [H1 H2 H3]. split; [by destruct Hc as (_ & _ & _ & _ & _ & <-) | |].
  - intros res. rewrite Hp. intros Hr. eapply same_core_measured; eauto.
  - by rewrite Hs, Hp.
Qed.
Lemma row_wf_reset key r : 1 <= px_Revision r -> reset_row r -> row_wf key r.
Proof. intros H (Hp & _ & _ & Hs). split; [done | intros res; by rewrite Hp | done]. Qed.

(** ** Slots *)

Lemma slots_insert (tests : gmap nat TestRun) i t : (size (filter (fun it => holds_slot (snd it) = true) (<[i := t]> tests))
  <= size (filter (fun it => holds_slot (snd it) = true) tests) + 1)%nat.
Proof.
  rewrite map_filter_insert. destruct (decide _).
  - rewrite map_size_insert. case_match; unfold id; lia.
  - rewrite map_filter_delete. pose proof (map_size_delete i (filter (fun it => holds_slot (snd it) = true) tests)) as H.
    rewrite H. case_match; unfold id; lia.
Qed.
Lemma slots_phase (tests : gmap nat TestRun) i t ph : tests !! i = Some t -> holds_slot t = true -> holds_slot (at_phase ph t) = true ->
  size (filter (fun it => holds_slot (snd it) = true) (<[i := at_phase ph t]> tests)) = size (filter (fun it => holds_slot (snd it) = true) tests).
Proof.
  intros Hi Ht Hp. rewrite map_filter_insert_True by done. rewrite map_size_insert_Some; [done |].
  exists t. by apply map_lookup_filter_Some.
Qed.
Lemma slots_delete (tests : gmap nat TestRun) i :
  (size (filter (fun it => holds_slot (snd it) = true) (delete i tests)) <= size (filter (fun it => holds_slot (snd it) = true) tests))%nat.
Proof. rewrite map_filter_delete. rewrite map_size_delete. case_match; unfold id; lia. Qed.

(** Changing the phase of one test keeps the slots well formed when its token, if
    it has one, is its old one or a fresh one. *)
Lemma slots_wf_phase w w' i t ph : slots_wf w -> w_tests w !! i = Some t -> w_tests w' = <[i := at_phase ph t]> (w_tests w) ->
  w_drawn w ⊆ w_drawn w' -> (slots_used w' <= slot_count)%nat ->
  (forall k, holds_token (at_phase ph t) = Some k -> holds_token t = Some k \/ (k ∉ w_drawn w /\ k ∈ w_drawn w')) ->
  slots_wf w'.
Proof.
  intros [Hk Hd Hs] Hi Ht Hsub Hslots Htok. split; [| | done]; rewrite Ht.
  - intros j t' k. rewrite lookup_insert_Some. intros [[_ <-] | [_ Hj]] Hold.
    + destruct (Htok _ Hold) as [H | [_ H]]; [| done]. apply Hsub. eauto.
    + apply Hsub. eauto.
  - intros j1 j2 t1 t2 k. rewrite !lookup_insert_Some. intros [[<- <-] | [Hn1 H1]] [[<- <-] | [Hn2 H2]] Ho1 Ho2; [done | | | eauto].
    + destruct (Htok _ Ho1) as [H | [H _]]; [eauto | exfalso; apply H; eauto].
    + destruct (Htok _ Ho2) as [H | [H _]]; [eauto | exfalso; apply H; eauto].
Qed.

Lemma slots_wf_untest w w' i : slots_wf w -> w_tests w' = delete i (w_tests w) -> w_drawn w' = w_drawn w -> slots_wf w'.
Proof.
  intros [Hk Hd Hs] Ht Hdr. split; rewrite ?Ht, ?Hdr.
  - intros j t k. rewrite lookup_delete_Some. intros [_ ?]. eauto.
  - intros j1 j2 t1 t2 k. rewrite !lookup_delete_Some. intros [_ ?] [_ ?]. eauto.
  - unfold slots_used in *. rewrite Ht. pose proof (slots_delete (w_tests w) i). lia.
Qed.

Lemma slots_wf_drawn w w' : slots_wf w -> w_tests w' = w_tests w -> w_drawn w ⊆ w_drawn w' -> slots_wf w'.
Proof.
  intros [Hk Hd Hs] Ht Hsub. split; unfold slots_used in *; rewrite ?Ht; [| done | done].
  intros i t k Hi Ho. apply Hsub. eauto.
Qed.

(** ** Steps *)
Lemma step_slots w w' : step sv w w' -> slots_wf w -> slots_wf w'.
Proof.
  intros Hstep Hw. assert (Hs := sw_slots _ Hw). destruct Hstep.
  - eapply slots_wf_drawn; [done | done | set_solver].
  - eapply slots_wf_drawn; [done | done | set_solver].
  - eapply slots_wf_drawn; [done | done | set_solver].
  - destruct Hw as [Hk Hd _]. split; simpl.
    + intros j t k. rewrite lookup_insert_Some. intros [[_ <-] | [_ ?]]; [done | eauto].
    + intros j1 j2 t1 t2 k. rewrite !lookup_insert_Some. intros [[<- <-] | [? ?]] [[<- <-] | [? ?]]; try done; eauto.
    + unfold slots_used in *. simpl. rewrite map_filter_insert_not'; [done | done |]. intros y. by rewrite H.
  - eapply slots_wf_phase; [done | done | done | done | | done].
    unfold slots_used in *. simpl. pose proof (slots_insert (w_tests w) i (at_phase PSlot t)). unfold slot_count in *. lia.
  - eapply (slots_wf_phase w _ i t (PLeased token)); [done | done | done | set_solver | | ].
    + unfold slots_used in *. simpl. rewrite slots_phase; [done | done | unfold holds_slot; by rewrite H0 | done].
    + intros k [= <-]. right. destruct H1. split; [done | set_solver].
  - eapply (slots_wf_phase w _ i t (PDone token)); [done | done | done | done | |].
    + unfold slots_used in *. simpl. rewrite slots_phase; [done | done | unfold holds_slot; by rewrite H0 | done].
    + intros k [= <-]. left. unfold holds_token. by rewrite H0.
  - eapply (slots_wf_phase w _ i t (PDone token)); [done | done | done | done | |].
    + unfold slots_used in *. simpl. rewrite slots_phase; [done | done | unfold holds_slot; by rewrite H0 | done].
    + intros k [= <-]. left. unfold holds_token. by rewrite H0.
  - by eapply slots_wf_untest.
  - by eapply slots_wf_untest.
Qed.

Definition world_data (w : world) : Prop := data_wf (w_db w) (w_drawn w) (w_tests w).

Lemma set_proxies_eq x db : eg_Proxies (set_proxies x db) = x.
Proof. done. Qed.

(** Saves: a new row at a new identifier, or the next revision. *)
Lemma save_data w u id drawn nonce i i' expiry now target db' :
  fresh drawn w -> normalize i = Ok (i', expiry) -> save_body sv u id drawn nonce i' expiry now (w_db w) = Ok (target, db') ->
  world_data w -> data_wf db' ({[ drawn ]} ∪ w_drawn w) (w_tests w).
Proof.
  intros [Hno Hcan] Hn Hs Hw. apply normalize_status in Hn as (_ & Hst & _).
  destruct (save_body_spec sv _ _ _ _ _ _ _ _ _ _ Hst Hs) as (key & r' & Hdb & Hreset & [(-> & Hk & Hfree & Hrev) | (r & Hk & Hl & _ & _ & Hrev)]).
  - rewrite Hcan in Hk. injection Hk as <-. eapply data_insert; [done | done | set_solver | set_solver | | by left].
    apply row_wf_reset; [lia | done].
  - destruct (dw_rows _ _ _ Hw _ _ Hl) as [Hin Hwf]. pose proof (rw_revision _ _ Hwf).
    eapply data_insert; [done | done | set_solver | set_solver | apply row_wf_reset; [lia | done] |].
    right. exists r. split; [done |]. left. lia.
Qed.

(** Rows rewritten in place, each keeping its core, its probe and its status. *)
Lemma touched_data db db' drawn tests : data_wf db drawn tests ->
  (forall k r', eg_Proxies db' !! k = Some r' -> exists r, eg_Proxies db !! k = Some r /\ same_core r r' /\
     px_Probe r' = px_Probe r /\ px_Status r' = px_Status r) ->
  data_wf db' drawn tests.
Proof.
  intros [Hr Ht] Hback. split.
  - intros k r' Hl. destruct (Hback _ _ Hl) as (r & Hl0 & Hc & Hp & Hs). destruct (Hr _ _ Hl0). split; [done |].
    by eapply row_wf_core.
  - intros i t Hi. destruct (Ht _ _ Hi) as (k & Hk & Hd & Hrow). exists k. split_and!; [done | done |].
    intros r' Hl. destruct (Hback _ _ Hl) as (r & Hl0 & Hc & _). eapply follows_test; [by right |]. by apply Hrow.
Qed.

Lemma same_core_refl r : same_core r r.
Proof. done. Qed.

(** A read endpoint is one of the stored row. *)
Lemma read_data w u id p now ph : Get sv u id now true (w_db w) = Ok p -> world_data w ->
  test_wf (w_db w) (w_drawn w) (mkTest u id p ph).
Proof.
  intros Hg Hw. apply Get_spec in Hg as (_ & _ & _ & key & r & c & Hk & Hl & _ & _ & ->).
  exists key. split; [done |]. split; [by apply (dw_rows _ _ _ Hw key r) |]. simpl. intros r' Hl'. rewrite Hl in Hl'.
  injection Hl' as <-. done.
Qed.

(** A probe is written on the revision it was read at. *)
Lemma write_data w i t token c env now db' : w_tests w !! i = Some t ->
  unseal (sv_cipher sv) (ep_credentials (ts_Endpoint t)) (aad sv (ic_OrganizationID (ts_User t)) (ts_ID t)) = Ok c ->
  test_write sv (ts_User t) (ts_ID t) token (ts_Endpoint t) (Run (sv_Prober sv) env (ts_Endpoint t) c) now (w_db w) = Ok (true, db') ->
  world_data w -> data_wf db' (w_drawn w) (w_tests w).
Proof.
  intros Hi Hu Hwr Hw. apply update_row_spec in Hwr as (key & r & Hk & Hl & Ho & Hg & ->). bool_norm.
  destruct (dw_tests _ _ _ Hw _ _ Hi) as (key' & Hk' & Hd & Hrow). rewrite Hk in Hk'. injection Hk' as <-.
  destruct (Hrow _ Hl) as [_ Hsame]. assert (Hrev : ep_Revision (ts_Endpoint t) = px_Revision r) by done.
  specialize (Hsame Hrev) as (Hp & Hh & Hpt & Hc). destruct (dw_rows _ _ _ Hw _ _ Hl) as [_ [Hr1 _ _]].
  eapply data_insert; [done | by rewrite set_proxies_eq | done | done | | right; exists r; split; [done | by right]].
  split; simpl; [done | |].
  - intros res [= <-]. exists (ts_Endpoint t), c, env, (ic_OrganizationID (ts_User t)), (ts_ID t).
    unfold owned in Ho. bool_norm. cbn [px_Credentials px_OrganizationID px_Revision probed]. rewrite <- Hc. split_and!; done.
  - unfold probe_status. destruct (_ =? _)%string eqn:E; [| done]. intros _. bool_norm. eauto.
Qed.

Lemma step_data w w' : step sv w w' -> world_data w -> world_data w'.
Proof.
  intros Hstep Hw. destruct Hstep; unfold world_data; simpl.
  - eapply save_data; eauto.
  - apply delete_body_spec in H0 as (key & r & _ & _ & _ & _ & _ & Hdb). eapply touched_data; [exact Hw |].
    intros k r'. rewrite Hdb, lookup_delete_Some. intros [_ Hl]. by exists r'.
  - eapply touched_data; [exact Hw |]. intros k r'. simpl. rewrite lookup_alter_Some. intros [(-> & r & Hl & ->) | [_ Hl]].
    + by exists r.
    + by exists r'.
  - apply data_test; [done |]. by eapply read_data.
  - by apply data_phase.
  - apply (data_grow _ (w_drawn w)); [| set_solver]. apply update_row_spec in H2 as (key & r & Hk & Hl & Ho & Hg & ->).
    apply data_phase; [| done]. eapply touched_data; [exact Hw |]. intros k r'. simpl. rewrite lookup_insert_Some.
    intros [[<- <-] | [_ ?]]; [by exists r | by exists r'].
  - apply data_phase; [| done]. by eapply write_data.
  - by apply data_phase.
  - apply data_untest. destruct H1 as [-> | ->]; [| done]. eapply touched_data; [exact Hw |]. unfold test_release.
    destruct (pg_uuid (ts_ID t)); [| intros k r1 ?; by exists r1]. intros k r'. simpl. rewrite lookup_alter_Some. intros [(-> & r & Hl & ->) | [_ Hl]].
    + exists r. by case_bool_decide.
    + by exists r'.
  - by apply data_untest.
Qed.

Lemma egress_reachable_wf w : reachable sv w -> world_data w /\ slots_wf w.
Proof.
  intros (w0 & [Hp Ht] & Hs).
  assert (H0 : world_data w0 /\ slots_wf w0).
  { split.
    - split; [intros k r; by rewrite Hp | intros i t; by rewrite Ht].
    - split; unfold slots_used; rewrite ?Ht; [done | done |]. rewrite map_filter_empty, map_size_empty. unfold slot_count. lia. }
  clear Hp Ht. induction Hs as [w | w w1 w2 Hst _ IH]; [done |]. apply IH. destruct H0. split; [by eapply step_data | by eapply step_slots].
Qed.

(** ** Theorems *)

Lemma passed_transport p env e c : rs_Status (Run p env e c) = "passed" ->
  exists t, transport p e c (pe_Resolved env) = Ok t.
Proof. unfold Run. destruct (transport p e c (pe_Resolved env)); [eauto | done]. Qed.

Lemma measured_passed key r res : measured key r res -> rs_Status res = "passed" ->
  exists e env first rest, pe_Resolved env = Ok (first :: rest) /\ same_endpoint e r /\
    Forall (admitted (sv_Prober sv) e) (first :: rest).
Proof.
  intros (p & c & env & org & id & -> & _ & _ & _ & _ & Hsame) Hp. apply passed_transport in Hp as [t Ht].
  apply transport_admitted in Ht as (first & rest & Hr & Hf & _). by exists p, env, first, rest.
Qed.

(** C19: however edits, deletions, assignments and any number of tests interleave, a
    probe stored with a proxy is what the prober reported of the very endpoint and
    credentials stored there, run at the stored revision; and a proxy is active only
    if that probe passed, which means that its host resolved to admitted addresses
    only. An edit therefore always takes a proxy out of the active state. *)
Theorem active_proxy_passed_its_probe w key r : reachable sv w -> eg_Proxies (w_db w) !! key = Some r ->
  (forall res, px_Probe r = Some res -> measured key r res) /\
  (px_Status r = "active" -> exists res, px_Probe r = Some res /\ rs_Status res = "passed" /\
     exists e env first rest, pe_Resolved env = Ok (first :: rest) /\ same_endpoint e r /\
       Forall (admitted (sv_Prober sv) e) (first :: rest)).
Proof.
  intros Hw Hl. apply egress_reachable_wf in Hw as [Hd _]. destruct (dw_rows _ _ _ Hd _ _ Hl) as [_ [_ Hm Ha]].
  split; [done |]. intros Hact. destruct (Ha Hact) as (res & Hp & Hs). exists res. split_and!; [done | done |].
  eapply measured_passed; eauto.
Qed.

(** At most four tests probe at a time, whatever the order in which calls start,
    fail and end, and no two of them ever hold the same lease: of all the tests in
    flight at most one can still write its result to a given proxy. *)
Theorem probes_are_bounded_and_exclusive w : reachable sv w ->
  (slots_used w <= slot_count)%nat /\
  forall token i j t t', w_tests w !! i = Some t -> w_tests w !! j = Some t' ->
    ts_Phase t = PLeased token -> ts_Phase t' = PLeased token -> i = j.
Proof.
  intros Hw. apply egress_reachable_wf in Hw as [_ [Hk Hd Hs]]. split; [done |]. intros token i j t t' Hi Hj Ht Ht'.
  eapply (Hd i j t t' token); [done | done | unfold holds_token; by rewrite Ht | unfold holds_token; by rewrite Ht'].
Qed.

(** Rows survive a change of the surroundings. *)
Definition keeps_rows (f : EgressDB -> EgressDB) : Prop := forall db, eg_Proxies (f db) = eg_Proxies db.

(** A test that answers without an error has recorded its own probe, whatever
    happened to the proxy before its lease and while it was probing: the answer
    shows the revision the test had read, the result of its own run with the
    credentials it had read, the status that result decides, and no lease. *)
Theorem test_answers_its_own_probe u id env db db' e :
  Test sv u id env db = (db', Ok e) -> keeps_rows (te_After env) ->
  exists p c, Get sv u id (fst (te_Read env)) (snd (te_Read env)) db = Ok p /\ disabled p (te_Now env) = false /\
    unseal (sv_cipher sv) (ep_credentials p) (aad sv (ic_OrganizationID u) id) = Ok c /\
    ep_ID e = ep_ID p /\ ep_Revision e = ep_Revision p /\
    ep_Probe e = Some (Run (sv_Prober sv) (te_Probe env) p c) /\
    ep_Status e = probe_status (Run (sv_Prober sv) (te_Probe env) p c) /\ ep_Testing e = false.
Proof.
  unfold Test. destruct (Get sv u id _ _ db) as [p | f] eqn:Eg; [| done]. destruct (disabled p _) eqn:Ed; [done |].
  destruct (negb (te_Free env)); [done |]. destruct (negb (snd (te_Lease env))); [done |].
  destruct (test_lease sv u id _ p _ _) as [[[|] db1] | f] eqn:El; try done. unfold test_leased.
  destruct (unseal (sv_cipher sv) (ep_credentials p) _) as [c | f] eqn:Eu; [| done].
  destruct (te_Done env || _); [done |].
  destruct (test_write sv u id _ p _ _ _) as [[[|] db2] | f] eqn:Ew; try done. simpl.
  destruct (Get sv u id _ _ (te_After env db2)) as [e' | f] eqn:Er; [| done]. intros H Hkeep. injection H as _ <-.
  exists p, c. split; [done |]. split; [done |]. split; [done |].
  apply Get_spec in Eg as (_ & _ & _ & key & r & c0 & Hk & _ & _ & _ & ->).
  apply update_row_spec in Ew as (key' & r' & Hk' & Hl & Ho & Hg & ->). bool_norm.
  apply Get_spec in Er as (_ & _ & _ & key2 & r2 & c2 & Hk2 & Hl2 & _ & _ & ->).
  rewrite Hkeep, Hk in *. injection Hk' as <-. injection Hk2 as <-. simpl in Hl2. rewrite lookup_insert_eq in Hl2. injection Hl2 as <-.
  simpl in *. by split_and!.
Qed.

(** What [save_body] puts in the row, given what the transaction read. *)
Definition saved_row (i : Input) (status sealed : string) (expiry : option Time) (r : ProxyRow) : Prop :=
  px_Name r = in_Name i /\ px_Protocol r = in_Protocol i /\ px_Host r = in_Host i /\ px_Port r = in_Port i /\
  px_Tag r = in_Tag i /\ px_Note r = in_Note i /\ px_ExpiresAt r = stored_expiry expiry /\ px_Status r = status /\
  px_Credentials r = sealed /\ px_Probe r = None /\ px_Until r = None.

Lemma save_body_row u id drawn nonce i expiry now db target db' :
  save_body sv u id drawn nonce i expiry now db = Ok (target, db') ->
  exists base old status key r', save_base sv u id i now db = Ok (base, old, status) /\
    target = (if (id =? "")%string then drawn else id) /\ pg_uuid target = Some key /\
    eg_Proxies db' = <[key := r']> (eg_Proxies db) /\ validCredentials (merge_credentials i old) = true /\
    saved_row i (if (in_Status i =? "")%string then status else in_Status i)
      (seal (sv_cipher sv) nonce (merge_credentials i old) (aad sv (ic_OrganizationID u) target)) expiry r' /\
    px_Revision r' = match base with Some (_, r) => px_Revision r + 1 | None => 1 end.
Proof.
  intros H. unfold save_body in H. apply mbind_ok in H as ([[base old] status] & Hb & H).
  pose proof (save_base_spec sv _ _ _ _ _ _ _ _ Hb) as [_ Hbase].
  destruct (negb (validCredentials _)) eqn:Ev; [done |]. apply negb_false_iff in Ev. destruct base as [[key r] |].
  - destruct Hbase as (Hk & _ & _). destruct (negb (px_Revision r =? 0)); [| done].
    apply mbind_ok in H as (db1 & Hw & H). injection H as <- <-. apply write_row_spec in Hw as [-> _].
    assert (Hid : (id =? "")%string = false).
    { unfold save_base in Hb. destruct (id =? "")%string; [| done]. by destruct (negb (in_Revision i =? 0)). }
    rewrite Hid. eexists _, old, status, key, _. split_and!; done.
  - subst id. simpl in H. destruct (pg_uuid drawn) as [key |] eqn:Ek, (pg_uuid (sv_StationID sv)), (pg_uuid (ic_OrganizationID u)); try done.
    apply mbind_ok in H as (db1 & Hw & H). injection H as <- <-. apply write_row_spec in Hw as [-> _].
    simpl. eexists None, old, status, key, _. split_and!; done.
Qed.

(** A save that answers without an error shows what was saved: every field as
    normalized, the next revision (the first for a new proxy), no probe and no lease,
    the credentials merged from the stored ones and sealed for this proxy; and a save
    that names another revision than the stored one conflicts and changes nothing, so
    of two edits of one revision at most one takes effect. *)
Theorem save_is_optimistic_and_reads_back u id drawn nonce i now during db db' e :
  Save sv u id drawn nonce i now true true during db = (db', Ok e) -> keeps_rows during ->
  exists i' expiry base old status, normalize i = Ok (i', expiry) /\
    save_base sv u id i' now db = Ok (base, old, status) /\
    ep_Name e = in_Name i' /\ ep_Protocol e = in_Protocol i' /\ ep_Host e = in_Host i' /\ ep_Port e = in_Port i' /\
    ep_Tag e = in_Tag i' /\ ep_Note e = in_Note i' /\ ep_ExpiresAt e = stored_expiry expiry /\
    ep_Status e = (if (in_Status i' =? "")%string then status else in_Status i') /\ ep_Status e <> "active" /\
    ep_Revision e = (if (id =? "")%string then 1 else in_Revision i' + 1) /\ ep_Probe e = None /\ ep_Testing e = false /\
    ep_credentials e = seal (sv_cipher sv) nonce (merge_credentials i' old)
                         (aad sv (ic_OrganizationID u) (if (id =? "")%string then drawn else id)) /\
    forall j j' expiry', normalize j = Ok (j', expiry') -> id <> "" -> in_Revision j' <> ep_Revision e - 1 ->
      Save sv u id drawn nonce j now true true during db = (db, Err ErrConflict).
Proof.
  unfold Save. destruct (authorize u (sv_StationID sv)) as [[] | f] eqn:Ea; [| done].
  destruct (normalize i) as [[i' expiry] | f] eqn:En; [| done]. simpl.
  destruct (save_body sv u id drawn nonce i' expiry now db) as [[target db1] | f] eqn:Es; [| done].
  intros H Hkeep. injection H as <- Hget.
  pose proof (normalize_status _ _ _ En) as (_ & Hst & _).
  destruct (save_body_row _ _ _ _ _ _ _ _ _ _ Es) as (base & old & status & key & r' & Hb & Ht & Hk & Hdb & _ & Hrow & Hrev).
  pose proof (save_base_spec sv _ _ _ _ _ _ _ _ Hb) as [Hact Hbase].
  apply Get_spec in Hget as (_ & _ & _ & key2 & r2 & c2 & Hk2 & Hl2 & _ & _ & ->).
  rewrite Hkeep, Hdb in Hl2. rewrite Hk in Hk2. injection Hk2 as <-. rewrite lookup_insert_eq in Hl2. injection Hl2 as <-.
  destruct Hrow as (H1 & H2 & H3 & H4 & H5 & H6 & H7 & H8 & H9 & H10 & H11). rewrite Ht in H9.
  assert (Hrevision : px_Revision r' = (if (id =? "")%string then 1 else in_Revision i' + 1)).
  { rewrite Hrev. unfold save_base in Hb. destruct (id =? "")%string eqn:Eid.
    - destruct (negb (in_Revision i' =? 0)); [done |]. by injection Hb as <- _ _.
    - destruct base as [[k r] |]; [by destruct Hbase as (_ & _ & ->) |]. by rewrite Hbase in Eid. }
  exists i', expiry, base, old, status. simpl. rewrite H11. split_and!; try done.
  { rewrite H8. by apply saved_status. }
  intros j j' expiry' -> Hid Hne. rewrite Hrevision in Hne. apply String.eqb_neq in Hid. rewrite Hid in Hne. unfold save_body.
  assert (Hconf : save_base sv u id j' now db = Err ErrConflict).
  { unfold save_base in *. rewrite Hid in *. destruct (uuid_parse id); [| done].
    apply mbind_ok in Hb as (row & -> & Hb). simpl. apply mbind_ok in Hb as (p & -> & Hb). simpl.
    destruct (negb (in_Revision i' =? ep_Revision p)) eqn:E; [done |]. bool_norm.
    destruct (in_Revision j' =? ep_Revision p) eqn:Ej; [bool_norm; lia | done]. }
  by rewrite Hconf.
Qed.

(** The associated data of a sealed box is the identifier as [Save] was given it,
    while [scan] opens it under the identifier of the row: a proxy that is addressed
    by another spelling of its identifier can be read, but neither edited nor tested. *)
Theorem respelled_id_is_readable_only u id key p db drawn nonce i expiry now :
  (forall box c, unseal (sv_cipher sv) box (aad sv (ic_OrganizationID u) key) = Ok c ->
     unseal (sv_cipher sv) box (aad sv (ic_OrganizationID u) id) = Err ErrServer) ->
  pg_uuid id = Some key -> id <> "" -> Get sv u id now true db = Ok p ->
  unseal (sv_cipher sv) (ep_credentials p) (aad sv (ic_OrganizationID u) id) = Err ErrServer /\
  (in_Revision i = ep_Revision p -> save_body sv u id drawn nonce i expiry now db = Err ErrServer).
Proof.
  intros Hauth Hid Hne Hg. pose proof Hg as Hget.
  apply Get_spec in Hg as (_ & _ & [parsed Hparsed] & key' & r & c & Hk & Hl & Ho & Hu & ->).
  rewrite Hid in Hk. injection Hk as <-. pose proof (Hauth _ _ Hu) as Hopen. split; [exact Hopen |].
  intros Hrev. unfold save_body, save_base. apply String.eqb_neq in Hne. rewrite Hne, Hparsed.
  unfold Get in Hget. apply mbind_ok in Hget as (_ & _ & Hget). rewrite Hparsed in Hget. simpl in Hget.
  apply mbind_ok in Hget as (row & -> & Hget). simpl. rewrite Hget. simpl. rewrite Hrev, Z.eqb_refl. simpl in *. by rewrite Hopen.
Qed.
End Safety.

(** ** A proxy from its creation to an active state

    Concrete inputs of the theorems of [ProbeFacts] and [EgressSafety]: one
    administrator saves a proxy, tests it through three successful samples, and
    edits it again. *)

Module EgressSample.
Import CanonicalUuid.
#[export] Existing Instance CanonicalUuid.lib.
#[export] Instance ascii_case : UnicodeLib := {| unicode_lower s := s; unicode_upper s := s; unicode_fold s := s |}.
#[export] Instance canonical_pg : PgLib := fun s => uuid_text <$> CanonicalUuid.parse s.
Definition secret : Credentials := mkCredentials "user" "pass".
#[export] Instance two_texts : JsonLib := {|
  json_tokens s := if (s =? marshal (credentials_json secret))%string
                   then Some (RObject [("Username", RString "user"); ("Password", RString "pass")]) else Some (RObject []);
  parses_float _ := true |}.
#[export] Instance raw_ip : ProbeCodecs := {|
  decode_ip s := Some s; decode_query _ := None; decode_geo _ := None; decode_info _ := None; decode_type _ := None |}.

(** A cipher that writes the additional data before the text. *)
Definition plain_cipher : Aead := mkAead 1 (fun _ text aad => aad +:+ "|" +:+ text)
  (fun _ box aad => if has_prefix box (aad +:+ "|") then Some (drop_str (String.length (aad +:+ "|")) box) else None).

Definition station : string := "11111111-1111-4111-8111-111111111111".
Definition org : string := "22222222-2222-4222-8222-222222222222".
Definition proxy : string := "33333333-3333-7333-8333-333333333333".
Definition lease_token : string := "44444444-4444-7444-8444-444444444444".
Definition unused : string := "55555555-5555-7555-8555-555555555555".
Definition sv : Service := mkEgress station plain_cipher (default (mkProber ∅ "" "" "" "" "") (NewProber "")).
Definition user : IdentityContext :=
  mkContext "request" station "session" "user" "admin" org "Org" ["admin"] ["app:manage"] 0 0 0 1.
Definition input : Input :=
  mkInput " Exit " "HTTP" "93.184.216.34" 8080 (Some "user") (Some "pass") false "" "" "" "" 0.
Definition db0 : EgressDB := mkEgressDB ∅ {[ station ]} {[ org ]} [].
Definition round (ms : Z) : Round := mkRound 0 (ms * 1000000) (Response 200 (Ok "93.184.216.34")) false.
Definition gone : Time * Answer := (0, Refused (plain "gone")).
Definition env : ProbeEnv :=
  mkEnv 0 (Ok [V4 (v4 93 184 216 34)]) 0 (fun i => round (10 * (Z.of_nat i + 1))) false gone gone gone gone (snd gone) 1.
Definition now : Time := 63000000000 * second.

(** The same call as a whole. *)
Definition test_env : TestEnv :=
  mkTestEnv (now, true) now true (fun db => db) lease_token (now, true) (fun db => db) env false (now, true)
    (fun db => db) (now, true) true (fun db => db).

Definition ok_db {A} (r : result EgressError (A * EgressDB)) (db : EgressDB) : EgressDB :=
  match r with Ok (_, db') => db' | Err _ => db end.
Definition normal : Input := Eval vm_compute in normalized input.
Definition db1 : EgressDB := Eval vm_compute in ok_db (save_body sv user "" proxy "n" normal None now db0) db0.
Definition read : Endpoint := Eval vm_compute in
  match Get sv user proxy now true db1 with Ok p => p | Err _ => mkEndpoint "" "" "" "" 0 "" "" "" None false [] 0 None false 0 "" end.
Definition db2 : EgressDB := Eval vm_compute in ok_db (test_lease sv user proxy lease_token read now db1) db1.
Definition measured_result : Result := Run (sv_Prober sv) env read secret.
Definition db3 : EgressDB := Eval vm_compute in ok_db (test_write sv user proxy lease_token read measured_result now db2) db2.
Definition t0 : TestRun := mkTest user proxy read PRead.
Definition w0 : world := mkWorld db0 ∅ ∅.
Definition w1 : world := drawing proxy (with_db db1 w0).
Definition w2 : world := with_test 0 t0 w1.
Definition w3 : world := with_test 0 (at_phase PSlot t0) w2.
Definition w4 : world := drawing lease_token (with_test 0 (at_phase (PLeased lease_token) (at_phase PSlot t0)) (with_db db2 w3)).
Definition w5 : world := with_test 0 (at_phase (PDone lease_token) (at_phase (PLeased lease_token) (at_phase PSlot t0))) (with_db db3 w4).

Lemma steps5 : rtc (step sv) w0 w5.
Proof.
  apply rtc_l with w1.
  { apply (step_save sv w0 user "" proxy "n" input normal None now proxy db1); [split; by vm_compute | reflexivity | vm_compute; reflexivity ..]. }
  apply rtc_l with w2; [apply (step_read sv w1 0 user proxy read now now); by vm_compute |].
  apply rtc_l with w3; [apply (step_slot sv w2 0 t0); [by vm_compute | by vm_compute | vm_compute; lia] |].
  apply rtc_l with w4.
  { apply (step_lease sv w3 0 (at_phase PSlot t0) lease_token now db2); [vm_compute; reflexivity | done | split; by vm_compute | vm_compute; reflexivity]. }
  apply rtc_l with w5; [| apply rtc_refl].
  apply (step_write sv w4 0 (at_phase (PLeased lease_token) (at_phase PSlot t0)) lease_token secret env now db3); vm_compute; reflexivity.
Qed.
Lemma reach5 : reachable sv w5.
Proof. exists w0. split; [by split | apply steps5]. Qed.
Definition row5 : ProxyRow := Eval vm_compute in default (created "" "" normal "" "" "" None 0) (eg_Proxies db3 !! proxy).
End EgressSample.
Import EgressSample.

Lemma active_proxy_passed_its_probe_witness :
  px_Status row5 = "active"%string /\
  exists res, px_Probe row5 = Some res /\ rs_Status res = "passed"%string /\
    exists e env first rest, pe_Resolved env = Ok (first :: rest) /\ same_endpoint e row5 /\
      Forall (admitted (sv_Prober sv) e) (first :: rest).
Proof.
  split; [done |].
  exact (proj2 (active_proxy_passed_its_probe sv w5 proxy row5 reach5 ltac:(by vm_compute)) ltac:(by vm_compute)).
Defined.

Lemma probes_are_bounded_and_exclusive_witness :
  slots_used w5 = 1%nat /\ (slots_used w5 <= slot_count)%nat.
Proof. split; [by vm_compute |]. exact (proj1 (probes_are_bounded_and_exclusive sv w5 reach5)). Defined.

Lemma probe_summary_is_of_its_samples_witness :
  rs_MeanLatencyMS measured_result = 20 /\ rs_JitterMS measured_result = 20 /\ summary_of measured_result.
Proof.
  split; [by vm_compute |]. split; [by vm_compute |].
  apply (probe_summary_is_of_its_samples (sv_Prober sv) env read secret). intros i. simpl. lia.
Defined.

Lemma probe_connects_to_admitted_proxy_only_witness :
  exists t first rest, transport (sv_Prober sv) read secret (pe_Resolved env) = Ok t /\ pe_Resolved env = Ok (first :: rest) /\
    Forall (admitted (sv_Prober sv) read) (first :: rest).
Proof.
  destruct (probe_connects_to_admitted_proxy_only (sv_Prober sv) env read secret (mkSample 0 10 "93.184.216.34" "")) as (t & first & rest & H1 & H2 & H3 & _).
  - replace (successes _) with [mkSample 0 10 "93.184.216.34" ""; mkSample 0 20 "93.184.216.34" ""; mkSample 0 30 "93.184.216.34" ""]
      by (vm_compute; reflexivity). by left.
  - by exists t, first, rest.
Defined.

Definition answer_or {A} (d : A) (r : EgressDB * result EgressError A) : A := match snd r with Ok a => a | Err _ => d end.
Definition tested_db : EgressDB := Eval vm_compute in fst (Test sv user proxy test_env db1).
Definition tested : Endpoint := Eval vm_compute in answer_or read (Test sv user proxy test_env db1).
Lemma tested_ok : Test sv user proxy test_env db1 = (tested_db, Ok tested).
Proof. vm_compute. reflexivity. Qed.
Lemma test_answers_its_own_probe_witness :
  ep_Status tested = "active"%string /\ ep_Testing tested = false.
Proof.
  destruct (test_answers_its_own_probe sv user proxy test_env db1 tested_db tested tested_ok (fun _ => eq_refl)) as (p & c & _ & _ & _ & _ & _ & _ & _ & Hl).
  split; [reflexivity | exact Hl].
Defined.

Definition second_input : Input := mkInput "Exit 2" "http" "93.184.216.34" 8081 None None false "" "" "" "" 1.
Definition save_again : EgressDB * result EgressError Endpoint :=
  Save sv user proxy unused "n" second_input now true true (fun db => db) db3.
Definition saved_db : EgressDB := Eval vm_compute in fst save_again.
Definition saved : Endpoint := Eval vm_compute in answer_or read save_again.
Lemma saved_ok : save_again = (saved_db, Ok saved).
Proof. vm_compute. reflexivity. Qed.
Lemma save_is_optimistic_and_reads_back_witness :
  ep_Revision saved = 2 /\ ep_Probe saved = None /\ ep_Status saved <> "active"%string.
Proof.
  destruct (save_is_optimistic_and_reads_back sv user proxy unused "n" second_input now (fun db => db) db3 saved_db saved saved_ok (fun _ => eq_refl))
    as (i' & expiry & base & old & status & Hn & _ & _ & _ & _ & _ & _ & _ & _ & _ & Hact & Hrev & Hp & _).
  split; [reflexivity | split; [exact Hp | exact Hact]].
Defined.

(** An entry of the allowlist keeps the text of its port, so a padded port is
    accepted and never matches an endpoint. *)
Example padded_port_never_matches :
  (p ← NewProber "proxy.local:08080";
   Some (bool_decide (JoinHostPort "proxy.local" (format_int 8080) ∈ pb_AllowedInternal p))) = Some false.
Proof. vm_compute. reflexivity. Qed.
