(* ===== verification/Releases.v ===== *)
(** * Release material

    internal/operations/transition_releases.go, dashboard_releases.go,
    dashboard_transition.go ([ReadTransition], [dashboardTransitionSnapshot]) and
    dashboard_video_components.go: the operator's registries of immutable releases
    and the verification of every byte of a release against the digests it was
    registered with. A directory is a function from a reference to the bytes of the
    regular file it can read there; an ended context reads nothing. The documents
    are decoded by [StrictJson.Decode] through their codecs. *)
From S2P Require Import Prelude GoStd Sha256 GoJson Uuid OperationTypes Transitions Catalog StrictJson.
From Stdlib Require Import Ascii.

(** os.Root: what a reference reads as. *)
Definition Root := string -> option string.

(** ** Paths *)

(** [fs.ValidPath]. *)
Definition valid_element (e : string) : bool :=
  negb (e =? "")%string && negb (e =? ".")%string && negb (e =? "..")%string.
Definition valid_path (s : string) : bool :=
  utf8_valid s && ((s =? ".")%string || forallb valid_element (split_byte "/"%char s)).

Definition materialPath (ref : string) : bool :=
  (len ref <=? 512) && valid_path ref && negb (ref =? ".")%string
  && negb (contains ref "\") && negb (contains ref ":").

(** What precedes the last slash. *)
Fixpoint dir_prefix (s : string) : option string :=
  match s with
  | EmptyString => None
  | String c s' =>
      match dir_prefix s' with
      | Some d => Some (String c d)
      | None => if bool_decide (c = "/"%char) then Some "" else None
      end
  end.
(** [path.Join(path.Dir(ref), name)] for clean relative paths. *)
Definition sibling (ref name : string) : string :=
  match dir_prefix ref with Some d => d +:+ "/" +:+ name | None => name end.

Definition materialRead (root : Root) (ref : string) (maximum : Z) : option string :=
  if negb (materialPath ref) then None
  else raw ← root ref; if maximum <? len raw then None else Some raw.
Definition materialDigest (raw : string) : string := "sha256:" +:+ Sha256.hex_sum raw.

Definition MiB : Z := 1048576.

(** ** Documents *)
Record dashboardReleaseComponent := mkComponent { cp_Name : string; cp_Image : string; cp_ImageDigest : string }.
Record dashboardManifestImage := mkManifestImage { mi_Component : string; mi_Image : string }.
Record transitionReleaseEntry := mkTransitionEntry {
  te_Snapshot : TransitionSnapshot; te_ManifestRef : string; te_ReleaseIndexRef : string }.
Record transitionReleaseIndex := mkReleaseIndex {
  ri_SchemaVersion : Z; ri_AppID : string; ri_AppVersion : string; ri_SourceCommit : string;
  ri_ActionsRunID : string; ri_ActionsRunAttempt : string; ri_AppImage : string; ri_AppImageDigest : string;
  ri_Components : list dashboardReleaseComponent; ri_Files : gmap string string }.
Record dashboardReleaseEntry := mkDashboardEntry {
  de_AppID : string; de_AppVersion : string; de_ReleaseRef : string; de_ReleaseIndexRef : string;
  de_ReleaseDigest : string; de_ManifestRef : string; de_ManifestDigest : string; de_TemplateDigest : string }.

Record Registry := mkRegistry { rg_SchemaVersion : Z; rg_Releases : list transitionReleaseEntry }.
Record Management := mkManagement {
  mg_SchemaVersion : Z; mg_AppID : string; mg_AppVersion : string; mg_DataContract : string;
  mg_DefaultWorkerVersion : string; mg_CompatibleWorkerVersions : list string }.
(** [Dashboard] is an open object: only its members that are strings are read. *)
Record Declaration := mkDeclaration {
  dc_SchemaVersion : Z; dc_AppID : string; dc_AppVersion : string; dc_Dashboard : gmap string string }.
Record Assets := mkAssets { as_SchemaVersion : Z; as_Files : gmap string string }.

(** encoding/json for these types; the identity and the images of a manifest by
    the lax [json.Unmarshal]; and the schema-checked registry of dashboards. *)
Class ReleaseCodecs := {
  codec_registry :: Codec Registry; codec_index :: Codec transitionReleaseIndex;
  codec_management :: Codec Management; codec_declaration :: Codec Declaration; codec_assets :: Codec Assets;
  manifest_identity : raw -> option (string * string);
  manifest_images : raw -> option (string * string * list dashboardManifestImage);
  dashboard_registry : string -> option (list dashboardReleaseEntry) }.

Module ReleasePatterns.
Import Regexp.
Definition plus (a : re) : re := Cat a (Star a).
(** 40 hexadecimal digits *)
Definition commit : re := times 40 (Class lower_hex).
(** a positive number of at most [n] digits *)
Definition positive (n : nat) : re := Cat (Class (in_range "1" "9")) (upto (n - 1) (Class is_digit)).
(** name:tag-v<version> *)
Definition image (v : string) : re :=
  Cat (Class lower_alnum) (Cat (Star (Class (fun c => lower_alnum c || one_of "./:_-" c)))
    (Cat (lit ":") (Cat (Class lower_alnum) (Cat (Star (Class (fun c => lower_alnum c || one_of "._-" c)))
      (lit ("-v" +:+ v)))))).
End ReleasePatterns.

Section Releases.
Context {J : JsonLib} {R : ReleaseCodecs}.

Definition materialDecode {A} `{Codec A} (text : string) : option A := Decode (4 * MiB) text.

(** The checks a release index shares between both kinds of release. *)
Definition index_identity (index : transitionReleaseIndex) (appID appVersion : string) : bool :=
  (ri_SchemaVersion index =? 1) && (ri_AppID index =? appID)%string && (ri_AppVersion index =? appVersion)%string
  && Regexp.matches ReleasePatterns.commit (ri_SourceCommit index) && transitionDigest (ri_AppImageDigest index)
  && Regexp.matches (ReleasePatterns.positive 20) (ri_ActionsRunID index)
  && Regexp.matches (ReleasePatterns.positive 10) (ri_ActionsRunAttempt index)
  && Regexp.matches (ReleasePatterns.image appVersion) (ri_AppImage index).

(** The files of an index, each read next to it and matched with its digest; the
    bytes of all of them are bounded together. *)
Fixpoint read_files (root : Root) (ref : string) (allowed : string -> bool) (total : Z)
    (files : list (string * string)) : option (gmap string string) :=
  match files with
  | [] => Some ∅
  | (name, digest) :: rest =>
      if negb (materialPath name) || negb (transitionDigest ("sha256:" +:+ digest)) || negb (allowed name) then None
      else
        content ← materialRead root (sibling ref name) (4 * MiB);
        let total := total + len content in
        if (32 * MiB <? total) || negb (materialDigest content =? "sha256:" +:+ digest)%string then None
        else m ← read_files root ref allowed total rest; Some (<[ name := content ]> m)
  end.

(** Every asset of the dashboard is one of the files, with the same digest. *)
Definition assets_match (materials files : gmap string string) (reserved : list string) : bool :=
  forallb (fun '(name, digest) =>
    materialPath name && negb (slices_contains reserved name) && transitionDigest ("sha256:" +:+ digest)
    && match materials !! ("dashboard/" +:+ name)%string with
       | Some content => (materialDigest content =? "sha256:" +:+ digest)%string
       | None => false
       end) (map_to_list files).

Definition management_files : list string := ["VERSION"; "management-release.json"; "workspace-index.json"].
Definition transition_file (name : string) : bool :=
  slices_contains management_files name || has_prefix name "dashboard/".
Definition required_files : list string :=
  management_files ++ ["dashboard/dashboard-declaration.json"; "dashboard/asset-index.json"].

(** The documents among the files of a management release. *)
Definition documents_match (s : TransitionSnapshot) (materials : gmap string string) : bool :=
  forallb (fun name => bool_decide (is_Some (materials !! name))) required_files
  && (TrimSpace (default "" (materials !! "VERSION")) =? s_AppVersion s)%string
  && match (m ← materials !! "management-release.json"; materialDecode (A := Management) m) with
     | None => false
     | Some m =>
         (mg_SchemaVersion m =? 1) && (mg_AppID m =? s_AppID s)%string && (mg_AppVersion m =? s_AppVersion s)%string
         && (mg_DataContract m =? s_DataContract s)%string
         && (mg_DefaultWorkerVersion m =? s_DefaultWorkerVersion s)%string
         && bool_decide (mg_CompatibleWorkerVersions m = from_nil [] (s_CompatibleWorkerVersions s))
     end
  && match (d ← materials !! "dashboard/dashboard-declaration.json"; materialDecode (A := Declaration) d) with
     | None => false
     | Some d =>
         (dc_SchemaVersion d =? 1) && (dc_AppID d =? s_AppID s)%string && (dc_AppVersion d =? s_AppVersion s)%string
         && bool_decide (dc_Dashboard d !! "artifactDigest" = Some (s_DashboardDigest s))
     end
  && (materialDigest (default "" (materials !! "dashboard/asset-index.json")) =? s_DashboardDigest s)%string
  && match (a ← materials !! "dashboard/asset-index.json"; materialDecode (A := Assets) a) with
     | None => false
     | Some a =>
         (as_SchemaVersion a =? 1) && negb (Z.of_nat (size (as_Files a)) =? 0) && (Z.of_nat (size (as_Files a)) <=? 256)
         && negb (go_get (as_Files a) "index.html" =? "")%string
         && (Z.of_nat (size materials) =? Z.of_nat (size (as_Files a)) + 5)
         && assets_match materials (as_Files a) []
     end.

(** The bytes a release is made of: manifest, release index and files. *)
Record Material := mkMaterial { ml_manifest : string; ml_index : string; ml_files : gmap string string }.

Definition transition_material (root : Root) (entry : transitionReleaseEntry) : option Material :=
  let s := te_Snapshot entry in
  manifest ← materialRead root (te_ManifestRef entry) (4 * MiB);
  if negb (materialDigest manifest =? s_ManifestDigest s)%string then None
  else
    valid ← ReadValue (4 * MiB) manifest;
    if negb (bool_decide (manifest_identity valid = Some (s_AppID s, s_AppVersion s))) then None
    else
      text ← materialRead root (te_ReleaseIndexRef entry) MiB;
      if negb (materialDigest text =? s_ReleaseDigest s)%string then None
      else
        index ← materialDecode (A := transitionReleaseIndex) text;
        let n := Z.of_nat (size (ri_Files index)) in
        if negb (index_identity index (s_AppID s) (s_AppVersion s))
           || negb (Z.of_nat (length (ri_Components index)) =? 0) || (n <? 5) || (260 <? n) then None
        else
          materials ← read_files root (te_ReleaseIndexRef entry) transition_file 0 (map_to_list (ri_Files index));
          if documents_match s materials then Some (mkMaterial manifest text materials) else None.
Definition verifyTransitionMaterial (root : Root) (entry : transitionReleaseEntry) : bool :=
  bool_decide (is_Some (transition_material root entry)).

(** ** The transition registry *)

(** [TransitionReleases]: the directory and the base name of the registry, or
    [None] when it is not configured or cannot be opened. *)
Definition TransitionReleases := option (Root * string).

Definition version_of (s : TransitionSnapshot) : string := s_AppID s +:+ "@" +:+ s_AppVersion s.
Fixpoint entries_valid (refs versions : gset string) (l : list transitionReleaseEntry) : bool :=
  match l with
  | [] => true
  | e :: rest =>
      let s := te_Snapshot e in
      if negb (snapshot_valid s) || bool_decide (s_ReleaseRef s ∈ refs) || bool_decide (version_of s ∈ versions)
         || negb (materialPath (te_ManifestRef e)) || negb (materialPath (te_ReleaseIndexRef e)) then false
      else entries_valid ({[ s_ReleaseRef s ]} ∪ refs) ({[ version_of s ]} ∪ versions) rest
  end.

Definition load (t : TransitionReleases) : result OpError (Root * list transitionReleaseEntry) :=
  match t with
  | None => Err ErrTransitionRelease
  | Some (root, base) =>
      match (text ← materialRead root base (2 * MiB); materialDecode (A := Registry) text) with
      | None => Err ErrTransitionRelease
      | Some g =>
          let n := Z.of_nat (length (rg_Releases g)) in
          reject ErrTransitionRelease when
            negb (rg_SchemaVersion g =? 1) || (n =? 0) || (128 <? n) || negb (entries_valid ∅ ∅ (rg_Releases g)) ;;
          Ok (root, rg_Releases g)
      end
  end.

(** The last element that passes: the loops overwrite their choice. *)
Definition last_such {A} (P : A -> bool) (l : list A) : option A := last (List.filter P l).

Definition may_transition (u : IdentityContext) (installed : Installation) : bool :=
  (u_StationID u =? i_StationID installed)%string && (u_OrganizationID u =? i_OrganizationID installed)%string
  && (i_State installed =? "installed")%string.

Definition Read (t : TransitionReleases) : TransitionReader := fun u installed targetRef =>
  reject ErrTransitionRelease when
    bool_decide (t = None) || negb (transitionName targetRef) || negb (may_transition u installed) ;;
  '(root, entries) ← load t;
  let source := last_such (fun e => (s_AppID (te_Snapshot e) =? i_AppID installed)%string
                                    && (s_AppVersion (te_Snapshot e) =? i_AppVersion installed)%string) entries in
  let target := last_such (fun e => (s_ReleaseRef (te_Snapshot e) =? targetRef)%string
                                    && (s_AppID (te_Snapshot e) =? i_AppID installed)%string) entries in
  match source, target with
  | Some a, Some b =>
      reject ErrTransitionRelease when
        negb (verifyTransitionMaterial root a) || negb (verifyTransitionMaterial root b) ;;
      Ok (te_Snapshot a, te_Snapshot b)
  | _, _ => Err ErrTransitionRelease
  end.

Definition Resolve (t : TransitionReleases) (appID version ref : string) : result OpError TransitionSnapshot :=
  '(root, entries) ← load t;
  match List.find (fun e => (s_AppID (te_Snapshot e) =? appID)%string && (s_AppVersion (te_Snapshot e) =? version)%string
                            && (s_ReleaseRef (te_Snapshot e) =? ref)%string) entries with
  | Some entry =>
      reject ErrTransitionRelease when negb (verifyTransitionMaterial root entry) ;;
      Ok (te_Snapshot entry)
  | None => Err ErrTransitionRelease
  end.

(** ** Dashboard releases *)

Definition video_versions : list string :=
  ["0.17.28"; "0.17.29"; "0.17.30"; "0.17.31"; "0.17.32"; "0.17.35"; "0.17.37"; "0.17.38"; "0.17.39"].
Definition component_matches (image : dashboardManifestImage) (c : dashboardReleaseComponent) : bool :=
  (mi_Component image =? cp_Name c)%string && (mi_Image image =? cp_Image c)%string && transitionDigest (cp_ImageDigest c).
Definition dashboardImagesMatch (images : list dashboardManifestImage) (release : transitionReleaseIndex) : bool :=
  if negb (ri_AppID release =? "video-mcp")%string then
    match images, ri_Components release with
    | [image], [] => (mi_Image image =? ri_AppImage release)%string
    | _, _ => false
    end
  else if negb (slices_contains video_versions (ri_AppVersion release)) then false
  else match images, ri_Components release with
       | [api; authority], [c0; c1] =>
           (mi_Component api =? "api")%string && (mi_Component authority =? "artifact-authority")%string
           && component_matches api c0 && component_matches authority c1
           && (cp_Image c0 =? ri_AppImage release)%string && (cp_ImageDigest c0 =? ri_AppImageDigest release)%string
           && (cp_Image c1 =? "registry.cn-qingdao.aliyuncs.com/wod/verdantflare-app:video-mcp-server-v0.17.12")%string
           && (cp_ImageDigest c1 =? "sha256:b4a6eed372cca5ede2a3722a45de210b3bac223050e3e478e89943f997b0a4a4")%string
       | _, _ => false
       end.

Definition single_document (e : dashboardReleaseEntry) : bool :=
  (de_ReleaseIndexRef e =? de_ManifestRef e)%string && (de_ReleaseDigest e =? de_ManifestDigest e)%string.

Definition dashboard_documents (e : dashboardReleaseEntry) (materials : gmap string string) : bool :=
  match (d ← materials !! "dashboard/dashboard-declaration.json"; materialDecode (A := Declaration) d),
        (a ← materials !! "dashboard/asset-index.json"; materialDecode (A := Assets) a) with
  | Some d, Some a =>
      (dc_SchemaVersion d =? 1) && (dc_AppID d =? de_AppID e)%string && (dc_AppVersion d =? de_AppVersion e)%string
      && bool_decide (dc_Dashboard d !! "artifactDigest" =
                      Some (materialDigest (default "" (materials !! "dashboard/asset-index.json"))))
      && bool_decide (dc_Dashboard d !! "entryRef" = Some "dashboard/index.html")
      && (as_SchemaVersion a =? 1) && (1 <=? Z.of_nat (size (as_Files a))) && (Z.of_nat (size (as_Files a)) <=? 256)
      && negb (go_get (as_Files a) "index.html" =? "")%string
      && (Z.of_nat (size materials) =? Z.of_nat (size (as_Files a)) + 2)
      && assets_match materials (as_Files a) ["asset-index.json"; "dashboard-declaration.json"]
  | _, _ => false
  end.

Definition verifyDashboardRelease (root : Root) (e : dashboardReleaseEntry) : bool :=
  match materialRead root (de_ManifestRef e) (4 * MiB) with
  | None => false
  | Some manifest =>
      if negb (materialDigest manifest =? de_ManifestDigest e)%string then false
      else match (v ← ReadValue (4 * MiB) manifest; manifest_images v) with
           | None => false
           | Some (appID, version, images) =>
               if negb (appID =? de_AppID e)%string || negb (version =? de_AppVersion e)%string then false
               else if single_document e then
                 negb (length images =? 0)%nat && transitionDigest (de_TemplateDigest e)
                 && forallb (fun i => negb (TrimSpace (mi_Component i) =? "")%string
                                      && negb (TrimSpace (mi_Image i) =? "")%string) images
               else match materialRead root (de_ReleaseIndexRef e) MiB with
                    | None => false
                    | Some text =>
                        if negb (materialDigest text =? de_ReleaseDigest e)%string then false
                        else match materialDecode (A := transitionReleaseIndex) text with
                             | None => false
                             | Some release =>
                                 let n := Z.of_nat (size (ri_Files release)) in
                                 if negb (index_identity release (de_AppID e) (de_AppVersion e))
                                    || negb (dashboardImagesMatch images release) || (n <? 3) || (258 <? n) then false
                                 else match read_files root (de_ReleaseIndexRef e)
                                              (fun name => has_prefix name "dashboard/") 0 (map_to_list (ri_Files release)) with
                                      | None => false
                                      | Some materials => dashboard_documents e materials
                                      end
                             end
                    end
           end
  end.

(** [DashboardReleases], as [TransitionReleases]. *)
Definition DashboardReleases := option (Root * string).

Fixpoint dashboard_entries_valid (versions refs : gset string) (l : list dashboardReleaseEntry) : bool :=
  match l with
  | [] => true
  | e :: rest =>
      let key := de_AppID e +:+ "@" +:+ de_AppVersion e in
      if bool_decide (key ∈ versions) || bool_decide (de_ReleaseRef e ∈ refs)
         || negb (materialPath (de_ReleaseIndexRef e)) || negb (materialPath (de_ManifestRef e))
         || ((de_ReleaseIndexRef e =? de_ManifestRef e)%string && negb (de_ReleaseDigest e =? de_ManifestDigest e)%string)
      then false
      else dashboard_entries_valid ({[ key ]} ∪ versions) ({[ de_ReleaseRef e ]} ∪ refs) rest
  end.

Definition dashboard_load (t : DashboardReleases) : result OpError (Root * list dashboardReleaseEntry) :=
  match t with
  | None => Err ErrAppCenterRelease
  | Some (root, base) =>
      match (text ← materialRead root base (2 * MiB); dashboard_registry text) with
      | None => Err ErrAppCenterRelease
      | Some entries =>
          reject ErrAppCenterRelease when negb (dashboard_entries_valid ∅ ∅ entries) ;;
          Ok (root, entries)
      end
  end.

Definition dashboard_Resolve (t : DashboardReleases) (appID version ref : string) : result OpError dashboardReleaseEntry :=
  '(root, entries) ← dashboard_load t;
  match List.find (fun e => (de_AppID e =? appID)%string && (de_AppVersion e =? version)%string
                            && (de_ReleaseRef e =? ref)%string) entries with
  | Some e =>
      reject ErrAppCenterRelease when negb (verifyDashboardRelease root e) ;;
      Ok e
  | None => Err ErrAppCenterRelease
  end.

Definition dashboard_snapshot (e : dashboardReleaseEntry) (dashboardDigest imageDigest : string) : TransitionSnapshot :=
  mkSnapshot (de_AppID e) (de_AppVersion e) (de_ReleaseRef e) (de_ReleaseDigest e) (de_ManifestDigest e)
    (de_TemplateDigest e) dashboardDigest "" "" (Some []) "dashboard-release" imageDigest.

Definition dashboardTransitionSnapshot (root : Root) (e : dashboardReleaseEntry) : result OpError TransitionSnapshot :=
  reject ErrAppCenterRelease when negb (verifyDashboardRelease root e) ;;
  if single_document e then
    let s := dashboard_snapshot e (de_ManifestDigest e) (de_ManifestDigest e) in
    reject ErrAppCenterRelease when negb (snapshot_valid s) ;;
    Ok s
  else
    match (text ← materialRead root (de_ReleaseIndexRef e) MiB;
           release ← materialDecode (A := transitionReleaseIndex) text;
           if (materialDigest text =? de_ReleaseDigest e)%string then Some release else None) with
    | None => Err ErrAppCenterRelease
    | Some release =>
        match materialRead root (sibling (de_ReleaseIndexRef e) "dashboard/asset-index.json") (4 * MiB) with
        | None => Err ErrAppCenterRelease
        | Some index =>
            reject ErrAppCenterRelease when
              negb (materialDigest index =? "sha256:" +:+ go_get (ri_Files release) "dashboard/asset-index.json")%string ;;
            let s := dashboard_snapshot e (materialDigest index) (ri_AppImageDigest release) in
            reject ErrAppCenterRelease when negb (snapshot_valid s) ;;
            Ok s
        end
    end.

Definition ReadTransition (t : DashboardReleases) : TransitionReader := fun u installed targetRef =>
  reject ErrAppCenterRelease when negb (may_transition u installed) ;;
  '(root, entries) ← dashboard_load t;
  let same := List.filter (fun e => (de_AppID e =? i_AppID installed)%string) entries in
  match last_such (fun e => (de_AppVersion e =? i_AppVersion installed)%string) same,
        last_such (fun e => (de_ReleaseRef e =? targetRef)%string) same with
  | Some source, Some target =>
      a ← dashboardTransitionSnapshot root source;
      b ← dashboardTransitionSnapshot root target;
      Ok (a, b)
  | _, _ => Err ErrAppCenterRelease
  end.

(** ** Workers *)

(** Does a configured dashboard registry list the application. *)
Definition dashboard_listed (dashboards : option DashboardReleases) (appID : string) : result OpError bool :=
  match dashboards with
  | None => Ok false
  | Some d =>
      match dashboard_load d with
      | Err _ => Err ErrTransitionRelease
      | Ok (_, entries) => Ok (existsb (fun e => (de_AppID e =? appID)%string) entries)
      end
  end.

(** [AuthorizeWorkerVersion]: [dashboards] is [None] when no dashboard registry is
    configured, [entry] is the catalog's release of the application. *)
Definition AuthorizeWorkerVersion (station : string) (dashboards : option DashboardReleases) (entry : option Entry)
    (t : TransitionReleases) (installed : Installation) (version : string) : result OpError unit :=
  reject Denied when
    negb (i_State installed =? "installed")%string || negb (i_StationID installed =? station)%string
    || (i_Revision installed <? 1) ;;
  listed ← dashboard_listed dashboards (i_AppID installed);
  reject Denied when (listed : bool) ;;
  if (i_AppVersion installed =? version)%string then Ok ()
  else if match entry with Some e => bool_decide (is_Some (en_Helm e)) | None => false end then Ok ()
  else
    match load t with
    | Err _ => Err ErrTransitionRelease
    | Ok (root, entries) =>
        match List.find (fun e => (s_AppID (te_Snapshot e) =? i_AppID installed)%string
                                  && (s_AppVersion (te_Snapshot e) =? i_AppVersion installed)%string) entries with
        | None => Err ErrTransitionRelease
        | Some e =>
            reject ErrTransitionRelease when negb (verifyTransitionMaterial root e) ;;
            if slices_contains (from_nil [] (s_CompatibleWorkerVersions (te_Snapshot e))) version then Ok () else Err Denied
        end
    end.
End Releases.
