(* ===== verification/Preinstalled.v ===== *)
(** * Preinstalled releases and their inventory

    internal/releasebinding/source.go: the operator's registry that binds a release
    to the digests of a package and a chart, read again at every use, so that a
    withdrawal blocks the next mutation. internal/operations/preinstalled.go
    ([PreinstalledInventory]): the history of an application that a command quotes
    by its revision. The directory is [Releases.Root]. *)
From stdpp Require Import gmap list strings.
From S2P Require Import Prelude GoStd Sha256 GoJson Uuid Observation Memory Catalog AppSnapshot OperationTypes Transitions Installations AppState StrictJson Releases.
#[local] Open Scope Z_scope.

(** ** The registry *)
Record Entry := mkEntry { be_Binding : ReleaseBinding; be_PackageRef : string; be_ChartRef : string }.
Definition be_ReleaseRef (e : Entry) : string := rb_ReleaseRef (be_Binding e).
(** A nil [Releases] slice is [None]. *)
Record Registry := mkBindings { br_SchemaVersion : Z; br_Releases : option (list Entry) }.
Class BindingCodec := codec_bindings :: Codec Registry.

Definition SchemaVersion : Z := 2.

Section Source.
Context {J : JsonLib} {B : BindingCodec}.

(** [None] is [ErrUntrusted] in all of these. *)
Definition read (root : Root) (ref : string) (maximum : Z) : option string :=
  if negb (valid_path ref) || (ref =? ".")%string || contains ref "\" || contains ref ":" then None
  else raw ← root ref; if maximum <? len raw then None else Some raw.
Definition Sum (raw : string) : string := "sha256:" +:+ Sha256.hex_sum raw.

(** [Source]: the directory and the base name, [None] when no path is configured or
    the directory cannot be opened. *)
Definition Source := option (Root * string).
Definition load (s : Source) : option (Root * list Entry) :=
  '(root, base) ← s;
  raw ← read root base (2 * MiB);
  cfg ← Decode (A := Registry) (2 * MiB) raw;
  releases ← br_Releases cfg;
  if negb (br_SchemaVersion cfg =? SchemaVersion) || (128 <? Z.of_nat (length releases)) then None
  else Some (root, releases).

(** The scan: every entry is valid and its reference new; the last one with the
    reference is the candidate. *)
Fixpoint candidate (ref : string) (seen : gset string) (found : option Entry) (l : list Entry) : option (option Entry) :=
  match l with
  | [] => Some found
  | r :: rest =>
      if negb (binding_Valid (be_Binding r)) || bool_decide (be_ReleaseRef r ∈ seen) then None
      else candidate ref ({[ be_ReleaseRef r ]} ∪ seen) (if (be_ReleaseRef r =? ref)%string then Some r else found) rest
  end.
Definition find (root : Root) (releases : list Entry) (ref : string) : option Entry :=
  found ← candidate ref ∅ None releases;
  e ← found;
  manifest ← read root (be_PackageRef e) (4 * MiB);
  chart ← read root (be_ChartRef e) (32 * MiB);
  if negb (Sum manifest =? rb_PackageDigest (be_Binding e))%string || negb (Sum chart =? rb_ChartDigest (be_Binding e))%string
  then None else Some e.

Definition Resolve (s : Source) (ref : string) : option ReleaseBinding :=
  if negb (binding_ident ref) then None
  else '(root, releases) ← load s; e ← find root releases ref; Some (be_Binding e).

Definition Verify (s : Source) (want : ReleaseBinding) : bool :=
  if negb (binding_Valid want) then false
  else match ('(root, releases) ← load s; find root releases (rb_ReleaseRef want)) with
       | Some e => bool_decide (be_Binding e = want)
       | None => false
       end.

(** *** What a resolved release is *)
Lemma candidate_some ref seen found l e : candidate ref seen found l = Some (Some e) ->
  found = Some e \/ (e ∈ l /\ be_ReleaseRef e = ref /\ binding_Valid (be_Binding e) = true).
Proof.
  revert seen found. induction l as [| r l IH]; intros seen found; simpl; [intros [= ->]; by left |].
  destruct (negb _ || _) eqn:E; [done |]. bool_norm. intros [Hf | (He & Hf & Hv)]%IH.
  - destruct (String.eqb_spec (be_ReleaseRef r) ref); [| by left]. simplify_eq.
    right. split_and!; [by left | done | done].
  - right. split_and!; [by right | done | done].
Qed.

(** A registry with a repeated reference, or one invalid entry, yields nothing. *)
Lemma candidate_distinct ref seen found l x : candidate ref seen found l = Some x ->
  NoDup (be_ReleaseRef <$> l) /\ Forall (fun e => binding_Valid (be_Binding e) = true /\ be_ReleaseRef e ∉ seen) l.
Proof.
  revert seen found. induction l as [| r l IH]; intros seen found; simpl; [split; constructor |].
  destruct (negb _ || _) eqn:E; [done |]. bool_norm. intros [Hn Hf]%IH. split.
  - apply NoDup_cons. split; [| done]. intros (y & Hy & Hin)%list_elem_of_fmap.
    rewrite Forall_forall in Hf. apply (proj2 (Hf y Hin)). rewrite <- Hy. set_solver.
  - constructor; [done |]. eapply Forall_impl; [exact Hf |]. simpl. set_solver.
Qed.

Lemma find_sound root l ref e : find root l ref = Some e ->
  e ∈ l /\ be_ReleaseRef e = ref /\ binding_Valid (be_Binding e) = true /\ NoDup (be_ReleaseRef <$> l) /\
  exists manifest chart, read root (be_PackageRef e) (4 * MiB) = Some manifest /\
    read root (be_ChartRef e) (32 * MiB) = Some chart /\
    Sum manifest = rb_PackageDigest (be_Binding e) /\ Sum chart = rb_ChartDigest (be_Binding e).
Proof.
  unfold find. intros H. destruct (candidate ref ∅ None l) as [[c |] |] eqn:Ec; try done. cbn [mbind option_bind] in H.
  destruct (read root (be_PackageRef c) _) as [manifest |] eqn:Em; [| done]. cbn [mbind option_bind] in H.
  destruct (read root (be_ChartRef c) _) as [chart |] eqn:Eh; [| done]. cbn [mbind option_bind] in H.
  destruct (negb _ || _) eqn:E; [done |]. bool_norm. simplify_eq.
  destruct (candidate_distinct _ _ _ _ _ Ec) as [Hn _].
  destruct (candidate_some _ _ _ _ _ Ec) as [| (? & ? & ?)]; [done |].
  repeat match goal with H : (_ =? _)%string = true |- _ => apply String.eqb_eq in H end.
  split_and!; try done. by exists manifest, chart.
Qed.

(** Verifying a binding is resolving its reference and finding exactly the binding:
    a command is accepted under the terms the registry shows at that moment. *)
Theorem verify_iff_resolves s want :
  Verify s want = true <-> Resolve s (rb_ReleaseRef want) = Some want.
Proof.
  unfold Verify, Resolve. destruct (load s) as [[root l] |] eqn:El; cbn [mbind option_bind].
  2:{ destruct (negb (binding_Valid want)), (negb (binding_ident _)); done. }
  destruct (find root l (rb_ReleaseRef want)) as [e |] eqn:Ef; cbn [mbind option_bind].
  2:{ destruct (negb (binding_Valid want)), (negb (binding_ident _)); done. }
  destruct (find_sound _ _ _ _ Ef) as (_ & _ & Hv & _). split.
  - destruct (negb (binding_Valid want)) eqn:E; [done |]. bool_norm. intros Hb. bool_norm. subst.
    unfold binding_Valid in E. bool_norm. by rewrite H.
  - destruct (negb (binding_ident _)); [done |]. intros [= <-]. rewrite Hv. simpl. by apply bool_decide_eq_true.
Qed.

(** A resolved release is valid, its reference occurs once in the registry, and the
    mounted package and chart have the digests it carries. *)
Theorem resolved_release_is_mounted s ref b : Resolve s ref = Some b ->
  binding_Valid b = true /\ rb_ReleaseRef b = ref /\
  exists root releases e manifest chart, load s = Some (root, releases) /\ NoDup (be_ReleaseRef <$> releases) /\
    e ∈ releases /\ be_Binding e = b /\
    read root (be_PackageRef e) (4 * MiB) = Some manifest /\ Sum manifest = rb_PackageDigest b /\
    read root (be_ChartRef e) (32 * MiB) = Some chart /\ Sum chart = rb_ChartDigest b.
Proof.
  unfold Resolve. destruct (negb _); [done |]. destruct (load s) as [[root l] |] eqn:El; [| done].
  cbn [mbind option_bind]. destruct (find root l ref) as [e |] eqn:Ef; [| done]. cbn [mbind option_bind].
  intros [= <-]. destruct (find_sound _ _ _ _ Ef) as (Hin & Hr & Hv & Hn & manifest & chart & Hm & Hc & Hsm & Hsc).
  split_and!; [done | done |]. exists root, l, e, manifest, chart. by split_and!.
Qed.
End Source.

(** ** The inventory *)
Record PreinstalledInventory := mkInventory {
  iv_AppID : string; iv_Revision : string; iv_Complete : bool; iv_WorkloadUID : string;
  iv_ManagementStatus : string; iv_ObservedAt : Time; iv_History : list InstallationHistory }.
Inductive InventoryError : Type :=
| InventoryDenied | InventoryInvalid
| InventoryUnavailable            (** appstate.ErrUnavailable *)
| HistoryError (e : OpError)      (** the history could not be read *)
| ObservationError (e : AppState.Error)
| InventoryDriver.                (** the commit failed *)

Section Inventory.
Context {U : UuidLib} {K : K8sLib}.

Definition complete (o : Catalog.Observation) : bool :=
  negb (ob_State o =? "unknown")%string
  && ((ob_State o =? "not_installed")%string || negb (ob_UID o =? "")%string).

(** [configured]: the pool and the state service; [entry] is the catalog's entry of
    the application. One repeatable-read transaction reads both parts. *)
Definition Inventory (station : string) (configured : bool) (c : Connection) (u : IdentityContext) (app : string)
    (entry : option Catalog.Entry) (db : DB) (m : Memory) (t : Instants) : Memory * result InventoryError PreinstalledInventory :=
  if negb (canReadInstallations station u) then (m, Err InventoryDenied)
  else if negb (preinstalledApp app) then (m, Err InventoryInvalid)
  else if negb configured || negb (answers c) then (m, Err InventoryUnavailable)
  else match readPreinstalledHistory db station (u_OrganizationID u) app with
  | Err e => (m, Err (HistoryError e))
  | Ok items =>
      match PreinstalledObservation station c u entry db m t with
      | (m', Err e) => (m', Err (ObservationError e))
      | (m', Ok o) =>
          (m', if negb (commits c) then Err InventoryDriver
               else Ok (mkInventory app (inventoryRevision items) (complete o) (ob_UID o) (ob_ManagementStatus o)
                          (ob_ObservedAt o) items))
      end
  end.

(** The revision an inventory shows is the one a command is compared with: on the
    same tables a command that quotes it is never refused for its revision. *)
Theorem shown_revision_is_accepted station configured c u app entry db m t m' iv verify p :
  Inventory station configured c u app entry db m t = (m', Ok iv) ->
  c_AppID (p_Command p) = app -> p_InventoryRevision p = iv_Revision iv ->
  verify (p_Release p) = true ->
  validatePreinstalled db station (u_OrganizationID u) (Some verify) p =
    match check_history db verify p (iv_History iv) false "" with
    | Err e => Err e
    | Ok (current, removed) =>
        if negb current && negb (removed =? "")%string && negb (p_ReinstallRemovedID p =? removed)%string
        then Err OperationTypes.Conflict
        else if negb (p_ReinstallRemovedID p =? "")%string
                && (current || negb (p_ReinstallRemovedID p =? removed)%string)
        then Err OperationTypes.Invalid else Ok tt
    end.
Proof.
  unfold Inventory, validatePreinstalled. intros H Happ Hrev ->.
  destruct (negb (canReadInstallations _ _)); [done |]. destruct (negb (preinstalledApp _)); [done |].
  destruct (negb configured || _); [done |].
  destruct (readPreinstalledHistory _ _ _ _) as [items |] eqn:Eh; [| done]. rewrite Happ, Eh. cbn [mbind result_bind negb].
  destruct (PreinstalledObservation _ _ _ _ _ _ _) as [m1 [o | e]]; [| done].
  destruct (negb (commits c)); simplify_eq. rewrite Hrev. cbn [iv_Revision iv_History].
  rewrite String.eqb_refl. by destruct (check_history _ _ _ _ _ _) as [[current removed] | e].
Qed.
End Inventory.
