(* ===== verification/ReleasesSafety.v ===== *)
(** * A release is what its digests say

    Theorems about [Releases]: a verified release is content-addressed by its
    snapshot, and a resolved release is the single valid entry of the registry for
    the requested version. *)
From S2P Require Import Prelude GoStd Sha256 GoJson Uuid OperationTypes Transitions Catalog StrictJson Releases.
From Stdlib Require Import Ascii.

Section Material.
Context {J : JsonLib} {R : ReleaseCodecs}.

(** Two different byte strings, one of each material, under one digest. *)
Definition material_bytes (m : Material) : list string :=
  ml_manifest m :: ml_index m :: (map_to_list (ml_files m)).*2.
Definition collision (a b : Material) : Prop :=
  exists x y, x ∈ material_bytes a /\ y ∈ material_bytes b /\ x <> y /\ materialDigest x = materialDigest y.

Lemma read_files_spec root ref allowed files : forall total m,
  read_files root ref allowed total files = Some m ->
  dom m = list_to_set files.*1 /\
  (NoDup files.*1 -> forall name digest, (name, digest) ∈ files ->
     exists content, m !! name = Some content /\ materialDigest content = ("sha256:" +:+ digest)%string /\ allowed name = true).
Proof.
  induction files as [| [name digest] files IH]; intros total m; simpl.
  { intros [= <-]. split; [set_solver |]. intros _ ? ? H. by apply elem_of_nil in H. }
  destruct (negb (materialPath name) || _ || _) eqn:E; [done |]. bool_norm.
  destruct (materialRead root (sibling ref name) (4 * MiB)) as [content |]; [| done]. cbn [mbind option_bind].
  destruct (_ || _) eqn:E2; [done |]. bool_norm.
  destruct (read_files root ref allowed _ files) as [m' |] eqn:Er; [| done]. cbn [mbind option_bind].
  intros [= <-]. apply IH in Er as [Hd Hf]. split; [rewrite dom_insert_L, Hd; set_solver |].
  rewrite NoDup_cons. intros [Hn Hnd] k d Hin. specialize (Hf Hnd).
  apply elem_of_cons in Hin as [[= -> ->] | Hin].
  - exists content. rewrite lookup_insert_eq. split_and!; [done | | done]. unfold materialDigest. f_equal. assumption.
  - assert (k <> name) as Hne. { intros ->. apply Hn, list_elem_of_fmap. by exists (name, d). }
    rewrite lookup_insert_ne by done. by apply Hf.
Qed.

(** What a verified material is. *)
Record pinned_by (s : TransitionSnapshot) (m : Material) : Prop := {
  pb_manifest : materialDigest (ml_manifest m) = s_ManifestDigest s;
  pb_index : materialDigest (ml_index m) = s_ReleaseDigest s;
  pb_files : exists index, materialDecode (ml_index m) = Some index /\ dom (ml_files m) = dom (ri_Files index) /\
    forall name digest, ri_Files index !! name = Some digest ->
      exists content, ml_files m !! name = Some content /\ materialDigest content = ("sha256:" +:+ digest)%string;
  pb_documents : documents_match s (ml_files m) = true }.

Lemma transition_material_pinned root e m :
  transition_material root e = Some m -> pinned_by (te_Snapshot e) m.
Proof.
  unfold transition_material.
  destruct (materialRead root (te_ManifestRef e) (4 * MiB)) as [manifest |]; [| done]. cbn [mbind option_bind].
  destruct (negb (materialDigest manifest =? _)%string) eqn:E1; [done |].
  destruct (ReadValue (4 * MiB) manifest) as [v |]; [| done]. cbn [mbind option_bind].
  destruct (negb (bool_decide _)); [done |].
  destruct (materialRead root (te_ReleaseIndexRef e) MiB) as [text |]; [| done]. cbn [mbind option_bind].
  destruct (negb (materialDigest text =? _)%string) eqn:E2; [done |].
  destruct (materialDecode (A := transitionReleaseIndex) text) as [index |] eqn:Ei; [| done]. cbn [mbind option_bind].
  destruct (_ || _); [done |].
  destruct (read_files _ _ _ _ _) as [files |] eqn:Ef; [| done]. cbn [mbind option_bind].
  destruct (documents_match _ files) eqn:Ed; [| done]. intros [= <-]. bool_norm.
  split; simpl; try done. exists index. apply read_files_spec in Ef as [Hd Hf]. split_and!; [done | |].
  - rewrite Hd. apply set_eq. intros k. rewrite elem_of_list_to_set, elem_of_dom. split.
    + intros ([k' d] & -> & Hin)%list_elem_of_fmap. apply elem_of_map_to_list in Hin. by eexists.
    + intros [d Hk]. apply list_elem_of_fmap. exists (k, d). split; [done |]. by apply elem_of_map_to_list.
  - intros name digest Hk. destruct (Hf (NoDup_fst_map_to_list _) name digest) as (c & Hc & Hcd & _);
      [by apply elem_of_map_to_list |]. eauto.
Qed.

(** Bytes of one digest are equal, or the two materials collide. *)
Lemma same_bytes a b x y : x ∈ material_bytes a -> y ∈ material_bytes b ->
  materialDigest x = materialDigest y -> x = y \/ collision a b.
Proof. intros Hx Hy Hd. destruct (decide (x = y)); [by left | right]. by exists x, y. Qed.

Lemma file_bytes m name content : ml_files m !! name = Some content -> content ∈ material_bytes m.
Proof.
  intros H. unfold material_bytes. do 2 right. apply list_elem_of_fmap. exists (name, content).
  split; [done |]. by apply elem_of_map_to_list.
Qed.

(** Either all names agree or one of them yields a collision. *)
Lemma files_equal_or_collide a b (names : gset string) :
  dom (ml_files a) = names -> dom (ml_files b) = names ->
  (forall k x y, ml_files a !! k = Some x -> ml_files b !! k = Some y -> x = y \/ collision a b) ->
  ml_files a = ml_files b \/ collision a b.
Proof.
  intros Ha Hb Hk.
  destruct (decide (map_Forall (fun k x => ml_files b !! k = Some x) (ml_files a))) as [Hall | Hnot].
  - left. apply map_eq. intros k. destruct (ml_files a !! k) as [x |] eqn:E; [by rewrite (Hall _ _ E) |].
    symmetry. apply not_elem_of_dom. rewrite Hb, <- Ha. by apply not_elem_of_dom.
  - right. apply map_not_Forall in Hnot as (k & x & Hx & Hn); [| apply _].
    assert (is_Some (ml_files b !! k)) as [y Hy].
    { apply elem_of_dom. rewrite Hb, <- Ha. apply elem_of_dom. eauto. }
    destruct (Hk k x y Hx Hy) as [-> |]; [congruence | done].
Qed.

(** C25: a verified management release is content-addressed. If two directories,
    whatever their layout and whoever wrote them, both verify a release registered
    under the same snapshot, they hold the same manifest, the same release index
    and the same set of files with the same bytes - or the two materials contain an
    explicit pair of different byte strings with one SHA-256 digest. *)
Theorem verified_release_is_content_addressed root1 root2 e1 e2 m1 m2 :
  te_Snapshot e1 = te_Snapshot e2 ->
  transition_material root1 e1 = Some m1 -> transition_material root2 e2 = Some m2 ->
  m1 = m2 \/ collision m1 m2.
Proof.
  intros Es H1%transition_material_pinned H2%transition_material_pinned. rewrite Es in H1.
  destruct H1 as [Ma Ia Fa _], H2 as [Mb Ib Fb _].
  destruct (same_bytes m1 m2 (ml_manifest m1) (ml_manifest m2)) as [Em |]; [left | left | congruence | | by right].
  destruct (same_bytes m1 m2 (ml_index m1) (ml_index m2)) as [Ei |];
    [right; left | right; left | congruence | | by right].
  destruct Fa as (ia & Da & Na & Ca), Fb as (ib & Db & Nb & Cb).
  assert (ia = ib) as -> by (rewrite Ei in Da; congruence).
  destruct (files_equal_or_collide m1 m2 (dom (ri_Files ib)) Na Nb) as [Ef |]; [| | by right].
  - intros k x y Hx Hy. apply (same_bytes m1 m2); [by eapply file_bytes | by eapply file_bytes |].
    assert (is_Some (ri_Files ib !! k)) as [d Hd].
    { apply elem_of_dom. rewrite <- Na. apply elem_of_dom. eauto. }
    destruct (Ca k d Hd) as (? & ? & ?), (Cb k d Hd) as (? & ? & ?). congruence.
  - left. destruct m1, m2. simpl in *. congruence.
Qed.

(** ** Resolution *)

Lemma entries_valid_spec l : forall refs versions,
  entries_valid refs versions l = true ->
  Forall (fun e => snapshot_valid (te_Snapshot e) = true) l /\
  NoDup ((fun e => s_ReleaseRef (te_Snapshot e)) <$> l) /\ NoDup ((fun e => version_of (te_Snapshot e)) <$> l) /\
  (forall e, e ∈ l -> s_ReleaseRef (te_Snapshot e) ∉ refs /\ version_of (te_Snapshot e) ∉ versions).
Proof.
  induction l as [| e l IH]; intros refs versions; simpl.
  { intros _. split_and!; [constructor | constructor | constructor | intros x Hx; by apply elem_of_nil in Hx]. }
  destruct (_ || _) eqn:E; [done |]. bool_norm. intros (Hv & Hr & Hn & Hout)%IH.
  split_and!.
  - by constructor.
  - apply NoDup_cons. split; [| done]. intros (x & Hx & Hin)%list_elem_of_fmap. destruct (Hout x Hin). set_solver.
  - apply NoDup_cons. split; [| done]. intros (x & Hx & Hin)%list_elem_of_fmap. destruct (Hout x Hin). set_solver.
  - intros x [-> | Hin]%elem_of_cons; [done |]. destruct (Hout x Hin). set_solver.
Qed.

Lemma load_spec t root l : load t = Ok (root, l) ->
  (exists base, t = Some (root, base)) /\ entries_valid ∅ ∅ l = true /\ (0 < length l <= 128)%nat.
Proof.
  unfold load. destruct t as [[root' base] |]; [| done].
  destruct (text ← materialRead root' base (2 * MiB); _) as [g |]; [| done].
  destruct (_ || _) eqn:E; [done |]. bool_norm. intros [= <- <-]. split_and!; [eauto | done | lia | lia].
Qed.
Lemma last_such_some {A} (P : A -> bool) l x : last_such P l = Some x -> x ∈ l /\ P x = true.
Proof.
  unfold last_such. intros (l' & E)%last_Some.
  assert (x ∈ List.filter P l) as H by (rewrite E; apply elem_of_app; right; left).
  apply list_elem_of_In, filter_In in H as [H1 H2]. by rewrite list_elem_of_In.
Qed.

(** Two elements with one key are one element. *)
Lemma NoDup_key {A K} (key : A -> K) l x y : NoDup (key <$> l) -> x ∈ l -> y ∈ l -> key x = key y -> x = y.
Proof.
  intros Hn [i Hi]%list_elem_of_lookup_1 [j Hj]%list_elem_of_lookup_1 E.
  assert (i = j) as ->; [| congruence].
  apply (NoDup_lookup (key <$> l) i j (key x)); [done | | ]; rewrite list_lookup_fmap; [by rewrite Hi | by rewrite Hj, E].
Qed.

(** A verified entry of the registry is what [Resolve] finds under its own name. *)
Lemma Resolve_entry t root l e : load t = Ok (root, l) -> e ∈ l -> verifyTransitionMaterial root e = true ->
  Resolve t (s_AppID (te_Snapshot e)) (s_AppVersion (te_Snapshot e)) (s_ReleaseRef (te_Snapshot e)) = Ok (te_Snapshot e).
Proof.
  intros Hl Hin Hv. pose proof (load_spec _ _ _ Hl) as (_ & (_ & Hr & _ & _)%entries_valid_spec & _).
  unfold Resolve. rewrite Hl. cbn [mbind result_bind].
  destruct (List.find _ l) as [e' |] eqn:Ef.
  - apply find_some in Ef as [Hin' Hk]. bool_norm. apply list_elem_of_In in Hin'.
    assert (e' = e) as -> by (eapply (NoDup_key _ l); done). by rewrite Hv.
  - eapply find_none in Ef; [| by apply list_elem_of_In]. simpl in Ef. by rewrite !String.eqb_refl in Ef.
Qed.

(** The reader of a version transition returns exactly the registered,
    verified releases it was asked for: the source is the release of the installed
    application and version, the target the release of the same application under
    the requested reference, both are valid snapshots, the actor is in the scope of
    an installed application, releases of one version are one release, and the
    exact resolver used for ordinary lifecycle commands returns the same two. *)
Theorem transition_reader_is_exact t u installed ref a b :
  Read t u installed ref = Ok (a, b) ->
  may_transition u installed = true /\
  s_AppID a = i_AppID installed /\ s_AppVersion a = i_AppVersion installed /\
  s_AppID b = i_AppID installed /\ s_ReleaseRef b = ref /\
  snapshot_valid a = true /\ snapshot_valid b = true /\ (s_AppVersion b = s_AppVersion a -> b = a) /\
  Resolve t (s_AppID a) (s_AppVersion a) (s_ReleaseRef a) = Ok a /\
  Resolve t (s_AppID b) (s_AppVersion b) (s_ReleaseRef b) = Ok b.
Proof.
  unfold Read. destruct (_ || _) eqn:E; [done |]. bool_norm.
  destruct (load t) as [[root l] | e] eqn:Hl; [| done]. cbn [mbind result_bind].
  destruct (last_such _ l) as [ea |] eqn:Ea; [| done].
  destruct (last_such (fun e => (s_ReleaseRef _ =? ref)%string && _) l) as [eb |] eqn:Eb; [| done].
  apply last_such_some in Ea as [Hina Ha], Eb as [Hinb Hb].
  destruct (_ || _) eqn:Ev; [done |]. bool_norm. intros [= <- <-].
  pose proof (load_spec _ _ _ Hl) as (_ & (Hvalid & _ & Hn & _)%entries_valid_spec & _).
  rewrite Forall_forall in Hvalid.
  split_and!; try done; try by apply Hvalid.
  - intros Hver. f_equal. apply (NoDup_key _ l eb ea Hn Hinb Hina). unfold version_of. congruence.
  - by eapply Resolve_entry.
  - by eapply Resolve_entry.
Qed.
End Material.

(** ** Concrete releases

    Two versions of one application in two directories, with a toy JSON library
    (a text is its own token) and the codecs of the documents used; the theorems of
    [StrictJson] and [ReleasesSafety] applied to them. *)

(** Every text is one value: an object that holds it. *)
#[local] Instance toy_json : JsonLib := {| json_tokens s := Some (RObject [("text", RString s)]); parses_float _ := true |}.
Definition text_of (v : raw) : string := match v with RObject [(_, RString s)] => s | _ => "" end.
Definition toy_codec {A} (decode : string -> option A) : Codec A :=
  {| unmarshal v := decode (text_of v); remarshal _ := RObject [("text", RString "")] |}.

Definition digest_of (s : string) : string := materialDigest s.
Definition hex_of (s : string) : string := Sha256.hex_sum s.

(** The files of version [v]; the asset is shared. *)
Definition files_of (v : string) : list (string * string) :=
  [("VERSION", v); ("management-release.json", "management " +:+ v); ("workspace-index.json", "workspace");
   ("dashboard/dashboard-declaration.json", "declaration " +:+ v); ("dashboard/asset-index.json", "assets");
   ("dashboard/index.html", "page")].
Definition digests_of (v : string) : gmap string string :=
  list_to_map ((fun p => (fst p, hex_of (snd p))) <$> files_of v).
Definition digests_1 : gmap string string := Eval vm_compute in digests_of "1.0.0".
Definition digests_2 : gmap string string := Eval vm_compute in digests_of "1.1.0".

Definition commit_0 : string := "0123456789abcdef0123456789abcdef01234567".
Definition image_digest : string := Eval vm_compute in digest_of "image".
Definition index_for (v : string) (files : gmap string string) : transitionReleaseIndex :=
  mkReleaseIndex 1 "app" v commit_0 "42" "1" ("registry/app:app-v" +:+ v) image_digest [] files.
Definition snapshot_for (v : string) (ref release manifest template dashboard : string) : TransitionSnapshot :=
  mkSnapshot "app" v ref release manifest template dashboard "data" v (Some [v]) "" "".
Definition snapshot_1 : TransitionSnapshot := Eval vm_compute in
  snapshot_for "1.0.0" "app-1" (digest_of "index 1.0.0") (digest_of "manifest 1.0.0") (digest_of "template") (digest_of "assets").
Definition snapshot_2 : TransitionSnapshot := Eval vm_compute in
  snapshot_for "1.1.0" "app-2" (digest_of "index 1.1.0") (digest_of "manifest 1.1.0") (digest_of "template") (digest_of "assets").
Definition entry_1 : transitionReleaseEntry := mkTransitionEntry snapshot_1 "one/manifest" "one/index".
Definition entry_2 : transitionReleaseEntry := mkTransitionEntry snapshot_2 "two/manifest" "two/index".
(** The first release in another place. *)
Definition entry_1' : transitionReleaseEntry := mkTransitionEntry snapshot_1 "manifest" "index".

Definition management_for (v : string) : Management := mkManagement 1 "app" v "data" v [v].
Definition declaration_for (v : string) : Declaration :=
  mkDeclaration 1 "app" v {[ "artifactDigest" := s_DashboardDigest snapshot_1 ]}.
Definition page_digest : string := Eval vm_compute in hex_of "page".
Definition asset_index : Assets := mkAssets 1 {[ "index.html" := page_digest ]}.

(** Decoding by the text. *)
Definition by_text {A} (table : list (string * A)) (s : string) : option A :=
  snd <$> List.find (fun p => bool_decide (fst p = s)) table.
#[local] Instance toy_codecs : ReleaseCodecs := {|
  codec_registry := toy_codec (by_text [("registry", mkRegistry 1 [entry_1; entry_2])]);
  codec_index := toy_codec (by_text [("index 1.0.0", index_for "1.0.0" digests_1); ("index 1.1.0", index_for "1.1.0" digests_2)]);
  codec_management := toy_codec (by_text [("management 1.0.0", management_for "1.0.0"); ("management 1.1.0", management_for "1.1.0")]);
  codec_declaration := toy_codec (by_text [("declaration 1.0.0", declaration_for "1.0.0"); ("declaration 1.1.0", declaration_for "1.1.0")]);
  codec_assets := toy_codec (by_text [("assets", asset_index)]);
  manifest_identity v := by_text [("manifest 1.0.0", ("app", "1.0.0")); ("manifest 1.1.0", ("app", "1.1.0"))] (text_of v);
  manifest_images _ := None;
  dashboard_registry _ := None |}.

Definition under (prefix v : string) : list (string * string) :=
  [(prefix +:+ "manifest", "manifest " +:+ v); (prefix +:+ "index", "index " +:+ v)]
  ++ ((fun p => (prefix +:+ fst p, snd p)) <$> files_of v).
Definition directory (l : list (string * string)) : Root := fun ref => by_text l ref.
Definition root_files : list (string * string) := Eval vm_compute in
  ("registry.json", "registry") :: under "one/" "1.0.0" ++ under "two/" "1.1.0".
Definition root_0 : Root := directory root_files.
Definition root_files' : list (string * string) := Eval vm_compute in under "" "1.0.0".
Definition root_1 : Root := directory root_files'.
Definition releases_0 : TransitionReleases := Some (root_0, "registry.json").

Definition material_1 : Material := Eval vm_compute in
  mkMaterial "manifest 1.0.0" "index 1.0.0" (list_to_map (files_of "1.0.0")).

Lemma decode_accepts_exact_shape_witness :
  Decode (A := Assets) (4 * MiB) "assets" = Some asset_index /\
  exists v, json_tokens "assets" = Some v /\ strict 33 v.
Proof.
  assert (Decode (A := Assets) (4 * MiB) "assets" = Some asset_index) as H by (vm_compute; reflexivity).
  split; [exact H |].
  destruct (decode_accepts_exact_shape (4 * MiB) "assets" asset_index H) as (_ & _ & _ & v & Hv & _ & Hs & _).
  exists v. split; assumption.
Defined.

Lemma verified_release_is_content_addressed_witness :
  transition_material root_0 entry_1 = Some material_1 /\ transition_material root_1 entry_1' = Some material_1 /\
  (material_1 = material_1 \/ collision material_1 material_1).
Proof.
  assert (transition_material root_0 entry_1 = Some material_1) as H1 by (vm_compute; reflexivity).
  assert (transition_material root_1 entry_1' = Some material_1) as H2 by (vm_compute; reflexivity).
  split; [exact H1 |]. split; [exact H2 |].
  exact (verified_release_is_content_addressed root_0 root_1 entry_1 entry_1' material_1 material_1 eq_refl H1 H2).
Defined.

Definition reader_actor : IdentityContext := mkActor "station" "session" "user" "org" ["admin"] ["app:read"; "app:manage"].
Definition reader_installation : Installation :=
  mkInstallation "inst" "app" "1.0.0" "station" "org" "installed" 1 "" zero_time zero_time.

Lemma transition_reader_is_exact_witness :
  Read releases_0 reader_actor reader_installation "app-2" = Ok (snapshot_1, snapshot_2) /\
  Resolve releases_0 "app" "1.1.0" "app-2" = Ok snapshot_2.
Proof.
  assert (Read releases_0 reader_actor reader_installation "app-2" = Ok (snapshot_1, snapshot_2)) as H by (vm_compute; reflexivity).
  split; [exact H |].
  destruct (transition_reader_is_exact releases_0 reader_actor reader_installation "app-2" snapshot_1 snapshot_2 H)
    as (_ & _ & _ & _ & _ & _ & _ & _ & _ & Hr).
  exact Hr.
Defined.
