(* ===== verification/Admission.v ===== *)
(** * Admitting constrained commands

    internal/operations/appcenter_admission.go (the operator's policies, [resolve],
    [Read]), appcenter_candidates.go (the candidates of the page) and appcenter.go
    ([AppCenterFacts]), with [transitionReleaseReader] of dashboard_transition.go.
    The registries are those of [Releases], the catalog is a record of the
    operations it offers ([market_catalog] builds it from a [Market]), and Runtime is
    its answer to an inspection. *)
From S2P Require Import Prelude GoStd Sha256 GoJson Uuid Observation Memory Identity Catalog Market SemVer AppFacts OperationTypes Transitions StrictJson Releases.
From Stdlib Require Import Ascii.

(** ** Policies *)
Record AppCenterReleasePolicy := mkPolicy {
  po_AppID : string; po_AppVersion : string; po_ReleaseKind : string; po_ReleaseRef : string; po_Actions : list string }.
Record PolicyConfig := mkPolicyConfig {
  pc_SchemaVersion : Z; pc_Enabled : option bool; pc_Releases : option (list AppCenterReleasePolicy) }.
(** The policy file: not configured, or what it reads and decodes as. *)
Definition PolicySource := option (option PolicyConfig).

Module AdmissionPatterns.
Import Regexp.
(** [^[a-z0-9][a-z0-9-]{0,62}$] *)
Definition app : re := Cat (Class lower_alnum) (upto 62 (Class CatalogPatterns.dash)).
End AdmissionPatterns.
Definition appCenterAppName (s : string) : bool := Regexp.matches AdmissionPatterns.app s.
Definition appCenterVersion (s : string) : bool := transitionVersion s.
Definition appCenterKubernetesName (s : string) : bool := dnsName s.

Definition lifecycle_kinds : list string := ["install"; "start"; "stop"; "restart"; "delete"].
Definition policy_valid (p : AppCenterReleasePolicy) : bool :=
  appCenterAppName (po_AppID p) && (len (po_AppVersion p) <=? 64) && appCenterVersion (po_AppVersion p)
  && slices_contains ["management-release"; "dashboard-release"] (po_ReleaseKind p) && transitionName (po_ReleaseRef p)
  && negb (length (po_Actions p) =? 0)%nat && (Z.of_nat (length (po_Actions p)) <=? 5)
  && scan_distinct (slices_contains lifecycle_kinds) (fun a => a) ∅ (po_Actions p).
Definition policy_key (p : AppCenterReleasePolicy) : string := po_AppID p +:+ "@" +:+ po_AppVersion p.

Definition policies (source : PolicySource) : result OpError (list AppCenterReleasePolicy) :=
  match source with
  | None => Err ErrAppCenterUnsupported
  | Some None => Err ErrAppCenterRelease
  | Some (Some cfg) =>
      match pc_Enabled cfg, pc_Releases cfg with
      | Some enabled, Some releases =>
          reject ErrAppCenterRelease when
            negb (pc_SchemaVersion cfg =? 1) || (128 <? Z.of_nat (length releases))
            || negb (scan_distinct policy_valid policy_key ∅ releases) ;;
          reject ErrAppCenterUnsupported when negb enabled ;;
          Ok releases
      | _, _ => Err ErrAppCenterRelease
      end
  end.

(** ** The source *)

(** What admission asks of the catalog. *)
Record CatalogReader := mkCatalogReader {
  cr_Entry : string -> option Entry;
  cr_ResolveHelm : string -> string -> option Helm;
  cr_CheckInstallGrant : string -> string -> string -> result MarketError bool }.

(** A market catalog as such a reader, given the answers it gets. *)
Definition market_catalog (cfg : option MarketConfig) (lookup : string -> string -> Lookup)
    (grant : option (Z * option Grant)) (m : Market) : CatalogReader :=
  mkCatalogReader
    (fun id => Entry_of (mkService (mk_entries m) None None) id)
    (fun appID version => snd (ResolveHelm (bool_decide (is_Some cfg)) appID version (lookup appID version) m))
    (CheckInstallGrant cfg grant).

Inductive RpcCode : Type := Unimplemented | FailedPrecondition | PermissionDenied | OtherCode.
Record AppCenterObservation := mkAppCenterObservation {
  ao_SchemaVersion : Z; ao_unknown : bool; ao_TemplateDigest : string; ao_Namespace : string;
  ao_WorkloadName : string; ao_WorkloadUid : string; ao_State : string }.
Record AppCenterInspection := mkInspection {
  ai_UserId : string; ai_OrganizationId : string; ai_StationId : string; ai_AppId : string; ai_AppVersion : string;
  ai_Action : string; ai_InstallationId : string; ai_TemplateDigest : string }.
(** [InspectBound]: an error code, or an observation that may be nil. *)
Definition AppCenterRuntime := AppCenterInspection -> result RpcCode (option AppCenterObservation).

Record AppCenterAdmissionSource := mkAdmissionSource {
  ad_Policies : PolicySource; ad_Catalog : option CatalogReader; ad_Management : TransitionReleases;
  ad_Dashboard : DashboardReleases; ad_Runtime : option AppCenterRuntime }.

Definition policy_json (p : AppCenterReleasePolicy) : json :=
  JObj [("appId", JStr (po_AppID p)); ("appVersion", JStr (po_AppVersion p)); ("releaseKind", JStr (po_ReleaseKind p));
        ("releaseRef", JStr (po_ReleaseRef p)); ("actions", jstrs (po_Actions p))].
Definition policy_revision (p : AppCenterReleasePolicy) (release template : string) : string :=
  Digest (JObj [("Protocol", JStr "studio.appcenter.admission.v1"); ("Policy", policy_json p);
                ("Release", JStr release); ("Template", JStr template)]).
Definition dashboard_entry_json (e : dashboardReleaseEntry) : json :=
  JObj [("appId", JStr (de_AppID e)); ("appVersion", JStr (de_AppVersion e)); ("releaseRef", JStr (de_ReleaseRef e));
        ("releaseIndexRef", JStr (de_ReleaseIndexRef e)); ("releaseDigest", JStr (de_ReleaseDigest e));
        ("manifestRef", JStr (de_ManifestRef e)); ("manifestDigest", JStr (de_ManifestDigest e));
        ("templateDigest", JStr (de_TemplateDigest e))].
Definition dashboard_release_digest (e : dashboardReleaseEntry) : string :=
  Digest (JObj [("Protocol", JStr "studio.appcenter.dashboard-release.v1"); ("Binding", dashboard_entry_json e)]).

Section Admission.
Context {U : UuidLib} {J : JsonLib} {R : ReleaseCodecs}.

(** The installation a command needs: none to install, an older version to upgrade,
    the same version for the others. *)
Definition installation_admits (catalog : option CatalogReader) (actor : IdentityContext) (c : Command)
    (installed : option Installation) : option OpError :=
  let own i := (i_StationID i =? u_StationID actor)%string && (i_OrganizationID i =? u_OrganizationID actor)%string
               && (i_AppID i =? c_AppID c)%string in
  if (c_Action c =? "install")%string then
    match installed with Some _ => Some ErrAppCenterBinding | None => None end
  else if (c_Action c =? "upgrade")%string then
    match installed with
    | None => Some ErrAppCenterBinding
    | Some i =>
        if negb (own i) || negb (VersionNewer (c_AppVersion c) (i_AppVersion i))
           || negb (i_State i =? "installed")%string then Some ErrAppCenterBinding
        else match catalog with
             | None => Some ErrAppCenterUnsupported
             | Some cat =>
                 match cr_Entry cat (c_AppID c) with
                 | Some e => if (en_Version e =? c_AppVersion c)%string then None else Some ErrAppCenterBinding
                 | None => Some ErrAppCenterBinding
                 end
             end
    end
  else if slices_contains ["start"; "stop"; "restart"; "delete"] (c_Action c) then
    match installed with
    | None => Some ErrAppCenterBinding
    | Some i =>
        if negb (own i) || negb (i_AppVersion i =? c_AppVersion c)%string || negb (i_State i =? "installed")%string
        then Some ErrAppCenterBinding else None
    end
  else Some ErrAppCenterUnsupported.

(** A release of the market: the policy is the catalog's current version. *)
Definition market_execution (cat : CatalogReader) (c : Command) (installed : option Installation) (helm : Helm) :
  AppCenterExecution :=
  let installedVer := match installed with Some i => i_AppVersion i | None => "" end in
  let '(ver, manifest, package) :=
    match cr_Entry cat (c_AppID c) with
    | Some e =>
        if (en_Version e =? "")%string then (c_AppVersion c, he_ManifestDigest helm, he_PackageDigest helm)
        else match en_Helm e with
             | Some h => if negb (he_ManifestDigest h =? "")%string && negb (he_PackageDigest h =? "")%string
                         then (en_Version e, he_ManifestDigest h, he_PackageDigest h)
                         else (en_Version e, he_ManifestDigest helm, he_PackageDigest helm)
             | None => (en_Version e, he_ManifestDigest helm, he_PackageDigest helm)
             end
    | None => (c_AppVersion c, he_ManifestDigest helm, he_PackageDigest helm)
    end in
  let policy := mkPolicy (c_AppID c) ver "oci-chart" installedVer
                  ["delete"; "install"; "restart"; "start"; "stop"; "upgrade"] in
  mkExecution (c_AppID c) (c_AppVersion c) (c_Action c) 1 (he_ManifestDigest helm) (he_PackageDigest helm)
    (policy_revision policy manifest package) "" true.

(** A release of the operator's registries. *)
Definition registered_execution (s : AppCenterAdmissionSource) (c : Command) : result OpError AppCenterExecution :=
  releases ← policies (ad_Policies s);
  match last_such (fun p => (po_AppID p =? c_AppID c)%string && (po_AppVersion p =? c_AppVersion c)%string) releases with
  | None => Err ErrAppCenterRelease
  | Some p =>
      reject ErrAppCenterUnsupported when negb (slices_contains (po_Actions p) (c_Action c)) ;;
      let policy := mkPolicy (po_AppID p) (po_AppVersion p) (po_ReleaseKind p) (po_ReleaseRef p) (sort_strings (po_Actions p)) in
      '(release, template) ←
        (if (po_ReleaseKind p =? "management-release")%string then
           match Resolve (ad_Management s) (po_AppID p) (po_AppVersion p) (po_ReleaseRef p) with
           | Ok snapshot => Ok (s_ReleaseDigest snapshot, s_TemplateDigest snapshot)
           | Err _ => Err ErrAppCenterRelease
           end
         else if (po_ReleaseKind p =? "dashboard-release")%string then
           match dashboard_Resolve (ad_Dashboard s) (po_AppID p) (po_AppVersion p) (po_ReleaseRef p) with
           | Ok binding => Ok (dashboard_release_digest binding, de_TemplateDigest binding)
           | Err _ => Err ErrAppCenterRelease
           end
         else Ok ("", ""));
      Ok (mkExecution (po_AppID p) (po_AppVersion p) (c_Action c) 1 release template
            (policy_revision policy release template) "" false)
  end.

Definition admission_rights (actor : IdentityContext) (c : Command) : bool :=
  slices_contains (u_Roles actor) "admin" && slices_contains (u_Scopes actor) "app:manage"
  && slices_contains (u_Scopes actor) "app:read" && (u_StationID actor =? c_StationID c)%string
  && (u_OrganizationID actor =? c_OrganizationID c)%string.

(** [resolve]; a nil source has no catalog and no policies. *)
Definition resolve (source : option AppCenterAdmissionSource) (actor : IdentityContext) (c : Command)
    (installed : option Installation) : result OpError AppCenterExecution :=
  let catalog := s ← source; ad_Catalog s in
  reject Denied when negb (admission_rights actor c) ;;
  match installation_admits catalog actor c installed with
  | Some e => Err e
  | None =>
      match catalog with
      | Some cat =>
          match cr_ResolveHelm cat (c_AppID c) (c_AppVersion c) with
          | Some helm => Ok (market_execution cat c installed helm)
          | None => match source with Some s => registered_execution s c | None => Err ErrAppCenterUnsupported end
          end
      | None => match source with Some s => registered_execution s c | None => Err ErrAppCenterUnsupported end
      end
  end.

(** ** The live preflight *)

Definition observation_bound (x : AppCenterExecution) (o : AppCenterObservation) : bool :=
  (ao_SchemaVersion o =? 1) && negb (ao_unknown o) && (ao_TemplateDigest o =? x_TemplateDigest x)%string
  && (len (ao_Namespace o) <=? 63) && appCenterKubernetesName (ao_Namespace o)
  && (len (ao_WorkloadName o) <=? 63) && appCenterKubernetesName (ao_WorkloadName o).

(** The state a command may start from. *)
Definition state_admits (action state : string) : bool :=
  if (action =? "start")%string then (state =? "stopped")%string
  else if (action =? "stop")%string then (state =? "running")%string
  else slices_contains ["restart"; "delete"; "upgrade"] action && slices_contains ["running"; "stopped"] state.

Definition with_workload (uid : string) (x : AppCenterExecution) : AppCenterExecution :=
  mkExecution (x_AppID x) (x_AppVersion x) (x_Action x) (x_SchemaVersion x) (x_ReleaseDigest x) (x_TemplateDigest x)
    (x_PolicyRevision x) uid (x_marketRelease x).

Definition install_grant (s : AppCenterAdmissionSource) (actor : IdentityContext) (c : Command) (x : AppCenterExecution) :
  result OpError unit :=
  if slices_contains ["install"; "upgrade"] (c_Action c) && x_marketRelease x then
    match ad_Catalog s with
    | None => Err ErrAppCenterUnavailable
    | Some cat =>
        match cr_CheckInstallGrant cat (c_AppID c) (c_AppVersion c) (u_OrganizationID actor) with
        | Err _ => Err ErrAppCenterUnavailable
        | Ok allowed => if allowed then Ok () else Err Denied
        end
    end
  else Ok ().

Definition rpc_error (code : RpcCode) : OpError :=
  match code with
  | Unimplemented => ErrAppCenterDispatch
  | FailedPrecondition => ErrAppCenterBinding
  | PermissionDenied => Denied
  | OtherCode => ErrAppCenterUnavailable
  end.

Definition Read (s : AppCenterAdmissionSource) (actor : IdentityContext) (c : Command) (installed : option Installation) :
  result OpError (AppCenterExecution * AppCenterObservation) :=
  x ← resolve (Some s) actor c installed;
  _ ← install_grant s actor c x;
  match ad_Runtime s with
  | None => Err ErrAppCenterDispatch
  | Some inspect =>
      match inspect (mkInspection (u_UserID actor) (u_OrganizationID actor) (u_StationID actor) (c_AppID c)
                       (c_AppVersion c) (c_Action c) (match installed with Some i => i_InstallationID i | None => "" end)
                       (x_TemplateDigest x)) with
      | Err code => Err (rpc_error code)
      | Ok None => Err ErrAppCenterBinding
      | Ok (Some o) =>
          reject ErrAppCenterBinding when negb (observation_bound x o) ;;
          if (c_Action c =? "install")%string then
            reject ErrAppCenterBinding when negb (ao_State o =? "absent")%string || negb (ao_WorkloadUid o =? "")%string ;;
            Ok (with_workload (ao_WorkloadUid o) x, o)
          else
            reject ErrAppCenterBinding when negb (validID (ao_WorkloadUid o)) ;;
            reject ErrAppCenterUnsupported when
              negb (slices_contains ["start"; "stop"; "restart"; "delete"; "upgrade"] (c_Action c)) ;;
            reject ErrAppCenterBinding when negb (state_admits (c_Action c) (ao_State o)) ;;
            Ok (with_workload (ao_WorkloadUid o) x, o)
      end
  end.
Definition Admit (s : AppCenterAdmissionSource) (actor : IdentityContext) (c : Command) (installed : option Installation) :
  result OpError AppCenterExecution :=
  '(x, _) ← Read s actor c installed; Ok x.

(** [transitionReleaseReader]: the policy that names the release selects its source. *)
Definition transitionReleaseReader (source : option AppCenterAdmissionSource) (releases : TransitionReleases) :
  TransitionReader := fun u installed ref =>
  match source with
  | None => Releases.Read releases u installed ref
  | Some s =>
      ps ← policies (ad_Policies s);
      match List.find (fun p => (po_AppID p =? i_AppID installed)%string && (po_ReleaseRef p =? ref)%string
                                && (po_ReleaseKind p =? "dashboard-release")%string) ps with
      | None => Releases.Read releases u installed ref
      | Some p =>
          match ReadTransition (ad_Dashboard s) u installed ref with
          | Ok (a, b) => if (s_AppVersion b =? po_AppVersion p)%string then Ok (a, b) else Err ErrAppCenterRelease
          | Err _ => Err ErrAppCenterRelease
          end
      end
  end.

(** ** Candidates *)

Definition appCenterAdmissionReason (e : OpError) : string :=
  match e with
  | Denied => "PERMISSION_DENIED"
  | ErrAppCenterUnsupported => "ACTION_UNSUPPORTED"
  | ErrAppCenterRelease => "RELEASE_UNVERIFIED"
  | ErrAppCenterDispatch => "APPCENTER_EXECUTION_BINDING_UNSUPPORTED"
  | ErrAppCenterBinding => "APPCENTER_BINDING_CHANGED"
  | _ => "APPCENTER_DEPENDENCY_UNAVAILABLE"
  end.

Definition set_candidates (l : list Candidate) (f : Fact) : Fact :=
  with_lifecycle (mkLifecycle (li_PolicyRevision (fa_Lifecycle f)) l) f.
Definition set_policy (revision : string) (f : Fact) : Fact :=
  with_lifecycle (mkLifecycle revision (li_Candidates (fa_Lifecycle f))) f.
Definition candidate_with (enabled : bool) (reason : option string) (c : Candidate) : Candidate :=
  mkCandidateFact (ca_Kind c) enabled reason (ca_AppVersion c) (ca_ReleaseDigest c) (ca_ExpectedWorkloadUID c).

Definition is_upgradable (f : Fact) (i : AppFacts.Installation) : bool :=
  match fa_Catalog f with
  | Some c => bool_decide (is_Some (en_Helm (it_Entry c))) && VersionNewer (en_Version (it_Entry c)) (in_AppVersion i)
  | None => false
  end.

(** The kinds a fact may offer, the version and the installation they act on. *)
Definition offered (actor : IdentityContext) (f : Fact) : list string * string * option Installation :=
  match fa_Installation f with
  | Some i =>
      if (in_State i =? "installed")%string then
        let kinds :=
          if (sf_State (fa_Service f) =? "stopped")%string then ["start"; "delete"]
          else if slices_contains ["ready"; "degraded"; "running"; "starting"] (sf_State (fa_Service f))
          then ["stop"; "restart"; "delete"] else [] in
        ((kinds ++ if negb (length kinds =? 0)%nat && is_upgradable f i then ["upgrade"] else [])%list,
         in_AppVersion i,
         Some (mkInstallation (in_InstallationID i) (fa_AppID f) (in_AppVersion i) (u_StationID actor)
                 (u_OrganizationID actor) (in_State i) (in_Revision i) "" zero_time zero_time))
      else ([], "", None)
  | None =>
      match fa_Catalog f with
      | Some c =>
          if (fa_Origin f =? "catalog")%string && (sf_State (fa_Service f) =? "absent")%string
          then (["install"], en_Version (it_Entry c), None) else ([], "", None)
      | None => ([], "", None)
      end
  end.

(** The workload evidence of the fact against the release. *)
Definition evidence (f : Fact) (kind : string) (x : AppCenterExecution) : string * AppCenterExecution :=
  let changed := ("APPCENTER_BINDING_CHANGED"%string, x) in
  if slices_contains ["start"; "stop"; "restart"; "delete"; "upgrade"] kind then
    match sf_WorkloadUID (fa_Service f), fa_Catalog f with
    | Some uid, Some c =>
        let templateHash := go_get (ob_Ownership (it_Deployment c)) (station_key "template-hash") in
        let hashOK := (templateHash =? trim_prefix (x_TemplateDigest x) "sha256:")%string
                      || (bool_decide (is_Some (en_Helm (it_Entry c))) && (len templateHash =? 64)) in
        if (ob_UID (it_Deployment c) =? uid)%string && hashOK then (""%string, with_workload uid x) else changed
    | _, _ => changed
    end
  else match sf_WorkloadUID (fa_Service f) with Some _ => changed | None => (""%string, x) end.

(** One turn of the loop over the kinds. *)
Definition project_kind (s : AppCenterAdmissionSource) (actor : IdentityContext) (version : string)
    (installation : option Installation) (f : Fact) (kind : string) : Fact :=
  let targetVersion := match fa_Catalog f with
                       | Some c => if (kind =? "upgrade")%string then en_Version (it_Entry c) else version
                       | None => version
                       end in
  let answer :=
    match resolve (Some s) actor
            (mkCommand "" "" "" (u_OrganizationID actor) (u_StationID actor) (fa_AppID f) targetVersion kind) installation with
    | Ok x => if bool_decide (is_Some (ad_Runtime s)) then Ok x else Err ErrAppCenterDispatch
    | Err e => Err e
    end in
  match answer with
  | Err e =>
      let reason := appCenterAdmissionReason e in
      let f := if (li_PolicyRevision (fa_Lifecycle f) =? "")%string
               then set_policy (Digest (jstrs ["studio.appcenter.admission-unavailable.v1"; fa_AppID f; version; reason])) f
               else f in
      set_candidates ((fun c => if (ca_Kind c =? kind)%string then candidate_with false (Text reason) c else c)
                      <$> li_Candidates (fa_Lifecycle f)) f
  | Ok x =>
      let '(reason, x') := evidence f kind x in
      let f := set_policy (x_PolicyRevision x) f in
      set_candidates ((fun c =>
          if negb (ca_Kind c =? kind)%string then c
          else if (reason =? "")%string
          then mkCandidateFact (ca_Kind c) true None (ca_AppVersion c) (Text (x_ReleaseDigest x')) (Text (x_WorkloadUID x'))
          else candidate_with false (Text reason) c) <$> li_Candidates (fa_Lifecycle f)) f
  end.

(** A fresh observation: at most 15 s old, at most 2 s in the future. *)
Definition fresh (now : Time) (s : Service) : bool :=
  (sf_Quality s =? "known")%string &&
  match sf_ObservedAt s with
  | Some at_ => negb (time_after at_ (now + 2 * second)) && time_before now (at_ + 15 * second)
  | None => false
  end.

Definition projectable (actor : IdentityContext) (f : Fact) : bool :=
  slices_contains (u_Scopes actor) "app:manage" && negb (of_Blocking (fa_Operation f))
  && (of_Quality (fa_Operation f) =? "known")%string && (fa_InstallationQuality f =? "known")%string
  && negb (fa_Origin f =? "observation")%string.

Definition projectCandidate (s : AppCenterAdmissionSource) (actor : IdentityContext) (f : Fact) (foreign : bool)
    (now : Time) : Fact :=
  if negb (projectable actor f) then f
  else if foreign then
    set_candidates (candidate_with false (Text "INSTALLATION_STATE_CONFLICT") <$> li_Candidates (fa_Lifecycle f)) f
  else if negb (fresh now (fa_Service f)) then f
  else
    let '(kinds, version, installation) := offered actor f in
    foldl (project_kind s actor version installation) f kinds.

(** [project]: every fact by one worker, then the revision of the whole; [clock] is
    when the worker reads it. *)
Definition project (source : option AppCenterAdmissionSource) (actor : IdentityContext) (facts : Facts)
    (foreign : gset string) (clock : nat -> Time) : Facts :=
  match source with
  | None => facts
  | Some s =>
      RecomputeRevision
        (mkFacts (fs_SchemaVersion facts) (fs_RequestID facts) (fs_Scope facts) (fs_Revision facts) (fs_GeneratedAt facts)
           (fs_Sources facts)
           (imap (fun i f => projectCandidate s actor f (bool_decide (fa_AppID f ∈ foreign)) (clock i)) (fs_Items facts)))
  end.
End Admission.

(** ** Reading the facts *)
Section AppCenterFacts.
Context {U : UuidLib} {J : JsonLib} {R : ReleaseCodecs}.

Definition actor_of (u : Identity.IdentityContext) : IdentityContext :=
  mkActor (ic_StationID u) (ic_SessionID u) (ic_UserID u) (ic_OrganizationID u) (ic_Roles u) (ic_Scopes u).

(** The installations of the organization that are not removed, by identifier. *)
Definition facts_installations (db : DB) (station org : string) : list InstallationRecord :=
  take 1001 ((fun i => mkRecord (i_AppID i)
      (mkInstalled (i_InstallationID i) (i_Revision i) (i_AppVersion i) (i_State i) (Text (i_LastOperationID i))))
    <$> sort_by i_InstallationID
          (filter (fun i => i_StationID i = station /\ i_OrganizationID i = org /\ i_State i <> "removed")
             (snd <$> map_to_list (app_installations db)))).

Definition last_operation_of (db : DB) (station org id : string) : bool :=
  existsb (fun i => (i_StationID i =? station)%string && (i_OrganizationID i =? org)%string
                    && negb (i_State i =? "removed")%string && (i_LastOperationID i =? id)%string)
    (snd <$> map_to_list (app_installations db)).

(** The unfinished operations and transitions of the station, and the actor's own
    last operations. *)
Definition facts_operations (db : DB) (station user org : string) : list OperationRecord :=
  take 1001 (sort_by or_AppID (sort_by or_OperationID
    (((fun o => mkOperationRecord (o_AppID o) (o_OperationID o) (o_UserID o) (o_OrganizationID o) "lifecycle"
                  (o_Status o) (o_Phase o) (o_UpdatedAt o))
      <$> filter (fun o => o_StationID o = station /\
                    (o_Status o ∈ ["accepted"; "running"] \/
                     (o_UserID o = user /\ o_OrganizationID o = org /\ last_operation_of db station org (o_OperationID o) = true)))
            (snd <$> map_to_list (app_operations db)))
     ++ ((fun r => mkOperationRecord (tr_AppID r) (t_OperationID (tr_T r)) (tr_UserID r) (tr_OrganizationID r) "transition"
                     (t_Status (tr_T r)) (t_Phase (tr_T r)) (t_UpdatedAt (tr_T r)))
         <$> filter (fun r => tr_StationID r = station /\ terminal (t_Status (tr_T r)) = false)
               (snd <$> map_to_list (app_installation_transitions db))))%list)).

(** Applications another organization has installed. *)
Definition foreign_apps (db : DB) (station org : string) : gset string :=
  list_to_set (i_AppID <$> filter (fun i => i_StationID i = station /\ i_OrganizationID i <> org /\ i_State i <> "removed")
    (snd <$> map_to_list (app_installations db))).

Definition view_service (v : MemoryView) : Service :=
  let r := v_Runtime v in
  mkServiceFact (rt_Quality r) (rt_State r) (rt_ObservedAt r) (Text (rt_ReasonCode r))
    (match v_Resource v with
     | Some o => Text ("obs:" +:+ digest_hex (jstrs [ro_Namespace o; ro_Name o; ro_UID o]))
     | None => None
     end)
    (match v_Resource v with Some o => Text (ro_UID o) | None => None end).

(** One repeatable-read transaction, then the facts: [connected] tells whether every
    statement was answered, [snapshot] is [CatalogSnapshot]'s answer for the same
    transaction. A foreign set of more than 1000 applications is refused; the
    query stops at 1001. *)
Definition AppCenterFacts (station : string) (source : option AppCenterAdmissionSource) (connected : bool)
    (user : Identity.IdentityContext) (requestID : string) (db : DB)
    (snapshot : option (list SnapshotItem * gmap string MemoryView)) (now : Time) (clock : nat -> Time) :
  result FactsError Facts :=
  let org := ic_OrganizationID user in
  reject AppFacts.Denied when negb (canReadInstallations station (actor_of user)) ;;
  reject ErrUnavailable when negb connected ;;
  let installations := facts_installations db station org in
  reject ErrLimit when 1000 <? Z.of_nat (length installations) ;;
  let operations := facts_operations db station (ic_UserID user) org in
  reject ErrLimit when 1000 <? Z.of_nat (length operations) ;;
  let foreign := if bool_decide (is_Some source) then foreign_apps db station org else ∅ in
  reject ErrLimit when 1000 <? Z.of_nat (size foreign) ;;
  match snapshot with
  | None => Err ErrUnavailable
  | Some (catalogItems, views) =>
      facts ← BuildState user requestID now catalogItems installations operations (view_service <$> views);
      Ok (project source (actor_of user) facts foreign clock)
  end.
End AppCenterFacts.
