(* ===== verification/AdmissionSafety.v ===== *)
(** * What admission lets through

    Theorems about [Admission]: a candidate that the page enables is backed by the
    actor's rights, fresh evidence and a resolved release, and a command that the
    live preflight admits is bound to the inspected workload. *)
From S2P Require Import Prelude GoStd Sha256 GoJson Uuid Observation Memory Identity Catalog Market SemVer AppFacts OperationTypes Transitions StrictJson Releases Admission AppFactsSafety.
From Stdlib Require Import Ascii.

Section Candidates.
Context {U : UuidLib} {J : JsonLib} {R : ReleaseCodecs}.
Variables (s : AppCenterAdmissionSource) (actor : IdentityContext).

(** A fact up to its lifecycle. *)
Definition same_fact (f g : Fact) : Prop := with_lifecycle no_lifecycle f = with_lifecycle no_lifecycle g.
#[local] Instance same_fact_equiv : Equivalence same_fact.
Proof. unfold same_fact. split; [by intros f | by intros f g | by intros f g h -> ->]. Qed.

Lemma same_fact_parts f g : same_fact f g ->
  fa_Catalog f = fa_Catalog g /\ fa_AppID f = fa_AppID g /\ fa_Service f = fa_Service g /\
  fa_Installation f = fa_Installation g /\ fa_Origin f = fa_Origin g.
Proof. unfold same_fact, with_lifecycle. intros [=]. auto. Qed.

Definition target_version (f : Fact) (kind version : string) : string :=
  match fa_Catalog f with
  | Some c => if (kind =? "upgrade")%string then en_Version (it_Entry c) else version
  | None => version
  end.
Definition candidate_command (f : Fact) (kind version : string) : Command :=
  mkCommand "" "" "" (u_OrganizationID actor) (u_StationID actor) (fa_AppID f) (target_version f kind version) kind.

(** Why a candidate of kind [kind] may be enabled. *)
Definition backed (f : Fact) (version : string) (installation : option Installation) (k : Candidate) : Prop :=
  exists x x', resolve (Some s) actor (candidate_command f (ca_Kind k) version) installation = Ok x /\
    is_Some (ad_Runtime s) /\ evidence f (ca_Kind k) x = ("", x') /\
    ca_ReleaseDigest k = Text (x_ReleaseDigest x') /\ ca_ExpectedWorkloadUID k = Text (x_WorkloadUID x').

(** What the loop keeps: the fact, the kinds and versions of its candidates, and a
    reason for every enabled one. *)
Definition loop_ok (f0 : Fact) (kinds : list string) (version : string) (installation : option Installation) (f : Fact) : Prop :=
  same_fact f f0 /\
  forall k, k ∈ li_Candidates (fa_Lifecycle f) ->
    (exists k0, k0 ∈ li_Candidates (fa_Lifecycle f0) /\ ca_Kind k0 = ca_Kind k /\ ca_AppVersion k0 = ca_AppVersion k) /\
    (ca_Enabled k = true -> ca_Kind k ∈ kinds /\ backed f0 version installation k).

Lemma evidence_same f g kind x : same_fact f g -> evidence f kind x = evidence g kind x.
Proof. intros (Hc & _ & Hs & _)%same_fact_parts. unfold evidence. by rewrite Hc, Hs. Qed.

Lemma project_kind_ok f0 kinds version installation kind f :
  kind ∈ kinds -> loop_ok f0 kinds version installation f ->
  loop_ok f0 kinds version installation (project_kind s actor version installation f kind).
Proof.
  intros Hkind [Hsame Hc]. pose proof (same_fact_parts _ _ Hsame) as (Hcat & Happ & _).
  unfold project_kind. fold (target_version f kind version).
  fold (candidate_command f kind version).
  assert (candidate_command f kind version = candidate_command f0 kind version) as Hcmd.
  { unfold candidate_command, target_version. by rewrite Hcat, Happ. }
  rewrite Hcmd. destruct (resolve _ _ (candidate_command f0 kind version) _) as [x | e] eqn:Er.
  - destruct (bool_decide (is_Some (ad_Runtime s))) eqn:Ert.
    + rewrite (evidence_same f f0) by done. destruct (evidence f0 kind x) as [reason x'] eqn:Ee. split; [done |].
      intros k (k1 & -> & Hk1)%list_elem_of_fmap. destruct (Hc k1 Hk1) as [H1 H2].
      destruct (ca_Kind k1 =? kind)%string eqn:Ek; [| by split]. bool_norm. subst kind. cbn [negb].
      destruct (reason =? "")%string eqn:Erz; [bool_norm; subst reason | by split].
      split; [done |]. intros _. split; [done |]. exists x, x'. auto.
    + split; [by destruct (_ =? _)%string |].
      intros k (k1 & -> & Hk1)%list_elem_of_fmap.
      assert (k1 ∈ li_Candidates (fa_Lifecycle f)) as Hk1' by (revert Hk1; by destruct (_ =? _)%string).
      destruct (Hc k1 Hk1') as [H1 H2]. destruct (ca_Kind k1 =? kind)%string; by split.
  - split; [by destruct (_ =? _)%string |].
    intros k (k1 & -> & Hk1)%list_elem_of_fmap.
    assert (k1 ∈ li_Candidates (fa_Lifecycle f)) as Hk1' by (revert Hk1; by destruct (_ =? _)%string).
    destruct (Hc k1 Hk1') as [H1 H2]. destruct (ca_Kind k1 =? kind)%string; by split.
Qed.

Lemma project_loop_ok f0 kinds version installation rest : forall f,
  (forall kind, kind ∈ rest -> kind ∈ kinds) -> loop_ok f0 kinds version installation f ->
  loop_ok f0 kinds version installation (foldl (project_kind s actor version installation) f rest).
Proof.
  induction rest as [| kind rest IH]; intros f Hin Hf; simpl; [done |].
  apply IH; [intros x Hx; apply Hin; by right |]. apply project_kind_ok; [apply Hin; left | done].
Qed.
End Candidates.

Section Enabled.
Context {U : UuidLib} {J : JsonLib} {R : ReleaseCodecs}.

(** The version of a base candidate. *)
Definition fact_version (f : Fact) : string :=
  match fa_Installation f with
  | Some i => in_AppVersion i
  | None => match fa_Catalog f with Some c => en_Version (it_Entry c) | None => "" end
  end.
Lemma base_candidate_version user f k :
  k ∈ li_Candidates (fa_Lifecycle (base_candidates user f)) ->
  ca_Enabled k = false /\ ca_AppVersion k = target_version f (ca_Kind k) (fact_version f).
Proof.
  unfold base_candidates. cbn [fa_Lifecycle with_lifecycle li_Candidates]. fold (fact_version f).
  destruct (_ || _); [by intros ?%elem_of_nil |].
  intros [(kind & -> & Hk)%list_elem_of_fmap | H]%elem_of_app; unfold target_version; simpl.
  - split; [done |]. destruct (fa_Catalog f); [| done]. destruct (kind =? "upgrade")%string eqn:E; [| done].
    bool_norm. subst. exfalso. revert Hk. rewrite !elem_of_cons, elem_of_nil. naive_solver.
  - destruct (fa_Installation f) as [i |], (fa_Catalog f) as [c |]; try by apply elem_of_nil in H.
    destruct (_ && _); [| by apply elem_of_nil in H]. apply list_elem_of_singleton in H as ->. done.
Qed.

(** What the evidence of an enabled candidate says. *)
Lemma evidence_ok f kind x x' : evidence f kind x = ("", x') ->
  x_ReleaseDigest x' = x_ReleaseDigest x /\
  ((kind ∈ ["start"; "stop"; "restart"; "delete"; "upgrade"] /\
    exists uid c, sf_WorkloadUID (fa_Service f) = Some uid /\ fa_Catalog f = Some c /\
      ob_UID (it_Deployment c) = uid /\ x_WorkloadUID x' = uid) \/
   (kind ∉ ["start"; "stop"; "restart"; "delete"; "upgrade"] /\ sf_WorkloadUID (fa_Service f) = None)).
Proof.
  unfold evidence. destruct (slices_contains _ kind) eqn:Ek.
  - apply slices_contains_true in Ek.
    destruct (sf_WorkloadUID (fa_Service f)) as [uid |], (fa_Catalog f) as [c |]; try done.
    destruct (_ && _) eqn:E; [| done]. bool_norm. intros [= <-]. split; [done |]. left. split; [done |]. eauto 10.
  - apply slices_contains_false in Ek. destruct (sf_WorkloadUID (fa_Service f)); [done |].
    intros [= <-]. split; [done |]. by right.
Qed.

(** What a fact may offer. *)
Lemma offered_spec actor f kinds version installation kind :
  offered actor f = (kinds, version, installation) -> kind ∈ kinds ->
  version = fact_version f /\
  ((kind = "install" /\ fa_Installation f = None /\ fa_Origin f = "catalog" /\ sf_State (fa_Service f) = "absent") \/
   (exists i, fa_Installation f = Some i /\ in_State i = "installed" /\
      kind ∈ ["start"; "stop"; "restart"; "delete"; "upgrade"] /\
      (kind = "start" -> sf_State (fa_Service f) = "stopped") /\
      (kind ∈ ["stop"; "restart"] -> sf_State (fa_Service f) ∈ ["ready"; "degraded"; "running"; "starting"]) /\
      (kind = "upgrade" -> is_upgradable f i = true))).
Proof.
  unfold offered, fact_version. destruct (fa_Installation f) as [i |].
  - destruct (in_State i =? "installed")%string eqn:E; [| intros [= <- <- <-] H; by apply elem_of_nil in H].
    bool_norm. intros [= <- <- <-] Hk. split; [done |]. right. exists i. split; [done |]. split; [done |].
    destruct (sf_State (fa_Service f) =? "stopped")%string eqn:E1; bool_norm;
      [| destruct (slices_contains _ _) eqn:E2;
         [apply slices_contains_true in E2 | by apply elem_of_nil in Hk]];
      (apply elem_of_app in Hk as [Hk | Hk];
       [| destruct (_ && _) eqn:Eu; [bool_norm; apply list_elem_of_singleton in Hk as -> | by apply elem_of_nil in Hk]]);
      set_solver.
  - destruct (fa_Catalog f) as [c |]; [| intros [= <- <- <-] H; by apply elem_of_nil in H].
    destruct (_ && _) eqn:E; [| intros [= <- <- <-] H; by apply elem_of_nil in H]. bool_norm.
    intros [= <- <- <-] ->%list_elem_of_singleton. split; [done |]. left. done.
Qed.

(** C23: a candidate the page enables is backed. The actor holds app:manage, nothing
    blocks the application and no other organization installed it; the observation
    is known, at most 15 s old and at most 2 s ahead; Runtime is configured and the
    resolver returned the very release the candidate names for that kind and
    version; an install has no installation, no workload and an absent service;
    every other kind acts on the installed version (an upgrade on a strictly newer
    one), from a state it applies to, bound to the observed workload. *)
Theorem enabled_candidate_is_backed s actor user f0 foreign now k :
  let f := base_candidates user f0 in
  k ∈ li_Candidates (fa_Lifecycle (projectCandidate s actor f foreign now)) -> ca_Enabled k = true ->
  foreign = false /\ projectable actor f = true /\ fresh now (fa_Service f) = true /\ is_Some (ad_Runtime s) /\
  exists c x installation,
    resolve (Some s) actor c installation = Ok x /\ admission_rights actor c = true /\
    c_Action c = ca_Kind k /\ c_AppID c = fa_AppID f /\ c_AppVersion c = ca_AppVersion k /\
    ca_ReleaseDigest k = Text (x_ReleaseDigest x) /\
    ((ca_Kind k = "install" /\ fa_Installation f = None /\ fa_Origin f = "catalog" /\
      sf_State (fa_Service f) = "absent" /\ sf_WorkloadUID (fa_Service f) = None) \/
     (exists i cat uid, fa_Installation f = Some i /\ in_State i = "installed" /\ fa_Catalog f = Some cat /\
        sf_WorkloadUID (fa_Service f) = Some uid /\ ob_UID (it_Deployment cat) = uid /\ ca_ExpectedWorkloadUID k = Text uid /\
        (ca_Kind k = "start" -> sf_State (fa_Service f) = "stopped") /\
        (ca_Kind k ∈ ["stop"; "restart"] -> sf_State (fa_Service f) ∈ ["ready"; "degraded"; "running"; "starting"]) /\
        (ca_Kind k = "upgrade" -> VersionNewer (ca_AppVersion k) (in_AppVersion i) = true))).
Proof.
  intros f. unfold projectCandidate. destruct (negb (projectable actor f)) eqn:Ep.
  { intros Hk He. apply base_candidate_version in Hk as [? _]. congruence. }
  destruct foreign; [intros (k0 & -> & _)%list_elem_of_fmap; done |].
  destruct (negb (fresh now (fa_Service f))) eqn:Ef.
  { intros Hk He. apply base_candidate_version in Hk as [? _]. congruence. }
  destruct (offered actor f) as [[kinds version] installation] eqn:Eo. intros Hk He. bool_norm.
  assert (loop_ok s actor f kinds version installation f) as H0.
  { split; [done |]. intros k1 Hk1. split; [eauto |]. apply base_candidate_version in Hk1 as [? _]. congruence. }
  pose proof (project_loop_ok s actor f kinds version installation kinds f (fun _ H => H) H0) as [_ Hl].
  destruct (Hl k Hk) as [(k0 & Hk0 & Hkind & Hver) H2]. destruct (H2 He) as [Hin (x & x' & Hr & Hrt & Hev & Hd & Hu)].
  apply base_candidate_version in Hk0 as [_ Hv0].
  destruct (offered_spec _ _ _ _ _ _ Eo Hin) as [-> Hoff].
  apply evidence_ok in Hev as [Hrel Hev].
  split_and!; try done. eexists _, x, installation. split; [exact Hr |].
  assert (admission_rights actor (candidate_command actor f (ca_Kind k) (fact_version f)) = true) as Hrights.
  { unfold resolve in Hr. by destruct (admission_rights _ _). }
  assert (target_version f (ca_Kind k) (fact_version f) = ca_AppVersion k) as Htv.
  { rewrite <- Hver, Hv0, Hkind. done. }
  split_and!; try done; [by rewrite Hd, Hrel |].
  destruct Hoff as [(Hi & Hn & Ho & Hs) | (i & Hi & Hst & Hkinds & H3 & H4 & H5)].
  - left. destruct Hev as [[Hbad _] | [_ Hnone]]; [| done].
    rewrite Hi in Hbad. exfalso. revert Hbad. rewrite !elem_of_cons, elem_of_nil. naive_solver.
  - right. destruct Hev as [(_ & uid & cat & Hsw & Hcat & Huid & Hx) | [Hbad _]]; [| done].
    exists i, cat, uid. split_and!; try done; [by rewrite Hu, Hx |].
    intros Eup. specialize (H5 Eup). revert H5. unfold is_upgradable. rewrite Hcat. intros H5. bool_norm.
    rewrite <- Htv, Eup. unfold target_version. by rewrite Hcat.
Qed.
End Enabled.

Section AdmittedCommand.
Context {U : UuidLib} {J : JsonLib} {R : ReleaseCodecs}.

(** An execution is for the command it was resolved for. *)
Definition for_command (c : Command) (x : AppCenterExecution) : Prop :=
  x_AppID x = c_AppID c /\ x_AppVersion x = c_AppVersion c /\ x_Action x = c_Action c /\ x_SchemaVersion x = 1.

Lemma registered_execution_for s c x : registered_execution s c = Ok x -> for_command c x /\ x_marketRelease x = false.
Proof.
  unfold registered_execution. destruct (policies _) as [ps | e]; [| done]. cbn [mbind result_bind].
  destruct (last_such _ ps) as [p |] eqn:El; [| done].
  destruct (negb (slices_contains _ _)); [done |].
  destruct (if (po_ReleaseKind p =? _)%string then _ else _) as [[release template] | e]; [| done].
  cbn [mbind result_bind]. intros [= <-]. split; [| done].
  unfold last_such in El. apply last_Some in El as (l & El).
  assert (In p (List.filter (fun q => (po_AppID q =? c_AppID c)%string && (po_AppVersion q =? c_AppVersion c)%string) ps)) as Hin
    by (rewrite El; apply in_or_app; right; by left).
  apply filter_In in Hin as [_ H]. bool_norm. done.
Qed.

Lemma resolve_for s actor c installed x : resolve (Some s) actor c installed = Ok x ->
  admission_rights actor c = true /\ installation_admits (ad_Catalog s) actor c installed = None /\ for_command c x.
Proof.
  unfold resolve. cbn [mbind option_bind]. destruct (admission_rights actor c) eqn:Er; [| done]. cbn [negb].
  destruct (installation_admits _ _ _ _) eqn:Ei; [done |].
  destruct (ad_Catalog s) as [cat |] eqn:Ec.
  - destruct (cr_ResolveHelm cat _ _) as [helm |]; [| by intros [? _]%registered_execution_for].
    intros [= <-]. split_and!; try done. unfold market_execution.
    destruct (match cr_Entry cat _ with Some e => _ | None => _ end) as [[? ?] ?]. done.
  - by intros [? _]%registered_execution_for.
Qed.

(** C24: an admitted command is bound to what Runtime inspected. The actor has the
    rights, the installation admits the command, the execution is for exactly its
    application, version and action; the observation is of the release template
    the execution names, in a well-formed namespace; an install found nothing and
    binds no workload, any other command binds the valid identifier of the observed
    workload in a state the command applies to; and a release of the market is
    installed or upgraded only with the grant of Control, asked for this very
    organization and version. *)
Theorem admitted_command_is_bound s actor c installed x o :
  Admission.Read s actor c installed = Ok (x, o) ->
  admission_rights actor c = true /\ installation_admits (ad_Catalog s) actor c installed = None /\
  for_command c x /\ observation_bound x o = true /\ x_WorkloadUID x = ao_WorkloadUid o /\
  (if decide (c_Action c = "install") then ao_State o = "absent" /\ x_WorkloadUID x = ""
   else validID (x_WorkloadUID x) = true /\ state_admits (c_Action c) (ao_State o) = true) /\
  (x_marketRelease x = true -> c_Action c ∈ ["install"; "upgrade"] ->
     exists cat, ad_Catalog s = Some cat /\
       cr_CheckInstallGrant cat (c_AppID c) (c_AppVersion c) (u_OrganizationID actor) = Ok true).
Proof.
  unfold Admission.Read. destruct (resolve (Some s) actor c installed) as [y | e] eqn:Er; [| done]. cbn [mbind result_bind].
  apply resolve_for in Er as (Hr & Hi & Hf).
  destruct (install_grant s actor c y) as [[] | e] eqn:Eg; [| done]. cbn [mbind result_bind].
  destruct (ad_Runtime s) as [inspect |]; [| done].
  destruct (inspect _) as [[obs |] | code]; [| done | done].
  destruct (observation_bound y obs) eqn:Eo; [| done]. cbn [negb].
  assert (x_marketRelease y = true -> c_Action c ∈ ["install"; "upgrade"] ->
     exists cat, ad_Catalog s = Some cat /\
       cr_CheckInstallGrant cat (c_AppID c) (c_AppVersion c) (u_OrganizationID actor) = Ok true) as Hgrant.
  { intros Hm Ha. revert Eg. unfold install_grant. apply slices_contains_true in Ha. rewrite Ha, Hm. cbn [andb].
    destruct (ad_Catalog s) as [cat |]; [| done]. destruct (cr_CheckInstallGrant _ _ _ _) as [[] |] eqn:E; try done. eauto. }
  destruct (c_Action c =? "install")%string eqn:Ea; bool_norm.
  - destruct (_ || _) eqn:Es; [done |]. bool_norm. intros [= <- <-]. simpl. rewrite decide_True by done.
    split_and!; done.
  - destruct (validID (ao_WorkloadUid obs)) eqn:Ev; [| done]. cbn [negb].
    destruct (negb (slices_contains _ _)); [done |]. destruct (state_admits _ _) eqn:Es; [| done].
    intros [= <- <-]. rewrite decide_False by done. split_and!; done.
Qed.
End AdmittedCommand.

(** ** A catalog, its facts and an enabled command

    Concrete inputs of the theorems of [CatalogFacts], [AppFactsSafety] and
    [AdmissionSafety]. *)

(** ** The catalog *)
Definition entry_of (id version : string) (helm : option Helm) : Entry :=
  mkEntry id id "video" "vf" 0 "" "" [] "" helm (Some []) "deploys/app.yaml" "apps" id version (Some [mkImage "app" "image"]).
Definition hash64 : string := "0123456789abcdef0123456789abcdef0123456789abcdef0123456789abcdef".
Definition helm_0 : Helm :=
  mkHelm "oci" "video" "1.1.0" ("sha256:" +:+ hash64) ("sha256:" +:+ hash64) 1 "apps" "video" "values".
Definition observed (uid : string) (labels : list (string * string)) : Observation :=
  mkObservation uid "" (list_to_map labels) "ready" "replicas_ready" (100 * second) (Some 1) (Some 1) [].
Definition own_labels (app installation : string) : list (string * string) :=
  [(station_key "station-id", "station"); (station_key "organization-id", "org"); (station_key "app-id", app);
   (station_key "installation-id", installation); (station_key "template-hash", hash64)].
Definition video : Entry := entry_of "video" "1.1.0" (Some helm_0).
Definition music : Entry := entry_of "music" "1.0.0" None.
(** The second application is not deployed; a third one is only discovered. *)
Definition reader_0 : Reader := fun e =>
  if (en_AppID e =? "video")%string then observed "uid-1" (own_labels "video" "inst-1")
  else mkObservation "" "" ∅ "not_installed" "not_found" (100 * second) None None [].
Definition stranger : Item := mkItem (entry_of "stranger" "0.1.0" None) "unknown" (observed "uid-9" [(station_key "station-id", "other")]).
Definition service_0 : Catalog.Service := mkService [video; music] (Some reader_0) (Some (Ok [stranger])).
Definition items_0 : list SnapshotItem := Eval vm_compute in
  match Snapshot (Some service_0) 0 false with Ok l => l | Err _ => [] end.

Lemma snapshot_is_lossless_witness :
  NoDup (target <$> sv_entries service_0) /\ Snapshot (Some service_0) 0 false = Ok items_0 /\
  complete_snapshot service_0 0 items_0.
Proof.
  assert (NoDup (target <$> sv_entries service_0)) as H1 by (apply (bool_decide_unpack _); vm_compute; exact I).
  assert (Snapshot (Some service_0) 0 false = Ok items_0) as H2 by (vm_compute; reflexivity).
  split; [exact H1 |]. split; [exact H2 |].
  exact (proj1 (snapshot_is_lossless service_0 0 items_0 H1 H2)).
Defined.

(** ** The facts *)
Definition user_0 : Identity.IdentityContext :=
  mkContext "req" "station" "session" "user" "name" "org" "Org" ["admin"] ["app:read"; "app:manage"] 0 0 0 0.
Definition installation_0 : AppFacts.Installation := mkInstalled "inst-1" 1 "1.0.0" "installed" (Some "op-1").
Definition records_0 : list InstallationRecord := [mkRecord "video" installation_0].
Definition operations_0 : list OperationRecord :=
  [mkOperationRecord "video" "op-1" "user" "org" "lifecycle" "succeeded" "" (90 * second);
   mkOperationRecord "music" "op-2" "somebody" "other" "lifecycle" "running" "starting" (95 * second)].
Definition facts_0 : Facts := Eval vm_compute in
  match Build user_0 "req" (101 * second) items_0 records_0 operations_0 with
  | Ok f => f | Err _ => mkFacts 0 "" (mkScope "" "" "" "") "" 0 [] [] end.

Lemma cards_are_sound_witness :
  buildFacts user_0 "req" (101 * second) items_0 records_0 operations_0 None = Ok facts_0 /\
  length (fs_Items facts_0) = 2%nat /\ card_owners (fs_Items facts_0) ≡ₚ ["inst-1"].
Proof.
  assert (buildFacts user_0 "req" (101 * second) items_0 records_0 operations_0 None = Ok facts_0) as H by (vm_compute; reflexivity).
  split; [exact H |]. split; [reflexivity |].
  exact (proj1 (cards_are_sound user_0 "req" (101 * second) items_0 records_0 operations_0 None facts_0 H)).
Defined.

(** ** An enabled command *)
#[local] Instance no_json : JsonLib := {| json_tokens _ := None; parses_float _ := true |}.
Definition no_codec {A} : Codec A := {| unmarshal _ := None; remarshal _ := RNull |}.
#[local] Instance no_codecs : ReleaseCodecs := {|
  codec_registry := no_codec; codec_index := no_codec; codec_management := no_codec; codec_declaration := no_codec;
  codec_assets := no_codec; manifest_identity _ := None; manifest_images _ := None; dashboard_registry _ := None |}.
Definition catalog_0 : CatalogReader :=
  mkCatalogReader (fun id => Entry_of service_0 id)
    (fun app version => if (app =? "video")%string && (version =? "1.0.0")%string then Some helm_0 else None)
    (fun _ _ _ => Ok true).
Definition runtime_0 : AppCenterRuntime := fun _ => Err OtherCode.
Definition source_0 : AppCenterAdmissionSource := mkAdmissionSource None (Some catalog_0) None None (Some runtime_0).
Definition actor_0 : IdentityContext := actor_of user_0.
Definition card_0 : Fact := Eval vm_compute in
  match head (fs_Items facts_0) with Some f => f | None => mkFact "" "" "" None None "" (noService "") idle no_lifecycle end.
Definition video_fact : Fact := Eval vm_compute in
  match List.find (fun f => (fa_AppID f =? "video")%string) (fs_Items facts_0) with Some f => f | None => card_0 end.
Definition candidates_0 : list Candidate := Eval vm_compute in
  li_Candidates (fa_Lifecycle (projectCandidate source_0 actor_0 (base_candidates user_0 video_fact) false (102 * second))).
Definition stop_0 : Candidate := Eval vm_compute in
  match List.find (fun c => (ca_Kind c =? "stop")%string) candidates_0 with
  | Some c => c | None => mkCandidateFact "" false None "" None None end.

Lemma enabled_candidate_is_backed_witness :
  stop_0 ∈ li_Candidates (fa_Lifecycle (projectCandidate source_0 actor_0 (base_candidates user_0 video_fact) false (102 * second))) /\
  ca_Enabled stop_0 = true /\ ca_ExpectedWorkloadUID stop_0 = Some "uid-1" /\
  exists c x installation, resolve (Some source_0) actor_0 c installation = Ok x /\ c_Action c = "stop".
Proof.
  assert (stop_0 ∈ li_Candidates (fa_Lifecycle (projectCandidate source_0 actor_0 (base_candidates user_0 video_fact) false (102 * second)))) as H.
  { assert (li_Candidates (fa_Lifecycle (projectCandidate source_0 actor_0 (base_candidates user_0 video_fact) false (102 * second)))
            = candidates_0) as -> by (vm_compute; reflexivity).
    apply list_elem_of_In. unfold candidates_0, stop_0. simpl. tauto. }
  split; [exact H |]. split; [reflexivity |]. split; [reflexivity |].
  destruct (enabled_candidate_is_backed source_0 actor_0 user_0 video_fact false (102 * second) stop_0 H eq_refl)
    as (_ & _ & _ & _ & c & x & i & Hr & _ & Ha & _).
  exists c, x, i. split; [exact Hr | exact Ha].
Defined.

(** The same application, stopped for real. *)
#[local] Instance canonical_uuid : UuidLib := CanonicalUuid.parse.
Definition workload_0 : string := "01890a5d-ac96-774b-bcce-b302099a8057".
Definition running_0 : AppCenterObservation :=
  mkAppCenterObservation 1 false ("sha256:" +:+ hash64) "apps" "video" workload_0 "running".
Definition source_1 : AppCenterAdmissionSource :=
  mkAdmissionSource None (Some catalog_0) None None (Some (fun _ => Ok (Some running_0))).
Definition stop_command : Command := mkCommand "" "req-1" "key-12345" "org" "station" "video" "1.0.0" "stop".
Definition installed_0 : OperationTypes.Installation :=
  mkInstallation "inst-1" "video" "1.0.0" "station" "org" "installed" 1 "" zero_time zero_time.
Definition execution_0 : AppCenterExecution := Eval vm_compute in
  match Admission.Read source_1 actor_0 stop_command (Some installed_0) with
  | Ok (x, _) => x | Err _ => mkExecution "" "" "" 0 "" "" "" "" false end.

Lemma admitted_command_is_bound_witness :
  Admission.Read source_1 actor_0 stop_command (Some installed_0) = Ok (execution_0, running_0) /\
  x_WorkloadUID execution_0 = workload_0 /\ for_command stop_command execution_0.
Proof.
  assert (Admission.Read source_1 actor_0 stop_command (Some installed_0) = Ok (execution_0, running_0)) as H by (vm_compute; reflexivity).
  split; [exact H |]. split; [reflexivity |].
  exact (proj1 (proj2 (proj2 (admitted_command_is_bound source_1 actor_0 stop_command (Some installed_0) execution_0 running_0 H)))).
Defined.
