(* ===== verification/Program.v ===== *)
(** * Programs that call services

    A handler of the gateway is a program: it returns, panics, or calls a service
    and goes on with the answer. The calls are a family indexed by the type of
    their answer; a service may panic as well, and then the program is over. The
    handlers do not loop, so the type is inductive.

    [runs] gives the traces of a program for arbitrary answers; [interp] runs it on
    a world. [mediated] is a reference monitor: a state that the calls and their
    answers move, and which every call needs a permission of. [ensures] is its
    calculus; [ensures_runs] shows it sound. *)
From S2P Require Import Prelude.

Section Program.
Context {E : Type -> Type}.

Inductive prog (A : Type) : Type :=
| Ret (a : A)
| Panic
| Perform {X : Type} (e : E X) (k : X -> prog A).
Arguments Ret {A} a.
Arguments Panic {A}.
Arguments Perform {A X} e k.

Definition call {X} (e : E X) : prog X := Perform e Ret.
Fixpoint prog_bind {A B} (k : A -> prog B) (p : prog A) : prog B :=
  match p with
  | Ret a => k a
  | Panic => Panic
  | Perform e c => Perform e (fun x => prog_bind k (c x))
  end.
#[export] Instance prog_ret : MRet prog := fun A a => Ret a.
#[export] Instance prog_mbind : MBind prog := fun A B k p => prog_bind k p.

(** ** Traces *)

(** A call with its answer; [None] when the service panicked. *)
Inductive called : Type :=
| Called {X : Type} (e : E X) (answer : option X).

Inductive runs {A} : prog A -> list called -> option A -> Prop :=
| runs_ret a : runs (Ret a) [] (Some a)
| runs_panic : runs Panic [] None
| runs_answer X (e : E X) k x t out : runs (k x) t out -> runs (Perform e k) (Called e (Some x) :: t) out
| runs_crash X (e : E X) k : runs (Perform e k) [Called e None] None.

(** ** Worlds *)

(** A world answers every call; no answer is a panic. *)
Definition handler (W : Type) : Type := forall X, E X -> W -> W * option X.
Fixpoint interp {W A} (h : handler W) (p : prog A) (w : W) : W * list called * option A :=
  match p with
  | Ret a => (w, [], Some a)
  | Panic => (w, [], None)
  | Perform e k =>
      match h _ e w with
      | (w', Some x) => let '(w'', t, out) := interp h (k x) w' in (w'', Called e (Some x) :: t, out)
      | (w', None) => (w', [Called e None], None)
      end
  end.

Lemma interp_runs {W A} (h : handler W) (p : prog A) w : runs p (snd (fst (interp h p w))) (snd (interp h p w)).
Proof.
  revert w. induction p as [a | | X e k IH]; intros w; simpl; [constructor | constructor |].
  destruct (h X e w) as [w' [x |]]; [| constructor].
  specialize (IH x w'). destruct (interp h (k x) w') as [[w'' t] out]. by constructor.
Qed.

(** The world a trace leads to, and that the trace is the world's. *)
Fixpoint replay {W} (h : handler W) (w : W) (t : list called) : W :=
  match t with [] => w | Called e _ :: t => replay h (fst (h _ e w)) t end.
Fixpoint consistent {W} (h : handler W) (w : W) (t : list called) : Prop :=
  match t with [] => True | Called e o :: t => snd (h _ e w) = o /\ consistent h (fst (h _ e w)) t end.

Lemma interp_consistent {W A} (h : handler W) (p : prog A) w :
  let '(w', t, _) := interp h p w in consistent h w t /\ w' = replay h w t.
Proof.
  revert w. induction p as [a | | X e k IH]; intros w; simpl; [done | done |].
  destruct (h X e w) as [w' [x |]] eqn:Eh; [| simpl; by rewrite Eh].
  specialize (IH x w'). destruct (interp h (k x) w') as [[w'' t] out]. simpl. rewrite Eh. by destruct IH.
Qed.
Lemma consistent_app {W} (h : handler W) w t1 t2 :
  consistent h w (t1 ++ t2) <-> consistent h w t1 /\ consistent h (replay h w t1) t2.
Proof. revert w. induction t1 as [| [X e o] t1 IH]; intros w; simpl; [tauto |]. rewrite IH. tauto. Qed.

(** ** The monitor *)
Section Monitor.
Context {C : Type} (allow : forall X, E X -> C -> Prop) (after : forall X, E X -> X -> C -> C).

Fixpoint mediated (c : C) (t : list called) : Prop :=
  match t with
  | [] => True
  | Called e (Some x) :: t => allow _ e c /\ mediated (after _ e x c) t
  | Called e None :: t => allow _ e c /\ t = []
  end.
(** The state after a trace. *)
Fixpoint clearance (c : C) (t : list called) : C :=
  match t with
  | Called e (Some x) :: t => clearance (after _ e x c) t
  | _ => c
  end.

Fixpoint ensures {A} (c : C) (p : prog A) (Q : C -> A -> Prop) : Prop :=
  match p with
  | Ret a => Q c a
  | Panic => True
  | Perform e k => allow _ e c /\ forall x, ensures (after _ e x c) (k x) Q
  end.

Lemma ensures_bind {A B} c (p : prog A) (k : A -> prog B) Q R :
  ensures c p R -> (forall c' a, R c' a -> ensures c' (k a) Q) -> ensures c (p ≫= k) Q.
Proof.
  intros Hp Hk. unfold mbind, prog_mbind. revert c Hp. induction p as [a | | X e c IH]; intros d; simpl; [by apply Hk | done |].
  intros [Ha Hx]. split; [done |]. intros x. by apply IH.
Qed.
Lemma ensures_mono {A} c (p : prog A) Q R : (forall c a, Q c a -> R c a) -> ensures c p Q -> ensures c p R.
Proof.
  intros HQR. revert c. induction p as [a | | X e k IH]; intros c; simpl; [apply HQR | done |].
  intros [Ha Hx]. split; [done |]. intros x. by apply IH.
Qed.
Lemma ensures_and {A} c (p : prog A) Q R : ensures c p Q -> ensures c p R -> ensures c p (fun c a => Q c a /\ R c a).
Proof.
  revert c. induction p as [a | | X e k IH]; intros c; simpl; [done | done |].
  intros [Ha Hq] [_ Hr]. split; [done |]. intros x. by apply IH.
Qed.
Lemma ensures_call {X} c (e : E X) Q : allow X e c -> (forall x, Q (after X e x c) x) -> ensures c (call e) Q.
Proof. done. Qed.

(** Every trace of an ensured program is mediated, and what it returns satisfies
    the postcondition at the state the trace leads to. *)
Lemma ensures_runs {A} c (p : prog A) Q t out : ensures c p Q -> runs p t out ->
  mediated c t /\ forall a, out = Some a -> Q (clearance c t) a.
Proof.
  intros He Hr. revert c He. induction Hr as [a | | X e k x t out Hr IH | X e k]; intros c; simpl.
  - intros HQ. split; [done |]. by intros ? [= <-].
  - by split.
  - intros [Ha Hx]. destruct (IH _ (Hx x)) as [Hm HQ]. done.
  - intros [Ha _]. by split.
Qed.

Lemma mediated_app c t1 X (e : E X) o t2 : mediated c (t1 ++ Called e o :: t2) -> allow X e (clearance c t1).
Proof.
  revert c. induction t1 as [| [Y d [y |]] t1 IH]; intros c; simpl.
  - by destruct o as [x |]; intros [? _].
  - intros [_ H]. by apply IH.
  - intros [_ H]. by destruct t1.
Qed.
(** Only the last call of a trace can panic. *)
Lemma mediated_answered c t1 x t2 : mediated c (t1 ++ x :: t2) -> Forall (fun '(Called _ o) => is_Some o) t1.
Proof.
  revert c. induction t1 as [| [Y d [y |]] t1 IH]; intros c; simpl; [done | |].
  - intros [_ H]. constructor; [by eexists | by eapply IH].
  - intros [_ H]. by destruct t1.
Qed.
End Monitor.

(** *** The trace as the monitor's state *)
Definition log (X : Type) (e : E X) (x : X) (t : list called) : list called := (t ++ [Called e (Some x)])%list.
Definition yields {A} (t : list called) (p : prog A) (Q : list called -> A -> Prop) : Prop :=
  ensures (fun _ _ _ => True) log t p Q.

Lemma log_clearance {A} (p : prog A) t a t0 : runs p t (Some a) -> clearance log t0 t = (t0 ++ t)%list.
Proof.
  intros H. remember (Some a) as out. revert t0. induction H as [| | X e k x t out H IH |]; intros t0; simpl; try discriminate.
  - by rewrite app_nil_r.
  - rewrite IH by done. unfold log. by rewrite <- app_assoc.
Qed.
Lemma yields_runs {A} (p : prog A) Q t a : yields [] p Q -> runs p t (Some a) -> Q t a.
Proof.
  intros Hy Hr. pose proof (log_clearance p t a [] Hr) as Hl. apply (ensures_runs _ _ _ _ _ _ _ Hy) in Hr as [_ HQ].
  specialize (HQ a eq_refl). by rewrite Hl in HQ.
Qed.
Lemma yields_perform {X A} t (e : E X) (k : X -> prog A) Q :
  (forall x, yields (t ++ [Called e (Some x)]) (k x) Q) -> yields t (Perform e k) Q.
Proof. by split. Qed.
Lemma yields_bind_call {X A} t (e : E X) (k : X -> prog A) Q :
  (forall x, yields (t ++ [Called e (Some x)]) (k x) Q) -> yields t (call e ≫= k) Q.
Proof. by split. Qed.
Lemma yields_and {A} t (p : prog A) Q R : yields t p Q -> yields t p R -> yields t p (fun t a => Q t a /\ R t a).
Proof. apply ensures_and. Qed.
Lemma yields_ret {A} t (a : A) (Q : list called -> A -> Prop) : Q t a -> yields t (mret a) Q.
Proof. done. Qed.
Lemma yields_bind {A B} t (p : prog A) (k : A -> prog B) Q R :
  yields t p R -> (forall t' a, R t' a -> yields t' (k a) Q) -> yields t (p ≫= k) Q.
Proof. apply ensures_bind. Qed.
End Program.

Arguments prog E A : clear implicits.
Arguments called E : clear implicits.
Arguments handler E W : clear implicits.
Arguments Ret {E A} a.
Arguments Panic {E A}.
Arguments Perform {E A X} e k.
Arguments Called {E X} e answer.
