(* ===== verification/GoHttp.v ===== *)
(** * The HTTP of the Go standard library

    What net/http, net/url, mime and strings give the gateway: headers under their
    canonical keys, request bodies and the ways of reading them, query strings, the
    words of a header. The parsers of media types and of URLs are parameters. *)
From stdpp Require Import gmap list strings.
From S2P Require Import Prelude GoStd GoJson GoText.
From Stdlib Require Import Ascii.
#[local] Open Scope Z_scope.

(** net/url.URL: the parts the code looks at. *)
Record URL := mkURL {
  url_Scheme : string; url_Host : string; url_User : bool; url_RawQuery : string;
  url_Fragment : string; url_Path : string }.
(** [mime.ParseMediaType] (the media type, no result on an error), [url.Parse], and
    whether [http.NewRequest] accepts a URL. *)
Class HttpLib := { media_type : string -> option string; url_parse : string -> option URL; request_url : string -> bool }.

(** ** Headers *)

(** The characters of a header field name. *)
Definition token_byte (c : ascii) : bool := alnum c || one_of "!#$%&'*+-.^_`|~" c.
Fixpoint capitalize (upper : bool) (s : string) : string :=
  match s with
  | EmptyString => ""
  | String c s' => String (if upper then upper_byte c else lower_byte c) (capitalize (byte_is "-" c) s')
  end.
(** [textproto.CanonicalMIMEHeaderKey]. *)
Definition CanonicalHeaderKey (s : string) : string :=
  if contains_any (fun c => negb (token_byte c)) s then s else capitalize true s.

(** http.Header: canonical keys, the values of one key in order. *)
Definition Header := list (string * string).
Definition Values (h : Header) (key : string) : list string :=
  snd <$> List.filter (fun kv => (fst kv =? CanonicalHeaderKey key)%string) h.
Definition hget (h : Header) (key : string) : string := default "" (head (Values h key)).
Definition hset (key value : string) (h : Header) : Header :=
  (List.filter (fun kv => negb (fst kv =? CanonicalHeaderKey key)%string) h ++ [(CanonicalHeaderKey key, value)])%list.

Lemma hset_values key value h : Values (hset key value h) key = [value].
Proof.
  unfold Values, hset. rewrite List.filter_app. simpl. rewrite String.eqb_refl.
  induction h as [| [k v] h IH]; simpl; [done |]. destruct (k =? CanonicalHeaderKey key)%string eqn:E; simpl; [done |].
  by rewrite E.
Qed.
Lemma hset_other key key' value h : CanonicalHeaderKey key' <> CanonicalHeaderKey key ->
  Values (hset key value h) key' = Values h key'.
Proof.
  intros Hne. unfold Values, hset. rewrite List.filter_app. simpl.
  destruct (String.eqb_spec (CanonicalHeaderKey key) (CanonicalHeaderKey key')); [congruence |]. rewrite app_nil_r. f_equal.
  induction h as [| [k v] h IH]; simpl; [done |].
  destruct (String.eqb_spec k (CanonicalHeaderKey key)); simpl.
  - subst. destruct (String.eqb_spec (CanonicalHeaderKey key) (CanonicalHeaderKey key')); congruence.
  - by destruct (k =? CanonicalHeaderKey key')%string; rewrite IH.
Qed.

(** ** Bodies *)

(** What a reader delivers, and whether an error follows it instead of the end. *)
Record Body := mkBody { bd_Text : string; bd_Broken : bool }.
(** [io.ReadAll(http.MaxBytesReader(w, r, n))]. *)
Definition read_max (n : Z) (b : Body) : option string :=
  if bd_Broken b || (n <? len (bd_Text b)) then None else Some (bd_Text b).
(** [io.ReadAll(io.LimitReader(r, n))]. *)
Definition read_limited (n : Z) (b : Body) : option string :=
  if n <=? len (bd_Text b) then Some (take_str (Z.to_nat n) (bd_Text b))
  else if bd_Broken b then None else Some (bd_Text b).

(** ** strings.Fields *)
Definition push (word : string) (words : list string) : list string :=
  if (word =? "")%string then words else str_rev word :: words.
(** [word] is the current word, reversed. *)
Fixpoint fields_from (skip : nat) (word : string) (s : string) : list string :=
  match s with
  | EmptyString => push word []
  | String c s' =>
      match skip with
      | S k => fields_from k word s'
      | O => match List.find (has_prefix s) unicode_spaces with
             | Some t => push word (fields_from (String.length t - 1) "" s')
             | None => fields_from 0 (String c word) s'
             end
      end
  end.
Definition Fields (s : string) : list string := fields_from 0 "" s.

Example fields_examples :
  Fields "  Bearer  abc " = ["Bearer"; "abc"] /\ Fields "" = [] /\ Fields "a" = ["a"]
  /\ Fields ("a" +:+ bytes [194; 160] +:+ "b" +:+ bytes [194]) = ["a"; "b" +:+ bytes [194]]
  /\ CanonicalHeaderKey "X-Request-ID" = "X-Request-Id" /\ CanonicalHeaderKey "a b" = "a b".
Proof. vm_compute. by split_and!. Qed.

(** ** net/url *)
Definition hex_value (c : ascii) : option Z :=
  let b := byte_of c in
  if is_digit c then Some (b - 48)
  else if (97 <=? b) && (b <=? 102) then Some (b - 87)
  else if (65 <=? b) && (b <=? 70) then Some (b - 55)
  else None.
(** [url.QueryUnescape]. *)
Fixpoint QueryUnescape (s : string) : option string :=
  match s with
  | EmptyString => Some ""
  | String c s' =>
      if byte_is "%" c then
        match s' with
        | String a (String b rest) =>
            match hex_value a, hex_value b with
            | Some x, Some y => r ← QueryUnescape rest; Some (String (ascii_of_N (Z.to_N (16 * x + y))) r)
            | _, _ => None
            end
        | _ => None
        end
      else r ← QueryUnescape s'; Some (String (if byte_is "+" c then " "%char else c) r)
  end.

Definition Query := gmap string (list string).
(** One part between two ampersands; [None] is an error. *)
Definition query_part (part : string) : option (option (string * string)) :=
  if contains part ";" then None
  else if (part =? "")%string then Some None
  else
    let '(k, v, _) := cut_byte "="%char part in
    k ← QueryUnescape k; v ← QueryUnescape v; Some (Some (k, v)).
(** [url.ParseQuery]: the values, and whether a part was refused. *)
Definition add_part (acc : Query * bool) (part : string) : Query * bool :=
  let '(q, failed) := acc in
  match query_part part with
  | None => (q, true)
  | Some None => acc
  | Some (Some (k, v)) => (<[ k := (default [] (q !! k) ++ [v])%list ]> q, failed)
  end.
Definition ParseQuery (s : string) : Query * bool := foldl add_part (∅, false) (split_byte "&"%char s).

Example query_examples :
  ParseQuery "a=1&b=x+y&a=%7e" = (<[ "a" := ["1"; "~"] ]> {[ "b" := ["x y"] ]}, false)
  /\ ParseQuery "" = (∅, false) /\ snd (ParseQuery "a;b") = true /\ snd (ParseQuery "a=%g0") = true.
Proof. split_and!; vm_compute; reflexivity. Qed.
