(* ===== verification/Transport.v ===== *)
(** * The HTTP transport to Runtime: internal/operations/transition_transport.go

    One step of a transition is posted as JSON; the answer counts only when it is a
    plain 200 with a strict JSON object that echoes the step and names a phase the
    mode allows. [reconcile_is_exact] says exactly that, and
    [cooperative_server_completes] carries the termination of a transition over to
    a server behind this transport. The transport itself, url.Parse and
    mime.ParseMediaType are parameters. *)
From stdpp Require Import gmap list strings.
From S2P Require Import Prelude GoStd Sha256 GoJson GoText GoHttp Uuid StrictJson OperationTypes Transitions TransitionFacts Dispatch Forward Installations Lifecycle LifecycleWorker OperationsInv OperationsFrame OperationsSteps OperationsWorkers OperationsBarrier OperationsReach LifecycleEffect LifecycleSafety OperationsSafety DispatchProgress DispatchFair.
From Stdlib Require Import Ascii.
#[local] Open Scope list_scope.
#[local] Open Scope Z_scope.

(** The parts of a parsed origin that are looked at, and its text under another path. *)
Record Origin := mkOrigin {
  og_Hostname : string; og_Scheme : string; og_User : bool; og_Opaque : string; og_RawQuery : string; og_ForceQuery : bool;
  og_RawPath : string; og_Path : string; og_with_path : string -> string }.
Class OriginLib := origin_parse : string -> option Origin.

Definition transitionReconcilePath : string := "/internal/installation-transitions/v1/reconcile".
Record HTTPTransitionRuntime := mkHTTPRuntime { hr_endpoint : string; hr_token : string }.

(** A request, and what [client.Do] comes to; no redirect is followed. *)
Record PostRequest := mkPost { po_URL : string; po_Header : Header; po_Body : string }.
Inductive PostAnswer : Type :=
| Unreachable (cancelled : option string)   (** the text of [ctx.Err()] *)
| Replied (status : Z) (header : Header) (body : Body).

Definition step_json (step : TransitionStep) : json :=
  JObj [("operation_id", JStr (st_OperationID step)); ("request_id", JStr (st_RequestID step));
        ("input_digest", JStr (st_InputDigest step)); ("mode", JStr (st_Mode step))].

(** ** The answer's JSON *)

(** The members of a [TransitionProgress]; the step is embedded. *)
Definition progress_members (p : TransitionProgress) : list (string * raw) :=
  [("operation_id", RString (st_OperationID (pr_Step p))); ("request_id", RString (st_RequestID (pr_Step p)));
   ("input_digest", RString (st_InputDigest (pr_Step p))); ("mode", RString (st_Mode (pr_Step p))); ("phase", RString (pr_Phase p))].
Definition progress_fields : list string := ["operation_id"; "request_id"; "input_digest"; "mode"; "phase"].
Definition text_member (m : list (string * raw)) (k : string) : option string :=
  match member m k with None => Some "" | Some (RString s) => Some s | _ => None end.
(** A member in another case would be taken for the field, and refused by the
    comparison with what the value marshals to; here it is unknown. *)
Definition progress_of (m : list (string * raw)) : option TransitionProgress :=
  if negb (forallb (fun kv => slices_contains progress_fields (fst kv)) m) then None
  else
    o ← text_member m "operation_id"; r ← text_member m "request_id"; d ← text_member m "input_digest";
    x ← text_member m "mode"; p ← text_member m "phase"; Some (mkProgress (mkStep o r d x) p).
#[export] Instance progress_codec : Codec TransitionProgress := {|
  unmarshal v := match v with RObject m => progress_of m | _ => None end;
  remarshal p := RObject (progress_members p) |}.

(** ** The transport *)
Section Transport.
Context {J : JsonLib} {L : HttpLib} {O : OriginLib} {U : UuidLib}.

Definition token_ok (token : string) : bool :=
  (32 <=? len token) && (len token <=? 4096)
  && negb (contains_any (fun c => (byte_of c <=? 32) || (126 <? byte_of c)) token).
(** No runtime at all when nothing is configured. *)
Definition NewHTTPTransitionRuntime (origin token : string) : result OpError (option HTTPTransitionRuntime) :=
  if (origin =? "")%string && (token =? "")%string then Ok None
  else
    match origin_parse origin with
    | None => Err ErrTransitionProgress
    | Some u =>
        if (og_Hostname u =? "")%string || (negb (og_Scheme u =? "http")%string && negb (og_Scheme u =? "https")%string)
           || og_User u || negb (og_Opaque u =? "")%string || negb (og_RawQuery u =? "")%string || og_ForceQuery u
           || contains origin "#" || negb (og_RawPath u =? "")%string
           || (negb (og_Path u =? "")%string && negb (og_Path u =? "/")%string) || negb (token_ok token)
        then Err ErrTransitionProgress
        else Ok (Some (mkHTTPRuntime (og_with_path u transitionReconcilePath) token))
    end.

Definition modes : list string := ["prepare"; "restore"; "release_source"; "release_target"; "verify_forward"].
Definition validTransitionStep (step : TransitionStep) : bool :=
  canonicalInstallation (st_OperationID step)
  && match uuid_parse (st_RequestID step) with
     | Some id => (uuid_version id =? 4) && uuid_rfc4122 id && (uuid_text id =? st_RequestID step)%string
     | None => false
     end
  && transitionDigest (st_InputDigest step) && slices_contains modes (st_Mode step).

Definition allowed_phases (mode : string) : list string :=
  if (mode =? "verify_forward")%string then ["verified"; "rejected"]
  else if (mode =? "restore")%string then ["restoring"; "restored"; "recovery_required"]
  else if has_prefix mode "release_" then ["releasing"; "released"]
  else ["checking"; "sealing"; "applying"; "verifying"; "prepared"; "recovery_required"; "rejected"].

Definition post_of (c : HTTPTransitionRuntime) (step : TransitionStep) : PostRequest :=
  mkPost (hr_endpoint c) (hset "Authorization" ("Bearer " +:+ hr_token c) (hset "Content-Type" "application/json" []))
    (marshal (step_json step)).
Definition ReconcileTransition (c : HTTPTransitionRuntime) (serve : PostRequest -> PostAnswer) (step : TransitionStep)
    : result OpError TransitionProgress :=
  if negb (validTransitionStep step) then Err ErrTransitionProgress
  else if negb (request_url (hr_endpoint c)) then Err ErrTransitionProgress
  else match serve (post_of c step) with
  | Unreachable (Some text) => Err (ErrExternal text)
  | Unreachable None => Err ErrTransitionProgress
  | Replied status header body =>
      if negb (status =? 200) then Err ErrTransitionProgress
      else if negb (bool_decide (media_type (hget header "Content-Type") = Some "application/json"))
              || negb (length (Values header "Content-Type") =? 1)%nat || negb (hget header "Content-Encoding" =? "")%string
      then Err ErrTransitionProgress
      else match (if bd_Broken body then None else Decode (A := TransitionProgress) 4096 (bd_Text body)) with
      | None => Err ErrTransitionProgress
      | Some out =>
          if negb (bool_decide (pr_Step out = step)) then Err ErrTransitionProgress
          else if negb (slices_contains (allowed_phases (st_Mode step)) (pr_Phase out)) then Err ErrTransitionProgress
          else Ok out
      end
  end.
End Transport.

(** ** The decoding of an answer is exact *)
Section Decoding.
Context {J : JsonLib}.

Lemma member_In (m : list (string * raw)) k v : NoDup m.*1 -> (k, v) ∈ m -> member m k = Some v.
Proof.
  induction m as [| [k' v'] m IH]; intros Hn Hin; [by apply elem_of_nil in Hin |]. apply NoDup_cons in Hn as [Hk Hn]. unfold member. simpl.
  apply elem_of_cons in Hin as [Heq | Hin]; [injection Heq as -> ->; by rewrite bool_decide_true |].
  rewrite bool_decide_false; [by apply IH |]. intros ->. apply Hk, list_elem_of_fmap. by exists (k, v).
Qed.
Lemma text_member_perm m m' k : NoDup m.*1 -> m ≡ₚ m' -> text_member m k = text_member m' k.
Proof.
  intros Hn Hp. assert (NoDup m'.*1) as Hn' by by rewrite <- Hp. unfold text_member.
  destruct (member m k) as [v |] eqn:E; destruct (member m' k) as [w |] eqn:E'; try done.
  - apply member_some in E. rewrite Hp in E. apply (member_In m' k v Hn') in E. rewrite E' in E. by injection E as ->.
  - apply member_some in E. rewrite Hp in E. apply (member_In m' k v Hn') in E. by rewrite E' in E.
  - apply member_some in E'. rewrite <- Hp in E'. apply (member_In m k w Hn) in E'. by rewrite E in E'.
Qed.
Lemma scan_texts (scan : raw -> bool) (m : list (string * raw)) seen : (forall s, scan (RString s) = true) -> NoDup m.*1 -> (forall k, k ∈ m.*1 -> k ∉ seen) ->
  (forall k v, (k, v) ∈ m -> exists s, v = RString s) -> scan_members scan seen m = true.
Proof.
  intros Hscan. revert seen. induction m as [| [k v] m IH]; intros seen Hn Hs Ht; [done |]. apply NoDup_cons in Hn as [Hk Hn]. simpl.
  rewrite bool_decide_false by (apply Hs; by left). destruct (Ht k v) as [s ->]; [by left |]. rewrite Hscan. simpl. apply IH; [done | |].
  - intros k' Hk'. apply not_elem_of_union. split; [| apply Hs; by right]. intros ->%elem_of_singleton. done.
  - intros k' v' Hin. apply (Ht k' v'). by right.
Qed.
Lemma scan_object n a m : scanValue (S n) a (RObject m) = scan_members (scanValue n a) ∅ m.
Proof. done. Qed.
Lemma progress_names p : (progress_members p).*1 = progress_fields.
Proof. done. Qed.
Lemma progress_distinct : NoDup progress_fields.
Proof. by apply (bool_decide_unpack _). Qed.

Lemma perm_distinct m p : m ≡ₚ progress_members p -> NoDup m.*1.
Proof. intros Hp. apply (fmap_Permutation fst) in Hp. apply (proj2 (NoDup_Permutation_proper _ _ Hp)). exact progress_distinct. Qed.
(** Members that are a permutation of the marshalled ones give the value back. *)
Lemma text_members p : text_member (progress_members p) "operation_id" = Some (st_OperationID (pr_Step p))
  /\ text_member (progress_members p) "request_id" = Some (st_RequestID (pr_Step p))
  /\ text_member (progress_members p) "input_digest" = Some (st_InputDigest (pr_Step p))
  /\ text_member (progress_members p) "mode" = Some (st_Mode (pr_Step p))
  /\ text_member (progress_members p) "phase" = Some (pr_Phase p).
Proof. by split_and!. Qed.
Lemma progress_unmarshal m p : m ≡ₚ progress_members p -> progress_of m = Some p.
Proof.
  intros Hp. assert (NoDup m.*1) as Hn by (by eapply perm_distinct). unfold progress_of.
  assert (forallb (fun kv => slices_contains progress_fields (fst kv)) m = true) as ->.
  { apply forallb_forall. intros [k v] Hin. apply slices_contains_true. rewrite <- (progress_names p).
    apply list_elem_of_fmap. exists (k, v). split; [done |]. by apply (elem_of_Permutation_proper _ _ _ Hp), list_elem_of_In. }
  rewrite !(text_member_perm m (progress_members p)) by done. destruct (text_members p) as (-> & -> & -> & -> & ->).
  by destruct p as [[o r d x] q].
Qed.
(** The text of an answer: five members, in any order. *)
Definition answer_text (text : string) (p : TransitionProgress) : Prop :=
  within 4096 text = true /\ exists m, json_tokens text = Some (RObject m) /\ m ≡ₚ progress_members p.
Lemma text_member_string m k v : NoDup m.*1 -> (k, v) ∈ m -> text_member m k <> None -> exists s, v = RString s /\ text_member m k = Some s.
Proof.
  intros Hn Hin. unfold text_member. rewrite (member_In m k v Hn Hin). destruct v as [| | | s | |]; try done. intros _. by exists s.
Qed.

Lemma progress_of_texts m p : progress_of m = Some p ->
  forall k, k ∈ progress_fields -> text_member m k = text_member (progress_members p) k /\ text_member m k <> None.
Proof.
  unfold progress_of. destruct (negb _); [done |].
  intros (o & Ho & (r & Hr & (d & Hd & (x & Hx & (q & Hq & [= <-])%bind_Some)%bind_Some)%bind_Some)%bind_Some)%bind_Some k.
  destruct (text_members (mkProgress (mkStep o r d x) q)) as (E1 & E2 & E3 & E4 & E5). cbn [pr_Step pr_Phase st_OperationID st_RequestID st_InputDigest st_Mode] in *.
  unfold progress_fields. rewrite !elem_of_cons, elem_of_nil.
  intros [-> | [-> | [-> | [-> | [-> | []]]]]]; rewrite ?Ho, ?Hr, ?Hd, ?Hx, ?Hq, ?E1, ?E2, ?E3, ?E4, ?E5; done.
Qed.
(** Two lists of distinct names with the same texts. *)
Lemma same_texts m m' : NoDup m.*1 -> NoDup m'.*1 -> (forall k, k ∈ m.*1 -> k ∈ m'.*1) ->
  (forall k, k ∈ m.*1 -> text_member m k = text_member m' k /\ text_member m k <> None) -> forall kv, kv ∈ m -> kv ∈ m'.
Proof.
  intros Hn Hn' Hin Ht [k v] Hkv. assert (k ∈ m.*1) as Hk by (apply list_elem_of_fmap; by exists (k, v)).
  destruct (Ht k Hk) as [Heq Hne]. destruct (text_member_string m k v Hn Hkv Hne) as (s & -> & Hs).
  apply Hin, list_elem_of_fmap in Hk as ([k' w] & Hk & Hw). simpl in Hk. subst k'. rewrite Heq in Hne, Hs.
  destruct (text_member_string m' k w Hn' Hw Hne) as (s' & -> & Hs'). congruence.
Qed.

Lemma decode_answer text p : Decode (A := TransitionProgress) 4096 text = Some p <-> answer_text text p.
Proof.
  unfold Decode, answer_text. destruct (within 4096 text); cbn [negb]; [| split; [done | by intros [? _]]].
  split.
  - intros (v & Hv & H)%bind_Some. split; [done |]. destruct (negb (scanValue 32 false v)) eqn:Es; [done |]. apply negb_false_iff in Es.
    apply bind_Some in H as (q & Hq & H). destruct (_ && _) eqn:Esh; [| done]. injection H as ->.
    destruct v as [| | | | | m]; try done. exists m. split; [done |].
    apply andb_true_iff in Esh as [_ Esh]. apply scanValue_strict in Es.
    inversion Es as [| | | | ? ? Hn _]; subst. pose proof (shape_names _ _ Hn Esh) as Hnames.
    change (progress_of m = Some p) in Hq. pose proof (progress_of_texts m p Hq) as Ht.
    assert (forall k, k ∈ m.*1 <-> k ∈ (progress_members p).*1) as Hk by (intros k; apply (elem_of_Permutation_proper _ _ _ Hnames)).
    assert (NoDup (progress_members p).*1) as Hn' by exact progress_distinct.
    apply NoDup_Permutation; [by eapply NoDup_fmap_1 | by eapply NoDup_fmap_1 |]. intros kv. split; apply same_texts; try done.
    + intros k. apply Hk.
    + intros k Hin. apply Ht. by apply Hk in Hin.
    + intros k. apply Hk.
    + intros k Hin. destruct (Ht k Hin) as [He Hne]. by rewrite <- He.
  - intros (_ & m & Hm & Hp). rewrite Hm. cbn [mbind option_bind].
    assert (NoDup m.*1) as Hn by (by eapply perm_distinct).
    assert (forall k v, (k, v) ∈ m -> exists s, v = RString s) as Ht.
    { intros k v Hin. apply (elem_of_Permutation_proper _ _ _ Hp) in Hin. unfold progress_members in Hin.
      rewrite !elem_of_cons, elem_of_nil in Hin. destruct_or! Hin; try done; injection Hin as -> ->; by eexists. }
    rewrite (scan_object 31), scan_texts; [| done | done | intros k _; apply not_elem_of_empty | done]. cbn [negb].
    change (unmarshal (RObject m)) with (progress_of m). rewrite (progress_unmarshal m p Hp). cbn [mbind option_bind].
    assert (to_any (RObject m) = true) as ->.
    { simpl. apply forallb_forall. intros [k v] Hin. destruct (Ht k v) as [s ->]; [by rewrite list_elem_of_In | done]. }
    assert (shape (RObject m) (remarshal p) = true) as ->; [| done].
    change (remarshal p) with (RObject (progress_members p)). cbn [shape]. apply andb_true_iff. split.
    + apply Nat.eqb_eq. by apply Permutation_length.
    + apply forallb_forall. intros [k v] Hin. apply list_elem_of_In in Hin. destruct (Ht k v Hin) as [s ->].
      rewrite (member_In (progress_members p) k (RString s)); [done | exact progress_distinct |].
      by apply (elem_of_Permutation_proper _ _ _ Hp).
Qed.
End Decoding.

(** ** Digests have the form the transport asks for *)

Lemma lang_repeat p n s : String.length s = n -> contains_any (fun c => negb (p c)) s = false ->
  Regexp.lang (Regexp.times n (Regexp.Class p)) s.
Proof.
  revert s. induction n as [| n IH]; intros [| c s] Hl Hc; try done; [constructor |]. simpl in *.
  apply orb_false_iff in Hc as [Hp Hc]. apply negb_false_iff in Hp.
  apply (Regexp.lang_cat _ _ (String c "") s); [by constructor | apply IH; [congruence | done]].
Qed.
(** One hexadecimal digit. *)
Lemma hex_digit_lower n : 0 <= n < 16 -> lower_hex (Sha256.hex_digit n) = true.
Proof.
  intros Hn. assert (n ∈ seqZ 0 16) as Hin by (apply elem_of_seqZ; lia). revert n Hn Hin.
  assert (Forall (fun n => lower_hex (Sha256.hex_digit n) = true) (seqZ 0 16)) as Hall by (vm_compute; repeat constructor).
  intros n _ Hin. rewrite Forall_forall in Hall. by apply Hall.
Qed.
Lemma hex_shape l : Forall (fun b => 0 <= b < 256) l ->
  String.length (Sha256.hex l) = (2 * length l)%nat /\ contains_any (fun c => negb (lower_hex c)) (Sha256.hex l) = false.
Proof.
  induction 1 as [| b l Hb _ [IH1 IH2]]; [done |]. cbn [Sha256.hex String.length length contains_any]. rewrite IH1, IH2.
  rewrite !hex_digit_lower; [split; [lia | done] | |].
  - change 15 with (Z.ones 4). rewrite Z.land_ones by lia. by apply Z.mod_pos_bound.
  - rewrite Z.shiftr_div_pow2 by lia. change (2 ^ 4) with 16. split; [apply Z.div_pos; lia | apply Z.div_lt_upper_bound; lia].
Qed.
Lemma be_bytes_shape n x : length (Sha256.be_bytes n x) = n /\ Forall (fun b => 0 <= b < 256) (Sha256.be_bytes n x).
Proof.
  induction n as [| n [IH1 IH2]]; [done |]. cbn [Sha256.be_bytes length]. split; [by rewrite IH1 |]. constructor; [| done].
  change 255 with (Z.ones 8). rewrite Z.land_ones by lia. by apply Z.mod_pos_bound.
Qed.
Lemma round_length st kw : length (Sha256.round st kw) = length st.
Proof. unfold Sha256.round. by repeat (case_match; try done). Qed.
Lemma rounds_length l st : length (foldl Sha256.round st l) = length st.
Proof. revert st. induction l as [| kw l IH]; intros st; [done |]. simpl. by rewrite IH, round_length. Qed.
Lemma compress_length st block : length (Sha256.compress st block) = length st.
Proof. unfold Sha256.compress. rewrite length_zip_with, rounds_length. lia. Qed.
Lemma blocks_length l st : length (foldl Sha256.compress st l) = length st.
Proof. revert st. induction l as [| b l IH]; intros st; [done |]. cbn [foldl]. by rewrite IH, compress_length. Qed.
Lemma sum_shape m : length (Sha256.sum m) = 32%nat /\ Forall (fun b => 0 <= b < 256) (Sha256.sum m).
Proof.
  unfold Sha256.sum. set (st := foldl _ _ _). assert (length st = 8%nat) as Hl by (unfold st; by rewrite blocks_length).
  clearbody st. assert (length (concat (map (Sha256.be_bytes 4) st)) = (4 * length st)%nat /\
    Forall (fun b => 0 <= b < 256) (concat (map (Sha256.be_bytes 4) st))) as [Hc Hf]; [| by rewrite Hc, Hl].
  clear Hl. induction st as [| w st [IH1 IH2]]; [done |]. cbn [map concat]. destruct (be_bytes_shape 4 w) as [H1 H2].
  split; [rewrite length_app, H1, IH1; simpl; lia | by apply Forall_app].
Qed.
Lemma Digest_shape v : transitionDigest (Digest v) = true.
Proof.
  unfold transitionDigest, Digest. apply RegexpFacts.matches_lang. apply Regexp.lang_cat; [by apply RegexpFacts.matches_lang |].
  destruct (sum_shape (Sha256.bytes_of (marshal v))) as [Hl Hf]. destruct (hex_shape _ Hf) as [H1 H2].
  apply lang_repeat; [| done]. unfold Sha256.hex_sum. by rewrite H1, Hl.
Qed.

(** ** What comes back from Runtime *)
Section Exact.
Context {J : JsonLib} {L : HttpLib} {U : UuidLib}.

Definition plain_json (header : Header) : Prop :=
  media_type (hget header "Content-Type") = Some "application/json" /\ length (Values header "Content-Type") = 1%nat
  /\ hget header "Content-Encoding" = "".

(** A step comes back exactly when it is well formed and the server answers it
    with a plain 200 whose body is a strict JSON object of the step's four members
    and a phase that the mode of the step allows; then that is the progress. *)
Theorem reconcile_is_exact c serve step out :
  ReconcileTransition c serve step = Ok out <->
  validTransitionStep step = true /\ request_url (hr_endpoint c) = true
  /\ exists header text, serve (post_of c step) = Replied 200 header (mkBody text false) /\ plain_json header
     /\ answer_text text out /\ pr_Step out = step /\ pr_Phase out ∈ allowed_phases (st_Mode step).
Proof.
  unfold ReconcileTransition, plain_json. destruct (validTransitionStep step); cbn [negb]; [| split; [done | by intros (? & _)]].
  destruct (request_url (hr_endpoint c)); cbn [negb]; [| split; [done | by intros (_ & ? & _)]].
  destruct (serve (post_of c step)) as [[text |] | status header [text broken]];
    [split; [done | by intros (_ & _ & ? & ? & ? & _)].. |]. cbn [bd_Broken bd_Text].
  split.
  - destruct (negb (status =? 200)) eqn:Es; [done |]. destruct (_ || _) eqn:Eh; [done |]. destruct broken; [done |].
    destruct (Decode 4096 text) as [p |] eqn:Ed; [| done]. apply decode_answer in Ed.
    destruct (negb (bool_decide (pr_Step p = step))) eqn:Ep; [done |].
    destruct (negb (slices_contains (allowed_phases (st_Mode step)) (pr_Phase p))) eqn:Ea; [done |]. intros [= <-].
    apply orb_false_iff in Eh as [Eh E3]. apply orb_false_iff in Eh as [E1 E2]. apply negb_false_iff, Nat.eqb_eq in E2.
    apply negb_false_iff, slices_contains_true in Ea. bool_norm. subst status. split_and!; try done. exists header, text. by split_and!.
  - intros (_ & _ & h & t & [= -> <- <- ->] & (H1 & H2 & H3) & Ht & Hs & Hp). cbn [Z.eqb negb].
    rewrite H1, H2, H3, bool_decide_true by done. cbn [negb orb Nat.eqb String.eqb].
    apply decode_answer in Ht. rewrite Ht, bool_decide_true by done. apply slices_contains_true in Hp. by rewrite Hp.
Qed.
End Exact.

(** ** A server that finishes what it is asked *)
Section Served.
Context {J : JsonLib} {L : HttpLib} {U : UuidLib}.
Variable station : string.
Variables (c : HTTPTransitionRuntime) (serve : PostRequest -> PostAnswer).

(** It answers every well-formed step with a strict JSON object that says the step
    is finished. *)
Definition serves_obligingly : Prop := forall step done_, validTransitionStep step = true -> obliging step = Ok done_ ->
  exists header text, serve (post_of c step) = Replied 200 header (mkBody text false) /\ plain_json header /\ answer_text text done_.
(** A nonce as the worker draws it: the canonical text of a version 4 identifier. *)
Definition nonce_ok (nonce : string) : bool :=
  match uuid_parse nonce with
  | Some id => (uuid_version id =? 4) && uuid_rfc4122 id && (uuid_text id =? nonce)%string
  | None => false
  end.

Lemma reconcile_obliging step : serves_obligingly -> request_url (hr_endpoint c) = true -> validTransitionStep step = true ->
  st_Mode step <> "verify_forward" -> ReconcileTransition c serve step = obliging step.
Proof.
  intros Hs Hu Hv Hm. destruct (obliging step) as [p | e] eqn:Eo; [| done]. apply reconcile_is_exact.
  destruct (Hs step p Hv Eo) as (header & text & H1 & H2 & H3). split_and!; try done. exists header, text. split_and!; try done.
  - unfold obliging in Eo. by injection Eo as <-.
  - unfold obliging in Eo. injection Eo as <-. cbn [pr_Phase].
    assert (st_Mode step ∈ modes) as Hin.
    { unfold validTransitionStep in Hv. apply andb_true_iff in Hv as [_ Hv]. by apply slices_contains_true. }
    unfold modes in Hin. rewrite !elem_of_cons, elem_of_nil in Hin.
    destruct Hin as [E | [E | [E | [E | [E | []]]]]]; rewrite E in *; try done; by apply (bool_decide_unpack _).
Qed.

Definition drive_http (op : string) (calls : list (string * Time)) (db : DB) : DB :=
  foldl (fun d call => fst (DispatchTransition station true op (Some (ReconcileTransition c serve)) (fst call) (fun d => d) None (snd call) d))
    db calls.

Lemma dispatch_mode_known r b mode : dispatch_plan r b = Ok (PlanCall mode) -> mode ∈ modes /\ mode <> "verify_forward".
Proof.
  unfold dispatch_plan. repeat (case_match; try done). intros [= <-]. unfold dispatch_mode.
  repeat case_match; (split; [by apply (bool_decide_unpack _) | done]).
Qed.
Lemma dispatch_http op call db : serves_obligingly -> request_url (hr_endpoint c) = true -> nonce_ok (fst call) = true ->
  DispatchTransition station true op (Some (ReconcileTransition c serve)) (fst call) (fun d => d) None (snd call) db
  = DispatchTransition station true op (Some obliging) (fst call) (fun d => d) None (snd call) db.
Proof.
  intros Hs Hu Hn. unfold DispatchTransition. destruct (canonicalInstallation op) eqn:Eop; [| done]. cbn [negb orb].
  destruct (negb (canonicalInstallation station)); [done |]. destruct (readDispatchTransition db station op) as [r |]; [| done].
  destruct (dispatch_plan r _) as [[| | mode] |] eqn:Ep; try done. apply dispatch_mode_known in Ep as [Hin Hne].
  rewrite reconcile_obliging; [done | done | done | | done]. unfold validTransitionStep. cbn [st_OperationID st_RequestID st_InputDigest st_Mode].
  rewrite Eop. unfold nonce_ok in Hn. rewrite Hn. unfold inputDigest. rewrite Digest_shape. cbn [andb]. by apply slices_contains_true.
Qed.
Lemma drive_http_obliges op calls db : serves_obligingly -> request_url (hr_endpoint c) = true ->
  Forall (fun call => nonce_ok (fst call) = true) calls -> drive_http op calls db = drive station op calls db.
Proof.
  intros Hs Hu Hn. revert db. induction Hn as [| call calls Hc _ IH]; intros db; [done |].
  unfold drive_http, drive in *. cbn [foldl]. rewrite dispatch_http by done. apply IH.
Qed.

(** Behind the transport, a server that finishes what it is asked brings every
    accepted transition to its end: from any reachable state and any unfinished
    phase, four dispatch calls over HTTP complete it, its input unchanged. *)
Theorem cooperative_server_completes w op r calls :
  serves_obligingly -> request_url (hr_endpoint c) = true -> Forall (fun call => nonce_ok (fst call) = true) calls ->
  world_reachable station w -> canonicalInstallation op = true -> canonicalInstallation station = true ->
  readDispatchTransition (w_db w) station op = Ok r -> terminal (t_Status (d_T r)) = false ->
  forward_pending op (w_db w) = false -> (4 <= length calls)%nat ->
  exists row, app_installation_transitions (drive_http op calls (w_db w)) !! op = Some row /\
    terminal (t_Status (tr_T row)) = true /\ t_Phase (tr_T row) = "completed" /\ same_input (d_T r) (tr_T row).
Proof. intros Hs Hu Hn. rewrite drive_http_obliges by done. apply drive_completes. Qed.
End Served.

(** ** A concrete server *)
Module TransportSample.
Import CanonicalUuid.
Definition dq : ascii := ascii_of_N 34.
(** Flat objects of plain strings: the pieces between the quotes. *)
Fixpoint pairs (l : list string) : list (string * raw) :=
  match l with k :: _ :: v :: _ :: rest => (k, RString v) :: pairs rest | _ => [] end.
#[export] Instance flat_json : JsonLib := {|
  json_tokens text := Some (RObject (pairs (tl (split_byte dq text)))); parses_float _ := true |}.
#[export] Instance plain_http : HttpLib := {|
  media_type s := if (s =? "application/json")%string then Some s else None; url_parse _ := None; request_url _ := true |}.

Definition pieces (p : TransitionProgress) : list string :=
  ["{"; "operation_id"; ":"; st_OperationID (pr_Step p); ","; "request_id"; ":"; st_RequestID (pr_Step p); ",";
   "input_digest"; ":"; st_InputDigest (pr_Step p); ","; "mode"; ":"; st_Mode (pr_Step p); ","; "phase"; ":"; pr_Phase p].

(** Bytes that stand for themselves in JSON. *)
Definition clean (c : ascii) : bool := ((44 <=? byte_of c) && (byte_of c <=? 58)) || ((95 <=? byte_of c) && (byte_of c <=? 125)).
Definition cleanly (s : string) : bool := negb (contains_any (fun c => negb (clean c)) s).
Lemma clean_range c : clean c = true -> 44 <= byte_of c <= 58 \/ 95 <= byte_of c <= 125.
Proof. unfold clean. intros Hc. apply orb_true_iff in Hc as [Hc | Hc]; bool_norm; lia. Qed.

Lemma cleanly_cons c s : cleanly (String c s) = clean c && cleanly s.
Proof. unfold cleanly. cbn [contains_any]. by destruct (clean c). Qed.
Lemma cleanly_app a b : cleanly (a +:+ b) = cleanly a && cleanly b.
Proof. induction a as [| c a IH]; [done |]. by rewrite app_cons_str, !cleanly_cons, IH, andb_assoc. Qed.
Lemma split_clean a rest : cleanly a = true -> split_byte dq (a +:+ String dq rest) = a :: split_byte dq rest.
Proof.
  induction a as [| c a IH]; intros Hc; [done |].
  rewrite cleanly_cons in Hc. apply andb_true_iff in Hc as [Hc Ha]. rewrite app_cons_str. cbn [split_byte]. rewrite IH by done.
  apply clean_range in Hc. rewrite bool_decide_false; [done |]. intros ->. change (byte_of dq) with 34 in Hc. lia.
Qed.
Definition quoted (l : list string) : string := foldr (fun piece rest => piece +:+ String dq rest) "}" l.
Lemma split_quoted l : forallb cleanly l = true -> split_byte dq (quoted l) = l ++ ["}"].
Proof.
  induction l as [| a l IH]; [done |]. cbn [forallb]. intros [Ha Hl]%andb_true_iff.
  unfold quoted in *. cbn [foldr app]. by rewrite split_clean, IH.
Qed.
Lemma utf8_clean a rest : cleanly a = true -> utf8_valid_from 0 (a +:+ rest) = utf8_valid_from 0 rest.
Proof.
  induction a as [| c a IH]; intros Hc; [done |]. rewrite cleanly_cons in Hc. apply andb_true_iff in Hc as [Hc Ha].
  rewrite app_cons_str. cbn [utf8_valid_from]. apply clean_range in Hc.
  unfold utf8_width. cbv zeta. rewrite (proj2 (Z.ltb_lt (byte_of c) 128)) by lia. by apply IH.
Qed.
Lemma utf8_quoted l : forallb cleanly l = true -> utf8_valid_from 0 (quoted l) = true.
Proof.
  induction l as [| a l IH]; [done |]. cbn [forallb]. intros [Ha Hl]%andb_true_iff.
  unfold quoted in *. cbn [foldr]. rewrite utf8_clean by done. by apply IH.
Qed.
Lemma length_quoted l : String.length (quoted l) = S (foldr (fun a n => String.length a + S n)%nat O l).
Proof.
  unfold quoted. induction l as [| a l IH]; [done |]. cbn [foldr]. rewrite length_app_str. cbn [String.length]. rewrite IH. lia.
Qed.
Lemma escape_clean s : cleanly s = true -> escape_from 0 true s = s.
Proof.
  induction s as [| c s IH]; [done |]. rewrite cleanly_cons. intros [Hc Hs]%andb_true_iff. cbn [escape_from].
  apply clean_range in Hc. rewrite (proj2 (Z.ltb_lt (byte_of c) 128)), IH by (done || lia).
  unfold escape_ascii. cbv zeta.
  repeat match goal with |- context [byte_of c =? ?n] => rewrite (proj2 (Z.eqb_neq (byte_of c) n)) by lia end.
  by rewrite (proj2 (Z.ltb_ge (byte_of c) 32)) by lia.
Qed.

Lemma lower_hex_clean c : lower_hex c = true -> clean c = true.
Proof.
  unfold lower_hex, is_digit, in_range, clean. change (byte_of "a") with 97. change (byte_of "f") with 102.
  intros Hc. apply orb_true_iff in Hc as [Hc | Hc]; bool_norm; apply orb_true_iff; [left | right]; apply andb_true_iff; split; apply Z.leb_le; lia.
Qed.
Lemma shape_clean n s : shape_ok n s = true -> cleanly s = true /\ (n + String.length s = 36)%nat.
Proof.
  revert n. induction s as [| c s IH]; intros n; cbn [shape_ok].
  - intros ->%bool_decide_eq_true. done.
  - intros [Hc Hs]%andb_true_iff. destruct (IH _ Hs) as [H1 H2]. split; [| cbn [String.length]; lia].
    rewrite cleanly_cons, H1, andb_true_r.
    destruct (bool_decide (n ∈ _)); [apply bool_decide_eq_true in Hc as ->; done | by apply lower_hex_clean].
Qed.
Lemma lang_times_inv (q : ascii -> bool) n s : (forall c, q c = true -> clean c = true) ->
  Regexp.lang (Regexp.times n (Regexp.Class q)) s -> cleanly s = true /\ String.length s = n.
Proof.
  intros Hq. revert s. induction n as [| n IH]; intros s; cbn [Regexp.times].
  - intros ->%RegexpFacts.lang_empty_inv. done.
  - intros (a & b & -> & (c & -> & Hc)%RegexpFacts.lang_class_inv & Hb)%RegexpFacts.lang_cat_inv. destruct (IH b Hb) as [H1 H2].
    rewrite app_cons_str. change ("" +:+ b) with b. rewrite cleanly_cons, (Hq c Hc). cbn [String.length]. by rewrite H2.
Qed.
Lemma lang_lit t s : Regexp.lang (Regexp.lit t) s -> s = t.
Proof.
  revert s. induction t as [| c t IH]; intros s; cbn [Regexp.lit]; [apply RegexpFacts.lang_empty_inv |].
  intros (a & b & -> & (c' & -> & Hc)%RegexpFacts.lang_class_inv & ->%IH)%RegexpFacts.lang_cat_inv. by apply bool_decide_eq_true in Hc as ->.
Qed.
Lemma digest_clean s : transitionDigest s = true -> cleanly s = true /\ String.length s = 71%nat.
Proof.
  unfold transitionDigest. intros Hs%RegexpFacts.matches_lang. unfold TransitionPatterns.digest in Hs.
  apply RegexpFacts.lang_cat_inv in Hs as (a & b & -> & Ha & Hb). apply lang_times_inv in Hb as [Hb Hl]; [| apply lower_hex_clean].
  apply lang_lit in Ha as ->. rewrite cleanly_app, Hb, length_app_str, Hl. by split.
Qed.
Lemma canonical_clean id : canonicalInstallation id = true -> cleanly id = true /\ String.length id = 36%nat.
Proof.
  unfold canonicalInstallation, uuid_parse, lib, parse. destruct (shape_ok 0 id) eqn:E; [| done]. intros _.
  by apply shape_clean in E.
Qed.
Lemma valid_step_clean step : validTransitionStep step = true ->
  Forall (fun s => cleanly s = true /\ (String.length s <= 71)%nat)
    [st_OperationID step; st_RequestID step; st_InputDigest step; st_Mode step].
Proof.
  unfold validTransitionStep. intros [[[[Ho Hol]%canonical_clean Hr]%andb_true_iff [Hd Hdl]%digest_clean]%andb_true_iff Hm]%andb_true_iff.
  assert (cleanly (st_RequestID step) = true /\ String.length (st_RequestID step) = 36%nat) as [Hrc Hrl].
  { unfold uuid_parse, lib, parse in Hr. destruct (shape_ok 0 (st_RequestID step)) eqn:E; [| done]. by apply shape_clean in E. }
  apply slices_contains_true in Hm. unfold modes in Hm. rewrite !elem_of_cons, elem_of_nil in Hm.
  repeat (apply Forall_cons; split); [split; [done | lia] .. | | by apply Forall_nil].
  destruct_or! Hm; try done; rewrite Hm; (split; [done | simpl; lia]).
Qed.

(** The body of the request, and of the answer, as pieces between quotes. *)
Lemma marshal_clean s : cleanly s = true -> marshal (JStr s) = String dq (s +:+ String dq "").
Proof. intros Hs. cbn [marshal]. unfold marshal_string. by rewrite escape_clean. Qed.
Definition step_pieces (s : TransitionStep) : list string :=
  ["{"; "operation_id"; ":"; st_OperationID s; ","; "request_id"; ":"; st_RequestID s; ",";
   "input_digest"; ":"; st_InputDigest s; ","; "mode"; ":"; st_Mode s].
Lemma step_text step : validTransitionStep step = true -> marshal (step_json step) = quoted (step_pieces step).
Proof.
  intros Hv. apply valid_step_clean in Hv. rewrite !Forall_cons in Hv. destruct Hv as ([H1 _] & [H2 _] & [H3 _] & [H4 _] & _).
  unfold step_json. cbn [marshal map join foldl]. unfold marshal_string. rewrite !escape_clean by done.
  unfold quoted, step_pieces, dquote. cbn [foldr]. rewrite !app_assoc_str. reflexivity.
Qed.

(** The server takes the step from the request's body and says it is finished. *)
Definition requested (body : string) : option TransitionStep :=
  match json_tokens body with
  | Some (RObject m) =>
      o ← text_member m "operation_id"; r ← text_member m "request_id"; d ← text_member m "input_digest";
      x ← text_member m "mode"; Some (mkStep o r d x)
  | _ => None
  end.
Definition serve (q : PostRequest) : PostAnswer :=
  match requested (po_Body q) with
  | Some step =>
      match obliging step with
      | Ok p => Replied 200 (hset "Content-Type" "application/json" []) (mkBody (quoted (pieces p)) false)
      | Err _ => Unreachable None
      end
  | None => Unreachable None
  end.
Lemma step_requested step : validTransitionStep step = true -> requested (marshal (step_json step)) = Some step.
Proof.
  intros Hv. rewrite step_text by done. apply valid_step_clean in Hv. rewrite !Forall_cons in Hv.
  destruct Hv as ([H1 _] & [H2 _] & [H3 _] & [H4 _] & _). unfold requested, json_tokens, flat_json.
  rewrite split_quoted; [by destruct step |]. unfold step_pieces. cbn [forallb]. by rewrite H1, H2, H3, H4.
Qed.
Lemma obliging_text step p : validTransitionStep step = true -> obliging step = Ok p -> answer_text (quoted (pieces p)) p.
Proof.
  intros Hv [= <-]. apply valid_step_clean in Hv. rewrite !Forall_cons in Hv.
  destruct Hv as ([H1 L1] & [H2 L2] & [H3 L3] & [H4 L4] & _). set (q := if (st_Mode step =? "prepare")%string then _ else _).
  assert (cleanly q = true /\ (String.length q <= 8)%nat) as [H5 L5] by (unfold q; repeat case_match; (split; [done | simpl; lia])).
  clearbody q. assert (forallb cleanly (pieces (mkProgress step q)) = true) as Hc.
  { unfold pieces. cbn [forallb pr_Step pr_Phase]. by rewrite H1, H2, H3, H4, H5. }
  split.
  - unfold within, utf8_valid. rewrite utf8_quoted by done. rewrite andb_true_r. apply andb_true_iff. split; [done |].
    apply Z.leb_le. unfold len. rewrite length_quoted. unfold pieces. cbn [foldr pr_Step pr_Phase String.length]. lia.
  - exists (progress_members (mkProgress step q)). split; [| done]. unfold json_tokens, flat_json. by rewrite split_quoted.
Qed.
Lemma sample_obliges c : serves_obligingly c serve.
Proof.
  intros step p Hv Ho. exists (hset "Content-Type" "application/json" []), (quoted (pieces p)).
  split_and!; [| by split_and! | by apply (obliging_text step)].
  unfold serve, post_of. cbn [po_Body]. by rewrite step_requested, Ho.
Qed.

Import OperationsSample.
Definition runtime : HTTPTransitionRuntime := mkHTTPRuntime "http://runtime/internal/installation-transitions/v1/reconcile" "0123456789abcdef0123456789abcdef".
Definition calls : list (string * Time) :=
  [("00000000-0000-4000-8000-000000000001", 1); ("00000000-0000-4000-8000-000000000002", 2);
   ("00000000-0000-4000-8000-000000000003", 3); ("00000000-0000-4000-8000-000000000004", 4)].
End TransportSample.

#[local] Existing Instance TransportSample.flat_json.
#[local] Existing Instance TransportSample.plain_http.
#[local] Existing Instance CanonicalUuid.lib.
(** Behind the sample server the sample upgrade is completed. *)
Lemma cooperative_server_completes_witness : exists row,
  app_installation_transitions (drive_http OperationsSample.station TransportSample.runtime TransportSample.serve OperationsSample.op2
    TransportSample.calls (w_db OperationsSample.w3)) !! OperationsSample.op2 = Some row /\
  terminal (t_Status (tr_T row)) = true /\ t_Phase (tr_T row) = "completed" /\
  same_input (d_T (OperationsSample.read OperationsSample.w3)) (tr_T row).
Proof.
  apply (cooperative_server_completes OperationsSample.station TransportSample.runtime TransportSample.serve
    OperationsSample.w3 OperationsSample.op2 (OperationsSample.read OperationsSample.w3) TransportSample.calls).
  - exact (TransportSample.sample_obliges _).
  - reflexivity.
  - repeat constructor.
  - apply reach3.
  - vm_compute. reflexivity.
  - vm_compute. reflexivity.
  - vm_compute. reflexivity.
  - vm_compute. reflexivity.
  - vm_compute. reflexivity.
  - simpl. lia.
Defined.
