(* ===== verification/GoFloat.v ===== *)
(** * float64 and durations of Go

    A float64 is a [spec_float] of 53 bits with exponents up to 1024, the standard
    library's formalization of IEEE 754. Conversions of values an integer type
    cannot hold are up to the implementation of Go: [FloatLib] has them, with the
    parsers of strconv and time. *)
From stdpp Require Import gmap list strings.
From S2P Require Import Prelude GoStd.
From Stdlib Require Import SpecFloat Ascii.
#[local] Open Scope Z_scope.

Definition float64 := spec_float.

(** [strconv.ParseFloat] (the value that is returned with an error too, and whether
    there is an error), [time.ParseDuration], and the conversions out of range. *)
Class FloatLib := {
  ParseFloat : string -> float64 * bool;
  ParseDuration : string -> option Z;
  wild_int64 : float64 -> Z;
  wild_uint64 : float64 -> Z }.

Definition fadd : float64 -> float64 -> float64 := SFadd 53 1024.
Definition fsub : float64 -> float64 -> float64 := SFsub 53 1024.
Definition fmul : float64 -> float64 -> float64 := SFmul 53 1024.
Definition fdiv : float64 -> float64 -> float64 := SFdiv 53 1024.
Definition fltb : float64 -> float64 -> bool := SFltb.
Definition fleb : float64 -> float64 -> bool := SFleb.
(** [float64(n)], to nearest even. *)
Definition of_int (n : Z) : float64 := binary_normalize 53 1024 n 0 false.
Definition fzero : float64 := S754_zero false.
Definition IsNaN (f : float64) : bool := match f with S754_nan => true | _ => false end.
(** [math.IsInf(f, 0)]. *)
Definition IsInf (f : float64) : bool := match f with S754_infinity _ => true | _ => false end.
Definition finite (f : float64) : bool := negb (IsNaN f) && negb (IsInf f).
Definition negative_sign (f : float64) : bool :=
  match f with S754_zero s | S754_infinity s | S754_finite s _ _ => s | S754_nan => false end.
(** [math.Min]. *)
Definition math_Min (x y : float64) : float64 :=
  if IsInf x && negative_sign x || IsInf y && negative_sign y then S754_infinity true
  else if IsNaN x || IsNaN y then S754_nan
  else match x, y with
       | S754_zero s, S754_zero _ => if s then x else y
       | _, _ => if fltb x y then x else y
       end.

(** The integer part; [None] for the infinities and NaN. *)
Definition truncate (f : float64) : option Z :=
  match f with
  | S754_zero _ => Some 0
  | S754_finite s m e =>
      let n := if 0 <=? e then Zpos m * 2 ^ e else Zpos m / 2 ^ (- e) in
      Some (if s then - n else n)
  | _ => None
  end.

Section Conversions.
Context {F : FloatLib}.

(** [int64(f)], [int(f)] on a 64-bit platform, and [uint64(f)]. *)
Definition int64_of (f : float64) : Z :=
  match truncate f with
  | Some n => if (min_int64 <=? n) && (n <=? max_int64) then n else wild_int64 f
  | None => wild_int64 f
  end.
Definition uint64_of (f : float64) : Z :=
  match truncate f with
  | Some n => if (0 <=? n) && (n <? u64_modulus) then n else wild_uint64 f
  | None => wild_uint64 f
  end.
End Conversions.

(** int64 and uint64 arithmetic. *)
Definition wrap64 (n : Z) : Z := (n + 2 ^ 63) mod u64_modulus - 2 ^ 63.
Definition wrapU (n : Z) : Z := n mod u64_modulus.

(** ** Instants and durations *)

(** [time.UnixMilli]: instants count from year 1. *)
Definition unix_epoch : Z := 62135596800 * second.
Definition UnixMilli (ms : Z) : Time := unix_epoch + ms * 1000000.
(** [t.Sub(u)] is clamped to an int64. *)
Definition time_sub (t u : Time) : Z := Z.max min_int64 (Z.min max_int64 (t - u)).
Definition hour : Z := 60 * minute.
(** [d.Seconds()], [d.Minutes()], [d.Hours()]: quotients toward zero. *)
Definition in_units (unit d : Z) : float64 := fadd (of_int (Z.quot d unit)) (fdiv (of_int (Z.rem d unit)) (of_int unit)).
Definition Seconds : Z -> float64 := in_units second.
Definition Minutes : Z -> float64 := in_units minute.
Definition Hours : Z -> float64 := in_units hour.

(** [strconv.Atoi] with its error ignored: out of range it still gives the nearest
    integer, and zero for any other text. *)
Definition atoi_value (s : string) : Z :=
  let '(neg, body) :=
    match s with
    | String "-" s' => (true, s')
    | String "+" s' => (false, s')
    | _ => (false, s)
    end in
  if (body =? "")%string then 0
  else match digits_value 0 body with
       | None => 0
       | Some n => if neg then Z.max min_int64 (- n) else Z.min max_int64 n
       end.

Example float_examples :
  truncate (fdiv (of_int 7) (of_int 2)) = Some 3 /\ truncate (of_int (-5)) = Some (-5)
  /\ fltb (fadd (of_int 1) (of_int 2)) (of_int 4) = true /\ of_int (2 ^ 53 + 1) = of_int (2 ^ 53)
  /\ math_Min (of_int 2) (of_int 1) = of_int 1 /\ Hours (90 * minute) = fdiv (of_int 3) (of_int 2)
  /\ wrap64 (2 ^ 63) = - 2 ^ 63 /\ atoi_value "-12" = -12 /\ atoi_value "99999999999999999999" = max_int64
  /\ UnixMilli 0 = 62135596800000000000.
Proof. split_and!; vm_compute; reflexivity. Qed.

(** Clamping does not change a comparison with a duration. *)
Lemma time_sub_ltb t u d : min_int64 <= d < max_int64 -> (d <? time_sub t u) = (d <? t - u).
Proof. unfold time_sub, min_int64, max_int64. intros H. destruct (Z.ltb_spec d (t - u)); [apply Z.ltb_lt | apply Z.ltb_ge]; lia. Qed.
