(* ===== verification/TelemetryTypes.v ===== *)
(** * Data of the telemetry service: internal/telemetry

    The structs of service.go, snapshot.go, workloads.go and gpu_usage.go; a uint64
    is a [Z]. What the service reads is here too: the answers of Prometheus, and the
    pods and their metrics as catalog/kubernetes.go lists them. *)
From stdpp Require Import gmap list strings.
From S2P Require Import Prelude GoStd GoFloat.
#[local] Open Scope Z_scope.

Record GPUMetric := mkGPU {
  gm_Index : Z; gm_Device : string; gm_ModelName : string; gm_UUID : string;
  gm_FreeVRAMMB : Z; gm_TotalVRAMMB : Z; gm_UsedVRAMMB : Z;
  gm_Utilization : float64; gm_TemperatureC : float64; gm_PowerWatts : float64 }.

Record DiskMetric := mkDisk {
  dm_Mountpoint : string; dm_Device : string; dm_FSType : string;
  dm_TotalBytes : Z; dm_AvailBytes : Z; dm_UsedBytes : Z; dm_UsedPercent : float64 }.

Record NodeMetric := mkNode {
  nm_CPUCores : Z; nm_CPUUtilizationPercent : float64;
  nm_CPULoad1 : float64; nm_CPULoad5 : float64; nm_CPULoad15 : float64;
  nm_MemTotalBytes : Z; nm_MemAvailableBytes : Z; nm_MemUsedBytes : Z;
  nm_MemBuffersBytes : Z; nm_MemCachedBytes : Z; nm_MemUsedPercent : float64;
  nm_StorageDisks : list DiskMetric }.

Record ResourceMetric := mkResourceMetric {
  rm_Value : option float64; rm_Request : option float64; rm_Limit : option float64;
  rm_SampledAt : option string; rm_Quality : string; rm_Reason : string; rm_Scope : string; rm_Unit : string }.
Record ContainerMetric := mkContainer {
  cm_Name : string; cm_Ready : bool; cm_Restarts : Z; cm_CPU : ResourceMetric; cm_Memory : ResourceMetric;
  cm_GPURequest : option float64; cm_GPULimit : option float64 }.
Record WorkloadMetric := mkWorkload {
  wm_Name : string; wm_Namespace : string; wm_PodName : string; wm_PodUID : string; wm_InstanceAlias : string;
  wm_Status : string; wm_Age : string; wm_Type : string; wm_DisplayName : string; wm_CreatedAt : string;
  wm_Containers : list ContainerMetric }.
Record WorkloadSummary := mkWorkloadSummary {
  ws_TotalPods : Z; ws_GPUPods : Z; ws_InfraPods : Z;
  ws_TotalGPURequested : float64; ws_TotalCPURequested : float64; ws_TotalMemoryRequested : float64 }.
Record GPUUsageSample := mkUsage { gs_UUID : string; gs_Memory : ResourceMetric }.
Record WorkloadsResponse := mkWorkloads {
  wr_SchemaVersion : Z; wr_Summary : WorkloadSummary; wr_Workloads : list WorkloadMetric;
  wr_GPUSamples : list GPUUsageSample; wr_UpdatedAt : string }.

Record ResourceSummary := mkSummary {
  su_TotalGPUs : Z; su_TotalVRAMMB : Z; su_UsedVRAMMB : Z; su_FreeVRAMMB : Z; su_AverageGPUUtil : float64;
  su_HostCPUCores : Z; su_HostCPUUtilization : float64; su_HostCPULoad1 : float64;
  su_HostMemTotalGB : float64; su_HostMemUsedGB : float64; su_HostMemUsedPercent : float64;
  su_StorageTotalTB : float64; su_StorageUsedTB : float64; su_StorageUsedPercent : float64;
  su_StorageDisks : list DiskMetric; su_Status : string; su_UpdatedAt : string }.

Record SnapshotGPU := mkSnapshotGPU {
  sg_Index : Z; sg_UUID : string; sg_Device : string; sg_ModelName : string; sg_SampledAt : string;
  sg_Quality : string; sg_FreeVRAMMB : option float64; sg_TotalVRAMMB : option float64;
  sg_UsedVRAMMB : option float64; sg_Utilization : option float64; sg_TemperatureC : option float64;
  sg_PowerWatts : option float64 }.
Record SnapshotDisk := mkSnapshotDisk {
  sd_Mountpoint : string; sd_Device : string; sd_FSType : string; sd_TotalBytes : option float64;
  sd_AvailBytes : option float64; sd_UsedBytes : option float64; sd_UsedPercent : option float64 }.
Record SnapshotNode := mkSnapshotNode {
  sh_SampledAt : string; sh_Quality : string; sh_CPUCores : option float64;
  sh_CPUUtilizationPercent : option float64; sh_CPULoad1 : option float64; sh_CPULoad5 : option float64;
  sh_CPULoad15 : option float64; sh_MemTotalBytes : option float64; sh_MemAvailableBytes : option float64;
  sh_MemUsedBytes : option float64; sh_MemBuffersBytes : option float64; sh_MemCachedBytes : option float64;
  sh_MemUsedPercent : option float64; sh_StorageDisks : list SnapshotDisk }.
Record SnapshotWorkload := mkSnapshotWorkload {
  sw_Name : string; sw_Namespace : string; sw_PodName : string; sw_PodUID : string; sw_InstanceAlias : string;
  sw_Status : string; sw_CreatedAt : string; sw_Labels : gmap string string; sw_Containers : list ContainerMetric }.
Record Snapshot := mkTelemetry {
  ts_SchemaVersion : Z; ts_ObservedAt : string; ts_HardwareState : string; ts_GPUs : list SnapshotGPU;
  ts_Node : option SnapshotNode; ts_Workloads : list SnapshotWorkload }.

(** ** Answers of Prometheus *)

(** A value decoded into [interface{}]: numbers are float64, strings strings. *)
Inductive any : Type :=
| ANumber (x : float64)
| AString (s : string)
| AOther.
Record promRow := mkRow { pr_Metric : gmap string string; pr_Value : list any; pr_Values : list (list any) }.
Record promResponse := mkProm { pq_Status : string; pq_ResultType : string; pq_Result : list promRow }.

(** What an HTTP request came to: no answer, or a status and the decoded body. *)
Inductive fetched (A : Type) : Type :=
| Unanswered
| Answered (status : Z) (body : option A).
Arguments Unanswered {A}.
Arguments Answered {A} status body.

(** ** Pods: catalog/kubernetes.go *)

Record RawContainer := mkRawContainer {
  rc_Name : string; rc_CPUReq : string; rc_CPULim : string; rc_MemReq : string; rc_MemLim : string;
  rc_GPUReq : string; rc_GPULim : string; rc_Ready : bool; rc_RestartCount : Z }.
Record RawPodItem := mkRawPod {
  rp_UID : string; rp_Name : string; rp_Namespace : string; rp_NodeName : string; rp_Phase : string;
  rp_StartTime : string; rp_CreatedAt : string; rp_Labels : gmap string string; rp_Containers : list RawContainer }.
Record RawPodMetricItem := mkRawMetric {
  rx_UID : string; rx_Name : string; rx_Namespace : string; rx_Container : string; rx_Timestamp : string;
  rx_Window : string; rx_CPUUsage : string; rx_MemUsage : string }.

(** The decoded lists of the Kubernetes API; an absent map reads as an empty one. *)
Record listedContainer := mkListedContainer {
  lc_Name : string; lc_Requests : gmap string string; lc_Limits : gmap string string }.
Record listedStatus := mkListedStatus { lt_Name : string; lt_Ready : bool; lt_RestartCount : Z }.
Record listedPod := mkListedPod {
  lp_UID : string; lp_Name : string; lp_Namespace : string; lp_CreationTimestamp : string; lp_Labels : gmap string string;
  lp_NodeName : string; lp_Containers : list listedContainer;
  lp_Phase : string; lp_StartTime : string; lp_ContainerStatuses : list listedStatus }.
Record listedUsage := mkListedUsage { lu_Name : string; lu_CPU : string; lu_Memory : string }.
Record listedMetrics := mkListedMetrics {
  lm_UID : string; lm_Name : string; lm_Namespace : string; lm_Timestamp : string; lm_Window : string;
  lm_Containers : list listedUsage }.

Definition mget (m : gmap string string) (k : string) : string := default "" (m !! k).

(** [telemetryList]: the body is one value ([Answered 200 (Some _)]), or an error. *)
Definition telemetryList {A} (resp : fetched A) : result string A :=
  match resp with
  | Unanswered => Err "kubernetes telemetry request failed"
  | Answered status body =>
      reject ("kubernetes telemetry status " +:+ format_int status) when negb (status =? 200) ;;
      match body with None => Err "invalid telemetry response" | Some value => Ok value end
  end.

(** The statuses of one name: the last one counts. *)
Definition with_status (rc : RawContainer) (st : listedStatus) : RawContainer :=
  if (lt_Name st =? rc_Name rc)%string
  then mkRawContainer (rc_Name rc) (rc_CPUReq rc) (rc_CPULim rc) (rc_MemReq rc) (rc_MemLim rc) (rc_GPUReq rc) (rc_GPULim rc)
         (lt_Ready st) (lt_RestartCount st)
  else rc.
Definition raw_container (statuses : list listedStatus) (c : listedContainer) : RawContainer :=
  foldl with_status
    (mkRawContainer (lc_Name c) (mget (lc_Requests c) "cpu") (mget (lc_Limits c) "cpu")
       (mget (lc_Requests c) "memory") (mget (lc_Limits c) "memory")
       (mget (lc_Requests c) "nvidia.com/gpu") (mget (lc_Limits c) "nvidia.com/gpu") false 0) statuses.
Definition raw_pod (p : listedPod) : RawPodItem :=
  mkRawPod (lp_UID p) (lp_Name p) (lp_Namespace p) (lp_NodeName p) (lp_Phase p) (lp_StartTime p)
    (lp_CreationTimestamp p) (lp_Labels p) (raw_container (lp_ContainerStatuses p) <$> lp_Containers p).
(** [Kubernetes.ListPods] on the answer to GET /api/v1/pods. *)
Definition KubeListPods (resp : fetched (list listedPod)) : result string (list RawPodItem) :=
  match telemetryList resp with Err e => Err e | Ok items => Ok (raw_pod <$> items) end.

Definition raw_metrics (m : listedMetrics) : list RawPodMetricItem :=
  (fun c => mkRawMetric (lm_UID m) (lm_Name m) (lm_Namespace m) (lu_Name c) (lm_Timestamp m) (lm_Window m)
              (lu_CPU c) (lu_Memory c)) <$> lm_Containers m.
(** [Kubernetes.ListPodMetrics] on GET /apis/metrics.k8s.io/v1beta1/pods. *)
Definition KubeListPodMetrics (resp : fetched (list listedMetrics)) : result string (list RawPodMetricItem) :=
  match telemetryList resp with Err e => Err e | Ok items => Ok (flat_map raw_metrics items) end.
