(* ===== verification/NamespaceMigration.v ===== *)
(** * Moving an application to another namespace

    internal/operations/namespace_migration.go: the request and its validation, the
    rewriting of the JSON that Runtime keeps about an execution, and the
    transaction that rewrites the rows of migrations/0007, 0008 and 0012. A jsonb
    column is its value: an object without repeated members; PostgreSQL hands it
    over as valid text, so the decoding errors of [rewriteExecutionState] do not
    arise from a row. The catalog tables the code asks about are [Schema] and the
    presence of each table; [updated_at] columns are never read and not kept. *)
From stdpp Require Import gmap list strings.
From S2P Require Import Prelude GoStd GoJson Uuid Observation Memory AppState OperationTypes Installations StrictJson.
From Stdlib Require Import Ascii.
#[local] Open Scope Z_scope.

(** ** The request *)
Record NamespaceMigrationWorkspace := mkWorkspaceMove {
  nw_PVCName : string; nw_NewPVCUID : string; nw_NewProfileHash : string; nw_NewSecretUID : string }.
Record NamespaceMigrationRequest := mkMove {
  nr_AppID : string; nr_InstallationID : string; nr_SourceNamespace : string; nr_TargetNamespace : string;
  nr_Workspaces : list NamespaceMigrationWorkspace }.
Record MigratedWorkspaceSummary := mkMoved {
  mw_Table : string; mw_InstanceID : string; mw_Namespace : string; mw_PVCName : string; mw_PVCUID : string;
  mw_PVName : string; mw_PVUID : string; mw_ProfileHash : string }.
Record NamespaceMigrationResult := mkMoveResult {
  no_AppID : string; no_InstallationID : string; no_InstallationState : string; no_InstallationRevision : Z;
  no_SourceNamespace : string; no_TargetNamespace : string;
  no_AppInstanceWorkspaces : Z; no_AppInstanceStarts : Z; no_RuntimeInstanceWorkspaces : Z;
  no_RuntimeInstanceExecutions : Z; no_Workspaces : list MigratedWorkspaceSummary }.

(** ** Validation *)
Module MigrationPatterns.
Import Regexp.
Definition dash_alnum (c : ascii) : bool := lower_alnum c || bool_decide (c = "-"%char).
(** [^[a-z0-9]([-a-z0-9]*[a-z0-9])?$] *)
Definition label : re := Cat (Class lower_alnum) (opt (Cat (Star (Class dash_alnum)) (Class lower_alnum))).
(** [^[0-9a-f]{64}$] *)
Definition hash : re := times 64 (Class lower_hex).
End MigrationPatterns.

Definition namespaceDNSLabel (v : string) : bool := Regexp.matches MigrationPatterns.label v.
Definition hexHashPattern (v : string) : bool := Regexp.matches MigrationPatterns.hash v.
Definition validDNSLabel (v : string) : bool := (0 <? len v) && (len v <=? 63) && namespaceDNSLabel v.

(** No rune outside ASCII has an ASCII hexadecimal digit as its lower case, so
    [to_lower] decides the pattern as [strings.ToLower] does. *)
Definition normalizeHexProfileHash (raw : string) : result OpError string :=
  if (raw =? "")%string then Ok ""
  else
    let trimmed := to_lower (trim_prefix (TrimSpace raw) "sha256:") in
    if hexHashPattern trimmed then Ok trimmed else Err Invalid.

Section Migration.
Context {U : UuidLib}.

Definition validUUIDString (v : string) : bool := validID v.

Fixpoint workspaces_valid (seen : gset string) (l : list NamespaceMigrationWorkspace) : bool :=
  match l with
  | [] => true
  | w :: rest =>
      if negb (validDNSLabel (nw_PVCName w)) || bool_decide (nw_PVCName w ∈ seen) then false
      else if negb (nw_NewPVCUID w =? "")%string && negb (validUUIDString (nw_NewPVCUID w)) then false
      else if negb (nw_NewSecretUID w =? "")%string && negb (validUUIDString (nw_NewSecretUID w)) then false
      else if negb (is_ok (normalizeHexProfileHash (nw_NewProfileHash w))) then false
      else workspaces_valid ({[ nw_PVCName w ]} ∪ seen) rest
  end.
(** Every refusal is [identity.Invalid]. *)
Definition ValidateNamespaceMigrationRequest (r : NamespaceMigrationRequest) : bool :=
  if negb (validDNSLabel (nr_AppID r)) || negb (validDNSLabel (nr_SourceNamespace r))
     || negb (validDNSLabel (nr_TargetNamespace r)) then false
  else if negb (nr_InstallationID r =? "")%string && negb (validUUIDString (nr_InstallationID r)) then false
  else if 128 <? Z.of_nat (length (nr_Workspaces r)) then false
  else workspaces_valid ∅ (nr_Workspaces r).

(** ** Rewriting a stored state *)
Definition cluster_dns (ns : string) : string := "." +:+ ns +:+ ".svc.cluster.local".

(** What the loop does to the string under a key; [None] when none of the three
    cases applies (and a string is left alone). *)
Definition rewrite_string (source target secret key text : string) : option string :=
  if (key =? "namespace")%string && (text =? source)%string && negb (source =? target)%string then Some target
  else if (key =? "secret_uid")%string && negb (secret =? "")%string && negb (text =? secret)%string then Some secret
  else if negb (source =? target)%string && contains text (cluster_dns source)
  then Some (replace_all text (cluster_dns source) (cluster_dns target))
  else None.

(** [rewriteMigratedValue]: the value and whether it changed. A string is rewritten
    as the member of an object only. *)
Fixpoint rewriteMigratedValue (source target secret : string) (v : raw) : raw * bool :=
  match v with
  | RObject m =>
      let out := map (fun '(k, c) =>
        match c with
        | RString text =>
            match rewrite_string source target secret k text with
            | Some text' => (k, RString text', true)
            | None => (k, c, false)
            end
        | _ => let '(c', b) := rewriteMigratedValue source target secret c in (k, c', b)
        end) m in
      (RObject (map fst out), existsb snd out)
  | RArray l =>
      let out := map (rewriteMigratedValue source target secret) l in
      (RArray (map fst out), existsb snd out)
  | _ => (v, false)
  end.
Definition rewriteExecutionState := rewriteMigratedValue.

(** ** The tables *)
Record AppWorkspace := mkAppWorkspace {
  aw_StationID : string; aw_InstallationID : string; aw_ProfileHash : string; aw_Namespace : string;
  aw_PVCName : string; aw_PVCUID : string; aw_PVName : string; aw_PVUID : string; aw_Binding : gmap string raw }.
Record AppStart := mkAppStart { st_InstanceID : string; st_ProfileHash : string; st_Observation : gmap string raw }.
(** A bytea column as its hexadecimal text. *)
Record RuntimeWorkspace := mkRuntimeWorkspace {
  rw_StationID : string; rw_ProfileHash : string; rw_Namespace : string; rw_PVCName : string; rw_PVCUID : string;
  rw_PVName : string; rw_PVUID : string }.
Record RuntimeExecution := mkRuntimeExecution { re_InstanceID : string; re_ProfileHash : string; re_State : raw }.

(** What the catalog of the database says. [sc_binding_match] is the CHECK
    [app_instance_workspace_binding_match] where that constraint exists. *)
Record Schema := mkSchema {
  sc_Installations : bool; sc_MarkFunction : bool; sc_BindingMatch : option (AppWorkspace -> bool);
  sc_AppHexCheck : bool; sc_StartsHexCheck : bool }.

(** A table that may be missing, keyed by its primary key. *)
Record MigrationDB := mkMigrationDB {
  md_State : AppState.State;
  md_AppWorkspaces : option (gmap string AppWorkspace);
  md_AppStarts : option (gmap string AppStart);
  md_RuntimeWorkspaces : option (gmap string RuntimeWorkspace);
  md_RuntimeExecutions : option (gmap string RuntimeExecution) }.
Definition with_state x d := mkMigrationDB x (md_AppWorkspaces d) (md_AppStarts d) (md_RuntimeWorkspaces d) (md_RuntimeExecutions d).
Definition with_app_workspaces x d := mkMigrationDB (md_State d) (Some x) (md_AppStarts d) (md_RuntimeWorkspaces d) (md_RuntimeExecutions d).
Definition with_app_starts x d := mkMigrationDB (md_State d) (md_AppWorkspaces d) (Some x) (md_RuntimeWorkspaces d) (md_RuntimeExecutions d).
Definition with_runtime_workspaces x d := mkMigrationDB (md_State d) (md_AppWorkspaces d) (md_AppStarts d) (Some x) (md_RuntimeExecutions d).
Definition with_runtime_executions x d := mkMigrationDB (md_State d) (md_AppWorkspaces d) (md_AppStarts d) (md_RuntimeWorkspaces d) (Some x).

(** The rows of a table that pass, by primary key. *)
Definition rows_of {A} (P : A -> bool) (m : gmap string A) : list (string * A) :=
  sort_by fst (List.filter (fun kr => P (snd kr)) (map_to_list m)).

Variable schema : Schema.
(** A number through [json.Unmarshal] into [any] and back: the text of its float64. *)
Variable renumber : string -> raw.

Fixpoint through_any (v : raw) : raw :=
  match v with
  | RNumber text => renumber text
  | RArray l => RArray (map through_any l)
  | RObject m => RObject (map (fun '(k, c) => (k, through_any c)) m)
  | _ => v
  end.

(** *** station.app_instance_workspaces *)
Definition app_matches (station : string) (r : NamespaceMigrationRequest) (w : NamespaceMigrationWorkspace) (x : AppWorkspace) : bool :=
  ((station =? "")%string || (aw_StationID x =? station)%string) && (aw_PVCName x =? nw_PVCName w)%string
  && ((aw_Namespace x =? nr_SourceNamespace r)%string || (aw_Namespace x =? nr_TargetNamespace r)%string)
  && ((nr_InstallationID r =? "")%string || (aw_InstallationID x =? nr_InstallationID r)%string).

Definition has_binding_match : bool := bool_decide (is_Some (sc_BindingMatch schema)).

Definition effective_uid (w : NamespaceMigrationWorkspace) (old : string) : string :=
  if (nw_NewPVCUID w =? "")%string then old else nw_NewPVCUID w.
Definition effective_hash (w : NamespaceMigrationWorkspace) (hex old : string) : string :=
  if (hex =? "")%string then old
  else if negb (sc_AppHexCheck schema) && has_prefix (nw_NewProfileHash w) "sha256:"
          && (has_binding_match || has_prefix old "sha256:")
  then nw_NewProfileHash w else hex.
Definition start_hash (w : NamespaceMigrationWorkspace) (hex : string) : string :=
  if negb (hex =? "")%string && negb (sc_StartsHexCheck schema) && has_prefix (nw_NewProfileHash w) "sha256:"
     && has_binding_match
  then nw_NewProfileHash w else hex.

(** The binding is decoded into [any] and encoded again. *)
Definition moved_binding (target : string) (w : NamespaceMigrationWorkspace) (uid hash : string) (x : AppWorkspace) : gmap string raw :=
  let b := through_any <$> aw_Binding x in
  let b := <[ "profile_hash" := RString hash ]> (<[ "pvc_uid" := RString uid ]> b) in
  let b := if bool_decide (is_Some (b !! "namespace")) || has_binding_match
           then <[ "namespace" := RString target ]> b else b in
  if has_binding_match
  then <[ "pv_name" := RString (aw_PVName x) ]> (<[ "pvc_name" := RString (nw_PVCName w) ]> b) else b.

Definition moved_app (target : string) (w : NamespaceMigrationWorkspace) (hex : string) (x : AppWorkspace) : AppWorkspace :=
  let uid := effective_uid w (aw_PVCUID x) in
  let hash := effective_hash w hex (aw_ProfileHash x) in
  mkAppWorkspace (aw_StationID x) (aw_InstallationID x) hash target (aw_PVCName x) uid (aw_PVName x) (aw_PVUID x)
    (moved_binding target w uid hash x).

(** UPDATE of a row under the constraints of the table. *)
Definition app_conflict (id : string) (x : AppWorkspace) (m : gmap string AppWorkspace) : bool :=
  existsb (fun '(k, y) => negb (k =? id)%string &&
    ((aw_PVCUID y =? aw_PVCUID x)%string
     || ((aw_StationID y =? aw_StationID x)%string && (aw_Namespace y =? aw_Namespace x)%string
         && (aw_PVCName y =? aw_PVCName x)%string))) (map_to_list m).
Definition update_app (id : string) (x : AppWorkspace) (m : gmap string AppWorkspace) : result OpError (gmap string AppWorkspace) :=
  if app_conflict id x m || (sc_AppHexCheck schema && negb (hexHashPattern (aw_ProfileHash x)))
     || match sc_BindingMatch schema with Some check => negb (check x) | None => false end
  then Err ErrConstraint else Ok (<[ id := x ]> m).

(** *** station.app_instance_starts *)
Definition moved_start (hash secret : string) (x : AppStart) : AppStart :=
  mkAppStart (st_InstanceID x) (if (hash =? "")%string then st_ProfileHash x else hash)
    (if negb (secret =? "")%string && bool_decide (is_Some (st_Observation x !! "secret_uid"))
     then <[ "secret_uid" := RString secret ]> (st_Observation x) else st_Observation x).
(** The UPDATE of the starts of an instance, and how many there are. *)
Definition update_starts (instance hash secret : string) (m : gmap string AppStart) : result OpError (gmap string AppStart * Z) :=
  let hit (x : AppStart) := (st_InstanceID x =? instance)%string in
  let m' := (fun x => if hit x then moved_start hash secret x else x) <$> m in
  if sc_StartsHexCheck schema && exists_row (fun x => hit x && negb (hexHashPattern (st_ProfileHash x))) m' then Err ErrConstraint
  else Ok (m', Z.of_nat (length (rows_of hit m))).

(** *** station.runtime_instance_workspaces *)
Definition runtime_matches (station : string) (r : NamespaceMigrationRequest) (w : NamespaceMigrationWorkspace) (x : RuntimeWorkspace) : bool :=
  ((station =? "")%string || (rw_StationID x =? station)%string) && (rw_PVCName x =? nw_PVCName w)%string
  && ((rw_Namespace x =? nr_SourceNamespace r)%string || (rw_Namespace x =? nr_TargetNamespace r)%string).
Definition moved_runtime (target : string) (w : NamespaceMigrationWorkspace) (hex : string) (x : RuntimeWorkspace) : RuntimeWorkspace :=
  mkRuntimeWorkspace (rw_StationID x) (if (hex =? "")%string then rw_ProfileHash x else hex) target (rw_PVCName x)
    (effective_uid w (rw_PVCUID x)) (rw_PVName x) (rw_PVUID x).
Definition runtime_conflict (id : string) (x : RuntimeWorkspace) (m : gmap string RuntimeWorkspace) : bool :=
  existsb (fun '(k, y) => negb (k =? id)%string &&
    ((rw_PVCUID y =? rw_PVCUID x)%string
     || ((rw_StationID y =? rw_StationID x)%string && (rw_Namespace y =? rw_Namespace x)%string
         && (rw_PVCName y =? rw_PVCName x)%string))) (map_to_list m).
Definition update_runtime (id : string) (x : RuntimeWorkspace) (m : gmap string RuntimeWorkspace) : result OpError (gmap string RuntimeWorkspace) :=
  if runtime_conflict id x m then Err ErrConstraint else Ok (<[ id := x ]> m).

(** *** station.runtime_instance_executions *)
Definition moved_execution (source target hash secret : string) (x : RuntimeExecution) : RuntimeExecution * bool :=
  let '(state, changed) := rewriteExecutionState source target secret (re_State x) in
  if changed || negb (hash =? "")%string
  then (mkRuntimeExecution (re_InstanceID x) (if (hash =? "")%string then re_ProfileHash x else hash) state, true)
  else (x, false).
(** [migrateRuntimeExecutions]: no constraint bears on what it writes. *)
Definition migrateRuntimeExecutions (instance source target hash secret : string) (m : gmap string RuntimeExecution)
    : gmap string RuntimeExecution * Z :=
  let hit (x : RuntimeExecution) := (re_InstanceID x =? instance)%string in
  ((fun x => if hit x then fst (moved_execution source target hash secret x) else x) <$> m,
   Z.of_nat (length (rows_of (fun x => hit x && snd (moved_execution source target hash secret x)) m))).

(** ** The transaction *)

(** The counters and the summaries of the result. *)
Record Progress := mkProgress {
  pg_Apps : Z; pg_Starts : Z; pg_Runtimes : Z; pg_Executions : Z; pg_Summaries : list MigratedWorkspaceSummary }.

Definition move_app (r : NamespaceMigrationRequest) (w : NamespaceMigrationWorkspace) (hex : string) (row : string * AppWorkspace)
    (acc : MigrationDB * Progress) : result OpError (MigrationDB * Progress) :=
  let '(d, p) := acc in
  let '(id, x) := row in
  match md_AppWorkspaces d with
  | None => Ok acc
  | Some m =>
      let x' := moved_app (nr_TargetNamespace r) w hex x in
      m' ← update_app id x' m;
      let d := with_app_workspaces m' d in
      let p := mkProgress (pg_Apps p + 1) (pg_Starts p) (pg_Runtimes p) (pg_Executions p)
                 (pg_Summaries p ++ [mkMoved "station.app_instance_workspaces" id (nr_TargetNamespace r) (nw_PVCName w)
                    (aw_PVCUID x') (aw_PVName x) (aw_PVUID x) (aw_ProfileHash x')])%list in
      match md_AppStarts d with
      | Some s =>
          if negb (hex =? "")%string || negb (nw_NewSecretUID w =? "")%string then
            '(s', n) ← update_starts id (start_hash w hex) (nw_NewSecretUID w) s;
            Ok (with_app_starts s' d, mkProgress (pg_Apps p) (pg_Starts p + n) (pg_Runtimes p) (pg_Executions p) (pg_Summaries p))
          else Ok (d, p)
      | None => Ok (d, p)
      end
  end.

Definition move_runtime (r : NamespaceMigrationRequest) (w : NamespaceMigrationWorkspace) (hex : string) (row : string * RuntimeWorkspace)
    (acc : MigrationDB * Progress) : result OpError (MigrationDB * Progress) :=
  let '(d, p) := acc in
  let '(id, x) := row in
  match md_RuntimeWorkspaces d with
  | None => Ok acc
  | Some m =>
      let x' := moved_runtime (nr_TargetNamespace r) w hex x in
      m' ← update_runtime id x' m;
      let d := with_runtime_workspaces m' d in
      let p := mkProgress (pg_Apps p) (pg_Starts p) (pg_Runtimes p + 1) (pg_Executions p)
                 (pg_Summaries p ++ [mkMoved "station.runtime_instance_workspaces" id (nr_TargetNamespace r) (nw_PVCName w)
                    (rw_PVCUID x') (rw_PVName x) (rw_PVUID x) (rw_ProfileHash x')])%list in
      match md_RuntimeExecutions d with
      | Some e =>
          let '(e', n) := migrateRuntimeExecutions id (nr_SourceNamespace r) (nr_TargetNamespace r) hex (nw_NewSecretUID w) e in
          Ok (with_runtime_executions e' d, mkProgress (pg_Apps p) (pg_Starts p) (pg_Runtimes p) (pg_Executions p + n) (pg_Summaries p))
      | None => Ok (d, p)
      end
  end.

Fixpoint each {A S} (step : A -> S -> result OpError S) (l : list A) (s : S) : result OpError S :=
  match l with
  | [] => Ok s
  | a :: rest => s' ← step a s; each step rest s'
  end.

(** One workspace of the request: the matching rows of both tables are read, then
    written one by one. *)
Definition move_workspace (station : string) (r : NamespaceMigrationRequest) (w : NamespaceMigrationWorkspace)
    (acc : MigrationDB * Progress) : result OpError (MigrationDB * Progress) :=
  hex ← normalizeHexProfileHash (nw_NewProfileHash w);
  acc ← each (move_app r w hex) (rows_of (app_matches station r w) (default ∅ (md_AppWorkspaces (fst acc)))) acc;
  each (move_runtime r w hex) (rows_of (runtime_matches station r w) (default ∅ (md_RuntimeWorkspaces (fst acc)))) acc.

(** The installation of the application: its fields go into the result, and its
    organization is told by [mark_app_state]. *)
Definition inspect_installation (station : string) (r : NamespaceMigrationRequest) (d : MigrationDB)
    : result OpError (option Installation * MigrationDB) :=
  if negb (sc_Installations schema) then Ok (None, d)
  else match current_installation (st_DB (md_State d)) station (nr_AppID r) with
  | None => Ok (None, d)
  | Some i =>
      if negb (nr_InstallationID r =? "")%string && negb (nr_InstallationID r =? i_InstallationID i)%string then Err Conflict
      else Ok (Some i, if sc_MarkFunction schema
                       then with_state (mark_app_state (station, i_OrganizationID i) (nr_AppID r) (md_State d)) d else d)
  end.

Definition result_of (r : NamespaceMigrationRequest) (i : option Installation) (p : Progress) : NamespaceMigrationResult :=
  mkMoveResult (nr_AppID r)
    (match i with Some i => i_InstallationID i | None => nr_InstallationID r end)
    (match i with Some i => i_State i | None => "" end)
    (match i with Some i => i_Revision i | None => 0 end)
    (nr_SourceNamespace r) (nr_TargetNamespace r)
    (pg_Apps p) (pg_Starts p) (pg_Runtimes p) (pg_Executions p) (pg_Summaries p).
Definition no_progress : Progress := mkProgress 0 0 0 0 [].

Definition migrate_body (station : string) (r : NamespaceMigrationRequest) (d : MigrationDB)
    : result OpError (NamespaceMigrationResult * MigrationDB) :=
  '(i, d) ← inspect_installation station r d;
  '(d, p) ← each (move_workspace station r) (nr_Workspaces r) (d, no_progress);
  Ok (result_of r i p, d).

(** [pooled] tells whether the service has a pool, [memory] is the observation
    memory of the state service. A failed transaction leaves the tables and the
    memory alone. *)
Definition MigrateNamespace (station : string) (pooled : bool) (pg : Pg) (r : NamespaceMigrationRequest)
    (d : MigrationDB) (memory : option Memory) (now : Time)
    : MigrationDB * option Memory * result OpError NamespaceMigrationResult :=
  if negb (ValidateNamespaceMigrationRequest r) then (d, memory, Err Invalid)
  else
    let reset := (fun m => ResetAppBindings m (nr_AppID r) (nr_TargetNamespace r) now) <$> memory in
    if negb pooled then (d, reset, Ok (result_of r None no_progress))
    else match pg with
    | Some e => (d, memory, Err (ErrExternal e))
    | None => match migrate_body station r d with
              | Err e => (d, memory, Err e)
              | Ok (out, d') => (d', reset, Ok out)
              end
    end.
End Migration.
