(* ===== verification/Gateway.v ===== *)
(** * The gateway: requests, answers and the calls of the handlers

    internal/gateway/server.go up to [ServeHTTP], with the data of the handlers in
    the other files: the request as net/http presents it, the response a handler
    writes, [reply], [failure], [decode], [bearer], and [Event], the calls a handler
    makes of the other components. A handler is a program over these calls
    ([Program.prog]); what it sets in the response header is passed along in the
    [Writer], because a handler writes once, at its end.

    Parameters: the tokenizer of encoding/json ([JsonLib]), the parser of media types
    ([HttpLib]), Unicode folding, the parser of identifiers, and the codecs of the
    three messages that are not flat. *)
From stdpp Require Import gmap list strings.
From S2P Require Import Prelude GoStd Sha256 GoJson GoText GoHttp Uuid Program StrictJson Identity Catalog AppState OperationTypes Forward Installations Lifecycle Preinstalled Egress NamespaceMigration TelemetryTypes.
From S2P Require AppFacts.
From Stdlib Require Import Ascii.
#[local] Open Scope Z_scope.

(** Names several components use. *)
Notation User := Identity.IdentityContext.
Notation Fault := Identity.Fault.

(** ** Requests and responses *)
Record Request := mkRequest {
  rq_Method : string; rq_Path : string; rq_RawPath : string; rq_RawQuery : string; rq_ForceQuery : bool;
  rq_Header : Header; rq_ContentLength : Z; rq_TransferEncoding : list string; rq_Body : option Body }.

Record ErrorResponse := mkErrorResponse { er_Code : string; er_Message : string; er_RequestID : string }.
Record Probe := mkProbe {
  pr_Status : string; pr_Version : string; pr_ContractsMajor : Z; pr_MigrationVersion : Z; pr_RequestID : string }.
Record StationHealth := mkHealth {
  sh_StationID : string; sh_Version : string; sh_Status : string; sh_Components : gmap string string; sh_RequestID : string }.

(** A profile of [blenderOptions]. *)
Record Profile := mkProfile { pf_ID : string; pf_Storage : Z; pf_MaxFile : Z }.

(** The values handed to [reply]: a map or an anonymous struct by its members, a
    value of another component as it is, and bytes written as they are. *)
Inductive Value : Type :=
| VNull | VBool (b : bool) | VInt (n : Z) | VStr (s : string) | VStrs (l : list string) | VRaw (v : raw)
| VMap (members : list (string * Value))
| VError (e : ErrorResponse)
| VAppCenterError (code requestID : string)
| VProbe (p : Probe) | VHealth (h : StationHealth)
| VSession (s : Identity.Session) | VUser (u : User)
| VOperation (o : Lifecycle.Operation) | VInstallation (i : Installation) | VInstallations (l : list Installation)
| VTransition (t : Transition) | VForward (f : ForwardRecovery)
| VInventory (i : PreinstalledInventory) | VBinding (b : ReleaseBinding)
| VStates (s : AppState.Snapshot) | VItems (l : list Catalog.Item) | VItem (i : Catalog.Item)
| VEndpoint (e : Endpoint) | VEndpoints (l : list Endpoint)
| VGPUs (l : list GPUMetric) | VNode (n : NodeMetric) | VSummary (s : ResourceSummary)
| VWorkloads (w : WorkloadsResponse) (requestID : string) | VTelemetry (s : TelemetryTypes.Snapshot)
| VMigration (m : NamespaceMigrationResult) (requestID : string)
| VProfiles (l : list Profile)
| VText (text : string).

Record Response := mkResponse { rs_Status : Z; rs_Header : Header; rs_Body : option Value }.

(** [responseWriter]: whether the path is the application center's, and the header
    so far. *)
Record Writer := mkWriter { wr_AppCenter : bool; wr_Header : Header }.
Definition set_header (key value : string) (w : Writer) : Writer := mkWriter (wr_AppCenter w) (hset key value (wr_Header w)).

(** The application center's errors carry a code and no message. *)
Definition reply (w : Writer) (status : Z) (value : Value) : Response :=
  mkResponse status (hset "Content-Type" "application/json" (wr_Header w))
    (Some match value with
          | VError e => if wr_AppCenter w then VAppCenterError (er_Code e) (er_RequestID e) else value
          | _ => value
          end).
(** [w.WriteHeader(204)]. *)
Definition no_content (w : Writer) : Response := mkResponse 204 (wr_Header w) None.
(** A status with bytes. *)
Definition write_bytes (w : Writer) (status : Z) (text : string) : Response :=
  mkResponse status (hset "Content-Type" "application/json" (wr_Header w)) (Some (VText text)).

(** ** Errors *)

(** [errors.As(err, &fault)] for the error values of the components. *)
Class GoError (E : Type) := as_fault : E -> option Fault.
#[export] Instance fault_error : GoError Fault := fun f => if bool_decide (f = ServerError) then None else Some f.
#[export] Instance op_error : GoError OpError := fun e =>
  match e with
  | OperationTypes.Invalid => Some Identity.Invalid
  | OperationTypes.Unauthenticated => Some Identity.Unauthenticated
  | OperationTypes.Revoked => Some Identity.Revoked
  | OperationTypes.Denied => Some Identity.Denied
  | OperationTypes.Locked => Some Identity.Locked
  | OperationTypes.Conflict => Some Identity.Conflict
  | _ => None
  end.
#[export] Instance state_error : GoError AppState.Error := fun e =>
  match e with AppState.Denied => Some Identity.Denied | AppState.Invalid => Some Identity.Invalid | _ => None end.
#[export] Instance facts_error : GoError AppFacts.FactsError := fun e =>
  match e with AppFacts.Denied => Some Identity.Denied | _ => None end.
#[export] Instance egress_error : GoError EgressError := fun e =>
  match e with IdentityFault f => as_fault f | _ => None end.
#[export] Instance inventory_error : GoError InventoryError := fun e =>
  match e with
  | InventoryDenied => Some Identity.Denied
  | InventoryInvalid => Some Identity.Invalid
  | HistoryError e => as_fault e
  | ObservationError e => as_fault e
  | _ => None
  end.
(** An error of another package. *)
#[export] Instance foreign_error : GoError string := fun _ => None.

Definition fault_code (f : Fault) : string :=
  match f with
  | Identity.Invalid => "INVALID_ARGUMENT" | Identity.Unauthenticated => "UNAUTHENTICATED"
  | Identity.Revoked => "SESSION_REVOKED" | Identity.Denied => "PERMISSION_DENIED"
  | Identity.Locked => "ACCOUNT_LOCKED" | Identity.Conflict => "CONFLICT"
  | ServerError => "SERVICE_UNAVAILABLE"
  end.
Definition fault_status (f : option Fault) : Z :=
  match f with
  | Some Identity.Invalid => 400 | Some Identity.Unauthenticated | Some Identity.Revoked => 401
  | Some Identity.Denied => 403 | Some Identity.Locked => 423 | Some Identity.Conflict => 409
  | _ => 503
  end.
Definition fault_message (f : option Fault) : string :=
  match f with
  | Some Identity.Invalid => "Request fields are invalid"
  | Some Identity.Unauthenticated => "Valid credentials are required"
  | Some Identity.Revoked => "Session has been revoked"
  | Some Identity.Denied => "Access is not permitted"
  | Some Identity.Locked => "Account is temporarily locked"
  | Some Identity.Conflict => "Station has already been initialized"
  | _ => "Station database is unavailable"
  end.
Definition failure_of (w : Writer) (requestID : string) (f : option Fault) : Response :=
  let status := fault_status f in
  let w := if status =? 401 then set_header "WWW-Authenticate" ("Bearer realm=" +:+ dquote +:+ "station" +:+ dquote) w else w in
  reply w status (VError (mkErrorResponse (default "SERVICE_UNAVAILABLE" (fault_code <$> f)) (fault_message f) requestID)).
Definition failure {E} `{GoError E} (w : Writer) (requestID : string) (err : E) : Response :=
  failure_of w requestID (as_fault err).
Definition refuse (w : Writer) (status : Z) (code message requestID : string) : Response :=
  reply w status (VError (mkErrorResponse code message requestID)).

(** ** The scalar bodies *)

(** A destination of [decode]: a flat struct by the names of its fields, its zero
    value, and its decoding from members that are known to be distinct, among those
    names, and not null. *)
Class Target (A : Type) := { fields : list string; zero_value : A; of_members : list (string * raw) -> option A }.

Definition str_member (m : list (string * raw)) (k : string) : option string :=
  match member m k with None => Some "" | Some (RString s) => Some s | _ => None end.
Definition int_member (m : list (string * raw)) (k : string) : option Z :=
  match member m k with None => Some 0 | Some (RNumber t) => atoi t | _ => None end.
Definition bool_member (m : list (string * raw)) (k : string) : option bool :=
  match member m k with None => Some false | Some (RBool b) => Some b | _ => None end.
(** A [*string]. *)
Definition ptr_member (m : list (string * raw)) (k : string) : option (option string) :=
  match member m k with None => Some None | Some (RString s) => Some (Some s) | _ => None end.

#[export] Instance target_empty : Target unit := {| fields := []; zero_value := tt; of_members := fun _ => Some tt |}.
#[export] Instance target_bootstrap : Target BootstrapRequest := {|
  fields := ["username"; "password"; "organization_name"]; zero_value := mkBootstrap "" "" "";
  of_members := fun m =>
    u ← str_member m "username"; p ← str_member m "password"; o ← str_member m "organization_name";
    Some (mkBootstrap u p o) |}.
#[export] Instance target_login : Target LoginRequest := {|
  fields := ["username"; "password"; "organization_id"]; zero_value := mkLogin "" "" "";
  of_members := fun m =>
    u ← str_member m "username"; p ← str_member m "password"; o ← str_member m "organization_id";
    Some (mkLogin u p o) |}.
#[export] Instance target_command : Target Command := {|
  fields := ["expected_workload_uid"; "request_id"; "idempotency_key"; "organization_id"; "station_id"; "app_id";
             "app_version"; "action"];
  zero_value := mkCommand "" "" "" "" "" "" "" "";
  of_members := fun m =>
    w ← str_member m "expected_workload_uid"; r ← str_member m "request_id"; k ← str_member m "idempotency_key";
    o ← str_member m "organization_id"; s ← str_member m "station_id"; a ← str_member m "app_id";
    v ← str_member m "app_version"; x ← str_member m "action"; Some (mkCommand w r k o s a v x) |}.
#[export] Instance target_transition : Target TransitionCommand := {|
  fields := ["request_id"; "idempotency_key"; "installation_id"; "expected_revision"; "source_version";
             "target_release_ref"; "action"];
  zero_value := mkTransitionCommand "" "" "" 0 "" "" "";
  of_members := fun m =>
    r ← str_member m "request_id"; k ← str_member m "idempotency_key"; i ← str_member m "installation_id";
    n ← int_member m "expected_revision"; v ← str_member m "source_version"; t ← str_member m "target_release_ref";
    x ← str_member m "action"; Some (mkTransitionCommand r k i n v t x) |}.
#[export] Instance target_recovery : Target ForwardRecoveryCommand := {|
  fields := ["request_id"; "idempotency_key"; "operation_id"; "expected_revision"; "target_release_ref"];
  zero_value := mkForwardCommand "" "" "" 0 "";
  of_members := fun m =>
    r ← str_member m "request_id"; k ← str_member m "idempotency_key"; o ← str_member m "operation_id";
    n ← int_member m "expected_revision"; t ← str_member m "target_release_ref"; Some (mkForwardCommand r k o n t) |}.
#[export] Instance target_proxy : Target Egress.Input := {|
  fields := ["name"; "protocol"; "host"; "port"; "username"; "password"; "clear_auth"; "status"; "tag"; "note";
             "expires_at"; "revision"];
  zero_value := mkInput "" "" "" 0 None None false "" "" "" "" 0;
  of_members := fun m =>
    n ← str_member m "name"; p ← str_member m "protocol"; h ← str_member m "host"; q ← int_member m "port";
    u ← ptr_member m "username"; w ← ptr_member m "password"; c ← bool_member m "clear_auth"; s ← str_member m "status";
    t ← str_member m "tag"; o ← str_member m "note"; e ← str_member m "expires_at"; r ← int_member m "revision";
    Some (mkInput n p h q u w c s t o e r) |}.

(** app_access.go and installation_access.go. *)
Record AppAccessInput := mkAppAccessInput { ai_AppID : string }.
#[export] Instance target_app : Target AppAccessInput := {|
  fields := ["app_id"]; zero_value := mkAppAccessInput "";
  of_members := fun m => a ← str_member m "app_id"; Some (mkAppAccessInput a) |}.
Record AuthorizeInput := mkAuthorize { az_InstallationID : string; az_AppVersion : string }.
#[export] Instance target_authorize : Target AuthorizeInput := {|
  fields := ["installation_id"; "app_version"]; zero_value := mkAuthorize "" "";
  of_members := fun m => i ← str_member m "installation_id"; v ← str_member m "app_version"; Some (mkAuthorize i v) |}.
Record AuthorizeWorkerInput := mkAuthorizeWorker { aw_InstallationID : string; aw_WorkerVersion : string }.
#[export] Instance target_worker : Target AuthorizeWorkerInput := {|
  fields := ["installation_id"; "worker_version"]; zero_value := mkAuthorizeWorker "" "";
  of_members := fun m => i ← str_member m "installation_id"; v ← str_member m "worker_version"; Some (mkAuthorizeWorker i v) |}.

(** workspaces.go *)
Record workspaceReleaseInput := mkReleaseInput { wi_IdempotencyKey : string; wi_Namespace : string; wi_PVCName : string }.
#[export] Instance target_release : Target workspaceReleaseInput := {|
  fields := ["idempotency_key"; "namespace"; "pvc_name"]; zero_value := mkReleaseInput "" "" "";
  of_members := fun m =>
    k ← str_member m "idempotency_key"; n ← str_member m "namespace"; p ← str_member m "pvc_name"; Some (mkReleaseInput k n p) |}.
Record runtimeWorkspaceReleaseRequest := mkRuntimeRelease {
  wq_StationID : string; wq_OrganizationID : string; wq_UserID : string; wq_IdempotencyKey : string;
  wq_Namespace : string; wq_PVCName : string }.

(** blender.go *)
Record blenderCreate := mkBlenderCreate {
  bc_OperationID : string; bc_StationID : string; bc_OrganizationID : string; bc_UserID : string; bc_ProjectID : string;
  bc_InstanceID : string; bc_ProfileID : string; bc_SourceRevisionID : string; bc_SourceSHA256 : string;
  bc_SourceSize : Z; bc_EmptySource : bool }.
#[export] Instance target_create : Target blenderCreate := {|
  fields := ["operation_id"; "station_id"; "organization_id"; "user_id"; "project_id"; "instance_id"; "profile_id";
             "source_revision_id"; "source_sha256"; "source_size"; "empty_source"];
  zero_value := mkBlenderCreate "" "" "" "" "" "" "" "" "" 0 false;
  of_members := fun m =>
    o ← str_member m "operation_id"; s ← str_member m "station_id"; g ← str_member m "organization_id";
    u ← str_member m "user_id"; p ← str_member m "project_id"; i ← str_member m "instance_id";
    f ← str_member m "profile_id"; r ← str_member m "source_revision_id"; h ← str_member m "source_sha256";
    n ← int_member m "source_size"; e ← bool_member m "empty_source"; Some (mkBlenderCreate o s g u p i f r h n e) |}.
Record blenderStart := mkBlenderStart {
  bs_OperationID : string; bs_CreateOperationID : string; bs_StationID : string; bs_OrganizationID : string;
  bs_UserID : string; bs_ProjectID : string; bs_InstanceID : string; bs_ProfileID : string;
  bs_SourceRevisionID : string; bs_SHA256 : string; bs_Size : Z; bs_Empty : bool }.
#[export] Instance target_start : Target blenderStart := {|
  fields := ["operation_id"; "create_operation_id"; "station_id"; "organization_id"; "user_id"; "project_id";
             "instance_id"; "profile_id"; "source_revision_id"; "sha256"; "size"; "empty"];
  zero_value := mkBlenderStart "" "" "" "" "" "" "" "" "" "" 0 false;
  of_members := fun m =>
    o ← str_member m "operation_id"; c ← str_member m "create_operation_id"; s ← str_member m "station_id";
    g ← str_member m "organization_id"; u ← str_member m "user_id"; p ← str_member m "project_id";
    i ← str_member m "instance_id"; f ← str_member m "profile_id"; r ← str_member m "source_revision_id";
    h ← str_member m "sha256"; n ← int_member m "size"; e ← bool_member m "empty";
    Some (mkBlenderStart o c s g u p i f r h n e) |}.
Record blenderAccess := mkBlenderAccess {
  ba_StationID : string; ba_OrganizationID : string; ba_UserID : string; ba_ProjectID : string;
  ba_InstanceID : string; ba_StartOperationID : string; ba_Kind : string }.
#[export] Instance target_access : Target blenderAccess := {|
  fields := ["station_id"; "organization_id"; "user_id"; "project_id"; "instance_id"; "start_operation_id"; "kind"];
  zero_value := mkBlenderAccess "" "" "" "" "" "" "";
  of_members := fun m =>
    s ← str_member m "station_id"; g ← str_member m "organization_id"; u ← str_member m "user_id";
    p ← str_member m "project_id"; i ← str_member m "instance_id"; o ← str_member m "start_operation_id";
    k ← str_member m "kind"; Some (mkBlenderAccess s g u p i o k) |}.
Record blenderStop := mkBlenderStop {
  bp_OperationID : string; bp_StartOperationID : string; bp_StationID : string; bp_OrganizationID : string;
  bp_UserID : string; bp_ProjectID : string; bp_InstanceID : string; bp_Generation : string;
  bp_SavedRevisionID : string; bp_CommitID : string; bp_StoreID : string; bp_ArtifactID : string;
  bp_VersionID : string; bp_AssetID : string; bp_SHA256 : string; bp_Size : Z; bp_SceneVersion : Z }.
#[export] Instance target_stop : Target blenderStop := {|
  fields := ["operation_id"; "start_operation_id"; "station_id"; "organization_id"; "user_id"; "project_id";
             "instance_id"; "generation"; "saved_revision_id"; "commit_id"; "store_id"; "artifact_id"; "version_id";
             "asset_id"; "sha256"; "size"; "scene_version"];
  zero_value := mkBlenderStop "" "" "" "" "" "" "" "" "" "" "" "" "" "" "" 0 0;
  of_members := fun m =>
    o ← str_member m "operation_id"; t ← str_member m "start_operation_id"; s ← str_member m "station_id";
    g ← str_member m "organization_id"; u ← str_member m "user_id"; p ← str_member m "project_id";
    i ← str_member m "instance_id"; e ← str_member m "generation"; r ← str_member m "saved_revision_id";
    c ← str_member m "commit_id"; d ← str_member m "store_id"; a ← str_member m "artifact_id";
    v ← str_member m "version_id"; b ← str_member m "asset_id"; h ← str_member m "sha256"; n ← int_member m "size";
    q ← int_member m "scene_version"; Some (mkBlenderStop o t s g u p i e r c d a v b h n q) |}.
Record blenderDestroy := mkBlenderDestroy {
  bd_OperationID : string; bd_PreviousOperationID : string; bd_StationID : string; bd_OrganizationID : string;
  bd_UserID : string; bd_ProjectID : string; bd_InstanceID : string }.
#[export] Instance target_destroy : Target blenderDestroy := {|
  fields := ["operation_id"; "previous_operation_id"; "station_id"; "organization_id"; "user_id"; "project_id"; "instance_id"];
  zero_value := mkBlenderDestroy "" "" "" "" "" "" "";
  of_members := fun m =>
    o ← str_member m "operation_id"; t ← str_member m "previous_operation_id"; s ← str_member m "station_id";
    g ← str_member m "organization_id"; u ← str_member m "user_id"; p ← str_member m "project_id";
    i ← str_member m "instance_id"; Some (mkBlenderDestroy o t s g u p i) |}.
