(* ===== verification/GatewayCalls.v ===== *)
(** * The calls of the handlers

    [Event] lists what a handler asks of the rest of the program: one constructor
    per call, indexed by the type of its answer. [Server] is the configuration of
    the gateway. The helpers every handler uses are here too: decoding a body,
    reading the bearer, opening a delegation, talking to Runtime. *)
From stdpp Require Import gmap list strings.
From S2P Require Import Prelude GoStd Sha256 GoJson GoText GoHttp Uuid Program StrictJson Identity Catalog AppState OperationTypes Forward Installations Lifecycle Preinstalled Egress NamespaceMigration TelemetryTypes Gateway.
From S2P Require AppFacts.
From Stdlib Require Import Ascii.
#[local] Open Scope Z_scope.

(** ** Requests to Runtime *)
Inductive RuntimeBody : Type :=
| NoBody
| ReleaseBody (b : runtimeWorkspaceReleaseRequest)
| CreateBody (b : blenderCreate) | StartBody (b : blenderStart) | StopBody (b : blenderStop)
| DestroyBody (b : blenderDestroy) | AccessBody (b : blenderAccess).
Record RuntimeRequest := mkRuntimeRequest {
  rr_Method : string; rr_URL : string; rr_Header : Header; rr_Body : RuntimeBody }.
Record RuntimeResponse := mkRuntimeResponse { rp_Status : Z; rp_Header : Header; rp_Body : Body }.

(** ** The calls *)
Inductive Event : Type -> Type :=
(* the process *)
| NewRequestID : Event (option string)                 (* uuid.NewV7 *)
| CheckMigrations : Event bool                         (* migrations.Check *)
| ServeCollector (r : Request) : Event Response        (* AppStateCollector.ServeHTTP *)
(* identity *)
| Me (requestID token : string) : Event (result Fault User)
| BootstrapCall (requestID : string) (input : BootstrapRequest) : Event (result Fault Identity.Session)
| LoginCall (requestID : string) (input : LoginRequest) : Event (result Fault Identity.Session)
| RefreshCall (requestID token : string) : Event (result Fault Identity.Session)
| LogoutCall (requestID token : string) : Event (result Fault unit)
| OpenMember (manager : bool) (user org : string) : Event (result Fault unit)
| CommitMember : Event (result Fault unit)
| RollbackMember : Event unit
(* operations *)
| SubmitCall (u : User) (c : Command) : Event (result OpError Lifecycle.Operation)
| GetOperation (u : User) (id : string) : Event (result OpError Lifecycle.Operation)
| GetByKey (u : User) (key : string) : Event (result OpError Lifecycle.Operation)
| SubmitAppCenterCall (u : User) (c : AppCenterCommand) : Event (result OpError Lifecycle.Operation)
| AppCenterFactsCall (u : User) (requestID : string) : Event (result AppFacts.FactsError AppFacts.Facts)
| SubmitPreinstalledCall (u : User) (c : PreinstalledCommand) : Event (result OpError Lifecycle.Operation)
| InventoryCall (u : User) (app : string) : Event (result InventoryError PreinstalledInventory)
| ResolveReleaseCall (ref : string) : Event (option ReleaseBinding)
| ListInstallationsCall (u : User) : Event (result OpError (list Installation))
| GetInstallationCall (u : User) (id : string) : Event (result OpError Installation)
| SubmitTransitionCall (u : User) (c : TransitionCommand) : Event (result OpError Transition)
| GetTransitionCall (u : User) (id : string) : Event (result OpError Transition)
| SubmitRecoveryCall (u : User) (c : ForwardRecoveryCommand) : Event (result OpError ForwardRecovery)
| GetRecoveryCall (u : User) (id : string) : Event (result OpError ForwardRecovery)
| AuthorizeWorkerCall (i : Installation) (version : string) : Event (result OpError unit)
| CatalogHelm (app : string) : Event bool
| MigrateNamespaceCall (r : NamespaceMigrationRequest) : Event (result OpError NamespaceMigrationResult)
(* application state *)
| StatesCall (u : User) (id : string) : Event (result AppState.Error AppState.Snapshot)
| RegisteredCatalogCall (u : User) : Event (result AppState.Error (list Catalog.Item))
(* proxies *)
| ProxyList (u : User) : Event (result EgressError (list Endpoint))
| ProxyGet (u : User) (id : string) : Event (result EgressError Endpoint)
| ProxySave (u : User) (id : string) (i : Egress.Input) : Event (result EgressError Endpoint)
| ProxyDelete (u : User) (id : string) : Event (result EgressError unit)
| ProxyTest (u : User) (id : string) : Event (result EgressError Endpoint)
(* telemetry *)
| GetGPUs : Event (result string (list GPUMetric))
| GetNode : Event (result string NodeMetric)
| GetSummary : Event (result string ResourceSummary)
| GetWorkloads : Event (result string WorkloadsResponse)
| GetTelemetry : Event (result string TelemetryTypes.Snapshot)
(* Runtime over HTTP; no answer is an error of the exchange *)
| RuntimeDo (rq : RuntimeRequest) : Event (option RuntimeResponse).

Notation handler_of A := (prog Event A).

(** ** Configuration *)
Record BlenderControl := mkBlenderControl { bl_Token : string; bl_Endpoint : string; bl_RuntimeToken : string }.
(** [manager] is [service.WithManager]: whether it is set. *)
Record AppAccess := mkAppAccess { ac_networkToken : string; ac_resourcesToken : string; ac_manager : bool }.
(** The callbacks are the services' calls: whether they are set. *)
Record InstallationAccess := mkInstallationAccess {
  ia_callers : gmap (list Z) string; ia_manager : bool; ia_installation : bool; ia_worker : bool; ia_catalog : bool }.
Record Server := mkServer {
  sv_StationID : string;
  sv_Identity : bool; sv_AppStates : bool; sv_BootstrapToken : string;
  sv_Operations : bool; sv_OperationsPool : bool; sv_Telemetry : bool; sv_Egress : bool;
  sv_BlenderControl : option BlenderControl; sv_AppAccess : option AppAccess;
  sv_InstallationAccess : option InstallationAccess }.

(** ** Reading a request *)
Definition get (r : Request) (key : string) : string := hget (rq_Header r) key.
Definition values (r : Request) (key : string) : list string := Values (rq_Header r) key.
Definition once (r : Request) (key : string) : bool := (length (values r key) =? 1)%nat.

(** sha256.Sum256 of a text, and the comparison of two of them. *)
Definition digest_of (text : string) : list Z := Sha256.sum (Sha256.bytes_of text).
Definition same_digest (a b : string) : bool := bool_decide (digest_of a = digest_of b).

Section Calls.
Context {J : JsonLib} {H : HttpLib} {N : UnicodeLib} {U : UuidLib}.

Definition bearer (r : Request) : string :=
  match Fields (get r "Authorization") with
  | [scheme; token] => if EqualFold scheme "Bearer" then token else ""
  | _ => ""
  end.

Definition json_media (r : Request) : bool := bool_decide (media_type (get r "Content-Type") = Some "application/json").

Definition is_null (v : raw) : bool := match v with RNull => true | _ => false end.
(** The members of an object of tokens: new, among the fields, and not null. *)
Fixpoint members_ok (allowed : list string) (seen : gset string) (m : list (string * raw)) : bool :=
  match m with
  | [] => true
  | (name, v) :: rest =>
      if bool_decide (name ∈ seen) || negb (slices_contains allowed name) || is_null v then false
      else members_ok allowed ({[ name ]} ∪ seen) rest
  end.

(** The text of a body; [None] is [identity.Invalid]. *)
Definition decode_text {A} `{Target A} (media : bool) (allowEmpty : bool) (text : string) : option A :=
  if (TrimSpace text =? "")%string then (if allowEmpty then Some zero_value else None)
  else if negb media then None
  else match json_tokens text with
       | Some (RObject m) => if members_ok fields ∅ m then of_members m else None
       | _ => None
       end.

Definition decode {A} `{Target A} (r : Request) (allowEmpty : bool) : handler_of (result Fault A) :=
  match rq_Body r with
  | None => Panic
  | Some b =>
      mret (match (text ← read_max 16384 b; decode_text (json_media r) allowEmpty text) with
            | Some a => Ok a
            | None => Err Identity.Invalid
            end)
  end.

(** Is the body absent or empty, as its first byte tells. *)
Definition body_empty (r : Request) : bool :=
  match rq_Body r with
  | None => true
  | Some b => match read_limited 1 b with Some text => (len text =? 0) | None => false end
  end.
(** The test of the handlers that take no parameters. *)
Definition plain_url (r : Request) : bool :=
  (rq_RawQuery r =? "")%string && negb (rq_ForceQuery r) && (rq_RawPath r =? "")%string.

Definition may (u : User) (scopes : list string) : bool :=
  slices_contains (ic_Roles u) "admin" && forallb (slices_contains (ic_Scopes u)) scopes.

(** ** Delegation: [WithManager] and [WithMember]

    The rows are locked while the effect runs; its error is the call's. *)
Definition withMember {E A} (fault : Fault -> E) (manager : bool) (user org : string) (effect : handler_of (result E A))
    : handler_of (result E A) :=
  opened ← call (OpenMember manager user org);
  match opened with
  | Err f => mret (Err (fault f))
  | Ok _ =>
      out ← effect;
      match out with
      | Err e => _ ← call RollbackMember; mret (Err e)
      | Ok a =>
          done ← call CommitMember;
          mret (match done with Ok _ => Ok a | Err f => Err (fault f) end)
      end
  end.

Definition canonicalSubject (value : string) : bool := validID value.

(** ** Runtime's JSON answers, by the lax [json.Unmarshal] *)
Definition lax_members (text : string) : option (list (string * raw)) :=
  match json_tokens text with
  | Some (RObject m) => Some m
  | Some RNull => Some []
  | _ => None
  end.
(** The values of the members a field name matches, in order. *)
Definition folded (name : string) (m : list (string * raw)) : list raw :=
  snd <$> List.filter (fun kv => EqualFold (fst kv) name) m.
(** A string field: null leaves it, another type is an error; errors do not stop
    the decoding. *)
Definition lax_string (vs : list raw) : string * bool :=
  foldl (fun '(s, ok) v => match v with RString t => (t, ok) | RNull => (s, ok) | _ => (s, false) end) ("", true) vs.

(** ** Configuration *)

Definition configured_token (token : string) : bool :=
  (32 <=? len token) && negb (contains_any (fun c => one_of " " c || bool_decide (byte_of c ∈ [9; 13; 10])) token).
Definition NewAppAccess (networkToken resourcesToken : string) (service : bool) : result string (option AppAccess) :=
  if (networkToken =? "")%string && (resourcesToken =? "")%string then Ok None
  else if negb (forallb (fun t => (t =? "")%string || configured_token t) [networkToken; resourcesToken])
          || negb service || (negb (networkToken =? "")%string && (networkToken =? resourcesToken)%string)
  then Err "invalid application delegation configuration"
  else Ok (Some (mkAppAccess networkToken resourcesToken true)).

Definition NewBlenderControl (token endpoint runtimeToken : string) : result string (option BlenderControl) :=
  if (token =? "")%string && (endpoint =? "")%string && (runtimeToken =? "")%string then Ok None
  else match url_parse endpoint with
  | Some u =>
      if (url_Host u =? "")%string || url_User u || negb (url_RawQuery u =? "")%string || negb (url_Fragment u =? "")%string
         || negb (url_Path u =? "")%string || negb (slices_contains ["http"; "https"] (url_Scheme u))
         || (len token <? 32) || (len runtimeToken <? 32)
      then Err "invalid Blender control configuration"
      else Ok (Some (mkBlenderControl token endpoint runtimeToken))
  | None => Err "invalid Blender control configuration"
  end.
End Calls.

(** *** The registry of installation access *)
Record AccessEntry := mkAccess { ae_AppID : string; ae_TokenEnv : string }.
Class AccessCodec := codec_access :: Codec (list AccessEntry).
Module AccessPatterns.
Import Regexp.
(** [^STATION_APP_INSTALLATION_[A-Z0-9_]+_TOKEN$] *)
Definition upper_byte (c : ascii) : bool := upper_class c || is_digit c || one_of "_" c.
Definition env : re :=
  Cat (lit "STATION_APP_INSTALLATION_") (Cat (Class upper_byte) (Cat (Star (Class upper_byte)) (lit "_TOKEN"))).
End AccessPatterns.

Section Access.
Context {J : JsonLib} {C : AccessCodec}.

(** Between 33 and 126 in every byte; a rune outside ASCII has bytes above. *)
Definition access_token (token : string) : bool :=
  (32 <=? len token) && (len token <=? 512)
  && negb (contains_any (fun c => (byte_of c <=? 32) || (126 <? byte_of c)) token).
(** The entries in order; [callers] and [seen] as they grow. *)
Fixpoint bind_callers (lookup : string -> string) (callers : gmap (list Z) string) (seen : gset string) (l : list AccessEntry)
    : result string (gmap (list Z) string) :=
  match l with
  | [] => Ok callers
  | e :: rest =>
      if negb (preinstalledApp (ae_AppID e)) || bool_decide (ae_AppID e ∈ seen)
         || negb (Regexp.matches AccessPatterns.env (ae_TokenEnv e)) then Err "invalid installation access binding"
      else
        let token := lookup (ae_TokenEnv e) in
        if negb (access_token token) then Err "invalid installation access credential"
        else
          let hash := digest_of ("Bearer " +:+ token) in
          if bool_decide (is_Some (callers !! hash)) then Err "duplicate installation access credential"
          else bind_callers lookup (<[ hash := ae_AppID e ]> callers) ({[ ae_AppID e ]} ∪ seen) rest
  end.
(** [file] is the text of the registry, [None] when it cannot be opened. *)
Definition LoadInstallationAccess (path : string) (file : option string) (lookup : option (string -> string))
    (service ops : bool) : result string (option InstallationAccess) :=
  if (path =? "")%string then Ok None
  else match lookup with
  | None => Err "invalid installation access configuration"
  | Some lookup =>
      if negb service || negb ops then Err "invalid installation access configuration"
      else match file with
      | None => Err "installation access registry unavailable"
      | Some text =>
          match Decode (A := list AccessEntry) 65536 text with
          | Some entries =>
              if (length entries =? 0)%nat || (128 <? Z.of_nat (length entries)) then Err "invalid installation access registry"
              else callers ← bind_callers lookup ∅ ∅ entries;
                   Ok (Some (mkInstallationAccess callers true true true true))
          | None => Err "invalid installation access registry"
          end
      end
  end.
End Access.
