(* ===== verification/GatewayHandlers.v ===== *)
(** * Handlers of an authenticated user

    internal/gateway: appcenter.go, appcenter_commands.go, appstate.go, catalog.go,
    egress.go, forward_recovery.go, installations.go, preinstalled.go,
    transitions.go, and the user's half of workspaces.go. Each handler takes the
    writer, the request, the request's identifier and the user [Me] returned. *)
From stdpp Require Import gmap list strings.
From S2P Require Import Prelude GoStd Sha256 GoJson GoText GoHttp Uuid Program StrictJson Identity Catalog AppState OperationTypes Forward Installations Lifecycle Preinstalled Egress NamespaceMigration TelemetryTypes Gateway GatewayCalls.
From S2P Require AppFacts.
From Stdlib Require Import Ascii.
#[local] Open Scope Z_scope.

(** The codecs of encoding/json for the messages that are not flat: a preinstalled
    command (strict), a command of the application center (its JSON schema
    included), a namespace migration, Runtime's profiles (whether the text decodes,
    and a nil-able slice), and the text of the facts. *)
Class GatewayCodecs := {
  codec_preinstalled :: Codec PreinstalledCommand;
  decode_appcenter : raw -> option AppCenterCommand;
  decode_move : string -> option NamespaceMigrationRequest;
  decode_profiles : string -> option (option (list Profile));
  marshal_facts : AppFacts.Facts -> option string }.

Notation "'stop' r 'when' c ';;' k" := (if c then mret r else k)
  (at level 10, r at level 1, c at level 99, k at level 200) : station_scope.

Section Handlers.
Context {J : JsonLib} {L : HttpLib} {N : UnicodeLib} {U : UuidLib} {G : GatewayCodecs}.
Variable s : Server.

Definition not_configured (w : Writer) (message requestID : string) : Response :=
  refuse w 503 "SERVICE_UNAVAILABLE" message requestID.
Definition no_store (w : Writer) : Writer := set_header "Cache-Control" "no-store" w.
Definition denied (w : Writer) (requestID : string) : Response := failure w requestID Identity.Denied.
Definition invalid_fields (w : Writer) (requestID : string) : Response := failure w requestID Identity.Invalid.

(** ** appcenter.go *)
Definition facts_limit : Z := 4 * 1024 * 1024.
Definition serveAppCenter (w : Writer) (r : Request) (requestID : string) (user : User) : handler_of Response :=
  let w := no_store w in
  stop (denied w requestID) when negb (may user ["app:read"]) ;;
  stop (invalid_fields w requestID) when
    (negb (plain_url r) || (0 <? rq_ContentLength r) || negb (length (rq_TransferEncoding r) =? 0)%nat) ;;
  stop (invalid_fields w requestID) when (negb (body_empty r)) ;;
  let unavailable code message := refuse w 503 code message requestID in
  stop (unavailable "APPCENTER_DEPENDENCY_UNAVAILABLE" "Application facts are unavailable") when (negb (sv_Operations s)) ;;
  facts ← call (AppCenterFactsCall user requestID);
  mret match facts with
  | Err AppFacts.Denied => failure w requestID AppFacts.Denied
  | Err AppFacts.ErrLimit => unavailable "APPCENTER_LIMIT_EXCEEDED" "Application facts are unavailable"
  | Err _ => unavailable "APPCENTER_DEPENDENCY_UNAVAILABLE" "Application facts are unavailable"
  | Ok facts =>
      match marshal_facts facts with
      | Some raw => if facts_limit <? len raw
                    then unavailable "APPCENTER_LIMIT_EXCEEDED" "Application facts exceed the response limit"
                    else write_bytes w 200 raw
      | None => unavailable "APPCENTER_LIMIT_EXCEEDED" "Application facts exceed the response limit"
      end
  end.

(** ** appcenter_commands.go *)

(** [operations.DecodeAppCenterCommand] over the body. *)
Definition DecodeAppCenterCommand (b : Body) : option AppCenterCommand :=
  text ← read_max 16384 b; v ← ReadValue 16384 text; decode_appcenter v.

Definition serveAppCenterCommand (w : Writer) (r : Request) (requestID : string) (actor : User) : handler_of Response :=
  let w := no_store w in
  stop (denied w requestID) when negb (may actor ["app:read"; "app:manage"]) ;;
  match rq_Body r with
  | None => mret (invalid_fields w requestID)
  | Some body =>
      stop (invalid_fields w requestID) when
        (negb (rq_Method r =? "POST")%string || negb (plain_url r) || negb (json_media r)) ;;
      match DecodeAppCenterCommand body with
      | None => mret (invalid_fields w requestID)
      | Some input =>
          stop (refuse w 503 "APPCENTER_DEPENDENCY_UNAVAILABLE" "Command service unavailable" requestID) when
            (negb (sv_Operations s) || negb (sv_OperationsPool s)) ;;
          op ← call (SubmitAppCenterCall actor input);
          mret match op with
          | Err ErrAppCenterBinding => refuse w 409 "APPCENTER_BINDING_CHANGED" "Command binding changed" requestID
          | Err ErrAppCenterRelease => refuse w 409 "RELEASE_UNVERIFIED" "Trusted release unavailable" requestID
          | Err ErrAppCenterUnsupported => refuse w 409 "ACTION_UNSUPPORTED" "Command is not enabled" requestID
          | Err ErrAppCenterDispatch =>
              refuse w 503 "APPCENTER_EXECUTION_BINDING_UNSUPPORTED" "Protected runtime unavailable" requestID
          | Err ErrAppCenterUnavailable =>
              refuse w 503 "APPCENTER_DEPENDENCY_UNAVAILABLE" "Command observation unavailable" requestID
          | Err e => failure w requestID e
          | Ok op => reply w 202 (VOperation op)
          end
      end
  end.

Definition serveAppCenterOperations (w : Writer) (r : Request) (requestID : string) (actor : User) : handler_of Response :=
  let w := no_store w in
  stop (denied w requestID) when negb (may actor ["app:read"]) ;;
  stop (invalid_fields w requestID) when (negb (rq_Method r =? "GET")%string || negb (rq_RawPath r =? "")%string) ;;
  let q := fst (ParseQuery (rq_RawQuery r)) in
  let key := default "" (head (default [] (q !! "idempotency_key"))) in
  stop (invalid_fields w requestID) when
    ((key =? "")%string || (len key <? 8) || (128 <? len key) || negb (size q =? 1)%nat) ;;
  stop (not_configured w "Operation service unavailable" requestID) when
    (negb (sv_Operations s) || negb (sv_OperationsPool s)) ;;
  op ← call (GetByKey actor key);
  mret match op with
  | Err ErrNoRows => refuse w 404 "NOT_FOUND" "Operation not found" requestID
  | Err e => failure w requestID e
  | Ok op => reply w 200 (VOperation op)
  end.

(** ** appstate.go *)
Definition serveAppStates (w : Writer) (r : Request) (requestID : string) (user : User) : handler_of Response :=
  let w := no_store w in
  stop (denied w requestID) when negb (may user ["app:read"]) ;;
  stop (invalid_fields w requestID) when
    (negb (plain_url r) || (0 <? rq_ContentLength r) || negb (length (rq_TransferEncoding r) =? 0)%nat) ;;
  stop (invalid_fields w requestID) when (negb (body_empty r)) ;;
  let single := negb (rq_Path r =? "/app-states/v1")%string in
  let id := if single then trim_prefix (rq_Path r) "/app-states/v1/installations/" else "" in
  stop (invalid_fields w requestID) when (single && negb (validID id)) ;;
  stop (refuse w 503 "APP_STATE_UNAVAILABLE" "Application state unavailable" requestID) when (negb (sv_AppStates s)) ;;
  snapshot ← call (StatesCall user id);
  mret match snapshot with
  | Err (StateErr Memory.ErrLimit) => refuse w 503 "APP_STATE_LIMIT_EXCEEDED" "Application state limit exceeded" requestID
  | Err (StateErr Memory.ErrNotFound) => refuse w 404 "NOT_FOUND" "Installation not found" requestID
  | Err (AppState.Denied as e) | Err (AppState.Invalid as e) => failure w requestID e
  | Err _ => refuse w 503 "APP_STATE_UNAVAILABLE" "Application state unavailable" requestID
  | Ok snapshot => reply w 200 (VStates snapshot)
  end.

(** ** catalog.go *)

(** The loop over the query: its only key is one valid group, and only on the list. *)
Definition query_ok (path : string) (q : Query) : bool :=
  forallb (fun '(key, vs) =>
    (path =? "/catalog/apps")%string && (key =? "group_id")%string
    && match vs with [v] => ValidGroup v | _ => false end) (map_to_list q).
Definition query_group (q : Query) : string := default "" (head (default [] (q !! "group_id"))).

Definition serveCatalog (w : Writer) (r : Request) (requestID : string) (user : User) : handler_of Response :=
  let w := no_store w in
  stop (denied w requestID) when negb (may user ["app:read"]) ;;
  let '(q, bad) := ParseQuery (rq_RawQuery r) in
  stop (invalid_fields w requestID) when (bad || negb (query_ok (rq_Path r) q)) ;;
  let group := query_group q in
  stop (not_configured w "Application catalog is not configured" requestID) when (negb (sv_AppStates s)) ;;
  items ← call (RegisteredCatalogCall user);
  mret match items with
  | Err AppState.Denied => failure w requestID AppState.Denied
  | Err _ => not_configured w "Application catalog is unavailable" requestID
  | Ok items =>
      let header := [("request_id", VStr requestID); ("station_id", VStr (ic_StationID user))] in
      if (rq_Path r =? "/catalog/apps")%string
      then reply w 200 (VMap (header ++
             [("items", VItems (List.filter (fun i => (group =? "")%string || (en_GroupID (it_Entry i) =? group)%string) items));
              ("next_cursor", VNull)])%list)
      else match List.find (fun i => (it_AppID i =? trim_prefix (rq_Path r) "/catalog/apps/")%string) items with
           | Some app => reply w 200 (VMap (header ++ [("app", VItem app)])%list)
           | None => refuse w 404 "NOT_FOUND" "Application not found" requestID
           end
  end.

(** ** installations.go *)
Definition serveInstallations (w : Writer) (r : Request) (requestID : string) (user : User) : handler_of Response :=
  let w := no_store w in
  stop (invalid_fields w requestID) when (negb (plain_url r)) ;;
  stop (not_configured w "Installation records are unavailable" requestID) when (negb (sv_Operations s)) ;;
  if (rq_Path r =? "/app-installations")%string then
    items ← call (ListInstallationsCall user);
    mret match items with
    | Err e => failure w requestID e
    | Ok items => reply w 200 (VMap [("request_id", VStr requestID); ("station_id", VStr (ic_StationID user));
                                     ("items", VInstallations items)])
    end
  else
    item ← call (GetInstallationCall user (trim_prefix (rq_Path r) "/app-installations/"));
    mret match item with
    | Err ErrNoRows => refuse w 404 "NOT_FOUND" "Installation not found" requestID
    | Err e => failure w requestID e
    | Ok i => reply w 200 (VMap [("request_id", VStr requestID); ("installation", VInstallation i)])
    end.

(** ** preinstalled.go *)
Definition servePreinstalled (w : Writer) (r : Request) (requestID : string) (user : User) : handler_of Response :=
  let w := no_store w in
  let path := rq_Path r in
  stop (invalid_fields w requestID) when (negb (plain_url r)) ;;
  stop (denied w requestID) when negb (may user ["app:read"]) ;;
  stop (not_configured w "Preinstalled lifecycle is unavailable" requestID) when (negb (sv_Operations s)) ;;
  if (path =? "/preinstalled/commands")%string then
    stop (denied w requestID) when (negb (slices_contains (ic_Scopes user) "app:manage")) ;;
    match rq_Body r with
    | None => Panic
    | Some b =>
        match (text ← read_max 16384 b; StrictJson.Decode (A := PreinstalledCommand) 16384 text) with
        | None => mret (invalid_fields w requestID)
        | Some c =>
            out ← call (SubmitPreinstalledCall user c);
            mret match out with Err e => failure w requestID e | Ok op => reply w 202 (VOperation op) end
        end
    end
  else if has_prefix path "/preinstalled/apps/" then
    out ← call (InventoryCall user (trim_prefix path "/preinstalled/apps/"));
    mret match out with Err e => failure w requestID e | Ok i => reply w 200 (VInventory i) end
  else if has_prefix path "/preinstalled/releases/" then
    out ← call (ResolveReleaseCall (trim_prefix path "/preinstalled/releases/"));
    mret match out with
    | None => refuse w 503 "TRUSTED_RELEASE_UNAVAILABLE" "Trusted release evidence is unavailable" requestID
    | Some b => reply w 200 (VBinding b)
    end
  else mret (refuse w 404 "NOT_FOUND" "Endpoint not found" requestID).

(** ** transitions.go and forward_recovery.go *)
Definition transitionPath : string := "/app-installation-transitions".
Definition forwardRecoveryPath : string := "/app-installation-forward-recoveries".

(** What both handlers ask of the envelope of a request. *)
Definition strict_envelope (r : Request) : bool :=
  (rq_RawPath r =? "")%string && (rq_RawQuery r =? "")%string && negb (rq_ForceQuery r) && once r "Authorization"
  && (length (values r "X-Request-ID") <=? 1)%nat && (length (rq_TransferEncoding r) =? 0)%nat
  && (get r "Transfer-Encoding" =? "")%string && (get r "Content-Encoding" =? "")%string && (rq_ContentLength r <=? 16384).

(** The command of a POST to [base], nothing for a GET of a record below it; the
    error is an answer of its own. *)
Definition command_of {A} `{Target A} (base : string) (r : Request) : handler_of (option (option A)) :=
  if (rq_Method r =? "POST")%string then
    if negb (rq_Path r =? base)%string || bool_decide (rq_Body r = None) || negb (json_media r) || negb (once r "Content-Type")
    then mret None
    else c ← decode (A := A) r false; mret (match c with Ok c => Some (Some c) | Err _ => None end)
  else mret (if negb (rq_Method r =? "GET")%string || negb (has_prefix (rq_Path r) (base +:+ "/")) || negb (rq_ContentLength r =? 0)
             then None else Some None).

Definition serveTransitions (w : Writer) (r : Request) (requestID : string) (actor : User) : handler_of Response :=
  stop (denied w requestID) when
    (negb (may actor ["app:read"]) || ((rq_Method r =? "POST")%string && negb (slices_contains (ic_Scopes actor) "app:manage"))) ;;
  stop (invalid_fields w requestID) when (negb (strict_envelope r)) ;;
  command ← command_of (A := TransitionCommand) transitionPath r;
  match command with
  | None => mret (invalid_fields w requestID)
  | Some command =>
      stop (not_configured w "Transition service unavailable" requestID) when
        (negb (sv_Operations s) || negb (sv_OperationsPool s)) ;;
      out ← match command with
            | Some c => call (SubmitTransitionCall actor c)
            | None => call (GetTransitionCall actor (trim_prefix (rq_Path r) (transitionPath +:+ "/")))
            end;
      mret match out with
      | Err ErrTransitionAdmissionDisabled => refuse w 409 "TRANSITION_ADMISSION_DISABLED" "New transitions are disabled" requestID
      | Err ErrTransitionRelease => refuse w 503 "TRANSITION_RELEASE_UNAVAILABLE" "Verified release unavailable" requestID
      | Err ErrNoRows => refuse w 404 "NOT_FOUND" "Transition or installation not found" requestID
      | Err e => failure w requestID e
      | Ok t => reply w (if (rq_Method r =? "POST")%string then 202 else 200)
                  (VMap [("request_id", VStr requestID); ("transition", VTransition t)])
      end
  end.

Definition serveForwardRecovery (w : Writer) (r : Request) (requestID : string) (a : User) : handler_of Response :=
  stop (denied w requestID) when negb (may a ["app:read"; "app:manage"]) ;;
  stop (invalid_fields w requestID) when (negb (strict_envelope r)) ;;
  command ← command_of (A := ForwardRecoveryCommand) forwardRecoveryPath r;
  match command with
  | None => mret (invalid_fields w requestID)
  | Some command =>
      stop (not_configured w "Recovery service unavailable" requestID) when
        (negb (sv_Operations s) || negb (sv_OperationsPool s)) ;;
      out ← match command with
            | Some c => call (SubmitRecoveryCall a c)
            | None => call (GetRecoveryCall a (trim_prefix (rq_Path r) (forwardRecoveryPath +:+ "/")))
            end;
      mret match out with
      | Err ErrNoRows => refuse w 404 "NOT_FOUND" "Recovery or transition not found" requestID
      | Err ErrTransitionBusy => refuse w 409 "TRANSITION_BUSY" "Original transition is being reconciled" requestID
      | Err ErrTransitionRelease | Err ErrTransitionProgress =>
          refuse w 503 "RECOVERY_PROOF_UNAVAILABLE" "Verified recovery evidence unavailable; retry the original request" requestID
      | Err e => failure w requestID e
      | Ok f => reply w (if (f_State f =? "pending")%string then 202 else 200)
                  (VMap [("request_id", VStr requestID); ("recovery", VForward f)])
      end
  end.

(** ** egress.go *)

(** The part of the path below the collection: the identifier and whether a test is
    asked for. *)
Definition proxy_route (path : string) : option (string * bool) :=
  match split_byte "/"%char (trim_prefix path "/api/v1/proxies") with
  | [a] => if (a =? "")%string then Some ("", false) else None
  | [a; id] => if (a =? "")%string && negb (id =? "")%string then Some (id, false) else None
  | [a; id; t] => if (a =? "")%string && negb (id =? "")%string && (t =? "test")%string then Some (id, true) else None
  | _ => None
  end.
Definition proxy_methods (id : string) (test : bool) : string :=
  if test then "POST" else if (id =? "")%string then "GET, POST" else "GET, PUT, DELETE".

Definition proxy_failure (w : Writer) (requestID : string) (e : EgressError) : Response :=
  match e with
  | Egress.ErrNotFound => refuse w 404 "NOT_FOUND" "Proxy not found" requestID
  | Egress.ErrConflict => refuse w 409 "PROXY_CONFLICT" "Proxy changed, duplicate endpoint, or existing references" requestID
  | ErrBusy => refuse w 409 "PROBE_BUSY" "Probe already running or capacity reached" requestID
  | ErrDisabled => refuse w 409 "PROXY_DISABLED_OR_EXPIRED" "Enable a valid proxy before testing" requestID
  | _ => failure w requestID e
  end.
Definition proxy_item (w : Writer) (requestID : string) (status : Z) (out : result EgressError Endpoint) : Response :=
  match out with
  | Err e => proxy_failure w requestID e
  | Ok p => reply w status (VMap [("item", VEndpoint p)])
  end.

Definition serveEgress (w : Writer) (r : Request) (requestID : string) : handler_of Response :=
  me ← call (Me requestID (bearer r));
  match me with
  | Err e => mret (failure w requestID e)
  | Ok user =>
      stop (refuse w 503 "EGRESS_NOT_CONFIGURED" "Proxy management is not configured" requestID) when (negb (sv_Egress s)) ;;
      match proxy_route (rq_Path r) with
      | None => mret (refuse w 404 "NOT_FOUND" "Endpoint not found" requestID)
      | Some (id, test) =>
          let methods := proxy_methods id test in
          stop (refuse (set_header "Allow" methods w) 405 "INVALID_ARGUMENT" "Method not allowed" requestID) when
            (negb (contains (", " +:+ methods +:+ ", ") (", " +:+ rq_Method r +:+ ", "))) ;;
          if test then
            body ← decode (A := unit) r true;
            match body with
            | Err e => mret (proxy_failure w requestID (IdentityFault e))
            | Ok _ => out ← call (ProxyTest user id); mret (proxy_item w requestID 200 out)
            end
          else if (rq_Method r =? "GET")%string then
            if (id =? "")%string then
              out ← call (ProxyList user);
              mret match out with
              | Err e => proxy_failure w requestID e
              | Ok l => reply w 200 (VMap [("items", VEndpoints l)])
              end
            else out ← call (ProxyGet user id); mret (proxy_item w requestID 200 out)
          else if (rq_Method r =? "POST")%string || (rq_Method r =? "PUT")%string then
            body ← decode (A := Egress.Input) r false;
            match body with
            | Err e => mret (proxy_failure w requestID (IdentityFault e))
            | Ok i => out ← call (ProxySave user id i);
                      mret (proxy_item w requestID (if (id =? "")%string then 201 else 200) out)
            end
          else if (rq_Method r =? "DELETE")%string then
            out ← call (ProxyDelete user id);
            mret match out with Err e => proxy_failure w requestID e | Ok _ => no_content w end
          else mret (mkResponse 200 (wr_Header w) None)
      end
  end.

(** ** workspaces.go *)
Definition runtime_request (control : BlenderControl) (method path requestID : string) (body : RuntimeBody) : RuntimeRequest :=
  mkRuntimeRequest method (bl_Endpoint control +:+ "/internal/v1/instances/" +:+ path)
    (hset "X-Request-ID" requestID
      ((match body with NoBody => fun h => h | _ => hset "Content-Type" "application/json" end)
        (hset "Authorization" ("Bearer " +:+ bl_RuntimeToken control) [])))
    body.

(** The body of an answer, when it is usable: at most [limit] bytes of JSON, not
    compressed. *)
Definition usable (limit : Z) (resp : RuntimeResponse) : option string :=
  text ← read_limited (limit + 1) (rp_Body resp);
  if (limit <? len text) || negb (hget (rp_Header resp) "Content-Encoding" =? "")%string then None else Some text.

Definition resourcesWorkspaces (w : Writer) (r : Request) (requestID : string) : handler_of Response :=
  stop (invalid_fields w requestID) when (negb (rq_RawQuery r =? "")%string || negb (rq_RawPath r =? "")%string) ;;
  match sv_BlenderControl s with
  | None => mret (not_configured w "Instance runtime is not configured" requestID)
  | Some control =>
      let rq := runtime_request control "GET" "workspaces" requestID NoBody in
      stop (not_configured w "Failed to build workspace query request" requestID) when (negb (request_url (rr_URL rq))) ;;
      resp ← call (RuntimeDo rq);
      mret match resp with
      | None => refuse w 502 "BAD_GATEWAY" "Failed to query workspace volumes from Runtime" requestID
      | Some resp =>
          match (text ← usable 131072 resp; m ← lax_members text; last (folded "workspaces" m)) with
          | Some v => if rp_Status resp =? 200
                      then reply w 200 (VMap [("workspaces", VRaw v); ("request_id", VStr requestID)])
                      else refuse w 502 "BAD_GATEWAY" "Invalid workspace volumes response from Runtime" requestID
          | None => refuse w 502 "BAD_GATEWAY" "Invalid workspace volumes response from Runtime" requestID
          end
      end
  end.

(** What Runtime answers to a mutation, while the member's rows are locked: a
    status of [statuses] and a JSON text. *)
Definition runtime_call (statuses : list Z) (rq : RuntimeRequest) : handler_of (result Fault (Z * string)) :=
  stop (Err ServerError) when (negb (request_url (rr_URL rq))) ;;
  resp ← call (RuntimeDo rq);
  mret match resp with
  | None => Err ServerError
  | Some resp =>
      match usable 32768 resp with
      | Some text =>
          if bool_decide (json_tokens text = None) || negb (slices_contains statuses (rp_Status resp))
          then Err ServerError else Ok (rp_Status resp, text)
      | None => Err ServerError
      end
  end.

Definition release_message (code : string) : string :=
  if (code =? "INVALID_ARGUMENT")%string then "Workspace release arguments are invalid"
  else if (code =? "NOT_FOUND")%string then "Workspace volume was not found"
  else if (code =? "INSTANCE_NOT_DESTROYED")%string then
    "Instance has not been destroyed; destroy the instance in App Dashboard before releasing its workspace volume"
  else if (code =? "WORKSPACE_IN_USE")%string then "Workspace volume is currently mounted by an active workload"
  else if (code =? "WORKSPACE_BINDING_CONFLICT")%string then "Workspace volume binding metadata conflicts with cluster state"
  else "Workspace volume release failed".

Definition release_answer (w : Writer) (requestID : string) (status : Z) (text : string) : Response :=
  if status =? 200 then
    match lax_members text with
    | Some m =>
        let '(st, ok) := lax_string (folded "status" m) in
        match last (folded "workspace" m) with
        | Some v => if ok then reply w 200 (VMap [("status", VStr st); ("workspace", VRaw v); ("request_id", VStr requestID)])
                    else refuse w 502 "BAD_GATEWAY" "Invalid workspace release payload from Runtime" requestID
        | None => refuse w 502 "BAD_GATEWAY" "Invalid workspace release payload from Runtime" requestID
        end
    | None => refuse w 502 "BAD_GATEWAY" "Invalid workspace release payload from Runtime" requestID
    end
  else
    let code := fst (lax_string (folded "code" (default [] (lax_members text)))) in
    let code := if (code =? "")%string then "SERVICE_UNAVAILABLE" else code in
    refuse w status code (release_message code) requestID.

Definition resourcesReleaseWorkspaceWithManager (w : Writer) (r : Request) (requestID userID orgID : string) : handler_of Response :=
  stop (invalid_fields w requestID) when
    (negb (rq_RawQuery r =? "")%string || negb (rq_RawPath r =? "")%string || negb (get r "Content-Encoding" =? "")%string) ;;
  match sv_BlenderControl s with
  | None => mret (not_configured w "Instance runtime is not configured" requestID)
  | Some control =>
      input ← decode (A := workspaceReleaseInput) r false;
      match input with
      | Err e => mret (failure w requestID e)
      | Ok i =>
          stop (invalid_fields w requestID) when
            ((wi_IdempotencyKey i =? "")%string || (wi_Namespace i =? "")%string || (wi_PVCName i =? "")%string) ;;
          let body := ReleaseBody (mkRuntimeRelease (sv_StationID s) orgID userID (wi_IdempotencyKey i) (wi_Namespace i) (wi_PVCName i)) in
          out ← withMember (fun f => f) true userID orgID
                  (runtime_call [200; 400; 401; 403; 404; 409; 503]
                    (runtime_request control "POST" "workspaces/release" requestID body));
          mret match out with
          | Err e => failure w requestID e
          | Ok (status, text) => release_answer w requestID status text
          end
      end
  end.

Definition resourcesReleaseWorkspace (w : Writer) (r : Request) (requestID : string) (user : User) : handler_of Response :=
  resourcesReleaseWorkspaceWithManager w r requestID (ic_UserID user) (ic_OrganizationID user).
End Handlers.
