(* ===== verification/GatewayInternal.v ===== *)
(** * Handlers of services

    internal/gateway: app_access.go, installation_access.go, blender.go,
    resources_snapshot.go, namespace_migration.go and the service half of
    workspaces.go. The caller is a service with a credential of its own that names
    the member it acts for; the member's current right is checked while the effect
    runs. *)
From stdpp Require Import gmap list strings.
From S2P Require Import Prelude GoStd Sha256 GoJson GoText GoHttp Uuid Program StrictJson Identity Catalog AppState OperationTypes Forward Installations Lifecycle Preinstalled Egress NamespaceMigration TelemetryTypes Gateway GatewayCalls GatewayHandlers.
From Stdlib Require Import Ascii.
#[local] Open Scope Z_scope.

Section Internal.
Context {J : JsonLib} {L : HttpLib} {N : UnicodeLib} {U : UuidLib} {G : GatewayCodecs}.
Variable s : Server.

Definition member_headers : list string := ["X-User-Id"; "X-Organization-Id"; "X-Station-Id"].
Definition subjects_ok (r : Request) : bool :=
  forallb (fun h => once r h && canonicalSubject (get r h)) member_headers.

(** ** app_access.go *)

(** [delegatedApp]: the response of a refusal, or the member. *)
Definition delegatedApp (w : Writer) (r : Request) (requestID app : string) : result Response (string * string) :=
  match sv_AppAccess s with
  | None => Err (not_configured w "Application delegation is not configured" requestID)
  | Some a =>
      if negb (sv_Identity s) || negb (ac_manager a)
      then Err (not_configured w "Application delegation is not configured" requestID)
      else
        let token := if (app =? "resources")%string then ac_resourcesToken a else ac_networkToken a in
        if (token =? "")%string || negb (once r "Authorization")
           || negb (same_digest (get r "Authorization") ("Bearer " +:+ token))
        then Err (failure w requestID Identity.Unauthenticated)
        else if negb (subjects_ok r) then Err (invalid_fields w requestID)
        else if negb (plain_url r) || negb (get r "Content-Encoding" =? "")%string then Err (invalid_fields w requestID)
        else if negb (get r "X-Station-Id" =? sv_StationID s)%string then Err (denied w requestID)
        else Ok (get r "X-User-Id", get r "X-Organization-Id")
  end.

Definition no_effect : handler_of (result Fault unit) := mret (Ok tt).

Definition appAccess (w : Writer) (r : Request) (requestID : string) : handler_of Response :=
  match delegatedApp w r requestID "network" with
  | Err refusal => mret refusal
  | Ok (user, org) =>
      body ← decode (A := AppAccessInput) r false;
      match body with
      | Ok i =>
          stop (invalid_fields w requestID) when (negb (ai_AppID i =? "network")%string) ;;
          out ← withMember (fun f => f) true user org no_effect;
          mret match out with
          | Err e => failure w requestID e
          | Ok _ => reply w 200 (VMap [("schema_version", VInt 1); ("app_id", VStr "network"); ("user_id", VStr user);
                      ("organization_id", VStr org); ("station_id", VStr (sv_StationID s)); ("roles", VStrs ["admin"]);
                      ("scopes", VStrs ["app:read"; "app:manage"]); ("request_id", VStr requestID)])
          end
      | Err _ => mret (invalid_fields w requestID)
      end
  end.

(** ** resources_snapshot.go and workspaces.go *)
Definition resourcesSnapshot (w : Writer) (r : Request) (requestID : string) : handler_of Response :=
  match delegatedApp w r requestID "resources" with
  | Err refusal => mret refusal
  | Ok (user, org) =>
      out ← withMember (fun f => f) true user org
              (stop (Err ServerError) when (negb (sv_Telemetry s)) ;;
               snapshot ← call GetTelemetry;
               mret (match snapshot with Ok t => Ok t | Err _ => Err ServerError end));
      mret match out with
      | Err e => failure w requestID e
      | Ok t => reply w 200 (VTelemetry t)
      end
  end.

Definition internalResourcesWorkspaces (w : Writer) (r : Request) (requestID : string) : handler_of Response :=
  match delegatedApp w r requestID "resources" with
  | Err refusal => mret refusal
  | Ok (user, org) =>
      out ← withMember (fun f => f) true user org no_effect;
      match out with
      | Err e => mret (failure w requestID e)
      | Ok _ => resourcesWorkspaces s w r requestID
      end
  end.

Definition internalResourcesReleaseWorkspace (w : Writer) (r : Request) (requestID : string) : handler_of Response :=
  match delegatedApp w r requestID "resources" with
  | Err refusal => mret refusal
  | Ok (user, org) => resourcesReleaseWorkspaceWithManager s w r requestID user org
  end.

(** ** installation_access.go *)

(** The actor a delegation acts as. *)
Definition delegated_actor (user org : string) : User :=
  mkContext "" (sv_StationID s) "" user "" org "" ["admin"] ["app:read"; "app:manage"] zero_time zero_time 0 0.

Definition authorizeWorker : string := "/internal/v1/app-installations/authorize-worker".

(** The three facts of the request: installation, version, and whether the version
    is a worker's. *)
Definition authorize_input (r : Request) : handler_of (result Fault (string * string * bool)) :=
  if (rq_Path r =? authorizeWorker)%string then
    i ← decode (A := AuthorizeWorkerInput) r false;
    mret (match i with Ok i => Ok (aw_InstallationID i, aw_WorkerVersion i, true) | Err e => Err e end)
  else
    i ← decode (A := AuthorizeInput) r false;
    mret (match i with Ok i => Ok (az_InstallationID i, az_AppVersion i, false) | Err e => Err e end).

Definition installation_grants (app org id : string) (i : Installation) : bool :=
  (i_InstallationID i =? id)%string && (i_StationID i =? sv_StationID s)%string && (i_OrganizationID i =? org)%string
  && (i_AppID i =? app)%string && (i_State i =? "installed")%string && (1 <=? i_Revision i).

(** The effect of the delegation. *)
Definition authorize_effect (a : InstallationAccess) (app user org id version : string) (worker : bool)
    : handler_of (result OpError Installation) :=
  item ← call (GetInstallationCall (delegated_actor user org) id);
  match item with
  | Err ErrNoRows => mret (Err OperationTypes.Denied)
  | Err e => mret (Err e)
  | Ok i =>
      stop (Err OperationTypes.Denied) when (negb (installation_grants app org id i)) ;;
      if worker then
        stop (Err ErrTransitionRelease) when (negb (ia_worker a)) ;;
        out ← call (AuthorizeWorkerCall i version);
        mret (match out with Ok _ => Ok i | Err e => Err e end)
      else if (i_AppVersion i =? version)%string then mret (Ok i)
      else
        stop (Err OperationTypes.Denied) when (negb (ia_catalog a)) ;;
        helm ← call (CatalogHelm app);
        mret (if (helm : bool) then Ok i else Err OperationTypes.Denied)
  end.

Definition op_of_fault (f : Fault) : OpError :=
  match f with
  | Identity.Invalid => OperationTypes.Invalid | Identity.Unauthenticated => OperationTypes.Unauthenticated
  | Identity.Revoked => OperationTypes.Revoked | Identity.Denied => OperationTypes.Denied
  | Identity.Locked => OperationTypes.Locked | Identity.Conflict => OperationTypes.Conflict
  | ServerError => ErrExternal ""
  end.

Definition authorization (requestID app user org version : string) (worker : bool) (i : Installation) : Value :=
  VMap ([("schema_version", VInt 1); ("installation_id", VStr (i_InstallationID i)); ("app_id", VStr app);
         ("app_version", VStr (if worker then i_AppVersion i else version)); ("station_id", VStr (i_StationID i));
         ("organization_id", VStr org); ("user_id", VStr user); ("installation_revision", VInt (i_Revision i));
         ("request_id", VStr requestID)] ++ (if worker then [("worker_version", VStr version)] else []))%list.

Definition installationAccess (w : Writer) (r : Request) (requestID : string) : handler_of Response :=
  let w := no_store w in
  let unconfigured := not_configured w "Installation delegation is not configured" requestID in
  match sv_InstallationAccess s with
  | None => mret unconfigured
  | Some a =>
      stop unconfigured when (negb (ia_manager a) || negb (ia_installation a) || negb (sv_Identity s)) ;;
      match ia_callers a !! digest_of (get r "Authorization") with
      | None => mret (failure w requestID Identity.Unauthenticated)
      | Some app =>
          stop (failure w requestID Identity.Unauthenticated) when (negb (once r "Authorization")) ;;
          stop (invalid_fields w requestID) when (negb (subjects_ok r)) ;;
          stop (invalid_fields w requestID) when
            (negb (plain_url r) || negb (once r "Content-Type") || negb (get r "Content-Encoding" =? "")%string
             || negb (length (rq_TransferEncoding r) =? 0)%nat) ;;
          stop (denied w requestID) when (negb (get r "X-Station-Id" =? sv_StationID s)%string) ;;
          input ← authorize_input r;
          match input with
          | Err _ => mret (invalid_fields w requestID)
          | Ok (id, version, worker) =>
              stop (invalid_fields w requestID) when (negb (validUUIDv7 id) || negb (Transitions.transitionVersion version)) ;;
              let user := get r "X-User-Id" in
              let org := get r "X-Organization-Id" in
              out ← withMember op_of_fault true user org (authorize_effect a app user org id version worker);
              mret match out with
              | Err ErrTransitionRelease => not_configured w "Worker compatibility is unavailable" requestID
              | Err e => failure w requestID e
              | Ok i => reply w 200 (authorization requestID app user org version worker i)
              end
          end
      end
  end.

(** ** blender.go *)
Definition blenderControlCaller (w : Writer) (r : Request) (requestID : string) : result Response BlenderControl :=
  match sv_BlenderControl s with
  | None => Err (not_configured w "Blender execution is not configured" requestID)
  | Some control =>
      if (bl_Token control =? "")%string || negb (once r "Authorization") || negb (once r "X-User-Id")
         || negb (once r "X-Organization-Id") || negb (same_digest (get r "Authorization") ("Bearer " +:+ bl_Token control))
      then Err (failure w requestID Identity.Unauthenticated)
      else if negb (rq_RawQuery r =? "")%string || negb (rq_RawPath r =? "")%string || negb (get r "Content-Encoding" =? "")%string
      then Err (invalid_fields w requestID)
      else Ok control
  end.

Definition blenderExecute (w : Writer) (r : Request) (requestID : string) (control : BlenderControl) (action : string)
    (input : RuntimeBody) (user org station : string) : handler_of Response :=
  stop (denied w requestID) when
    (negb (user =? get r "X-User-Id")%string || negb (org =? get r "X-Organization-Id")%string
     || negb (station =? sv_StationID s)%string) ;;
  out ← withMember (fun f => f) (negb (action =? "access")%string) user org
          (runtime_call [200; 400; 401; 403; 409; 503] (runtime_request control "POST" action requestID input));
  mret match out with
  | Err e => failure w requestID e
  | Ok (status, text) => write_bytes w status text
  end.

(** The five handlers: the action, and the parts of its input. *)
Definition blender_handler {A} `{Target A} (action : string) (body : A -> RuntimeBody) (user org station : A -> string)
    (w : Writer) (r : Request) (requestID : string) : handler_of Response :=
  match blenderControlCaller w r requestID with
  | Err refusal => mret refusal
  | Ok control =>
      input ← decode (A := A) r false;
      match input with
      | Err e => mret (failure w requestID e)
      | Ok i => blenderExecute w r requestID control action (body i) (user i) (org i) (station i)
      end
  end.
Definition blenderDestroy_handler := blender_handler "destroy" DestroyBody bd_UserID bd_OrganizationID bd_StationID.
Definition blenderStop_handler := blender_handler "stop" StopBody bp_UserID bp_OrganizationID bp_StationID.
Definition blenderCreate_handler := blender_handler "create" CreateBody bc_UserID bc_OrganizationID bc_StationID.
Definition blenderStart_handler := blender_handler "start" StartBody bs_UserID bs_OrganizationID bs_StationID.
Definition blenderAccess_handler := blender_handler "access" AccessBody ba_UserID ba_OrganizationID ba_StationID.

(** The request for profiles carries no request identifier. *)
Definition profiles_request (control : BlenderControl) : RuntimeRequest :=
  mkRuntimeRequest "GET" (bl_Endpoint control +:+ "/internal/v1/instances/profiles")
    (hset "Authorization" ("Bearer " +:+ bl_RuntimeToken control) []) NoBody.
Definition read_profiles (control : BlenderControl) : handler_of (result Fault (list Profile)) :=
  let rq := profiles_request control in
  stop (Err ServerError) when (negb (request_url (rr_URL rq))) ;;
  resp ← call (RuntimeDo rq);
  mret match resp with
  | None => Err ServerError
  | Some resp =>
      match (text ← usable 32768 resp; decode_profiles text) with
      | Some (Some l) => if rp_Status resp =? 200 then Ok l else Err ServerError
      | _ => Err ServerError
      end
  end.
Definition blenderOptions (w : Writer) (r : Request) (requestID : string) : handler_of Response :=
  match blenderControlCaller w r requestID with
  | Err refusal => mret refusal
  | Ok control =>
      input ← decode (A := unit) r false;
      match input with
      | Err e => mret (failure w requestID e)
      | Ok _ =>
          let user := get r "X-User-Id" in
          let org := get r "X-Organization-Id" in
          out ← withMember (fun f => f) true user org (read_profiles control);
          mret match out with
          | Err e => failure w requestID e
          | Ok l => reply w 200 (VMap [("station_id", VStr (sv_StationID s)); ("user_id", VStr user);
                      ("organization_id", VStr org); ("can_manage", VBool true); ("profiles", VProfiles l)])
          end
      end
  end.

(** ** namespace_migration.go *)
Definition requireBootstrapToken (r : Request) : bool :=
  if (sv_BootstrapToken s =? "")%string then false
  else
    let token := get r "X-Bootstrap-Token" in
    let token := if (token =? "")%string then bearer r else token in
    negb (token =? "")%string && same_digest (sv_BootstrapToken s) token.

Definition decodeNamespaceMigrationRequest (r : Request) : handler_of (option NamespaceMigrationRequest) :=
  stop None when
    (negb (rq_RawQuery r =? "")%string || negb (rq_RawPath r =? "")%string || negb (get r "Content-Encoding" =? "")%string) ;;
  stop None when (negb (json_media r)) ;;
  match rq_Body r with
  | None => Panic
  | Some b => mret (text ← read_max 65536 b; if (TrimSpace text =? "")%string then None else decode_move text)
  end.

(** Without an operations service one is made from the state service, which moves
    the observation memory only. *)
Definition migrateAppNamespace (w : Writer) (r : Request) (requestID : string) : handler_of Response :=
  stop (denied w requestID) when (negb (requireBootstrapToken r)) ;;
  req ← decodeNamespaceMigrationRequest r;
  match req with
  | None => mret (invalid_fields w requestID)
  | Some req =>
      stop (invalid_fields w requestID) when (negb (ValidateNamespaceMigrationRequest req)) ;;
      stop (not_configured w "Application operations are not configured" requestID) when
        (negb (sv_Operations s) && negb (sv_AppStates s)) ;;
      out ← call (MigrateNamespaceCall req);
      mret match out with
      | Err e => failure w requestID e
      | Ok m => reply w 200 (VMigration m requestID)
      end
  end.
End Internal.
