(* ===== verification/GatewayServer.v ===== *)
(** * The router: ServeHTTP of internal/gateway/server.go

    A request gets an identifier and the headers every answer carries, a path has
    one method, and the rest is dispatch: internal routes and the routes without a
    session first, then [Me], then the user's handlers. [recovered] is the deferred
    function: a panic of anything below answers 500. *)
From stdpp Require Import gmap list strings.
From S2P Require Import Prelude GoStd Sha256 GoJson GoText GoHttp Uuid Program StrictJson Identity Catalog AppState OperationTypes Forward Installations Lifecycle Preinstalled Egress NamespaceMigration TelemetryTypes Gateway GatewayCalls GatewayHandlers GatewayInternal.
From Stdlib Require Import Ascii.
#[local] Open Scope Z_scope.

Definition Version : string := "0.3.51".
(** migrations.ContractsMajor and migrations.Version. *)
Definition ContractsMajor : Z := 1.
Definition MigrationVersion : Z := 22.

Module RequestPatterns.
Import Regexp.
(** [^[a-zA-Z0-9._:-]{1,128}$] *)
Definition request_id : re := between 1 128 (Class (fun c => alnum c || one_of "._:-" c)).
End RequestPatterns.
Definition requestIDPattern (s : string) : bool := Regexp.matches RequestPatterns.request_id s.

Definition stream_path : string := "/internal/app-states/v1/stream".

(** ** Routes *)
Definition static_routes : list (string * string) := [
  (transitionPath, "POST"); (forwardRecoveryPath, "POST"); (stream_path, "POST"); ("/app-states/v1", "GET");
  ("/appcenter/v1/facts", "GET"); ("/appcenter/v1/commands", "POST"); ("/appcenter/v1/operations", "GET");
  ("/internal/v1/app-installations/authorize", "POST"); (authorizeWorker, "POST");
  ("/preinstalled/commands", "POST"); ("/internal/v1/app-access", "POST"); ("/internal/v1/app-namespace/migrate", "POST");
  ("/internal/v1/resources/snapshot", "GET"); ("/internal/v1/resources/workspaces", "GET");
  ("/internal/v1/resources/workspaces/release", "POST");
  ("/internal/v1/blender/create", "POST"); ("/internal/v1/blender/start", "POST"); ("/internal/v1/blender/stop", "POST");
  ("/internal/v1/blender/destroy", "POST"); ("/internal/v1/blender/access", "POST"); ("/internal/v1/blender/options", "POST");
  ("/app-commands", "POST"); ("/healthz", "GET"); ("/readyz", "GET");
  ("/identity/bootstrap", "POST"); ("/identity/login", "POST"); ("/identity/refresh", "POST"); ("/identity/logout", "POST");
  ("/identity/me", "GET"); ("/identity/scopes", "GET"); ("/station/health", "GET");
  ("/api/v1/resources/gpu", "GET"); ("/api/v1/resources/node", "GET"); ("/api/v1/resources/summary", "GET");
  ("/api/v1/resources/workloads", "GET"); ("/api/v1/resources/workspaces", "GET"); ("/api/v1/resources/workspaces/release", "POST") ]%string.

(** The paths below a collection; each is entered into the table as a GET. *)
Definition below (base path : string) : bool := (path =? base)%string || has_prefix path (base +:+ "/").
Definition dynamic_route (path : string) : bool :=
  has_prefix path "/app-operations/" || below "/catalog/apps" path || below "/app-installations" path
  || has_prefix path "/app-states/v1/installations/"
  || has_prefix path "/preinstalled/apps/" || has_prefix path "/preinstalled/releases/"
  || has_prefix path (forwardRecoveryPath +:+ "/") || has_prefix path (transitionPath +:+ "/").
Definition lookup_route (path : string) (l : list (string * string)) : option string :=
  snd <$> List.find (fun kv => (fst kv =? path)%string) l.
Definition route_method (path : string) : option string :=
  if dynamic_route path then Some "GET" else lookup_route path static_routes.
Definition proxy_path (path : string) : bool := below "/api/v1/proxies" path.

Section Router.
Context {J : JsonLib} {L : HttpLib} {N : UnicodeLib} {U : UuidLib} {G : GatewayCodecs}.
Variable s : Server.

Definition session_reply (w : Writer) (requestID : string) (status : Z) (out : result Fault Identity.Session) : Response :=
  match out with Err e => failure w requestID e | Ok session => reply w status (VSession session) end.

Definition probe (status requestID : string) : Value := VProbe (mkProbe status Version ContractsMajor MigrationVersion requestID).

(** The collector's handler writes to the same response: it sets its own headers,
    each once, over the ones that are there. *)
Definition written (w : Writer) (out : Response) : Response :=
  mkResponse (rs_Status out) (foldl (fun h kv => hset (fst kv) (snd kv) h) (wr_Header w) (rs_Header out)) (rs_Body out).

(** The routes before [Me]; [None] when the path is not one of them. *)
Definition open_route (w : Writer) (r : Request) (requestID : string) : option (handler_of Response) :=
  let path := rq_Path r in
  let on (p : string) := (path =? p)%string in
  if on stream_path then Some (out ← call (ServeCollector r); mret (written w out))
  else if on "/internal/v1/app-installations/authorize" || on authorizeWorker then Some (installationAccess s w r requestID)
  else if on "/internal/v1/app-access" then Some (appAccess s w r requestID)
  else if on "/internal/v1/app-namespace/migrate" then Some (migrateAppNamespace s w r requestID)
  else if on "/internal/v1/resources/snapshot" then Some (resourcesSnapshot s w r requestID)
  else if on "/internal/v1/resources/workspaces" then Some (internalResourcesWorkspaces s w r requestID)
  else if on "/internal/v1/resources/workspaces/release" then Some (internalResourcesReleaseWorkspace s w r requestID)
  else if on "/internal/v1/blender/options" then Some (blenderOptions s w r requestID)
  else if on "/internal/v1/blender/create" then Some (blenderCreate_handler s w r requestID)
  else if on "/internal/v1/blender/start" then Some (blenderStart_handler s w r requestID)
  else if on "/internal/v1/blender/stop" then Some (blenderStop_handler s w r requestID)
  else if on "/internal/v1/blender/destroy" then Some (blenderDestroy_handler s w r requestID)
  else if on "/internal/v1/blender/access" then Some (blenderAccess_handler s w r requestID)
  else if on "/healthz" then Some (mret (reply w 200 (probe "Alive" requestID)))
  else if on "/readyz" then
    Some (ready ← call CheckMigrations;
          mret (if (ready : bool) then reply w 200 (probe "Ready" requestID) else reply w 503 (probe "NotReady" requestID)))
  else if on "/app-commands" then
    Some (me ← call (Me requestID (bearer r));
          match me with
          | Err e => mret (failure w requestID e)
          | Ok user =>
              command ← decode (A := Command) r false;
              match command with
              | Err e => mret (failure w requestID e)
              | Ok c =>
                  stop (not_configured w "Application operations are not configured" requestID) when (negb (sv_Operations s)) ;;
                  op ← call (SubmitCall user c);
                  mret match op with Err e => failure w requestID e | Ok op => reply w 202 (VOperation op) end
              end
          end)
  else if on "/identity/bootstrap" then
    Some (stop (denied w requestID) when
            ((sv_BootstrapToken s =? "")%string || negb (same_digest (sv_BootstrapToken s) (get r "X-Bootstrap-Token"))) ;;
          input ← decode (A := BootstrapRequest) r false;
          match input with
          | Err e => mret (failure w requestID e)
          | Ok i => out ← call (BootstrapCall requestID i); mret (session_reply w requestID 201 out)
          end)
  else if on "/identity/login" then
    Some (input ← decode (A := LoginRequest) r false;
          match input with
          | Err e => mret (failure w requestID e)
          | Ok i => out ← call (LoginCall requestID i); mret (session_reply w requestID 201 out)
          end)
  else if on "/identity/refresh" then
    Some (input ← decode (A := unit) r true;
          match input with
          | Err e => mret (failure w requestID e)
          | Ok _ => out ← call (RefreshCall requestID (bearer r)); mret (session_reply w requestID 200 out)
          end)
  else if on "/identity/logout" then
    Some (input ← decode (A := unit) r true;
          match input with
          | Err e => mret (failure w requestID e)
          | Ok _ => out ← call (LogoutCall requestID (bearer r));
                    mret match out with Err e => failure w requestID e | Ok _ => no_content w end
          end)
  else None.

Definition telemetry_reply {A} (w : Writer) (requestID what : string) (value : A -> Value) (out : result string A) : Response :=
  match out with
  | Err e => refuse w 502 "BAD_GATEWAY" ("Failed to query " +:+ what +:+ ": " +:+ e) requestID
  | Ok a => reply w 200 (value a)
  end.

(** The four telemetry routes; [None] falls through, as another path below the
    prefix would. *)
Definition telemetry_route (w : Writer) (path requestID : string) : option (handler_of Response) :=
  let item (key : string) (v : Value) := VMap [(key, v); ("request_id", VStr requestID)] in
  let on (p : string) := (path =? p)%string in
  if on "/api/v1/resources/gpu" then
    Some (out ← call GetGPUs; mret (telemetry_reply w requestID "GPU telemetry" (fun l => item "gpus" (VGPUs l)) out))
  else if on "/api/v1/resources/node" then
    Some (out ← call GetNode; mret (telemetry_reply w requestID "node telemetry" (fun n => item "node" (VNode n)) out))
  else if on "/api/v1/resources/summary" then
    Some (out ← call GetSummary; mret (telemetry_reply w requestID "resource summary" (fun x => item "summary" (VSummary x)) out))
  else if on "/api/v1/resources/workloads" then
    Some (out ← call GetWorkloads; mret (telemetry_reply w requestID "workloads telemetry" (fun x => VWorkloads x requestID) out))
  else None.

Definition health (w : Writer) (requestID : string) : handler_of Response :=
  ready ← call CheckMigrations;
  let '(core, status) := if (ready : bool) then ("Ready", "Degraded") else ("NotReady", "Unavailable") in
  mret (reply w 200 (VHealth (mkHealth (sv_StationID s) Version status
    (<[ "core" := core ]> (<[ "mcp" := "NotReady" ]> (<[ "runtime" := "NotReady" ]> {[ "artifact" := "NotReady" ]})))
    requestID)))%string.

(** After [Me]. *)
Definition user_route (w : Writer) (r : Request) (requestID : string) (user : User) : handler_of Response :=
  let path := rq_Path r in
  let on (p : string) := (path =? p)%string in
  if on "/appcenter/v1/facts" then serveAppCenter s w r requestID user
  else if on "/appcenter/v1/commands" then serveAppCenterCommand s w r requestID user
  else if on "/appcenter/v1/operations" then serveAppCenterOperations s w r requestID user
  else if has_prefix path "/preinstalled/" then servePreinstalled s w r requestID user
  else if on "/app-states/v1" || has_prefix path "/app-states/v1/installations/" then serveAppStates s w r requestID user
  else if below forwardRecoveryPath path then serveForwardRecovery s w r requestID user
  else if below transitionPath path then serveTransitions s w r requestID user
  else if below "/app-installations" path then serveInstallations s w r requestID user
  else if has_prefix path "/app-operations/" then
    stop (not_configured w "Application operations are not configured" requestID) when (negb (sv_Operations s)) ;;
    op ← call (GetOperation user (trim_prefix path "/app-operations/"));
    mret match op with
    | Err ErrNoRows => refuse w 404 "NOT_FOUND" "Operation not found" requestID
    | Err e => failure w requestID e
    | Ok op => reply w 200 (VOperation op)
    end
  else if on "/api/v1/resources/workspaces" then resourcesWorkspaces s w r requestID
  else if on "/api/v1/resources/workspaces/release" then resourcesReleaseWorkspace s w r requestID user
  else
    stop (not_configured w "Telemetry service is not configured" requestID) when
      (has_prefix path "/api/v1/resources/" && negb (sv_Telemetry s)) ;;
    match (if has_prefix path "/api/v1/resources/" then telemetry_route w path requestID else None) with
    | Some h => h
    | None =>
        if below "/catalog/apps" path then serveCatalog s w r requestID user
        else if on "/station/health" then health w requestID
        else mret (reply w 200 (VUser user))
    end.

(** What runs under the deferred recovery. *)
Definition serve (w : Writer) (valid : bool) (requestID : string) (r : Request) : handler_of Response :=
  stop (invalid_fields w requestID) when negb valid ;;
  if proxy_path (rq_Path r) then serveEgress s w r requestID
  else match route_method (rq_Path r) with
  | None => mret (refuse w 404 "NOT_FOUND" "Endpoint not found" requestID)
  | Some method =>
      stop (refuse (set_header "Allow" method w) 405 "INVALID_ARGUMENT" "Method not allowed" requestID) when
        negb (rq_Method r =? method)%string ;;
      match open_route w r requestID with
      | Some h => h
      | None =>
          me ← call (Me requestID (bearer r));
          match me with
          | Err e => mret (failure w requestID e)
          | Ok user => user_route w r requestID user
          end
      end
  end.

(** The identifier of a request: its own when it has an acceptable one. *)
Definition request_id (r : Request) : option string :=
  let id := get r "X-Request-ID" in
  if negb (id =? "")%string && requestIDPattern id then Some id else None.
Definition request_valid (r : Request) : bool :=
  let id := get r "X-Request-ID" in (id =? "")%string || requestIDPattern id.

Definition writer_of (r : Request) (requestID : string) : Writer :=
  set_header "X-Content-Type-Options" "nosniff" (set_header "Cache-Control" "no-store"
    (set_header "X-Request-ID" requestID (mkWriter (has_prefix (rq_Path r) "/appcenter/v1/") []))).

(** The deferred function: [None] is a panic. A handler writes nothing before its
    end, so the header is the writer's. *)
Definition recovered (w : Writer) (requestID : string) (out : option Response) : Response :=
  match out with Some resp => resp | None => refuse w 500 "INTERNAL" "Request failed" requestID end.

(** [http.Error]. *)
Definition plain_error : Response :=
  mkResponse 500 (hset "X-Content-Type-Options" "nosniff" (hset "Content-Type" "text/plain; charset=utf-8" []))
    (Some (VText ("Request failed" +:+ String (ascii_of_N 10) ""))).

(** The whole call: the identifier, then either the answer of a request that could
    not get one, or the program to run under [recovered]. *)
Definition identified (r : Request) : handler_of (option string) :=
  match request_id r with Some id => mret (Some id) | None => call NewRequestID end.
Definition ServeHTTP (r : Request) : handler_of Response :=
  id ← identified r;
  match id with
  | None => mret plain_error
  | Some requestID => serve (writer_of r requestID) (request_valid r) requestID r
  end.

(** The exchange in a world that answers the calls: its state, the trace and the
    response. [NewRequestID] is the only call outside the recovery, and it does not
    panic. *)
Definition exchange {W} (h : handler Event W) (r : Request) (world : W) : W * list (called Event) * Response :=
  let '(world, t, id) := interp h (identified r) world in
  match id with
  | Some (Some requestID) =>
      let w := writer_of r requestID in
      let '(world, t', out) := interp h (serve w (request_valid r) requestID r) world in
      (world, (t ++ t')%list, recovered w requestID out)
  | _ => (world, t, plain_error)
  end.
End Router.
