(* ===== verification/GatewayMonitor.v ===== *)
(** * What a handler may call, and what it may answer

    [allow] is the permission of each call and [after] what an answer establishes:
    the user of the session, the grant of a delegation. [answered] is the contract
    of every response. The lemmas say that each building block of the handlers
    keeps both, and [walk] applies them. *)
From stdpp Require Import gmap list strings.
From S2P Require Import Prelude GoStd Sha256 GoJson GoText GoHttp Uuid Program StrictJson Identity Catalog AppState OperationTypes Forward Installations Lifecycle Preinstalled Egress NamespaceMigration TelemetryTypes Gateway GatewayCalls GatewayHandlers GatewayInternal GatewayServer.
From Stdlib Require Import Ascii.
#[local] Open Scope Z_scope.

(** ** The state of the monitor *)
Record Grant := mkGrant { gr_Manager : bool; gr_User : string; gr_Org : string; gr_Held : bool }.
Record Clearance := mkClearance { cl_RequestID : option string; cl_User : option User; cl_Grant : option Grant }.

Definition after (X : Type) (e : Event X) : X -> Clearance -> Clearance :=
  match e in Event X return X -> Clearance -> Clearance with
  | NewRequestID => fun id c => mkClearance id (cl_User c) (cl_Grant c)
  | Me _ _ => fun out c => match out with Ok u => mkClearance (cl_RequestID c) (Some u) (cl_Grant c) | Err _ => c end
  | OpenMember m user org => fun out c =>
      match out with Ok _ => mkClearance (cl_RequestID c) (cl_User c) (Some (mkGrant m user org true)) | Err _ => c end
  | CommitMember => fun out c =>
      mkClearance (cl_RequestID c) (cl_User c)
        (match out, cl_Grant c with Ok _, Some g => Some (mkGrant (gr_Manager g) (gr_User g) (gr_Org g) false) | _, _ => None end)
  | RollbackMember => fun _ c => mkClearance (cl_RequestID c) (cl_User c) None
  | _ => fun _ c => c
  end.

Section Monitor.
Context {J : JsonLib} {L : HttpLib} {N : UnicodeLib} {U : UuidLib} {G : GatewayCodecs}.
Variables (s : Server) (r : Request).

(** The service credential of the path of the request. *)
Definition app_token (resources : bool) : string :=
  match sv_AppAccess s with
  | Some a => if resources then ac_resourcesToken a else ac_networkToken a
  | None => ""
  end.
Definition bears (token : string) : bool :=
  negb (token =? "")%string && same_digest (get r "Authorization") ("Bearer " +:+ token).
Definition credential : bool :=
  let path := rq_Path r in
  if has_prefix path "/internal/v1/blender/" then
    match sv_BlenderControl s with Some control => bears (bl_Token control) | None => false end
  else if has_prefix path "/internal/v1/resources/" then bears (app_token true)
  else if (path =? "/internal/v1/app-access")%string then bears (app_token false)
  else if has_prefix path "/internal/v1/app-installations/" then
    match sv_InstallationAccess s with
    | Some a => bool_decide (is_Some (ia_callers a !! digest_of (get r "Authorization")))
    | None => false
    end
  else false.

(** Whom a request to Runtime acts for: user, organization, station. *)
Definition subject (b : RuntimeBody) : option (string * string * string) :=
  match b with
  | NoBody => None
  | ReleaseBody b => Some (wq_UserID b, wq_OrganizationID b, wq_StationID b)
  | CreateBody b => Some (bc_UserID b, bc_OrganizationID b, bc_StationID b)
  | StartBody b => Some (bs_UserID b, bs_OrganizationID b, bs_StationID b)
  | StopBody b => Some (bp_UserID b, bp_OrganizationID b, bp_StationID b)
  | DestroyBody b => Some (bd_UserID b, bd_OrganizationID b, bd_StationID b)
  | AccessBody b => Some (ba_UserID b, ba_OrganizationID b, ba_StationID b)
  end.
(** A member's access is resolved for members who are no managers. *)
Definition needs_manager (b : RuntimeBody) : bool := match b with AccessBody _ => false | _ => true end.

Definition held (c : Clearance) (g : Grant) : Prop := cl_Grant c = Some g /\ gr_Held g = true.
Definition held_manager (c : Clearance) : Prop := exists g, held c g /\ gr_Manager g = true.
Definition as_user (c : Clearance) (u : User) (scopes : list string) : Prop :=
  cl_User c = Some u /\ (scopes = [] \/ may u scopes = true).

Definition allow (X : Type) (e : Event X) (c : Clearance) : Prop :=
  match e with
  | NewRequestID | CheckMigrations => True
  | ServeCollector r' => r' = r /\ rq_Path r = stream_path
  | Me requestID token => cl_RequestID c = Some requestID /\ token = bearer r /\ cl_User c = None
  | LoginCall requestID _ => cl_RequestID c = Some requestID
  | BootstrapCall requestID _ =>
      cl_RequestID c = Some requestID /\ sv_BootstrapToken s <> "" /\
      digest_of (sv_BootstrapToken s) = digest_of (get r "X-Bootstrap-Token")
  | RefreshCall requestID token | LogoutCall requestID token => cl_RequestID c = Some requestID /\ token = bearer r
  | OpenMember m user org =>
      cl_Grant c = None /\
      ((credential = true /\ user = get r "X-User-Id" /\ org = get r "X-Organization-Id" /\
        once r "Authorization" = true /\ once r "X-User-Id" = true /\ once r "X-Organization-Id" = true) \/
       (m = true /\ exists u, cl_User c = Some u /\ user = ic_UserID u /\ org = ic_OrganizationID u))
  | CommitMember | RollbackMember => exists g, held c g
  | SubmitCall u _ | GetOperation u _ | ListInstallationsCall u
  | ProxyList u | ProxyGet u _ | ProxySave u _ _ | ProxyDelete u _ | ProxyTest u _ => as_user c u []
  | GetByKey u _ | AppCenterFactsCall u _ | InventoryCall u _ | StatesCall u _ | RegisteredCatalogCall u
  | GetTransitionCall u _ => as_user c u ["app:read"]
  | SubmitAppCenterCall u _ | SubmitPreinstalledCall u _ | SubmitTransitionCall u _
  | SubmitRecoveryCall u _ | GetRecoveryCall u _ => as_user c u ["app:read"; "app:manage"]
  | ResolveReleaseCall _ => exists u, as_user c u ["app:read"]
  | GetInstallationCall u _ =>
      as_user c u [] \/
      exists g, held c g /\ gr_Manager g = true /\ u = delegated_actor s (gr_User g) (gr_Org g)
  | AuthorizeWorkerCall _ _ | CatalogHelm _ | GetTelemetry => held_manager c
  | MigrateNamespaceCall req => requireBootstrapToken s r = true /\ ValidateNamespaceMigrationRequest req = true
  | GetGPUs | GetNode | GetSummary | GetWorkloads => is_Some (cl_User c)
  | RuntimeDo rq =>
      exists control, sv_BlenderControl s = Some control /\
        (exists path, rr_URL rq = bl_Endpoint control +:+ path) /\
        Values (rr_Header rq) "Authorization" = ["Bearer " +:+ bl_RuntimeToken control] /\
        match subject (rr_Body rq) with
        | None => is_Some (cl_User c) \/ exists g, cl_Grant c = Some g /\ gr_Manager g = true
        | Some who => exists g, held c g /\ who = (gr_User g, gr_Org g, sv_StationID s) /\
                                (needs_manager (rr_Body rq) = true -> gr_Manager g = true)
        end
  end.

(** ** The contract of a response *)
Definition challenge : string := "Bearer realm=" +:+ dquote +:+ "station" +:+ dquote.

(** The paths whose status may be Runtime's. *)
Definition relays : bool :=
  slices_contains ["/internal/v1/blender/create"; "/internal/v1/blender/start"; "/internal/v1/blender/stop";
    "/internal/v1/blender/destroy"; "/internal/v1/blender/access"; "/internal/v1/resources/workspaces/release";
    "/api/v1/resources/workspaces/release"]%string (rq_Path r).

(** The header a writer starts with and every answer keeps. *)
Record standing (requestID : string) (h : Header) : Prop := {
  st_id : Values h "X-Request-ID" = [requestID];
  st_cache : Values h "Cache-Control" = ["no-store"];
  st_sniff : Values h "X-Content-Type-Options" = ["nosniff"] }.
Record good (app : bool) (w : Writer) (requestID : string) : Prop := {
  gd_app : wr_AppCenter w = app;
  gd_standing : standing requestID (wr_Header w);
  gd_auth : Values (wr_Header w) "WWW-Authenticate" = [] }.

(** A session and its user are answered where they are asked for. *)
Definition session_paths : list string := ["/identity/bootstrap"; "/identity/login"; "/identity/refresh"]%string.
Definition user_paths : list string := ["/identity/me"; "/identity/scopes"]%string.
Definition value_ok (v : Value) : Prop :=
  match v with
  | VSession _ => rq_Path r ∈ session_paths
  | VUser _ => rq_Path r ∈ user_paths
  | _ => True
  end.
Definition body_ok (appCenter : bool) (requestID : string) (body : option Value) : Prop :=
  match body with
  | Some (VError e) => appCenter = false /\ er_RequestID e = requestID
  | Some (VAppCenterError _ id) => appCenter = true /\ id = requestID
  | Some v => value_ok v
  | None => True
  end.
Record answered (appCenter : bool) (requestID : string) (resp : Response) : Prop := {
  an_standing : standing requestID (rs_Header resp);
  an_body : body_ok appCenter requestID (rs_Body resp);
  an_challenge : Values (rs_Header resp) "WWW-Authenticate" = [] \/
    (rs_Status resp = 401 /\ Values (rs_Header resp) "WWW-Authenticate" = [challenge]);
  an_unauthenticated : rs_Status resp = 401 -> relays = true \/ Values (rs_Header resp) "WWW-Authenticate" = [challenge] }.

(** *** Building blocks *)
Lemma standing_set requestID h k v :
  CanonicalHeaderKey k <> "X-Request-Id" -> CanonicalHeaderKey k <> "Cache-Control" ->
  CanonicalHeaderKey k <> "X-Content-Type-Options" -> standing requestID h -> standing requestID (hset k v h).
Proof. intros H1 H2 H3 [A B C]. constructor; rewrite hset_other; (done || by apply not_eq_sym). Qed.

Lemma good_set app w requestID k v :
  CanonicalHeaderKey k <> "X-Request-Id" -> CanonicalHeaderKey k <> "Cache-Control" ->
  CanonicalHeaderKey k <> "X-Content-Type-Options" -> CanonicalHeaderKey k <> "Www-Authenticate" ->
  good app w requestID -> good app (set_header k v w) requestID.
Proof.
  intros H1 H2 H3 H4 [C A B]. constructor; simpl; [done | by apply standing_set |]. rewrite hset_other; [done | by apply not_eq_sym].
Qed.
Lemma good_no_store app w requestID : good app w requestID -> good app (no_store w) requestID.
Proof.
  intros [E [A B C] D]. constructor; simpl; [done | constructor |]; [| apply hset_values | |]; by rewrite hset_other.
Qed.

Lemma answered_reply app w requestID status v : good app w requestID ->
  match v with VError e => er_RequestID e = requestID | VAppCenterError _ _ => False | _ => value_ok v end ->
  status <> 401 \/ relays = true -> answered app requestID (reply w status v).
Proof.
  intros [C A B] Hv Hs. constructor; simpl.
  - by apply standing_set.
  - destruct v; simpl; try done. rewrite C. by destruct app.
  - left. by rewrite hset_other.
  - intros E. left. by destruct Hs.
Qed.
Lemma answered_refuse app w requestID status code message : good app w requestID ->
  status <> 401 \/ relays = true -> answered app requestID (refuse w status code message requestID).
Proof. intros Hw Hs. by apply answered_reply. Qed.
Lemma answered_bytes app w requestID status text : good app w requestID ->
  status <> 401 \/ relays = true -> answered app requestID (write_bytes w status text).
Proof.
  intros [C A B] Hs. constructor; simpl; [by apply standing_set | done | left; by rewrite hset_other |].
  intros E. left. by destruct Hs.
Qed.
Lemma answered_plain app w requestID status : good app w requestID -> status <> 401 ->
  answered app requestID (mkResponse status (wr_Header w) None).
Proof. intros [C A B] Hs. by constructor; simpl; [| | left |]. Qed.
Lemma answered_failure_of app w requestID f : good app w requestID -> answered app requestID (failure_of w requestID f).
Proof.
  intros [C A B]. unfold failure_of. destruct (fault_status f =? 401) eqn:E.
  - apply Z.eqb_eq in E. constructor; simpl.
    + apply standing_set; [done | done | done |]. by apply standing_set.
    + rewrite C. by destruct app.
    + right. split; [done |]. rewrite hset_other; [| done]. apply hset_values.
    + intros _. right. rewrite hset_other; [| done]. apply hset_values.
  - apply answered_reply; [by constructor | done |]. left. by apply Z.eqb_neq.
Qed.
Lemma answered_failure {E} `{GoError E} app w requestID (e : E) : good app w requestID ->
  answered app requestID (failure w requestID e).
Proof. apply answered_failure_of. Qed.

(** ** The calculus on the blocks *)
Definition meets {A} (c : Clearance) (p : prog Event A) (Q : Clearance -> A -> Prop) : Prop :=
  ensures allow after c p Q.

Lemma meets_ret {A} c (a : A) (Q : Clearance -> A -> Prop) : Q c a -> meets c (mret a) Q.
Proof. done. Qed.
Lemma meets_call {X} c (e : Event X) (Q : Clearance -> X -> Prop) :
  allow X e c -> (forall x, Q (after X e x c) x) -> meets c (call e) Q.
Proof. done. Qed.
Lemma meets_bind_call {X A} c (e : Event X) (k : X -> prog Event A) Q :
  allow X e c -> (forall x, meets (after X e x c) (k x) Q) -> meets c (call e ≫= k) Q.
Proof. done. Qed.
Lemma meets_perform {X A} c (e : Event X) (k : X -> prog Event A) Q :
  allow X e c -> (forall x, meets (after X e x c) (k x) Q) -> meets c (Perform e k) Q.
Proof. done. Qed.
Lemma meets_bind {A B} c (p : prog Event A) (k : A -> prog Event B) Q R :
  meets c p R -> (forall c' a, R c' a -> meets c' (k a) Q) -> meets c (p ≫= k) Q.
Proof. apply ensures_bind. Qed.
Lemma meets_panic {A} c (Q : Clearance -> A -> Prop) : meets c Panic Q.
Proof. done. Qed.
Lemma meets_decode {A B} `{Target A} c b (k : result Fault A -> prog Event B) Q :
  (forall x, meets c (k x) Q) -> meets c (decode r b ≫= k) Q.
Proof. intros Hk. unfold decode. destruct (rq_Body r); [apply Hk | done]. Qed.

(** A delegation: the effect runs under the held grant, what follows after it. *)
Definition granted (c : Clearance) (m : bool) (user org : string) (h : bool) : Clearance :=
  mkClearance (cl_RequestID c) (cl_User c) (Some (mkGrant m user org h)).
Definition ungranted (c : Clearance) : Clearance := mkClearance (cl_RequestID c) (cl_User c) None.

Lemma meets_delegation {E A B} c (fault : Fault -> E) m user org (effect : prog Event (result E A))
    (k : result E A -> prog Event B) Q :
  allow _ (OpenMember m user org) c ->
  meets (granted c m user org true) effect (fun c' _ => c' = granted c m user org true) ->
  (forall a, meets (granted c m user org false) (k (Ok a)) Q) ->
  (forall e, meets (ungranted c) (k (Err e)) Q) ->
  meets c (withMember fault m user org effect ≫= k) Q.
Proof.
  intros Ho Heff Hok Herr. apply meets_bind with
    (R := fun c' out => match out with Ok a => c' = granted c m user org false | Err _ => c' = ungranted c end).
  - unfold withMember. apply meets_bind_call; [done |]. intros [[] | f].
    + simpl. eapply meets_bind; [exact Heff |]. intros c' [a | e] ->.
      * apply meets_bind_call; [by eexists |]. by intros [[] | f]; apply meets_ret.
      * apply meets_bind_call; [by eexists |]. intros []. by apply meets_ret.
    + apply meets_ret. simpl. destruct Ho as [Hg _]. unfold ungranted. destruct c; simpl in *. by subst.
  - intros c' [a | e] ->; [apply Hok | apply Herr].
Qed.
End Monitor.

(** Split the shape of a program until its blocks are discharged. *)
Ltac block :=
  match goal with
  | |- meets _ _ _ (mret _) _ => apply meets_ret
  | |- meets _ _ _ Panic _ => apply meets_panic
  | |- meets _ _ _ (decode _ _ ≫= _) _ => apply meets_decode; intros ?
  | |- meets _ _ _ (call _ ≫= _) _ => apply meets_bind_call; [| intros ?]
  | |- meets _ _ _ (Perform _ _) _ => apply meets_perform; [| intros ?]
  | |- meets _ _ _ (match ?x with _ => _ end ≫= _) _ => let E := fresh "E" in destruct x eqn:E
  | |- meets _ _ _ (if ?b then _ else _) _ => let E := fresh "E" in destruct b eqn:E
  | |- meets _ _ _ (match ?x with _ => _ end) _ => let E := fresh "E" in destruct x eqn:E
  | |- meets _ _ _ (let '(_, _) := ?x in _) _ => let E := fresh "E" in destruct x eqn:E
  end.
