(* ===== verification/GatewaySafety.v ===== *)
(** * The gateway mediates every call

    One lemma per handler, by the calculus of [GatewayMonitor]; then the router. The
    theorems: no call without its permission, and every response keeps the contract. *)
From stdpp Require Import gmap list strings.
From S2P Require Import Prelude GoStd Sha256 GoJson GoText GoHttp Uuid Program StrictJson Identity Catalog AppState OperationTypes Forward Installations Lifecycle Preinstalled Egress NamespaceMigration TelemetryTypes Gateway GatewayCalls GatewayHandlers GatewayInternal GatewayServer GatewayMonitor.
From Stdlib Require Import Ascii.
#[local] Open Scope Z_scope.

Create HintDb gateway.
#[export] Hint Resolve good_no_store : gateway.

(** An answer by its shape. *)
Ltac answer :=
  repeat match goal with
  | |- answered _ _ _ (match ?x with _ => _ end) => destruct x
  | |- answered _ _ _ (if ?b then _ else _) => destruct b
  | |- answered _ _ _ (let '(_, _) := ?x in _) => destruct x
  | |- answered _ _ _ (failure _ _ _) => apply answered_failure
  | |- answered _ _ _ (denied _ _) => apply answered_failure
  | |- answered _ _ _ (invalid_fields _ _) => apply answered_failure
  | |- answered _ _ _ (not_configured _ _ _) => apply answered_refuse
  | |- answered _ _ _ (refuse _ _ _ _ _) => apply answered_refuse
  | |- answered _ _ _ (reply _ _ _) => apply answered_reply
  | |- answered _ _ _ (write_bytes _ _ _) => apply answered_bytes
  | |- answered _ _ _ (no_content _) => apply answered_plain
  | |- answered _ _ _ (mkResponse _ _ None) => apply answered_plain
  end; eauto with gateway; try (left; done); try (left; case_match; done); try done.

Ltac permit := lazymatch goal with |- allow _ _ _ (RuntimeDo _) _ => idtac | |- allow _ _ _ _ _ => simpl; eauto with gateway | |- _ => cbv beta end.
Ltac walk := repeat (block; permit); answer.

Section Safety.
Context {J : JsonLib} {L : HttpLib} {N : UnicodeLib} {U : UuidLib} {G : GatewayCodecs}.
Variables (s : Server) (r : Request) (app : bool) (w : Writer) (requestID : string).
Hypothesis Hw : good app w requestID.

#[local] Notation serves c p := (meets s r c p (fun _ resp => answered r app requestID resp)).

(** The user of the session, with the scopes a handler has checked. *)
Lemma user_may c u scopes : cl_User c = Some u -> negb (may u scopes) = false -> as_user c u scopes.
Proof. intros Hu Hm. bool_norm. split; [done | by right]. Qed.
Lemma user_any c u : cl_User c = Some u -> as_user c u [].
Proof. intros Hu. split; [done | by left]. Qed.
Lemma may_both u a b : may u [a] = true -> slices_contains (ic_Scopes u) b = true -> may u [a; b] = true.
Proof. unfold may. simpl. intros H ->. by rewrite !andb_true_r in *. Qed.
#[local] Hint Resolve user_may user_any : gateway.

Lemma facts_served c u : cl_User c = Some u -> serves c (serveAppCenter s w r requestID u).
Proof. intros Hu. unfold serveAppCenter. walk. Qed.
Lemma command_served c u : cl_User c = Some u -> serves c (serveAppCenterCommand s w r requestID u).
Proof. intros Hu. unfold serveAppCenterCommand. walk. Qed.
Lemma operations_served c u : cl_User c = Some u -> serves c (serveAppCenterOperations s w r requestID u).
Proof. intros Hu. unfold serveAppCenterOperations. walk. Qed.
Lemma states_served c u : cl_User c = Some u -> serves c (serveAppStates s w r requestID u).
Proof. intros Hu. unfold serveAppStates. walk. Qed.
Lemma catalog_served c u : cl_User c = Some u -> serves c (serveCatalog s w r requestID u).
Proof. intros Hu. unfold serveCatalog. walk. Qed.
Lemma installations_served c u : cl_User c = Some u -> serves c (serveInstallations s w r requestID u).
Proof. intros Hu. unfold serveInstallations. walk. Qed.

Lemma preinstalled_served c u : cl_User c = Some u -> serves c (servePreinstalled s w r requestID u).
Proof.
  intros Hu. unfold servePreinstalled. walk. split; [done |]. right. bool_norm. by apply may_both.
Qed.

Lemma command_of_served {A} `{Target A} base c (k : option (option A) -> handler_of Response) :
  (forall x, (forall a, x = Some (Some a) -> rq_Method r = "POST"%string) -> serves c (k x)) ->
  serves c (command_of base r ≫= k).
Proof.
  intros Hk. unfold command_of. destruct (rq_Method r =? "POST")%string eqn:E.
  - apply String.eqb_eq in E. destruct (_ || _); [by apply Hk |]. unfold decode. destruct (rq_Body r); [| done].
    apply Hk. by intros.
  - destruct (_ || _ || _); by apply Hk.
Qed.

Lemma transitions_served c u : cl_User c = Some u -> serves c (serveTransitions s w r requestID u).
Proof.
  intros Hu. unfold serveTransitions. block; [walk |]. block; [walk |].
  apply command_of_served. intros x Hx. walk; bool_norm.
  - split; [done | right]. apply may_both; [done |]. match goal with H : _ && _ = false |- _ => rewrite (Hx _ eq_refl) in H; simpl in H end.
    by bool_norm.
  - split; [done | by right].
Qed.
Lemma recovery_served c u : cl_User c = Some u -> serves c (serveForwardRecovery s w r requestID u).
Proof.
  intros Hu. unfold serveForwardRecovery. block; [walk |]. block; [walk |].
  apply command_of_served. intros x _. walk.
Qed.

(** *** Proxies: the handler identifies the user itself *)
Lemma good_allow methods : good app (set_header "Allow" methods w) requestID.
Proof. by apply good_set. Qed.
Lemma answered_proxy_failure e : answered r app requestID (proxy_failure w requestID e).
Proof. destruct e; simpl; answer. Qed.
Lemma answered_proxy_item status out : status <> 401 -> answered r app requestID (proxy_item w requestID status out).
Proof. intros Hs. destruct out; simpl; [apply answered_reply; [done | done | by left] | apply answered_proxy_failure]. Qed.
Hint Resolve good_allow answered_proxy_failure answered_proxy_item : gateway.

Lemma egress_served c : cl_RequestID c = Some requestID -> cl_User c = None -> serves c (serveEgress s w r requestID).
Proof.
  intros Hi Hu. unfold serveEgress. walk. apply answered_proxy_item. by case_match.
Qed.

(** *** Requests to Runtime *)
Definition runtime_ok (c : Clearance) (rq : RuntimeRequest) : Prop := allow s r _ (RuntimeDo rq) c.

Lemma runtime_request_ok c control method path body :
  sv_BlenderControl s = Some control ->
  match subject body with
  | None => is_Some (cl_User c) \/ exists g, cl_Grant c = Some g /\ gr_Manager g = true
  | Some who => exists g, held c g /\ who = (gr_User g, gr_Org g, sv_StationID s) /\
                          (needs_manager body = true -> gr_Manager g = true)
  end -> runtime_ok c (runtime_request control method path requestID body).
Proof.
  intros Hc Hb. exists control. split; [done |]. split; [by eexists |]. split; [| done].
  simpl. rewrite hset_other; [| done]. destruct body; (rewrite hset_other; [| done]) || idtac; apply hset_values.
Qed.
Lemma runtime_call_served c statuses rq : runtime_ok c rq ->
  meets s r c (runtime_call statuses rq) (fun c' _ => c' = c).
Proof.
  intros Hr. unfold runtime_call. block; [by apply meets_ret |]. apply meets_bind_call; [done |]. intros x. by apply meets_ret.
Qed.

Lemma workspaces_served c :
  is_Some (cl_User c) \/ (exists g, cl_Grant c = Some g /\ gr_Manager g = true) -> serves c (resourcesWorkspaces s w r requestID).
Proof.
  intros Hc. unfold resourcesWorkspaces. walk. by apply runtime_request_ok.
Qed.

Lemma release_answered status text : relays r = true -> answered r app requestID (release_answer w requestID status text).
Proof. intros Hr. unfold release_answer. answer. Qed.
Lemma release_served c user org : relays r = true ->
  allow s r _ (OpenMember true user org) c -> serves c (resourcesReleaseWorkspaceWithManager s w r requestID user org).
Proof.
  intros Hr Ho. unfold resourcesReleaseWorkspaceWithManager. walk.
  eapply meets_delegation; [done | | |].
  - apply runtime_call_served. apply runtime_request_ok; [done |]. by eexists.
  - intros []. apply meets_ret. by apply release_answered.
  - intros e. apply meets_ret. answer.
Qed.
Lemma user_release_served c u : relays r = true -> cl_User c = Some u -> cl_Grant c = None ->
  serves c (resourcesReleaseWorkspace s w r requestID u).
Proof. intros Hr Hu Hg. apply release_served; [done |]. split; [done |]. right. split; [done |]. by exists u. Qed.
End Safety.
