(* ===== verification/GatewayDelegation.v ===== *)
(** * Handlers of services mediate their calls

    The service half of the safety of the gateway: a delegation opens only under
    the credential of the service and for the member its headers name, and the
    effect runs while the grant is held. *)
From stdpp Require Import gmap list strings.
From S2P Require Import Prelude GoStd Sha256 GoJson GoText GoHttp Uuid Program StrictJson Identity Catalog AppState OperationTypes Forward Installations Lifecycle Preinstalled Egress NamespaceMigration TelemetryTypes Gateway GatewayCalls GatewayHandlers GatewayInternal GatewayServer GatewayMonitor GatewaySafety.
From Stdlib Require Import Ascii.
#[local] Open Scope Z_scope.

Section Delegation.
Context {J : JsonLib} {L : HttpLib} {N : UnicodeLib} {U : UuidLib} {G : GatewayCodecs}.
Variables (s : Server) (r : Request) (app : bool) (w : Writer) (requestID : string).
Hypothesis Hw : good app w requestID.

#[local] Notation serves c p := (meets s r c p (fun _ resp => answered r app requestID resp)).

(** ** The member a service names *)
Record named (user org : string) : Prop := {
  nm_user : user = get r "X-User-Id"; nm_org : org = get r "X-Organization-Id";
  nm_once : once r "Authorization" = true /\ once r "X-User-Id" = true /\ once r "X-Organization-Id" = true }.

Lemma subjects_once : subjects_ok r = true -> once r "X-User-Id" = true /\ once r "X-Organization-Id" = true.
Proof. unfold subjects_ok. simpl. intros H. by bool_norm. Qed.

Lemma delegated_app_ok name user org : delegatedApp s w r requestID name = Ok (user, org) ->
  named user org /\ bears r (app_token s (name =? "resources")%string) = true.
Proof.
  unfold delegatedApp, bears, app_token. intros H. inv_ok H. bool_norm.
  destruct (subjects_once ltac:(done)) as [? ?].
  split; [by constructor |]. apply andb_true_iff. split; [by apply negb_true_iff, String.eqb_neq | done].
Qed.
Lemma delegated_app_err name resp : delegatedApp s w r requestID name = Err resp -> answered r app requestID resp.
Proof.
  unfold delegatedApp. intros H.
  repeat match type of H with
  | (match ?x with _ => _ end) = _ => destruct x
  | (if ?b then _ else _) = _ => destruct b
  end; inv H; answer.
Qed.

Lemma named_allow c m user org :
  named user org -> credential s r = true -> cl_Grant c = None -> allow s r _ (OpenMember m user org) c.
Proof. intros [? ? (? & ? & ?)] Hc Hg. split; [done |]. by left. Qed.

(** The path of a request decides whose credential opens a delegation. *)
Definition at_path (resources : bool) : Prop :=
  if resources then
    rq_Path r = "/internal/v1/resources/snapshot" \/ rq_Path r = "/internal/v1/resources/workspaces" \/
    rq_Path r = "/internal/v1/resources/workspaces/release"
  else rq_Path r = "/internal/v1/app-access".
Lemma app_credential resources : at_path resources -> bears r (app_token s resources) = true -> credential s r = true.
Proof. unfold credential. destruct resources; simpl; [intros [-> | [-> | ->]] | intros ->]; done. Qed.

(** A delegation to an application, refused or served. *)
Lemma delegated_served name (k : string -> string -> handler_of Response) c :
  at_path (name =? "resources")%string ->
  (forall user org, allow s r _ (OpenMember true user org) c -> serves c (k user org)) -> cl_Grant c = None ->
  serves c (match delegatedApp s w r requestID name with Err resp => mret resp | Ok (user, org) => k user org end).
Proof.
  intros Hp Hk Hg. destruct (delegatedApp s w r requestID name) as [[user org] | resp] eqn:E.
  - apply Hk. destruct (delegated_app_ok name user org E) as [Hn Hb]. apply named_allow; [done | | done].
    by apply (app_credential (name =? "resources")%string).
  - apply meets_ret. by eapply delegated_app_err.
Qed.

Lemma app_access_served c : rq_Path r = "/internal/v1/app-access" -> cl_Grant c = None -> serves c (appAccess s w r requestID).
Proof.
  intros Hp Hg. apply delegated_served; [done | | done]. intros user org Ho. walk.
  eapply meets_delegation; [done | done | |]; intros; apply meets_ret; answer.
Qed.
Lemma snapshot_served c : rq_Path r = "/internal/v1/resources/snapshot" -> cl_Grant c = None -> serves c (resourcesSnapshot s w r requestID).
Proof.
  intros Hp Hg. apply delegated_served; [by left | | done]. intros user org Ho.
  eapply meets_delegation; [done | | |]; [| intros; apply meets_ret; answer..].
  block; [by apply meets_ret |]. apply meets_bind_call; [by eexists |]. intros x. by apply meets_ret.
Qed.
Lemma internal_workspaces_served c : rq_Path r = "/internal/v1/resources/workspaces" -> cl_Grant c = None ->
  serves c (internalResourcesWorkspaces s w r requestID).
Proof.
  intros Hp Hg. apply delegated_served; [by right; left | | done]. intros user org Ho.
  eapply meets_delegation; [done | done | |]; intros; [| apply meets_ret; answer].
  apply workspaces_served; [done |]. right. by eexists.
Qed.
Lemma internal_release_served c : rq_Path r = "/internal/v1/resources/workspaces/release" -> cl_Grant c = None ->
  serves c (internalResourcesReleaseWorkspace s w r requestID).
Proof.
  intros Hp Hg. apply delegated_served; [by right; right | | done]. intros user org Ho.
  apply release_served; [done | unfold relays; by rewrite Hp | done].
Qed.

(** ** Installation access *)
Lemma input_served {A} c (k : result Fault (string * string * bool) -> handler_of A) Q :
  (forall x, meets s r c (k x) Q) -> meets s r c (authorize_input r ≫= k) Q.
Proof. intros Hk. unfold authorize_input, decode. destruct (_ =? _)%string, (rq_Body r); (apply Hk || done). Qed.

Lemma effect_served a app' c user org id version worker :
  meets s r (granted c true user org true) (authorize_effect s a app' user org id version worker)
    (fun c' _ => c' = granted c true user org true).
Proof.
  unfold authorize_effect. walk; [right | |]; by eexists.
Qed.

Lemma caller_credential a app' :
  sv_InstallationAccess s = Some a -> ia_callers a !! digest_of (get r "Authorization") = Some app' ->
  rq_Path r = "/internal/v1/app-installations/authorize"%string \/ rq_Path r = authorizeWorker -> credential s r = true.
Proof.
  intros Ha Hc Hp. unfold credential. rewrite Ha, Hc. destruct Hp as [-> | ->]; done.
Qed.

Lemma installation_access_served c :
  rq_Path r = "/internal/v1/app-installations/authorize"%string \/ rq_Path r = authorizeWorker -> cl_Grant c = None ->
  serves c (installationAccess s w r requestID).
Proof.
  intros Hp Hg. unfold installationAccess. walk. apply input_served. intros [[[id version] worker] | f]; walk.
  bool_norm. eapply meets_delegation.
  - apply named_allow; [constructor; [done | done |] | by eapply caller_credential | done].
    by destruct (subjects_once ltac:(done)).
  - apply effect_served.
  - intros ?. apply meets_ret. answer.
  - intros e. apply meets_ret. answer.
Qed.

(** ** Blender *)
Lemma blender_caller_ok control : blenderControlCaller s w r requestID = Ok control ->
  sv_BlenderControl s = Some control /\ bears r (bl_Token control) = true /\
  once r "Authorization" = true /\ once r "X-User-Id" = true /\ once r "X-Organization-Id" = true.
Proof.
  unfold blenderControlCaller, bears. intros H. inv_ok H. bool_norm. split; [done |]. split; [| done].
  apply andb_true_iff. split; [by apply negb_true_iff, String.eqb_neq | done].
Qed.
Lemma blender_served (k : BlenderControl -> handler_of Response) c :
  has_prefix (rq_Path r) "/internal/v1/blender/" = true -> cl_Grant c = None ->
  (forall control, sv_BlenderControl s = Some control ->
     (forall m, allow s r _ (OpenMember m (get r "X-User-Id") (get r "X-Organization-Id")) c) -> serves c (k control)) ->
  serves c (match blenderControlCaller s w r requestID with Err resp => mret resp | Ok control => k control end).
Proof.
  intros Hp Hg Hk. destruct (blenderControlCaller s w r requestID) as [control | resp] eqn:E.
  - destruct (blender_caller_ok control E) as (Hc & Hb & Ho). apply Hk; [done |]. intros m.
    apply named_allow; [by constructor | | done]. unfold credential. by rewrite Hp, Hc.
  - apply meets_ret. unfold blenderControlCaller in E.
    repeat match type of E with
    | (match ?x with _ => _ end) = _ => destruct x
    | (if ?b then _ else _) = _ => destruct b
    end; inv E; answer.
Qed.

Lemma blender_handler_served {A} `{Target A} action (body : A -> RuntimeBody) (user org station : A -> string) c :
  has_prefix (rq_Path r) "/internal/v1/blender/" = true -> relays r = true -> cl_Grant c = None ->
  (forall i, subject (body i) = Some (user i, org i, station i)) ->
  (forall i, needs_manager (body i) = negb (action =? "access")%string) ->
  serves c (blender_handler s action body user org station w r requestID).
Proof.
  intros Hp Hr Hg Hs Hm. apply blender_served; [done | done |]. intros control Hc Ho. walk.
  unfold blenderExecute. walk. bool_norm.
  match goal with H1 : user _ = _, H2 : org _ = _, H3 : station _ = _ |- _ =>
    specialize (Hs a); specialize (Hm a); rewrite H1, H2, H3 in * end.
  eapply meets_delegation; [done | | |]; intros; try (apply meets_ret; answer).
  apply runtime_call_served, runtime_request_ok; [done |]. rewrite Hs. eexists. split; [by split |]. split; [done |].
  by rewrite Hm.
Qed.
Lemma blender_options_served c : rq_Path r = "/internal/v1/blender/options" -> cl_Grant c = None ->
  serves c (blenderOptions s w r requestID).
Proof.
  intros Hp Hg. apply blender_served; [by rewrite Hp | done |]. intros control Hc Ho. walk.
  eapply meets_delegation; [done | | |]; intros; try (apply meets_ret; answer).
  unfold read_profiles. block; [by apply meets_ret |]. apply meets_bind_call; [| intros; by apply meets_ret].
  exists control. split; [done |]. split; [by eexists |]. split; [apply hset_values | right; by eexists].
Qed.

(** ** Moving a namespace *)
Lemma decode_move_served {A} c (k : option NamespaceMigrationRequest -> handler_of A) Q :
  (forall x, meets s r c (k x) Q) -> meets s r c (decodeNamespaceMigrationRequest r ≫= k) Q.
Proof.
  intros Hk. unfold decodeNamespaceMigrationRequest.
  destruct (_ || _ || _); [apply Hk |]. destruct (negb _); [apply Hk |]. destruct (rq_Body r); [apply Hk | done].
Qed.
Lemma migrate_served c : serves c (migrateAppNamespace s w r requestID).
Proof.
  unfold migrateAppNamespace. walk. apply decode_move_served. intros x. walk. by bool_norm.
Qed.
End Delegation.
