(* ===== verification/GatewayContract.v ===== *)
(** * The router: no call without its permission, no answer outside the contract

    The routes put together: whichever handler runs, every call of the trace is
    mediated by the monitor of [GatewayMonitor], and the response, a recovered panic
    included, keeps the contract. *)
From stdpp Require Import gmap list strings.
From S2P Require Import Prelude GoStd Sha256 GoJson GoText GoHttp Uuid Program StrictJson Identity Catalog AppState OperationTypes Forward Installations Lifecycle Preinstalled Egress NamespaceMigration TelemetryTypes Gateway GatewayCalls GatewayHandlers GatewayInternal GatewayServer GatewayMonitor GatewaySafety GatewayDelegation.
From Stdlib Require Import Ascii.
#[local] Open Scope Z_scope.

(** ** Paths *)
Definition open_paths : list string := [
  stream_path; "/internal/v1/app-installations/authorize"; authorizeWorker; "/internal/v1/app-access";
  "/internal/v1/app-namespace/migrate"; "/internal/v1/resources/snapshot"; "/internal/v1/resources/workspaces";
  "/internal/v1/resources/workspaces/release"; "/internal/v1/blender/options"; "/internal/v1/blender/create";
  "/internal/v1/blender/start"; "/internal/v1/blender/stop"; "/internal/v1/blender/destroy"; "/internal/v1/blender/access";
  "/healthz"; "/readyz"; "/app-commands"; "/identity/bootstrap"; "/identity/login"; "/identity/refresh"; "/identity/logout"]%string.
(** The paths the user's handlers claim before the last of them. *)
Definition claimed (path : string) : bool :=
  slices_contains ["/appcenter/v1/facts"; "/appcenter/v1/commands"; "/appcenter/v1/operations"; "/app-states/v1";
    "/api/v1/resources/gpu"; "/api/v1/resources/node"; "/api/v1/resources/summary"; "/api/v1/resources/workloads";
    "/api/v1/resources/workspaces"; "/api/v1/resources/workspaces/release"; "/station/health"]%string path
  || has_prefix path "/preinstalled/" || has_prefix path "/app-states/v1/installations/" || has_prefix path "/app-operations/"
  || below forwardRecoveryPath path || below transitionPath path || below "/app-installations" path || below "/catalog/apps" path.

Lemma longer_prefix path p q : has_prefix path (p +:+ q) = true -> has_prefix path p = true.
Proof. rewrite !has_prefix_app. intros [t ->]. exists (q +:+ t). apply app_assoc_str. Qed.
Lemma dynamic_claimed path : dynamic_route path = true -> claimed path = true.
Proof.
  unfold dynamic_route, claimed, below. intros H.
  assert (Hc : forall p q, has_prefix path (p +:+ q) = true -> has_prefix path p = true) by apply longer_prefix.
  repeat (apply orb_true_iff in H as [H | H]);
    try (apply (Hc "/preinstalled/") in H); rewrite H, ?orb_true_r; done.
Qed.
Lemma routed path m : route_method path = Some m -> path ∈ open_paths \/ claimed path = true \/ path ∈ user_paths.
Proof.
  unfold route_method. destruct (dynamic_route path) eqn:Ed; [right; left; by apply dynamic_claimed |].
  unfold lookup_route. destruct (List.find _ _) as [[p m'] |] eqn:Ef; [| done]. intros _.
  apply find_some in Ef as [Hin Heq]. simpl in Heq. apply String.eqb_eq in Heq as ->.
  assert (Hall : forallb (fun kv => bool_decide (fst kv ∈ open_paths) || claimed (fst kv) || bool_decide (fst kv ∈ user_paths))
                   static_routes = true) by (vm_compute; reflexivity).
  rewrite forallb_forall in Hall. specialize (Hall _ Hin). cbv beta in Hall. rewrite !orb_true_iff, !bool_decide_eq_true in Hall.
  tauto.
Qed.
Lemma last_route path : is_Some (route_method path) -> path ∉ open_paths -> claimed path = false -> path ∈ user_paths.
Proof. intros [m Hm] Ho Hc. destruct (routed path m Hm) as [? | [H | ?]]; [done | by rewrite H in Hc | done]. Qed.

(** No test before the last handler was met. *)
Ltac unclaimed :=
  apply not_true_iff_false; intros Hcl; unfold claimed in Hcl;
  bool_norm; repeat match goal with H : _ = false |- _ => rewrite H in Hcl end; rewrite ?orb_false_r in Hcl;
  apply slices_contains_true in Hcl;
  repeat (apply elem_of_cons in Hcl as [Hcl | Hcl]; [exfalso; match goal with H : context [rq_Path _] |- _ => rewrite Hcl in H; (discriminate H || done) end |]);
  by apply elem_of_nil in Hcl.

Section Contract.
Context {J : JsonLib} {L : HttpLib} {N : UnicodeLib} {U : UuidLib} {G : GatewayCodecs}.
Variables (s : Server) (r : Request) (app : bool) (w : Writer) (requestID : string).
Hypothesis Hw : good app w requestID.

(** The collector's stream answers by itself. *)
Definition kept (resp : Response) : Prop := rq_Path r = stream_path \/ answered r app requestID resp.
#[local] Notation serves c p := (meets s r c p (fun _ resp => answered r app requestID resp)).
#[local] Notation keeps c p := (meets s r c p (fun _ resp => kept resp)).

Lemma keeps_serves c p : serves c p -> keeps c p.
Proof. apply ensures_mono. intros. by right. Qed.

Lemma session_answered status out : status <> 401 -> rq_Path r ∈ session_paths ->
  answered r app requestID (session_reply w requestID status out).
Proof. intros Hs Hp. destruct out; simpl; [apply answered_reply; [done | done | by left] | answer]. Qed.

Ltac blender := apply blender_handler_served; try done; unfold relays; match goal with H : rq_Path r = _ |- _ => by rewrite H end.

(** Before the user is known. *)
Lemma open_served c h : cl_RequestID c = Some requestID -> cl_User c = None -> cl_Grant c = None ->
  open_route s w r requestID = Some h -> keeps c h.
Proof.
  intros Hi Hu Hg. unfold open_route.
  repeat match goal with
  | |- (if ?b then _ else _) = Some _ -> _ => let E := fresh "E" in destruct b eqn:E
  | |- Some _ = Some _ -> _ => intros [= <-]
  | |- None = Some _ -> _ => discriminate
  end.
  all: rewrite ?orb_true_iff, ?String.eqb_eq in *.
  all: lazymatch goal with
  | _ : rq_Path r = stream_path |- _ => idtac
  | |- _ => apply keeps_serves
  end.
  all: lazymatch goal with
  | |- meets _ _ _ (installationAccess _ _ _ _) _ => by apply installation_access_served
  | |- meets _ _ _ (appAccess _ _ _ _) _ => by apply app_access_served
  | |- meets _ _ _ (resourcesSnapshot _ _ _ _) _ => by apply snapshot_served
  | |- meets _ _ _ (internalResourcesWorkspaces _ _ _ _) _ => by apply internal_workspaces_served
  | |- meets _ _ _ (internalResourcesReleaseWorkspace _ _ _ _) _ => by apply internal_release_served
  | |- meets _ _ _ (migrateAppNamespace _ _ _ _) _ => by apply migrate_served
  | |- meets _ _ _ (blenderOptions _ _ _ _) _ => by apply blender_options_served
  | _ : rq_Path r = stream_path |- _ => apply meets_bind_call; [done | intros ?; apply meets_ret; by left]
  | |- meets _ _ _ (blenderCreate_handler _ _ _ _) _ => blender
  | |- meets _ _ _ (blenderStart_handler _ _ _ _) _ => blender
  | |- meets _ _ _ (blenderStop_handler _ _ _ _) _ => blender
  | |- meets _ _ _ (blenderDestroy_handler _ _ _ _) _ => blender
  | |- meets _ _ _ (blenderAccess_handler _ _ _ _) _ => blender
  | |- _ => idtac
  end.
  all: walk.
  - by split; [| left].
  - unfold same_digest in *. by bool_norm.
  - apply session_answered; [done |]. match goal with H : rq_Path r = _ |- _ => rewrite H end. set_solver.
  - apply session_answered; [done |]. match goal with H : rq_Path r = _ |- _ => rewrite H end. set_solver.
  - apply session_answered; [done |]. match goal with H : rq_Path r = _ |- _ => rewrite H end. set_solver.
Qed.

(** Of the user. *)
Lemma telemetry_served c path h u : cl_User c = Some u -> telemetry_route w path requestID = Some h -> serves c h.
Proof.
  intros Hu. unfold telemetry_route, telemetry_reply.
  repeat match goal with
  | |- (if ?b then _ else _) = Some _ -> _ => destruct b
  | |- Some _ = Some _ -> _ => intros [= <-]
  | |- None = Some _ -> _ => discriminate
  end; walk; by eexists.
Qed.
Lemma open_none : open_route s w r requestID = None -> rq_Path r ∉ open_paths.
Proof.
  intros H Hin. assert (Hs : is_Some (open_route s w r requestID)); [| by rewrite H in Hs; destruct Hs].
  unfold open_paths in Hin. unfold open_route.
  repeat (apply elem_of_cons in Hin as [-> | Hin]; [simpl; eauto |]). by apply elem_of_nil in Hin.
Qed.
Lemma user_served c u : cl_User c = Some u -> cl_Grant c = None ->
  open_route s w r requestID = None -> is_Some (route_method (rq_Path r)) -> serves c (user_route s w r requestID u).
Proof.
  intros Hu Hg Ho Hm. unfold user_route.
  repeat match goal with
  | |- meets _ _ _ (if ?b then _ else _) _ => let E := fresh "E" in destruct b eqn:E
  end.
  all: lazymatch goal with
  | |- meets _ _ _ (serveAppCenter _ _ _ _ _) _ => by apply facts_served
  | |- meets _ _ _ (serveAppCenterCommand _ _ _ _ _) _ => by apply command_served
  | |- meets _ _ _ (serveAppCenterOperations _ _ _ _ _) _ => by apply operations_served
  | |- meets _ _ _ (servePreinstalled _ _ _ _ _) _ => by apply preinstalled_served
  | |- meets _ _ _ (serveAppStates _ _ _ _ _) _ => by apply states_served
  | |- meets _ _ _ (serveForwardRecovery _ _ _ _ _) _ => by apply recovery_served
  | |- meets _ _ _ (serveTransitions _ _ _ _ _) _ => by apply transitions_served
  | |- meets _ _ _ (serveInstallations _ _ _ _ _) _ => by apply installations_served
  | |- meets _ _ _ (serveCatalog _ _ _ _ _) _ => by apply catalog_served
  | |- meets _ _ _ (resourcesWorkspaces _ _ _ _) _ => apply workspaces_served; [done | left; by eexists]
  | |- meets _ _ _ (resourcesReleaseWorkspace _ _ _ _ _) _ => apply user_release_served; try done
  | |- _ => idtac
  end.
  - walk.
  - walk. by split; [| left].
  - unfold relays. match goal with H : _ = true |- _ => apply String.eqb_eq in H; by rewrite H end.
  - walk.
  - match goal with |- meets _ _ _ (match ?o with _ => _ end) _ => destruct o as [h |] eqn:Ht end.
    { destruct (has_prefix (rq_Path r) "/api/v1/resources/"); [by eapply telemetry_served | done]. }
    destruct (below "/catalog/apps" (rq_Path r)) eqn:Hc; [by apply catalog_served |].
    block; [unfold health; walk |]. walk. apply last_route; [done | by apply open_none |]. unclaimed.
Qed.

Lemma serve_kept c valid : cl_RequestID c = Some requestID -> cl_User c = None -> cl_Grant c = None ->
  keeps c (serve s w valid requestID r).
Proof.
  intros Hi Hu Hg. unfold serve. block; [block; right; answer |].
  block; [apply keeps_serves; by apply egress_served |].
  block; [| block; right; answer].
  block; [block; right; answer; by apply good_set |].
  destruct (open_route s w r requestID) as [h |] eqn:Ho; [by eapply open_served |].
  apply keeps_serves. walk. apply user_served; try done.
Qed.
End Contract.

(** ** The exchange *)
Section Exchange.
Context {J : JsonLib} {L : HttpLib} {N : UnicodeLib} {U : UuidLib} {G : GatewayCodecs}.
Variables (s : Server) (r : Request).

(** The state before a request: the identifier it brings. *)
Definition arrival : Clearance := mkClearance (request_id r) None None.
(** The identifier the gateway uses: the request's, or the first call's answer. *)
Definition identified_as (t : list (called Event)) (requestID : string) : Prop :=
  request_id r = Some requestID \/
  request_id r = None /\ exists t', t = Called NewRequestID (Some (Some requestID)) :: t'.

Lemma writer_good requestID : good (has_prefix (rq_Path r) "/appcenter/v1/") (writer_of r requestID) requestID.
Proof.
  constructor; [done | | done]. constructor; done.
Qed.

Lemma recovered_kept requestID w app out : good app w requestID -> 
  (forall resp, out = Some resp -> kept r app requestID resp) -> kept r app requestID (recovered w requestID out).
Proof. intros Hw Hout. destruct out as [resp |]; [by apply Hout |]. right. simpl. answer. Qed.

Lemma serve_safe {W} (h : handler Event W) world valid requestID :
  let '(_, t, out) := interp h (serve s (writer_of r requestID) valid requestID r) world in
  mediated (allow s r) after (mkClearance (Some requestID) None None) t /\
  kept r (has_prefix (rq_Path r) "/appcenter/v1/") requestID (recovered (writer_of r requestID) requestID out).
Proof.
  pose proof (interp_runs h (serve s (writer_of r requestID) valid requestID r) world) as Hr.
  destruct (interp _ _ _) as [[world' t] out]. simpl in Hr.
  apply (ensures_runs _ _ _ _ _ _ _
    (serve_kept s r _ _ requestID (writer_good requestID) (mkClearance (Some requestID) None None) valid eq_refl eq_refl eq_refl))
    in Hr as [Hm Ho].
  split; [done |]. apply recovered_kept; [apply writer_good | done].
Qed.
Lemma exchange_safe {W} (h : handler Event W) world :
  let '(_, t, resp) := exchange s h r world in
  mediated (allow s r) after arrival t /\
  (resp = plain_error \/ exists requestID, identified_as t requestID /\
     kept r (has_prefix (rq_Path r) "/appcenter/v1/") requestID resp).
Proof.
  unfold exchange, identified, identified_as, arrival. destruct (request_id r) as [requestID |]; simpl.
  - pose proof (serve_safe h world (request_valid r) requestID) as Hs.
    destruct (interp _ _ _) as [[world' t] out]. destruct Hs. split; [done |]. right. exists requestID. split; [by left | done].
  - destruct (h _ NewRequestID world) as [world' [[requestID |] |]]; simpl; [| by split; [| left]..].
    pose proof (serve_safe h world' (request_valid r) requestID) as Hs.
    destruct (interp _ _ _) as [[world'' t] out]. destruct Hs. split; [done |]. right. exists requestID.
    split; [right; split; [done | by eexists] | done].
Qed.
End Exchange.
