(* ===== verification/GatewayTheorems.v ===== *)
(** * What the gateway guarantees

    The theorems on the exchange of a request: permission of every call, the session
    or the delegation behind it in a world whose identity service is the one of
    [Identity], the contract of the answer, and the router. [IdentityWorld] is the
    interface the gateway uses of that service. *)
From stdpp Require Import gmap list strings.
From S2P Require Import Prelude GoStd Sha256 GoJson GoText GoHttp Uuid Program StrictJson Identity IdentitySafety Catalog AppState OperationTypes Forward Installations Lifecycle Preinstalled Egress NamespaceMigration TelemetryTypes Gateway GatewayCalls GatewayHandlers GatewayInternal GatewayServer GatewayMonitor GatewaySafety GatewayDelegation GatewayContract.
From Stdlib Require Import Ascii.
#[local] Open Scope Z_scope.

(** What the identity service promises: a user [Me] answers is one it accepts on its
    current tables, and a delegation opens for a current member only. *)
Class IdentityWorld `{UuidLib} {W} (h : handler Event W) (sv : Identity.Service) (db : W -> IdentityDB) := {
  me_answer rid token w u : snd (h _ (Me rid token) w) = Some (Ok u) ->
    exists now, snd (Identity.Me sv rid token now true (db w)) = Ok u;
  open_answer m user org w : snd (h _ (OpenMember m user org) w) = Some (Ok tt) ->
    exists now, Identity.delegated (db w) user org m now = Ok tt }.

(** The user a call is made for. *)
Definition acting {X} (e : Event X) : option User :=
  match e with
  | SubmitCall u _ | GetOperation u _ | ListInstallationsCall u | ProxyList u | ProxyGet u _ | ProxySave u _ _
  | ProxyDelete u _ | ProxyTest u _ | GetByKey u _ | AppCenterFactsCall u _ | InventoryCall u _ | StatesCall u _
  | RegisteredCatalogCall u | GetTransitionCall u _ | SubmitAppCenterCall u _ | SubmitPreinstalledCall u _
  | SubmitTransitionCall u _ | SubmitRecoveryCall u _ | GetRecoveryCall u _ => Some u
  | _ => None
  end.
Definition ends_delegation {X} (e : Event X) : bool :=
  match e with CommitMember | RollbackMember => true | _ => false end.

Lemma me_ok `{UuidLib} sv rid token now db u : snd (Identity.Me sv rid token now true db) = Ok u ->
  exists j, join_session db (token_hash token) = Some j /\ entitled j now /\
    u = context_of sv rid j ["admin"] adminScopes (se_IssuedAt (jn_Session j)) (se_ExpiresAt (jn_Session j)).
Proof.
  unfold Identity.Me, withSession, commit. destruct (negb _); [done |]. simpl.
  destruct (session_body sv rid token "me" [] now db) as [[[ss | f] d] |] eqn:E; simpl; [| done | done]. intros [= <-].
  apply session_body_ok in E as (j & Hj & He & Hm & _); [| by left]. destruct (Hm eq_refl) as [_ ->]. by exists j.
Qed.

(** ** Where the monitor's state comes from *)
Lemma clearance_user c t u : cl_User (clearance after c t) = Some u -> cl_User c = Some u \/
  exists t0 rid token t1, t = (t0 ++ Called (Me rid token) (Some (Ok u)) :: t1)%list.
Proof.
  revert c. induction t as [| [X e [x |]] t IH]; intros c; simpl; [by left | | by left].
  intros [H | (t0 & rid & token & t1 & ->)]%IH.
  - destruct e; simpl in H; try (by left); try (destruct x; by left).
    destruct x as [v | f]; simpl in H; [| by left]. injection H as <-. right. by exists [], requestID, token, t.
  - right. by exists (Called e (Some x) :: t0), rid, token, t1.
Qed.

Definition still_open (t : list (called Event)) : Prop :=
  Forall (fun '(Called e _) => ends_delegation e = false) t.
Lemma clearance_grant c t g : Forall (fun '(Called _ o) => is_Some o) t ->
  cl_Grant (clearance after c t) = Some g -> gr_Held g = true ->
  (cl_Grant c = Some g /\ still_open t) \/
  exists t0 t1, t = (t0 ++ Called (OpenMember (gr_Manager g) (gr_User g) (gr_Org g)) (Some (Ok tt)) :: t1)%list /\ still_open t1.
Proof.
  intros Ht. revert c. induction Ht as [| [X e o] t [x ->] Ht IH]; intros c Hg Hh; [left; split; [done | constructor] |].
  simpl in Hg. destruct (IH _ Hg Hh) as [[Hc Ho] | (t0 & t1 & -> & Ho)].
  - destruct e; simpl in Hc; try (left; split; [done | by constructor]); try (destruct x; left; split; [done | by constructor | done | by constructor]).
    + destruct x as [[] | f]; [| left; split; [done | by constructor]]. injection Hc as <-. right. by exists [], t.
    + destruct x; [| done]. destruct (cl_Grant c); [| done]. by injection Hc as <-.
  - right. by exists (Called e (Some x) :: t0), t1.
Qed.

Section Theorems.
Context {J : JsonLib} {L : HttpLib} {N : UnicodeLib} {U : UuidLib} {G : GatewayCodecs}.
Variables (s : Server) (r : Request).
Context {W : Type} (h : handler Event W) (world world' : W).

Lemma exchange_consistent t resp : exchange s h r world = (world', t, resp) -> consistent h world t.
Proof.
  unfold exchange. pose proof (interp_consistent h (identified r) world) as H1.
  destruct (interp h (identified r) world) as [[w1 t1] id]. destruct H1 as [H1 ->].
  destruct id as [[requestID |] |]; [| by intros [= _ <- _]..].
  match goal with |- context [interp h ?p ?w] => pose proof (interp_consistent h p w) as H2; destruct (interp h p w) as [[w2 t2] out] end.
  intros [= _ <- _]. apply consistent_app. split; [done | by destruct H2].
Qed.
Lemma exchange_mediated t resp : exchange s h r world = (world', t, resp) -> mediated (allow s r) after (arrival r) t.
Proof. intros E. pose proof (exchange_safe s r h world) as Hs. rewrite E in Hs. by destruct Hs. Qed.

(** C4: whatever the services answer, in whatever order a request leads to
    them: a call is made only with the permission its kind needs at that point of the
    exchange, as the answers before it have established it - the user of the session
    with the scopes of the operation, the service credential of the path, the open
    delegation of a manager, the bootstrap token. *)
Theorem every_call_is_permitted t1 X (e : Event X) answer t2 resp :
  exchange s h r world = (world', (t1 ++ Called e answer :: t2)%list, resp) ->
  allow s r X e (clearance after (arrival r) t1).
Proof. intros E. eapply mediated_app, exchange_mediated, E. Qed.

Section Identity.
Context (sv : Identity.Service) (db : W -> IdentityDB) `{!IdentityWorld h sv db}.

(** C5: where the identity service is the one of [Identity], a call made for a
    user follows an answer of [Me] to the bearer of this request, and that answer
    rested on a session row of this token, current at that moment and unrevoked, of
    an active admin; user, organization and station are the ones of that row. *)
Theorem session_behind_every_user_call t1 X (e : Event X) answer t2 resp u :
  exchange s h r world = (world', (t1 ++ Called e answer :: t2)%list, resp) -> acting e = Some u ->
  exists t0 rid t1' now j, t1 = (t0 ++ Called (Me rid (bearer r)) (Some (Ok u)) :: t1')%list /\
    join_session (db (replay h world t0)) (token_hash (bearer r)) = Some j /\ entitled j now /\
    ic_UserID u = se_UserID (jn_Session j) /\ ic_OrganizationID u = se_OrganizationID (jn_Session j) /\
    ic_StationID u = Identity.sv_StationID sv.
Proof.
  intros E Ha. pose proof (exchange_mediated _ _ E) as Hm. pose proof (exchange_consistent _ _ E) as Hc.
  assert (Hu : cl_User (clearance after (arrival r) t1) = Some u).
  { apply mediated_app in Hm. destruct e; try discriminate; injection Ha as ->; by destruct Hm. }
  apply clearance_user in Hu as [Hu | (t0 & rid & token & t1' & ->)]; [done |].
  rewrite <- app_assoc in Hm, Hc. apply consistent_app in Hc as [_ [Hme _]].
  apply mediated_app in Hm as (_ & -> & _). destruct (me_answer _ _ _ _ Hme) as [now Hi].
  exists t0, rid, t1', now. 
  apply me_ok in Hi as (j & Hj & He & ->). by exists j.
Qed.

(** C6: an order that names a member reaches Runtime only while a delegation
    of that member is open, which the identity service opened on the member's current
    right (a manager's, but for reading access), and it names this station. *)
Theorem membership_behind_every_runtime_order t1 rq answer t2 resp user org station :
  exchange s h r world = (world', (t1 ++ Called (RuntimeDo rq) answer :: t2)%list, resp) ->
  subject (rr_Body rq) = Some (user, org, station) ->
  station = sv_StationID s /\
  exists t0 m t1' now, t1 = (t0 ++ Called (OpenMember m user org) (Some (Ok tt)) :: t1')%list /\ still_open t1' /\
    Identity.delegated (db (replay h world t0)) user org m now = Ok tt /\ (needs_manager (rr_Body rq) = true -> m = true).
Proof.
  intros E Hs. pose proof (exchange_mediated _ _ E) as Hm. pose proof (exchange_consistent _ _ E) as Hc.
  pose proof (mediated_answered _ _ _ _ _ _ Hm) as Ht. apply mediated_app in Hm as (control & _ & _ & _ & Hg).
  rewrite Hs in Hg. destruct Hg as (g & [Hg Hh] & [= -> -> ->] & Hmgr). split; [done |].
  apply clearance_grant in Hg as [[? _] | (t0 & t1' & -> & Ho)]; [done | | done | done].
  rewrite <- app_assoc in Hc. apply consistent_app in Hc as [_ [Hop _]].
  destruct (open_answer _ _ _ _ Hop) as [now Hd]. by exists t0, (gr_Manager g), t1', now.
Qed.
End Identity.

(** The one request without an identifier: it brings none, and none could be drawn.
    [http.Error] answers it. *)
Definition unidentified (t : list (called Event)) (resp : Response) : Prop :=
  request_id r = None /\ (exists a, t = [Called NewRequestID a] /\ forall id, a <> Some (Some id)) /\ resp = plain_error.
(** The collector's stream: the status and the body are its handler's, and so are
    the headers that it sets; the others stand. *)
Definition streamed (requestID : string) (t : list (called Event)) (resp : Response) : Prop :=
  rq_Path r = stream_path /\ rq_Method r = "POST" /\ request_valid r = true /\
  exists t0 out, t = (t0 ++ [Called (ServeCollector r) (Some out)])%list /\
    rs_Status resp = rs_Status out /\ rs_Body resp = rs_Body out /\
    forall k, (forall kv, kv ∈ rs_Header out -> CanonicalHeaderKey (fst kv) <> CanonicalHeaderKey k) ->
      Values (rs_Header resp) k = Values (wr_Header (writer_of r requestID)) k.

Lemma written_standing l hd k : (forall kv : string * string, kv ∈ l -> CanonicalHeaderKey (fst kv) <> CanonicalHeaderKey k) ->
  Values (foldl (fun h kv => hset (fst kv) (snd kv) h) hd l) k = Values hd k.
Proof.
  revert hd. induction l as [| kv l IH]; intros hd Hl; [done |]. cbn [foldl]. rewrite IH by (intros x Hx; apply Hl; by right).
  apply hset_other. intros E. symmetry in E. revert E. apply Hl. by left.
Qed.
(** An exchange is the identifier, then the program that is served under it. *)
Lemma exchange_cases t resp : exchange s h r world = (world', t, resp) ->
  unidentified t resp \/ exists requestID t1 w1 t2 out, identified_as r t requestID /\
    (t1 = [] \/ t1 = [Called NewRequestID (Some (Some requestID))]) /\ t = (t1 ++ t2)%list /\
    interp h (serve s (writer_of r requestID) (request_valid r) requestID r) w1 = (world', t2, out) /\
    resp = recovered (writer_of r requestID) requestID out.
Proof.
  unfold exchange, identified, identified_as, unidentified. destruct (request_id r) as [requestID |]; simpl.
  - destruct (interp _ _ _) as [[w2 t2] out] eqn:E. intros [= <- <- <-]. right. exists requestID, [], world, t2, out. split_and!; auto.
  - destruct (h _ NewRequestID world) as [w1 [[requestID |] |]]; simpl.
    + destruct (interp _ _ _) as [[w2 t2] out] eqn:E. intros [= <- <- <-]. right.
      exists requestID, [Called NewRequestID (Some (Some requestID))], w1, t2, out. split_and!; eauto.
    + intros [= _ <- <-]. left. split_and!; [done | by eexists | done].
    + intros [= _ <- <-]. left. split_and!; [done | by eexists | done].
Qed.
Lemma stream_served requestID w1 w2 t2 out : rq_Path r = stream_path -> request_valid r = true -> rq_Method r = "POST" ->
  interp h (serve s (writer_of r requestID) (request_valid r) requestID r) w1 = (w2, t2, out) ->
  out = None \/ exists o, t2 = [Called (ServeCollector r) (Some o)] /\ out = Some (written (writer_of r requestID) o).
Proof.
  intros Hp -> Hm. unfold serve. rewrite Hp, Hm. cbn [negb].
  change (proxy_path stream_path) with false. change (route_method stream_path) with (Some "POST"). cbv iota.
  unfold open_route. rewrite Hp, String.eqb_refl. cbn.
  destruct (h _ (ServeCollector r) w1) as [w3 [o |]]; intros [= <- <- <-]; [right; by eexists | by left].
Qed.


(** The methods of a path, as [Allow] lists them. *)
Definition path_methods (path : string) : option string :=
  if proxy_path path then (fun p => proxy_methods (fst p) (snd p)) <$> proxy_route path else route_method path.
Definition listed (method methods : string) : bool := contains (", " +:+ methods +:+ ", ") (", " +:+ method +:+ ", ").
(** Is the method one of the path's? *)
Definition routed (path method : string) : bool :=
  match path_methods path with
  | Some methods => if proxy_path path then listed method methods else (method =? methods)%string
  | None => false
  end.
(** The answer to a request that the router refuses. *)
Definition refused (resp : Response) : Prop :=
  if negb (request_valid r) then rs_Status resp = 400
  else match path_methods (rq_Path r) with
       | None => rs_Status resp = 404
       | Some methods => rs_Status resp = 405 /\ Values (rs_Header resp) "Allow" = [methods]
       end.
(** Below the collection of proxies the session comes first. *)
Definition refused_to (requestID : string) (me : option (result Fault User)) (resp : Response) : Prop :=
  match me with
  | None => rs_Status resp = 500
  | Some (Err e) => resp = failure (writer_of r requestID) requestID e
  | Some (Ok _) => if sv_Egress s then refused resp else rs_Status resp = 503
  end.
Lemma refused_allow w requestID code message methods :
  Values (rs_Header (refuse (set_header "Allow" methods w) 405 code message requestID)) "Allow" = [methods].
Proof. simpl. rewrite hset_other by done. apply hset_values. Qed.

(** C40: a request with an unacceptable identifier, an unknown path or another method
    than its path has is answered 400, 404, or 405 with the methods in [Allow], and
    reaches no service. Below the collection of proxies it reaches one, [Me] with the
    bearer of the request, and only a user whose session is current is told so. *)
Theorem unrouted_requests_are_refused t resp :
  exchange s h r world = (world', t, resp) ->
  request_valid r = false \/ routed (rq_Path r) (rq_Method r) = false ->
  unidentified t resp \/
  exists requestID t1, identified_as r t requestID /\ (t1 = [] \/ t1 = [Called NewRequestID (Some (Some requestID))]) /\
    if request_valid r && proxy_path (rq_Path r)
    then exists me, t = (t1 ++ [Called (Me requestID (bearer r)) me])%list /\ refused_to requestID me resp
    else t = t1 /\ refused resp.
Proof.
  intros E Hr. destruct (exchange_cases t resp E) as [? | (requestID & t1 & w1 & t2 & out & Hi & Ht1 & -> & Hs & ->)]; [by left | right].
  exists requestID, t1. split_and!; [done | done |]. clear E Hi Ht1. unfold serve in Hs. unfold refused_to, refused.
  destruct (request_valid r) eqn:Hv; cbn [negb andb] in *; [| injection Hs as <- <- <-; by rewrite app_nil_r].
  destruct Hr as [? | Hr]; [done |]. unfold routed in Hr. unfold path_methods in *. destruct (proxy_path (rq_Path r)) eqn:Hp.
  - unfold serveEgress in Hs. cbn in Hs. destruct (h _ (Me requestID (bearer r)) w1) as [w2 [[u | e] |]]; cbn in Hs.
    + exists (Some (Ok u)). destruct (sv_Egress s); cbn [negb] in Hs; [| injection Hs as _ <- <-; by split].
      destruct (proxy_route (rq_Path r)) as [[id test] |]; cbn in Hr, Hs; [| injection Hs as _ <- <-; by split].
      unfold listed in Hr. rewrite Hr in Hs. injection Hs as _ <- <-. split; [done |]. split; [done | apply refused_allow].
    + exists (Some (Err e)). injection Hs as _ <- <-. by split.
    + exists None. injection Hs as _ <- <-. by split.
  - destruct (route_method (rq_Path r)) as [m |]; cbn in Hs.
    + rewrite Hr in Hs. injection Hs as _ <- <-. rewrite app_nil_r. split_and!; [done | done | apply refused_allow].
    + injection Hs as _ <- <-. by rewrite app_nil_r.
Qed.

(** ** Installation access *)

(** The calls that settle which version the caller runs. *)
Definition version_calls (a : InstallationAccess) (app version : string) (worker : bool) (i : Installation)
    (l : list (called Event)) : Prop :=
  if worker then l = [Called (AuthorizeWorkerCall i version) (Some (Ok tt))]
  else (i_AppVersion i = version /\ l = []) \/ (ia_catalog a = true /\ l = [Called (CatalogHelm app) (Some true)]).

Lemma effect_yields a app user org id version worker t :
  yields t (authorize_effect s a app user org id version worker) (fun t' out => forall i, out = Ok i ->
    installation_grants s app org id i = true /\ exists l, version_calls a app version worker i l /\
    t' = (t ++ Called (GetInstallationCall (delegated_actor s user org) id) (Some (Ok i)) :: l)%list).
Proof.
  unfold authorize_effect, version_calls. apply yields_bind_call. intros [i | e].
  - destruct (negb _) eqn:Hg; [by apply yields_ret |]. apply negb_false_iff in Hg. destruct worker.
    + destruct (negb _); [by apply yields_ret |]. apply yields_bind_call. intros [[] | e]; apply yields_ret; [| done].
      intros ? [= <-]. rewrite <- app_assoc. eauto.
    + destruct (i_AppVersion i =? version)%string eqn:Hv.
      * apply yields_ret. intros ? [= <-]. apply String.eqb_eq in Hv. eauto 8.
      * destruct (negb (ia_catalog a)) eqn:Hc; [by apply yields_ret |]. apply negb_false_iff in Hc.
        apply yields_bind_call. intros [|]; apply yields_ret; [| done]. intros ? [= <-]. rewrite <- app_assoc. eauto 8.
  - destruct e; by apply yields_ret.
Qed.

Lemma member_yields {E A B} (fault : Fault -> E) m user org (effect : handler_of (result E A)) (k : result E A -> handler_of B) Q R :
  (forall t, yields t effect (fun t' out => forall a, out = Ok a -> exists l, R a l /\ t' = (t ++ l)%list)) ->
  (forall t e, yields t (k (Err e)) Q) ->
  (forall a l, R a l -> yields ([Called (OpenMember m user org) (Some (Ok tt))] ++ l ++ [Called CommitMember (Some (Ok tt))]) (k (Ok a)) Q) ->
  yields [] (withMember fault m user org effect ≫= k) Q.
Proof.
  intros Heff Herr Hok. unfold withMember. apply yields_bind_call. intros [[] | f]; [| apply Herr].
  apply yields_bind with (R := fun t' out => match out with
    | Ok a => exists l, R a l /\ t' = ([Called (OpenMember m user org) (Some (Ok tt))] ++ l ++ [Called CommitMember (Some (Ok tt))])%list
    | Err _ => True end).
  - simpl. eapply yields_bind; [apply Heff |]. intros t' [a | e] Ha.
    + destruct (Ha a eq_refl) as (l & Hl & ->). apply yields_bind_call. intros [[] | f]; apply yields_ret; [| done].
      exists l. by split; [| rewrite <- app_assoc].
    + apply yields_bind_call. intros []. by apply yields_ret.
  - intros t' [a | e]; [| intros _; apply Herr]. intros (l & Hl & ->). by apply Hok.
Qed.

Lemma failure_refuses {E} `{GoError E} w requestID (e : E) : rs_Status (failure w requestID e) <> 200.
Proof. unfold failure, failure_of. simpl. by destruct (as_fault e) as [[] |]. Qed.

(** What stands behind an authorization. *)
Definition backed (w : Writer) (requestID : string) (t : list (called Event)) (resp : Response) : Prop :=
  let user := get r "X-User-Id" in
  let org := get r "X-Organization-Id" in
  exists a app id version worker i l,
    sv_InstallationAccess s = Some a /\ ia_callers a !! digest_of (get r "Authorization") = Some app /\
    get r "X-Station-Id" = sv_StationID s /\ worker = (rq_Path r =? authorizeWorker)%string /\
    resp = reply (no_store w) 200 (authorization requestID app user org version worker i) /\
    installation_grants s app org id i = true /\ version_calls a app version worker i l /\
    t = ([Called (OpenMember true user org) (Some (Ok tt));
          Called (GetInstallationCall (delegated_actor s user org) id) (Some (Ok i))] ++ l ++ [Called CommitMember (Some (Ok tt))])%list.

Lemma input_yields t (k : result Fault (string * string * bool) -> handler_of Response) Q :
  (forall id version, yields t (k (Ok (id, version, (rq_Path r =? authorizeWorker)%string))) Q) ->
  (forall e, yields t (k (Err e)) Q) -> yields t (authorize_input r ≫= k) Q.
Proof.
  intros Hok Herr. unfold authorize_input, decode. destruct (_ =? _)%string, (rq_Body r); try done;
    simpl; (match goal with |- context [match ?x with Some _ => Ok _ | None => _ end] => destruct x end); apply Hok || apply Herr.
Qed.

(** C7: an installation authorization answers 200 only to a caller whose
    credential is registered for an application, naming this station, and only after
    exactly these calls: the delegation of a manager opened, the installation read
    and found installed, of this application, organization and station, its version
    the caller's, or found compatible, or governed by a chart, and the delegation
    committed. *)
Theorem authorization_is_backed w requestID t resp :
  runs (installationAccess s w r requestID) t (Some resp) -> rs_Status resp = 200 -> backed w requestID t resp.
Proof.
  intros Hr. revert Hr.
  enough (Hy : yields [] (installationAccess s w r requestID) (fun t resp => rs_Status resp = 200 -> backed w requestID t resp)).
  { intros Hr. by apply (yields_runs _ _ _ _ Hy). }
  assert (Hf : forall E (HE : GoError E) v t (e : E), yields t (mret (failure v requestID e))
    (fun t resp => rs_Status resp = 200 -> backed w requestID t resp)).
  { intros. apply yields_ret. intros Hs. by apply failure_refuses in Hs. }
  unfold installationAccess.
  repeat match goal with
  | |- yields _ (match ?x with _ => _ end) _ => let E := fresh "E" in destruct x eqn:E; try (apply Hf); try (by apply yields_ret)
  end.
  apply input_yields; [| intros; apply Hf]. intros id version.
  match goal with |- yields _ (if ?b then _ else _) _ => destruct b end; [apply Hf |].
  apply (member_yields _ _ _ _ _ _ _ (fun row l => exists l', installation_grants s s0 (get r "X-Organization-Id") id row = true /\
    version_calls i s0 version (rq_Path r =? authorizeWorker)%string row l' /\
    l = Called (GetInstallationCall (delegated_actor s (get r "X-User-Id") (get r "X-Organization-Id")) id) (Some (Ok row)) :: l')).
  - intros t'. eapply ensures_mono; [| apply effect_yields]. intros t2 out Ho row Hi. destruct (Ho row Hi) as (Hg & l & Hv & ->). eauto 8.
  - intros t' []; try apply Hf; by apply yields_ret.
  - intros row l (l' & Hg & Hv & ->). apply yields_ret. intros _. bool_norm.
    exists i, s0, id, version, (rq_Path r =? authorizeWorker)%string, row, l'. by split_and!.
Qed.
End Theorems.
