(* ===== verification/GatewayAccess.v ===== *)
(** * Credentials and bodies at the edge

    The registry of installation access as a finite map from credentials to
    applications, and what [decode] accepts. *)
From stdpp Require Import gmap list strings.
From S2P Require Import Prelude GoStd Sha256 GoJson GoText GoHttp Uuid Program StrictJson Identity Catalog AppState OperationTypes Forward Installations Lifecycle Preinstalled Egress NamespaceMigration TelemetryTypes Gateway GatewayCalls.
From Stdlib Require Import Ascii.
#[local] Open Scope Z_scope.

(** ** The registry *)
#[local] Opaque digest_of.
Section Registry.
Context {J : JsonLib} {C : AccessCodec}.
Variable lookup : string -> string.

(** The key of an entry: the digest of its authorization header. *)
Definition entry_key (e : AccessEntry) : list Z := digest_of ("Bearer " +:+ lookup (ae_TokenEnv e)).
Definition entry_ok (e : AccessEntry) : Prop :=
  preinstalledApp (ae_AppID e) = true /\ Regexp.matches AccessPatterns.env (ae_TokenEnv e) = true /\
  access_token (lookup (ae_TokenEnv e)) = true.

Lemma bind_callers_spec l : forall callers seen m, bind_callers lookup callers seen l = Ok m <->
  Forall entry_ok l /\ NoDup (ae_AppID <$> l) /\ NoDup (entry_key <$> l) /\
  (forall e, e ∈ l -> ae_AppID e ∉ seen /\ callers !! entry_key e = None) /\
  m = foldl (fun c e => <[ entry_key e := ae_AppID e ]> c) callers l.
Proof.
  induction l as [| e l IH]; intros callers seen m; cbn [bind_callers].
  - split; [intros [= <-]; split_and!; try constructor; set_solver | by intros (_ & _ & _ & _ & ->)].
  - split.
    + intros H. inv_ok H. bool_norm. apply IH in H as (Hok & Hn & Hk & Hs & ->).
      split_and!; [by constructor | | | | done].
      * constructor; [| done]. intros (d & Hd & Hin)%list_elem_of_fmap. apply (Hs d Hin). rewrite Hd. by apply elem_of_union_l, elem_of_singleton.
      * constructor; [| done]. intros (d & Hd & Hin)%list_elem_of_fmap. destruct (Hs d Hin) as [_ Hx].
        rewrite <- Hd in Hx. unfold entry_key in Hx. by rewrite lookup_insert_eq in Hx.
      * intros d [-> | Hd]%elem_of_cons; [split; [done | by apply eq_None_not_Some] |]. destruct (Hs d Hd) as [Hx Hy].
        apply lookup_insert_None in Hy as [Hy _]. split; [| done]. intros ?. apply Hx. by apply elem_of_union_r.
    + intros (Hok & [Hn1 Hn]%NoDup_cons & [Hk1 Hk]%NoDup_cons & Hs & ->). apply Forall_cons in Hok as [(Ha & He & Ht) Hok].
      destruct (Hs e ltac:(left)) as [Hs1 Hs2]. unfold entry_key in Hs2. rewrite Ha, He, Ht, Hs2. simpl.
      rewrite (bool_decide_eq_false_2 _ Hs1). simpl. apply IH. split_and!; try done.
      intros d Hd. destruct (Hs d ltac:(by right)) as [Hd1 Hd2]. split.
      * intros [Hx%elem_of_singleton | ?]%elem_of_union; [| done]. apply Hn1. rewrite <- Hx. by apply list_elem_of_fmap_2.
      * rewrite lookup_insert_ne; [done |]. intros Hx. apply Hk1. fold (entry_key e) in Hx. rewrite Hx. by apply list_elem_of_fmap_2.
Qed.

Lemma fold_callers l : forall (callers : gmap (list Z) string) k app, NoDup (entry_key <$> l) -> (forall e, e ∈ l -> callers !! entry_key e = None) ->
  foldl (fun c e => <[ entry_key e := ae_AppID e ]> c) callers l !! k = Some app <->
  callers !! k = Some app \/ exists e, e ∈ l /\ entry_key e = k /\ ae_AppID e = app.
Proof.
  induction l as [| e l IH]; intros callers k app; simpl; [set_solver |].
  intros [Hk1 Hk]%NoDup_cons Hs. rewrite IH; [| done |].
  - split.
    + intros [H | (d & Hd & He & Ha)]; [| right; exists d; split_and!; [by right | done | done]].
      apply lookup_insert_Some in H as [[Hk' <-] | [_ H]]; [right; exists e; split_and!; [by left | done | done] | by left].
    + intros [H | (d & [-> | Hd]%elem_of_cons & He & Ha)].
      * left. rewrite lookup_insert_ne; [done |]. intros <-. by rewrite Hs in H by left.
      * left. rewrite <- He, <- Ha. apply lookup_insert_eq.
      * right. by exists d.
  - intros d Hd. rewrite lookup_insert_ne; [by apply Hs; right |]. intros Hx. apply Hk1. rewrite Hx. by apply list_elem_of_fmap_2.
Qed.

(** The registry of installation access is loaded exactly when it holds from 1
    to 128 bindings of distinct preinstalled applications to distinct credentials,
    each of 32 to 512 visible bytes; it then maps a credential to the one
    application that holds it. *)
Theorem access_registry_is_exact path text a :
  path <> "" -> LoadInstallationAccess path (Some text) (Some lookup) true true = Ok (Some a) <->
  exists entries, Decode (A := list AccessEntry) 65536 text = Some entries /\ 1 <= Z.of_nat (length entries) <= 128 /\
    Forall entry_ok entries /\ NoDup (ae_AppID <$> entries) /\ NoDup (entry_key <$> entries) /\
    exists callers, a = mkInstallationAccess callers true true true true /\
    forall k app, callers !! k = Some app <-> exists e, e ∈ entries /\ entry_key e = k /\ ae_AppID e = app.
Proof.
  intros Hp. unfold LoadInstallationAccess. apply String.eqb_neq in Hp as ->. simpl.
  destruct (Decode 65536 text) as [entries |]; [| by split; [| intros (? & ? & _)]].
  destruct (_ || _) eqn:Hlen.
  { split; [done |]. intros (es & [= ->] & Hl & _). exfalso. apply orb_true_iff in Hlen as [H | H].
    - apply Nat.eqb_eq in H. lia.
    - apply Z.ltb_lt in H. lia. }
  apply orb_false_iff in Hlen as [H1 H2]. apply Nat.eqb_neq in H1. apply Z.ltb_ge in H2.
  rewrite mbind_ok. split.
  - intros (m & Hm & [= <-]). apply bind_callers_spec in Hm as (Hok & Hn & Hk & _ & ->). exists entries. split_and!; try done; [lia |].
    eexists. split; [done |]. intros k app. rewrite fold_callers by (done || intros; apply lookup_empty).
    rewrite lookup_empty. by split; [intros [? | ?] | right].
  - intros (es & [= ->] & Hl & Hok & Hn & Hk & callers & -> & Hc).
    assert (Hb : bind_callers lookup ∅ ∅ es = Ok (foldl (fun c e => <[ entry_key e := ae_AppID e ]> c) ∅ es)).
    { apply bind_callers_spec. by split_and!. }
    eexists. split; [exact Hb |]. do 3 f_equal. apply map_eq. intros k. apply option_eq. intros app.
    rewrite Hc, fold_callers by (done || intros; apply lookup_empty). rewrite lookup_empty. by split; [intros [? | ?] | right].
Qed.
End Registry.

(** ** Bodies *)
Section Bodies.
Context {J : JsonLib} {L : HttpLib} {N : UnicodeLib}.

Lemma members_ok_spec allowed m : forall seen, members_ok allowed seen m = true <->
  NoDup (fst <$> m) /\ forall name v, (name, v) ∈ m -> name ∉ seen /\ name ∈ allowed /\ v <> RNull.
Proof.
  induction m as [| [name v] m IH]; intros seen; simpl.
  - split; [intros _; split; [constructor | by intros ? ? ?%elem_of_nil] | done].
  - destruct (_ || _ || _) eqn:E.
    + split; [done |]. intros [_ Hm]. destruct (Hm name v ltac:(left)) as (Hs & Ha & Hv).
      rewrite (bool_decide_eq_false_2 _ Hs) in E. apply slices_contains_true in Ha. rewrite Ha in E. by destruct v.
    + bool_norm. rewrite IH.
      split.
      * intros [Hn Hm]. split.
        -- apply NoDup_cons. split; [| done]. intros ([n' v'] & Heq & Hin)%list_elem_of_fmap. simpl in Heq. subst n'.
           destruct (Hm name v' Hin) as [Hx _]. apply Hx. by apply elem_of_union_l, elem_of_singleton.
        -- intros n' v' [[= -> ->] | Hin]%elem_of_cons; [split_and!; [done | by apply slices_contains_true | by intros ->] |].
           destruct (Hm n' v' Hin) as (Hx & Ha & Hv). split_and!; [| done | done]. intros ?. apply Hx. by apply elem_of_union_r.
      * intros [[Hn1 Hn]%NoDup_cons Hm]. split; [done |]. intros n' v' Hin.
        destruct (Hm n' v' ltac:(by right)) as (Hx & Ha & Hv). split_and!; [| done | done].
        intros [->%elem_of_singleton | ?]%elem_of_union; [| done]. apply Hn1. by apply (list_elem_of_fmap_2 fst _ (name, v')).
Qed.

(** C39: a body is accepted exactly when it is one JSON document, of the JSON media
    type, whose top value is an object with distinct members, each a field of the
    destination and none null, of the types of the fields; a blank body is the zero
    value where an empty one is allowed, and refused where it is not. *)
Theorem decode_accepts_exactly {A} `{Target A} media allowEmpty text (a : A) :
  decode_text media allowEmpty text = Some a <->
  if (TrimSpace text =? "")%string then allowEmpty = true /\ a = zero_value
  else media = true /\ exists m, json_tokens text = Some (RObject m) /\ NoDup (fst <$> m) /\
    (forall name v, (name, v) ∈ m -> name ∈ fields /\ v <> RNull) /\ of_members m = Some a.
Proof.
  unfold decode_text. destruct (_ =? "")%string.
  - destruct allowEmpty; [| by split; [| intros []]]. split; [by intros [= <-] | by intros [_ ->]].
  - destruct media; simpl; [| by split; [| intros []]]. split.
    + destruct (json_tokens text) as [[] |]; try done. destruct (members_ok _ _ _) eqn:Em; [| done]. intros Ha. split; [done |].
      apply members_ok_spec in Em as [Hn Hm]. eexists. split; [done |]. split_and!; [done | | done].
      intros name v Hin. by destruct (Hm name v Hin).
    + intros (_ & m & -> & Hn & Hm & Ha).
      assert (members_ok fields ∅ m = true) as ->; [| done]. apply members_ok_spec. split; [done |].
      intros name v Hin. split; [set_solver | by apply Hm].
Qed.
End Bodies.
