(* ===== verification/GatewayWitness.v ===== *)
(** * A gateway at work

    The administrator of [IdentityWitness] and two services with credentials reach
    the gateway: the hypotheses of its theorems hold on their requests. *)
From stdpp Require Import gmap list strings.
From S2P Require Import Prelude GoStd Sha256 GoJson GoText GoHttp Uuid Program StrictJson Identity IdentitySafety Catalog AppState OperationTypes Forward Installations Lifecycle Preinstalled Egress NamespaceMigration TelemetryTypes Gateway GatewayCalls GatewayHandlers GatewayInternal GatewayServer GatewayMonitor GatewayContract GatewayTheorems GatewayAccess.
From Stdlib Require Import Ascii.
#[local] Open Scope Z_scope.

Module GatewaySample.
Import CanonicalUuid IdentitySample.
#[export] Existing Instance CanonicalUuid.lib.

(** Two bodies the JSON decoder is shown. *)
Definition installation_id : string := "44444444-4444-7444-8444-444444444444".
Definition tokens (s : string) : option raw :=
  if (s =? "stop")%string then Some (RObject [("station_id", RString (Identity.sv_StationID sv)); ("user_id", RString user);
                                      ("organization_id", RString org)])
  else if (s =? "authorize")%string then Some (RObject [("installation_id", RString installation_id); ("app_version", RString "1.0.0")])
  else if (s =? "registry")%string then Some (RArray [RObject [("app_id", RString "blender"); ("token_env", RString "STATION_APP_INSTALLATION_BLENDER_TOKEN")]])
  else if (s =? "{}")%string then Some (RObject [])
  else None.
#[export] Instance sample_json : JsonLib := {| json_tokens := tokens; parses_float := fun _ => true |}.
#[export] Instance ascii_text : UnicodeLib := {| unicode_lower s := s; unicode_upper s := s; unicode_fold s := s |}.
#[export] Instance sample_http : HttpLib :=
  {| media_type := Some; url_parse := fun _ => None; request_url := fun _ => true |}.
#[export] Instance sample_codecs : GatewayCodecs.
Proof.
  constructor; try (intros; exact None). constructor; [intros; exact None | intros; exact RNull].
Defined.

Definition secret : string := "0123456789abcdef0123456789abcdef".
Definition station : string := Identity.sv_StationID sv.
Definition caller_key : list Z := Eval vm_compute in digest_of ("Bearer " +:+ secret).
Definition server : Server := mkServer station true true "" true true false true
  (Some (mkBlenderControl secret "http://runtime" secret)) None
  (Some (mkInstallationAccess {[ caller_key := "blender" ]} true true true true)).

Definition request (method path : string) (header : Header) (body : option Body) : Request :=
  mkRequest method path "" "" false header 0 [] body.
Definition listing : Request := request "GET" "/app-installations" [("Authorization", "Bearer " +:+ token1); ("X-Request-Id", "r1")] None.
Definition member : Header := [("Authorization", "Bearer " +:+ secret); ("X-User-Id", user); ("X-Organization-Id", org);
  ("X-Station-Id", station); ("Content-Type", "application/json"); ("X-Request-Id", "r1")].
Definition stopping : Request := request "POST" "/internal/v1/blender/stop" member (Some (mkBody "stop" false)).
Definition authorizing : Request :=
  request "POST" "/internal/v1/app-installations/authorize" member (Some (mkBody "authorize" false)).
Definition nowhere : Request := request "GET" "/nowhere" [("X-Request-Id", "r1")] None.
Definition patching : Request :=
  request "PATCH" "/api/v1/proxies/p1" [("Authorization", "Bearer " +:+ token1); ("X-Request-Id", "r1")] None.
Definition streaming : Request := request "POST" stream_path [("X-Request-Id", "r1")] None.

Definition now : Time := t0 + 2 * second.
Definition blender : Installation := mkInstallation installation_id "blender" "1.0.0" station org "installed" 1 "" 0 0.

(** The identity service of the sample, an installation and an obedient Runtime. *)
Definition world : handler Event IdentityDB := fun X e =>
  match e in Event X return IdentityDB -> IdentityDB * option X with
  | NewRequestID => fun db => (db, Some (Some "fresh"))
  | Me rid token => fun db => let '(db', out) := Identity.Me sv rid token now true db in (db', Some out)
  | OpenMember m u o => fun db => (db, Some (Identity.delegated db u o m now))
  | CommitMember => fun db => (db, Some (Ok tt))
  | RollbackMember => fun db => (db, Some tt)
  | ServeCollector _ => fun db => (db, Some (mkResponse 401 [("Cache-Control", "no-store"); ("Content-Type", "application/json")]
                                              (Some (VMap [("code", VStr "UNAUTHENTICATED")]))))
  | ListInstallationsCall _ => fun db => (db, Some (Ok []))
  | GetInstallationCall _ _ => fun db => (db, Some (Ok blender))
  | RuntimeDo _ => fun db => (db, Some (Some (mkRuntimeResponse 200 [] (mkBody "{}" false))))
  | _ => fun db => (db, None)
  end.
#[export] Instance sample_identity : IdentityWorld world sv id.
Proof.
  constructor.
  - intros rid token w u. simpl. destruct (Identity.Me sv rid token now true w) as [db' out] eqn:E. intros [= ->].
    exists now. unfold id. by rewrite E.
  - intros m user org w. simpl. intros [= H]. by exists now.
Defined.
End GatewaySample.
Import IdentitySample GatewaySample.

(** ** The exchanges, evaluated *)
Definition me : User := Eval vm_compute in
  match snd (Identity.Me sv "r1" token1 now true db1) with Ok u => u | Err _ => no_context end.
Definition me_call : called Event := Called (Me "r1" token1) (Some (Ok me)).
Definition after_listing : IdentityDB * list (called Event) * Response := Eval vm_compute in exchange server world listing db1.
Definition after_stopping : IdentityDB * list (called Event) * Response := Eval vm_compute in exchange server world stopping db1.
Definition after_authorizing : option Response := Eval vm_compute in
  snd (interp world (installationAccess server (writer_of authorizing "r1") authorizing "r1") db1).
Definition after_nowhere : IdentityDB * list (called Event) * Response := Eval vm_compute in exchange server world nowhere db1.
Definition after_patching : IdentityDB * list (called Event) * Response := Eval vm_compute in exchange server world patching db1.
Definition after_streaming : IdentityDB * list (called Event) * Response := Eval vm_compute in exchange server world streaming db1.
Definition order : RuntimeRequest := Eval vm_compute in
  match nth 1 (after_stopping.1.2) me_call with
  | Called e _ => match e with RuntimeDo rq => rq | _ => mkRuntimeRequest "" "" [] NoBody end
  end.
Definition opened : called Event := Called (OpenMember true user org) (Some (Ok tt)).
Definition sample_answer : RuntimeResponse := mkRuntimeResponse 200 [] (mkBody "{}" false).

Lemma every_call_is_permitted_witness :
  allow server listing _ (ListInstallationsCall me) (clearance after (arrival listing) [me_call]).
Proof.
  apply (every_call_is_permitted server listing world db1 after_listing.1.1 [me_call] _ (ListInstallationsCall me)
    (Some (Ok [])) [] after_listing.2).
  vm_compute. reflexivity.
Defined.

Lemma session_behind_every_user_call_witness : exists t0 rid t1' now j,
  [me_call] = (t0 ++ Called (Me rid (bearer listing)) (Some (Ok me)) :: t1')%list /\
  join_session (id (replay world db1 t0)) (token_hash (bearer listing)) = Some j /\ entitled j now /\
  ic_UserID me = se_UserID (jn_Session j) /\ ic_OrganizationID me = se_OrganizationID (jn_Session j) /\
  ic_StationID me = Identity.sv_StationID sv.
Proof.
  apply (session_behind_every_user_call server listing world db1 after_listing.1.1 sv id [me_call] _ (ListInstallationsCall me)
    (Some (Ok [])) [] after_listing.2).
  - vm_compute. reflexivity.
  - reflexivity.
Defined.

Lemma membership_behind_every_runtime_order_witness : station = sv_StationID server /\
  exists t0 m t1' now, [opened] = (t0 ++ Called (OpenMember m user org) (Some (Ok tt)) :: t1')%list /\ still_open t1' /\
    Identity.delegated (id (replay world db1 t0)) user org m now = Ok tt /\ (needs_manager (rr_Body order) = true -> m = true).
Proof.
  apply (membership_behind_every_runtime_order server stopping world db1 after_stopping.1.1 sv id [opened] order
    (Some (Some sample_answer)) [Called CommitMember (Some (Ok tt))] after_stopping.2).
  - vm_compute. reflexivity.
  - vm_compute. reflexivity.
Defined.

Example stream_answers_itself : rs_Status after_streaming.2 = 401 /\ Values (rs_Header after_streaming.2) "WWW-Authenticate" = []
  /\ Values (rs_Header after_streaming.2) "X-Request-ID" = ["r1"] /\ Values (rs_Header after_streaming.2) "X-Content-Type-Options" = ["nosniff"].
Proof. by split_and!. Qed.

Lemma unrouted_requests_are_refused_witness : unidentified patching after_patching.1.2 after_patching.2 \/
  exists requestID t1, identified_as patching after_patching.1.2 requestID /\
    (t1 = [] \/ t1 = [Called NewRequestID (Some (Some requestID))]) /\
    if request_valid patching && proxy_path (rq_Path patching)
    then exists me, after_patching.1.2 = (t1 ++ [Called (Me requestID (bearer patching)) me])%list
                    /\ refused_to server patching requestID me after_patching.2
    else after_patching.1.2 = t1 /\ refused patching after_patching.2.
Proof.
  apply (unrouted_requests_are_refused server patching world db1 after_patching.1.1).
  - vm_compute. reflexivity.
  - right. vm_compute. reflexivity.
Defined.
Example patching_is_refused : rs_Status after_patching.2 = 405 /\ Values (rs_Header after_patching.2) "Allow" = ["GET, PUT, DELETE"].
Proof. by split_and!. Qed.
Example nowhere_is_unknown : after_nowhere.1.2 = [] /\ rs_Status after_nowhere.2 = 404.
Proof. by split_and!. Qed.

Lemma authorization_is_backed_witness :
  backed server authorizing (writer_of authorizing "r1") "r1"
    (snd (fst (interp world (installationAccess server (writer_of authorizing "r1") authorizing "r1") db1)))
    (default plain_error after_authorizing).
Proof.
  apply authorization_is_backed.
  - assert (Some (default plain_error after_authorizing) =
      snd (interp world (installationAccess server (writer_of authorizing "r1") authorizing "r1") db1)) as ->
      by (vm_compute; reflexivity). apply interp_runs.
  - vm_compute. reflexivity.
Defined.

(** ** The registry of the sample: one binding *)
Definition read_entry (v : raw) : option AccessEntry :=
  match v with RObject [(_, RString a); (_, RString t)] => Some (mkAccess a t) | _ => None end.
#[local] Instance entries_codec : AccessCodec := {|
  unmarshal v := match v with RArray [e] => a ← read_entry e; Some [a] | _ => None end;
  remarshal l := RArray ((fun e => RObject [("app_id", RString (ae_AppID e)); ("token_env", RString (ae_TokenEnv e))]) <$> l) |}.
Definition environment (name : string) : string := if (name =? "STATION_APP_INSTALLATION_BLENDER_TOKEN")%string then secret else "".
Definition registered : InstallationAccess := mkInstallationAccess {[ caller_key := "blender" ]} true true true true.

Lemma access_registry_is_exact_witness : exists entries,
  Decode (A := list AccessEntry) 65536 "registry" = Some entries /\ 1 <= Z.of_nat (length entries) <= 128 /\
  Forall (entry_ok environment) entries /\ NoDup (ae_AppID <$> entries) /\ NoDup (entry_key environment <$> entries) /\
  exists callers, registered = mkInstallationAccess callers true true true true /\
  forall k app, callers !! k = Some app <-> exists e, e ∈ entries /\ entry_key environment e = k /\ ae_AppID e = app.
Proof.
  apply (access_registry_is_exact environment "access.json" "registry" registered).
  - discriminate.
  - vm_compute. reflexivity.
Defined.
