(* ===== verification/NamespaceMigrationFacts.v ===== *)
(** * A namespace moves exactly what matches

    The transaction of [NamespaceMigration], row by row and workspace by workspace,
    is one pass over each table: a row is moved by the one workspace that matches it,
    and what depends on a row follows it. Then the rewriting of stored states. *)
From stdpp Require Import gmap list strings sorting.
From S2P Require Import Prelude GoStd GoJson Uuid Observation Memory AppState OperationTypes Installations StrictJson NamespaceMigration.
From Stdlib Require Import Ascii.
#[local] Open Scope Z_scope.

(** ** Rows read, then written one by one *)
Section Rows.
Context {A : Type} (P : A -> bool).

Lemma elem_of_rows m k x : (k, x) ∈ rows_of P m <-> m !! k = Some x /\ P x = true.
Proof.
  unfold rows_of. rewrite elem_of_sort_by, list_elem_of_In, List.filter_In, <- list_elem_of_In, elem_of_map_to_list. done.
Qed.
Lemma rows_nodup m : NoDup (rows_of P m).*1.
Proof.
  unfold rows_of. rewrite (sort_by_perm fst). pose proof (NoDup_fst_map_to_list m) as H. revert H.
  generalize (map_to_list m). intros l. induction l as [| [k x] l IH]; simpl; [done |]. intros [Hk Hl]%NoDup_cons.
  destruct (P x); simpl; [| by apply IH]. apply NoDup_cons. split; [| by apply IH]. intros Hin. apply Hk.
  apply list_elem_of_fmap in Hin as ([k' x'] & -> & Hin). apply list_elem_of_fmap. exists (k', x').
  split; [done |]. apply list_elem_of_In, List.filter_In in Hin as [Hin _]. by apply list_elem_of_In.
Qed.

Lemma rows_sorted m : StronglySorted (fun a b => str_le (fst a) (fst b)) (rows_of P m).
Proof. apply (sort_by_sorted fst). Qed.

Definition write (f : A -> A) (rows : list (string * A)) (m : gmap string A) : gmap string A :=
  foldl (fun m kr => <[ fst kr := f (snd kr) ]> m) m rows.
Lemma write_lookup f rows m k : NoDup rows.*1 ->
  write f rows m !! k = match List.find (fun kr => (fst kr =? k)%string) rows with Some kr => Some (f (snd kr)) | None => m !! k end.
Proof.
  unfold write. revert m. induction rows as [| [k' x] rows IH]; intros m; simpl; [done |].
  intros [Hk Hn]%NoDup_cons. rewrite IH by done. destruct (String.eqb_spec k' k) as [-> |].
  - destruct (List.find _ rows) as [[k'' x''] |] eqn:E; [| apply lookup_insert_eq].
    apply find_some in E as [Hin Heq]. simpl in Heq. apply String.eqb_eq in Heq as ->. exfalso. apply Hk.
    apply list_elem_of_fmap. exists (k, x''). split; [done | by apply list_elem_of_In].
  - destruct (List.find _ rows); [done | by apply lookup_insert_ne].
Qed.
Lemma write_rows f m : write f (rows_of P m) m = (fun x => if P x then f x else x) <$> m.
Proof.
  apply map_eq. intros k. rewrite write_lookup by apply rows_nodup. rewrite lookup_fmap.
  destruct (List.find _ _) as [[k' x] |] eqn:E.
  - apply find_some in E as [Hin Heq]. simpl in Heq. apply String.eqb_eq in Heq as ->.
    apply list_elem_of_In, elem_of_rows in Hin as [-> Hx]. simpl. by rewrite Hx.
  - destruct (m !! k) as [x |] eqn:Em; [| done]. simpl. destruct (P x) eqn:Ep; [| done]. exfalso.
    assert (Hin : (k, x) ∈ rows_of P m) by by apply elem_of_rows. apply list_elem_of_In in Hin.
    apply (find_none _ _ E) in Hin. simpl in Hin. by rewrite String.eqb_refl in Hin.
Qed.
End Rows.

(** The rows of a table are determined by what passes. *)
Lemma rows_of_ext {A} (P Q : A -> bool) m m' :
  (forall k x, m !! k = Some x /\ P x = true <-> m' !! k = Some x /\ Q x = true) -> rows_of P m = rows_of Q m'.
Proof.
  intros He. apply (StronglySorted_unique_strong (fun a b => str_le (fst a) (fst b))); [| apply rows_sorted | apply rows_sorted |].
  - intros [k x] [k' x'] H1 H2 Hle Hge. apply elem_of_rows, He in H1 as [H1 _]. apply elem_of_rows in H2 as [H2 _].
    assert (k = k') as -> by (by apply str_ltb_total). congruence.
  - apply NoDup_Permutation; [by eapply NoDup_fmap_1, rows_nodup .. |]. intros [k x]. by rewrite !elem_of_rows.
Qed.

(** A function on every row of a table that may be missing. *)
Definition each_row {A} (f : A -> A) (m : option (gmap string A)) : option (gmap string A) :=
  match m with Some m => Some (f <$> m) | None => None end.

(** How many rows pass. *)
Definition count {A} (P : A -> bool) (m : option (gmap string A)) : nat := length (rows_of P (default ∅ m)).
Lemma count_list {A} (P : A -> bool) m : count P m = length (List.filter (fun kr => P (snd kr)) (map_to_list (default ∅ m))).
Proof. unfold count, rows_of. apply length_sort_by. Qed.
Lemma count_each {A} (P : A -> bool) f m : count P (each_row f m) = count (fun x => P (f x)) m.
Proof.
  rewrite !count_list. destruct m as [m |]; [| done]. simpl. rewrite map_to_list_fmap.
  generalize (map_to_list m). intros l. induction l as [| [k x] l IH]; csimpl; [done |].
  destruct (P (f x)); csimpl; by rewrite IH.
Qed.
Lemma count_ext {A} (P Q : A -> bool) m : (forall x, P x = Q x) -> count P m = count Q m.
Proof.
  intros HPQ. rewrite !count_list. generalize (map_to_list (default ∅ m)). intros l.
  induction l as [| [k x] l IH]; simpl; [done |]. rewrite HPQ. destruct (Q x); simpl; by rewrite IH.
Qed.
Lemma count_none {A} (P : A -> bool) m : (forall x, P x = false) -> count P m = O.
Proof.
  intros HP. rewrite count_list. generalize (map_to_list (default ∅ m)). intros l.
  induction l as [| [k x] l IH]; simpl; [done |]. by rewrite HP.
Qed.
Lemma count_or {A} (P Q R : A -> bool) m : (forall x, R x = P x || Q x) -> (forall x, P x = true -> Q x = false) ->
  count R m = (count P m + count Q m)%nat.
Proof.
  intros HR HPQ. rewrite !count_list. generalize (map_to_list (default ∅ m)). intros l.
  induction l as [| [k x] l IH]; simpl; [done |]. rewrite HR. specialize (HPQ x).
  destruct (P x); simpl; [rewrite HPQ by done; simpl; by rewrite IH | destruct (Q x); simpl; rewrite IH; lia].
Qed.

(** ** One workspace after the other *)
Section Passes.
Context {X Y V : Type} (P : V -> X -> bool) (F : V -> X -> X) (key : Y -> string) (H : V -> Y -> Y).

(** A table and what depends on its rows; either may be missing. *)
Definition row_of (m : option (gmap string X)) (k : string) : option X := default ∅ m !! k.
Definition pass (w : V) (s : option (gmap string X) * option (gmap string Y)) : option (gmap string X) * option (gmap string Y) :=
  (each_row (fun x => if P w x then F w x else x) (fst s),
   each_row (fun y => match row_of (fst s) (key y) with Some x => if P w x then H w y else y | None => y end) (snd s)).

(** The reference: each row is moved by the first workspace that matches it. *)
Definition mover (ws : list V) (x : X) : option V := List.find (fun w => P w x) ws.
Definition moved_row (ws : list V) (x : X) : X := match mover ws x with Some w => F w x | None => x end.
Definition moved_dependent (ws : list V) (m : option (gmap string X)) (y : Y) : Y :=
  match row_of m (key y) ≫= mover ws with Some w => H w y | None => y end.

Hypothesis key_kept : forall w y, key (H w y) = key y.

Lemma row_of_each (f : X -> X) m k : row_of (each_row f m) k = f <$> row_of m k.
Proof. unfold row_of. destruct m; simpl; [apply lookup_fmap | by rewrite !lookup_empty]. Qed.
Lemma each_row_same {B} (f : B -> B) (m : option (gmap string B)) : (forall b, f b = b) -> each_row f m = m.
Proof. intros Hf. destruct m as [m |]; [| done]. simpl. f_equal. apply map_eq. intros k. rewrite lookup_fmap. destruct (m !! k); simpl; by rewrite ?Hf. Qed.
Lemma each_row_twice {B} (f g h : B -> B) (m : option (gmap string B)) :
  (forall b, f (g b) = h b) -> each_row f (each_row g m) = each_row h m.
Proof.
  intros Hf. destruct m as [m |]; [| done]. simpl. f_equal. apply map_eq. intros k. rewrite !lookup_fmap.
  destruct (m !! k); simpl; by rewrite ?Hf.
Qed.

Lemma passes ws s :
  (forall w w' x, w ∈ ws -> w' ∈ ws -> w' <> w -> P w x = true -> P w' (F w x) = false) -> NoDup ws ->
  foldl (fun s w => pass w s) s ws = (each_row (moved_row ws) (fst s), each_row (moved_dependent ws (fst s)) (snd s)).
Proof.
  revert s. induction ws as [| w ws IH]; intros [m e] Hp Hn; simpl.
  - rewrite !each_row_same; [done | | done]. intros y. unfold moved_dependent. by destruct (row_of m (key y)).
  - apply NoDup_cons in Hn as [Hw Hn]. rewrite IH; [| intros; eapply Hp; by try right | done]. simpl.
    (* a row that [w] moves is moved by no other *)
    assert (Hmine : forall x, P w x = true -> mover ws (F w x) = None).
    { intros x Hx. unfold mover. destruct (List.find _ ws) as [w' |] eqn:E; [| done]. exfalso.
      apply find_some in E as [Hw' HP]. apply list_elem_of_In in Hw'.
      rewrite (Hp w w' x) in HP; [done | by left | by right | by intros -> | done]. }
    f_equal; apply each_row_twice.
    + intros x. unfold moved_row. simpl. destruct (P w x) eqn:E; [by rewrite Hmine | done].
    + intros y. unfold moved_dependent. simpl. rewrite row_of_each.
      destruct (row_of m (key y)) as [x |] eqn:Ex; simpl; [| by rewrite Ex].
      destruct (P w x) eqn:E; [rewrite key_kept, Ex | rewrite Ex]; simpl; rewrite E; [by rewrite Hmine | done].
Qed.

(** The rows moved by each workspace in turn are the rows that some workspace matches. *)
Fixpoint passes_count (ws : list V) (m : option (gmap string X)) : nat :=
  match ws with
  | [] => 0
  | w :: ws => count (P w) m + passes_count ws (each_row (fun x => if P w x then F w x else x) m)
  end.
Lemma passes_count_total ws m :
  (forall w w' x, w ∈ ws -> w' ∈ ws -> w' <> w -> P w x = true -> P w' (F w x) = false) -> NoDup ws ->
  passes_count ws m = count (fun x => bool_decide (is_Some (mover ws x))) m.
Proof.
  revert m. induction ws as [| w ws IH]; intros m Hp Hn; simpl.
  - rewrite count_list. by induction (map_to_list (default ∅ m)) as [| [k x] l IHl].
  - apply NoDup_cons in Hn as [Hw Hn]. rewrite IH; [| intros; eapply Hp; by try right | done]. rewrite count_each.
    symmetry. apply count_or.
    + intros x. unfold mover. simpl. destruct (P w x); [by rewrite bool_decide_true by eauto | done].
    + intros x Hx. rewrite Hx. apply bool_decide_eq_false. intros [w' Hm]. unfold mover in Hm.
      apply find_some in Hm as [Hw' HP]. apply list_elem_of_In in Hw'.
      rewrite (Hp w w' x) in HP; [done | by left | by right | by intros -> | done].
Qed.
End Passes.

(** *** What is counted of the dependents *)
Section Dues.
Context {X Y V : Type} (P : V -> X -> bool) (F : V -> X -> X) (key : Y -> string) (H : V -> Y -> Y) (Q : V -> Y -> bool).
Hypothesis key_kept : forall w y, key (H w y) = key y.

(** Counted by one workspace, and by the one that moves the row it depends on. *)
Definition due_by (w : V) (m : option (gmap string X)) (y : Y) : bool :=
  match row_of m (key y) with Some x => P w x && Q w y | None => false end.
Definition due (ws : list V) (m : option (gmap string X)) (y : Y) : bool :=
  match row_of m (key y) ≫= mover P ws with Some w => Q w y | None => false end.
Fixpoint passes_due (ws : list V) (s : option (gmap string X) * option (gmap string Y)) : nat :=
  match ws with
  | [] => 0
  | w :: ws => count (due_by w (fst s)) (snd s) + passes_due ws (pass P F key H w s)
  end.
Lemma passes_due_total ws m e :
  (forall w w' x, w ∈ ws -> w' ∈ ws -> w' <> w -> P w x = true -> P w' (F w x) = false) -> NoDup ws ->
  passes_due ws (m, e) = count (due ws m) e.
Proof.
  revert m e. induction ws as [| w ws IH]; intros m e Hp Hn; cbn [passes_due].
  - symmetry. apply count_none. intros y. unfold due. by destruct (row_of m (key y)).
  - apply NoDup_cons in Hn as [Hw Hn]. unfold pass at 1. cbn [fst snd]. rewrite IH; [| intros; eapply Hp; by try right | done].
    rewrite count_each. symmetry. unfold due, due_by.
    assert (Hmine : forall x, P w x = true -> mover P ws (F w x) = None).
    { intros x Hx. unfold mover. destruct (List.find _ ws) as [w' |] eqn:E; [| done]. exfalso.
      apply find_some in E as [Hw' HP]. apply list_elem_of_In in Hw'.
      rewrite (Hp w w' x) in HP; [done | by left | by right | by intros -> | done]. }
    apply count_or; intros y; rewrite row_of_each; destruct (row_of m (key y)) as [x |] eqn:Ex; simpl.
    + unfold mover at 1. simpl. destruct (P w x) eqn:E; simpl.
      * rewrite key_kept, Ex. simpl. rewrite E, Hmine by done. by rewrite orb_false_r.
      * rewrite Ex. simpl. by rewrite E.
    + by rewrite Ex.
    + destruct (P w x) eqn:E; [| done]. rewrite key_kept, Ex. simpl. by rewrite E, Hmine.
    + by rewrite Ex.
Qed.
End Dues.

(** ** The two pairs of tables *)
Section Moves.
Context {U : UuidLib} (schema : Schema) (renumber : string -> raw) (station : string) (r : NamespaceMigrationRequest).

Definition hex_of (w : NamespaceMigrationWorkspace) : string :=
  match normalizeHexProfileHash (nw_NewProfileHash w) with Ok h => h | Err _ => "" end.
Definition app_moved (w : NamespaceMigrationWorkspace) : AppWorkspace -> AppWorkspace :=
  moved_app schema renumber (nr_TargetNamespace r) w (hex_of w).
Definition start_moved (w : NamespaceMigrationWorkspace) : AppStart -> AppStart :=
  moved_start (start_hash schema w (hex_of w)) (nw_NewSecretUID w).
Definition runtime_moved (w : NamespaceMigrationWorkspace) : RuntimeWorkspace -> RuntimeWorkspace :=
  moved_runtime (nr_TargetNamespace r) w (hex_of w).
Definition execution_moved (w : NamespaceMigrationWorkspace) (x : RuntimeExecution) : RuntimeExecution :=
  fst (moved_execution (nr_SourceNamespace r) (nr_TargetNamespace r) (hex_of w) (nw_NewSecretUID w) x).

Definition app_pass := pass (app_matches station r) app_moved st_InstanceID start_moved.
Definition runtime_pass := pass (runtime_matches station r) runtime_moved re_InstanceID execution_moved.

(** The row a dependent belongs to, among the ones written. *)
Definition of_rows {A Y} (key : Y -> string) (H : Y -> Y) (rows : list (string * A)) (y : Y) : Y :=
  if existsb (fun kr => (fst kr =? key y)%string) rows then H y else y.

Lemma moved_start_none x : moved_start "" "" x = x.
Proof. by destruct x. Qed.

Lemma of_rows_cons {A Y} (key : Y -> string) (H : Y -> Y) k (x : A) rows y : (forall y, key (H y) = key y) -> k ∉ rows.*1 ->
  of_rows key H rows (of_rows key H [(k, x)] y) = of_rows key H ((k, x) :: rows) y.
Proof.
  intros Hk Hn. unfold of_rows. simpl. rewrite orb_false_r. destruct (String.eqb_spec k (key y)) as [-> |]; simpl; [| done].
  rewrite Hk. destruct (existsb _ rows) eqn:E; [| done]. exfalso. apply Hn.
  apply existsb_exists in E as ([k' x'] & Hin & Heq). simpl in Heq. apply String.eqb_eq in Heq as <-.
  apply list_elem_of_fmap. exists (k', x'). split; [done | by apply list_elem_of_In].
Qed.

(** *** The counters and the summaries *)
Definition plus (p q : Progress) : Progress :=
  mkProgress (pg_Apps p + pg_Apps q) (pg_Starts p + pg_Starts q) (pg_Runtimes p + pg_Runtimes q)
    (pg_Executions p + pg_Executions q) (pg_Summaries p ++ pg_Summaries q)%list.
Lemma plus_assoc p q t : plus (plus p q) t = plus p (plus q t).
Proof. unfold plus. simpl. by rewrite <- !Z.add_assoc, <- app_assoc. Qed.
Lemma plus_none p : plus p no_progress = p.
Proof. unfold plus. simpl. rewrite !Z.add_0_r, app_nil_r. by destruct p. Qed.
Lemma none_plus p : plus no_progress p = p.
Proof. by destruct p. Qed.

(** The line of the answer for a moved row. *)
Definition app_summary (w : NamespaceMigrationWorkspace) (row : string * AppWorkspace) : MigratedWorkspaceSummary :=
  let x := app_moved w (snd row) in
  mkMoved "station.app_instance_workspaces" (fst row) (nr_TargetNamespace r) (nw_PVCName w) (aw_PVCUID x) (aw_PVName (snd row))
    (aw_PVUID (snd row)) (aw_ProfileHash x).
Definition runtime_summary (w : NamespaceMigrationWorkspace) (row : string * RuntimeWorkspace) : MigratedWorkspaceSummary :=
  let x := runtime_moved w (snd row) in
  mkMoved "station.runtime_instance_workspaces" (fst row) (nr_TargetNamespace r) (nw_PVCName w) (rw_PVCUID x) (rw_PVName (snd row))
    (rw_PVUID (snd row)) (rw_ProfileHash x).
(** A start is updated when the workspace brings a hash or a secret, an execution
    when it brings a hash or the state is another. *)
Definition start_due (w : NamespaceMigrationWorkspace) (_ : AppStart) : bool :=
  negb (hex_of w =? "")%string || negb (nw_NewSecretUID w =? "")%string.
Definition execution_due (w : NamespaceMigrationWorkspace) (x : RuntimeExecution) : bool :=
  negb (hex_of w =? "")%string
  || snd (rewriteExecutionState (nr_SourceNamespace r) (nr_TargetNamespace r) (nw_NewSecretUID w) (re_State x)).
Lemma execution_due_moved w x :
  snd (moved_execution (nr_SourceNamespace r) (nr_TargetNamespace r) (hex_of w) (nw_NewSecretUID w) x) = execution_due w x.
Proof.
  unfold moved_execution, execution_due. destruct (rewriteExecutionState _ _ _ _) as [v b]. simpl. rewrite orb_comm. by destruct (_ || b).
Qed.

(** The dependents of the rows written, counted row by row. *)
Definition hits {A Y} (key : Y -> string) (rows : list (string * A)) (y : Y) : bool := existsb (fun kr => (fst kr =? key y)%string) rows.
Lemma hits_cons {A Y} (key : Y -> string) (H : Y -> Y) (Q : Y -> bool) k (x : A) rows e : (forall y, key (H y) = key y) -> k ∉ rows.*1 ->
  count (fun y => hits key ((k, x) :: rows) y && Q y) e =
  (count (fun y => (key y =? k)%string && Q y) e + count (fun y => hits key rows y && Q y) (each_row (of_rows key H [(k, x)]) e))%nat.
Proof.
  intros Hk Hn. rewrite count_each.
  assert (Hout : hits key rows = fun y => hits key rows y) by done.
  assert (Hno : forall y, key y = k -> hits key rows y = false).
  { intros y Hy. apply not_true_iff_false. unfold hits. intros ([k' x'] & Hin & Heq)%existsb_exists. simpl in Heq. apply String.eqb_eq in Heq.
    apply Hn, list_elem_of_fmap. exists (k', x'). split; [simpl; congruence | by apply list_elem_of_In]. }
  assert (Hsame : forall y, hits key rows (of_rows key H [(k, x)] y) && Q (of_rows key H [(k, x)] y) = hits key rows y && Q y).
  { intros y. unfold of_rows. simpl. rewrite orb_false_r. destruct (String.eqb_spec k (key y)) as [He |]; [| done].
    rewrite !Hno; [done | done | by rewrite Hk]. }
  rewrite (count_ext _ _ e Hsame). apply count_or.
  - intros y. unfold hits at 1. simpl. rewrite (String.eqb_sym k), andb_orb_distrib_l. done.
  - intros y [Hy%String.eqb_eq _]%andb_true_iff. by rewrite Hno.
Qed.

Lemma move_app_step w id x d p d1 p1 m : md_AppWorkspaces d = Some m ->
  move_app schema renumber r w (hex_of w) (id, x) (d, p) = Ok (d1, p1) ->
  d1 = mkMigrationDB (md_State d) (Some (<[ id := app_moved w x ]> m)) (each_row (of_rows st_InstanceID (start_moved w) [(id, x)]) (md_AppStarts d))
         (md_RuntimeWorkspaces d) (md_RuntimeExecutions d) /\
  p1 = plus p (mkProgress 1 (Z.of_nat (count (fun y => (st_InstanceID y =? id)%string && start_due w y) (md_AppStarts d))) 0 0 [app_summary w (id, x)]).
Proof.
  intros Hm H. unfold move_app in H. rewrite Hm in H. apply mbind_ok in H as (m' & Hu & H).
  unfold update_app in Hu. destruct (_ || _ : bool); [done |]. injection Hu as <-. simpl in H. unfold plus. simpl.
  destruct (md_AppStarts d) as [e |] eqn:Ee;
    [| injection H as <- <-; unfold with_app_workspaces; rewrite Ee, count_list; simpl; by rewrite !Z.add_0_r].
  change (negb (hex_of w =? "")%string || negb (nw_NewSecretUID w =? "")%string) with (start_due w (mkAppStart "" "" ∅)) in H.
  destruct (start_due w _) eqn:Eh.
  - apply mbind_ok in H as ([e' n] & Hs & [= <- <-]). unfold update_starts in Hs. destruct (_ && _); [done |].
    injection Hs as <- <-. split.
    + unfold with_app_starts. simpl. do 2 f_equal. apply map_eq. intros k.
      rewrite !lookup_fmap. destruct (e !! k) as [y |]; [| done]. simpl. f_equal. unfold of_rows. simpl. rewrite orb_false_r.
      by rewrite String.eqb_sym.
    + simpl. rewrite !Z.add_0_r. do 2 f_equal. unfold start_due in *. rewrite Eh.
      rewrite (count_ext _ (fun y => (st_InstanceID y =? id)%string)); [done |]. intros y. by rewrite andb_true_r.
  - injection H as <- <-. split.
    + unfold with_app_workspaces. simpl. rewrite Ee. f_equal. symmetry. unfold start_due in Eh.
      apply orb_false_iff in Eh as [E1 E2]. apply negb_false_iff, String.eqb_eq in E1. apply negb_false_iff, String.eqb_eq in E2.
      apply (each_row_same _ (Some e)). intros y. unfold of_rows, start_moved, start_hash. rewrite E1, E2. simpl.
      rewrite moved_start_none. by destruct (_ || _).
    + simpl. rewrite count_none; [by rewrite !Z.add_0_r |]. intros y. unfold start_due in *. by rewrite Eh, andb_false_r.
Qed.

Lemma each_apps w rows : forall d p d' p' m, md_AppWorkspaces d = Some m -> NoDup rows.*1 ->
  each (move_app schema renumber r w (hex_of w)) rows (d, p) = Ok (d', p') ->
  d' = mkMigrationDB (md_State d) (Some (write (app_moved w) rows m)) (each_row (of_rows st_InstanceID (start_moved w) rows) (md_AppStarts d))
         (md_RuntimeWorkspaces d) (md_RuntimeExecutions d) /\
  p' = plus p (mkProgress (Z.of_nat (length rows)) (Z.of_nat (count (fun y => hits st_InstanceID rows y && start_due w y) (md_AppStarts d)))
                 0 0 (app_summary w <$> rows)).
Proof.
  induction rows as [| [id x] rows IH]; intros d p d' p' m Hm Hn; cbn [each].
  - intros [= <- <-]. rewrite each_row_same by done. rewrite count_none by done.
    split; [by destruct d; simpl in *; subst | symmetry; apply plus_none].
  - apply NoDup_cons in Hn as [Hid Hn]. intros ([d1 p1] & H1 & H2)%mbind_ok.
    apply (move_app_step _ _ _ _ _ _ _ m) in H1 as (-> & ->); [| done].
    eapply IH in H2 as (-> & ->); [| done | done]. cbn [md_State md_AppStarts md_RuntimeWorkspaces md_RuntimeExecutions]. split.
    + f_equal. apply each_row_twice. intros y. by apply of_rows_cons.
    + rewrite plus_assoc. f_equal. rewrite (hits_cons st_InstanceID (start_moved w)) by done. unfold plus. simpl. f_equal; lia.
Qed.

Lemma rows_find {A} (P : A -> bool) (m : gmap string A) k :
  existsb (fun kr => (fst kr =? k)%string) (rows_of P m) = match m !! k with Some x => P x | None => false end.
Proof.
  apply eq_true_iff_eq. rewrite existsb_exists. split.
  - intros ([k' x] & Hin & Heq). simpl in Heq. apply String.eqb_eq in Heq as ->.
    apply list_elem_of_In, elem_of_rows in Hin as [-> Hx]. done.
  - destruct (m !! k) as [x |] eqn:E; [| done]. intros Hx. exists (k, x). split; [| apply String.eqb_refl].
    by apply list_elem_of_In, elem_of_rows.
Qed.

Lemma moved_execution_skip w x : snd (moved_execution (nr_SourceNamespace r) (nr_TargetNamespace r) (hex_of w) (nw_NewSecretUID w) x) = false ->
  execution_moved w x = x.
Proof. unfold execution_moved, moved_execution. destruct (rewriteExecutionState _ _ _ _) as [v b]. by destruct (b || _). Qed.
Lemma execution_instance w x : re_InstanceID (execution_moved w x) = re_InstanceID x.
Proof. unfold execution_moved, moved_execution. destruct (rewriteExecutionState _ _ _ _) as [v b]. by destruct (b || _). Qed.

Lemma move_runtime_step w id x d p d1 p1 m : md_RuntimeWorkspaces d = Some m ->
  move_runtime r w (hex_of w) (id, x) (d, p) = Ok (d1, p1) ->
  d1 = mkMigrationDB (md_State d) (md_AppWorkspaces d) (md_AppStarts d) (Some (<[ id := runtime_moved w x ]> m))
         (each_row (of_rows re_InstanceID (execution_moved w) [(id, x)]) (md_RuntimeExecutions d)) /\
  p1 = plus p (mkProgress 0 0 1 (Z.of_nat (count (fun y => (re_InstanceID y =? id)%string && execution_due w y) (md_RuntimeExecutions d)))
                 [runtime_summary w (id, x)]).
Proof.
  intros Hm H1. unfold move_runtime in H1. rewrite Hm in H1. apply mbind_ok in H1 as (m' & Hu & H1).
  unfold update_runtime in Hu. destruct (runtime_conflict _ _ _); [done |]. injection Hu as <-. simpl in H1.
  unfold migrateRuntimeExecutions in H1. unfold plus. destruct (md_RuntimeExecutions d) as [e |] eqn:Ee; injection H1 as <- <-; simpl.
  - split.
    + unfold with_runtime_executions. simpl. do 2 f_equal. apply map_eq. intros k.
      rewrite !lookup_fmap. destruct (e !! k) as [y |]; [| done]. simpl. f_equal. unfold of_rows. simpl. rewrite orb_false_r.
      by rewrite String.eqb_sym.
    + rewrite !Z.add_0_r. do 3 f_equal. change (length (rows_of ?P e)) with (count P (Some e)). apply count_ext. intros y.
      by rewrite execution_due_moved.
  - split; [unfold with_runtime_workspaces; by rewrite Ee |]. rewrite count_list. simpl. by rewrite !Z.add_0_r.
Qed.

Lemma each_runtimes w rows : forall d p d' p' m, md_RuntimeWorkspaces d = Some m -> NoDup rows.*1 ->
  each (move_runtime r w (hex_of w)) rows (d, p) = Ok (d', p') ->
  d' = mkMigrationDB (md_State d) (md_AppWorkspaces d) (md_AppStarts d) (Some (write (runtime_moved w) rows m))
         (each_row (of_rows re_InstanceID (execution_moved w) rows) (md_RuntimeExecutions d)) /\
  p' = plus p (mkProgress 0 0 (Z.of_nat (length rows))
                 (Z.of_nat (count (fun y => hits re_InstanceID rows y && execution_due w y) (md_RuntimeExecutions d))) (runtime_summary w <$> rows)).
Proof.
  induction rows as [| [id x] rows IH]; intros d p d' p' m Hm Hn; cbn [each].
  - intros [= <- <-]. rewrite each_row_same by done. rewrite count_none by done.
    split; [by destruct d; simpl in *; subst | symmetry; apply plus_none].
  - apply NoDup_cons in Hn as [Hid Hn]. intros ([d1 p1] & H1 & H2)%mbind_ok.
    apply (move_runtime_step _ _ _ _ _ _ _ m) in H1 as (-> & ->); [| done].
    eapply IH in H2 as (-> & ->); [| done | done]. cbn [md_State md_AppWorkspaces md_AppStarts md_RuntimeExecutions]. split.
    + f_equal. apply each_row_twice. intros y. apply of_rows_cons; [apply execution_instance | done].
    + rewrite plus_assoc. f_equal. rewrite (hits_cons re_InstanceID (execution_moved w)); [| apply execution_instance | done].
      unfold plus. simpl. f_equal; lia.
Qed.

(** *** One workspace *)
Lemma rows_empty {A} (P : A -> bool) : rows_of P ∅ = [].
Proof. done. Qed.

Lemma pass_rows {X Y} (P : NamespaceMigrationWorkspace -> X -> bool) F (key : Y -> string) H w m e :
  pass P F key H w (Some m, e) =
  (Some (write (F w) (rows_of (P w) m) m), each_row (of_rows key (H w) (rows_of (P w) m)) e).
Proof.
  unfold pass. simpl. rewrite write_rows. f_equal. unfold each_row. destruct e as [e |]; [| done]. f_equal. apply map_fmap_ext.
  intros k y _. unfold of_rows, row_of. simpl. rewrite rows_find. by destruct (m !! key y).
Qed.
Lemma pass_none {X Y} (P : NamespaceMigrationWorkspace -> X -> bool) F (key : Y -> string) H w e :
  pass P F key H w (None, e) = (None, e).
Proof. unfold pass. simpl. f_equal. by apply each_row_same. Qed.

(** The five parts of the database after one workspace. *)
Definition workspace_pass (w : NamespaceMigrationWorkspace) (d : MigrationDB) : MigrationDB :=
  let '(a, st) := app_pass w (md_AppWorkspaces d, md_AppStarts d) in
  let '(rt, ex) := runtime_pass w (md_RuntimeWorkspaces d, md_RuntimeExecutions d) in
  mkMigrationDB (md_State d) a st rt ex.
(** What one workspace counts and reports on a database. *)
Definition app_tally (w : NamespaceMigrationWorkspace) (a : option (gmap string AppWorkspace)) (st : option (gmap string AppStart)) : Progress :=
  mkProgress (Z.of_nat (count (app_matches station r w) a))
    (Z.of_nat (count (due_by (app_matches station r) st_InstanceID start_due w a) st)) 0 0
    (app_summary w <$> rows_of (app_matches station r w) (default ∅ a)).
Definition runtime_tally (w : NamespaceMigrationWorkspace) (rt : option (gmap string RuntimeWorkspace)) (ex : option (gmap string RuntimeExecution)) : Progress :=
  mkProgress 0 0 (Z.of_nat (count (runtime_matches station r w) rt))
    (Z.of_nat (count (due_by (runtime_matches station r) re_InstanceID execution_due w rt) ex))
    (runtime_summary w <$> rows_of (runtime_matches station r w) (default ∅ rt)).
Definition workspace_tally (w : NamespaceMigrationWorkspace) (d : MigrationDB) : Progress :=
  plus (app_tally w (md_AppWorkspaces d) (md_AppStarts d)) (runtime_tally w (md_RuntimeWorkspaces d) (md_RuntimeExecutions d)).

Lemma hits_due {X Y} (P : NamespaceMigrationWorkspace -> X -> bool) (key : Y -> string) Q w m (e : option (gmap string Y)) :
  count (fun y => hits key (rows_of (P w) m) y && Q w y) e = count (due_by P key Q w (Some m)) e.
Proof. apply count_ext. intros y. unfold hits, due_by, row_of. simpl. rewrite rows_find. by destruct (m !! key y). Qed.
Lemma due_none {X Y} (P : NamespaceMigrationWorkspace -> X -> bool) (key : Y -> string) Q w (e : option (gmap string Y)) :
  count (due_by P key Q w None) e = O.
Proof. apply count_none. intros y. unfold due_by, row_of. simpl. by rewrite lookup_empty. Qed.
Lemma count_of_none {A} (P : A -> bool) : count P None = O.
Proof. done. Qed.

Lemma apps_pass w d p d1 p1 :
  each (move_app schema renumber r w (hex_of w)) (rows_of (app_matches station r w) (default ∅ (md_AppWorkspaces d))) (d, p) = Ok (d1, p1) ->
  d1 = (let '(a, st) := app_pass w (md_AppWorkspaces d, md_AppStarts d) in
        mkMigrationDB (md_State d) a st (md_RuntimeWorkspaces d) (md_RuntimeExecutions d)) /\
  p1 = plus p (app_tally w (md_AppWorkspaces d) (md_AppStarts d)).
Proof.
  unfold app_pass, app_tally. destruct (md_AppWorkspaces d) as [m |] eqn:Em.
  - intros H. eapply each_apps in H as [-> ->]; [| done | apply rows_nodup]. rewrite pass_rows. split; [done |].
    by rewrite hits_due.
  - rewrite pass_none, due_none, count_of_none. simpl. rewrite rows_empty. intros [= <- <-].
    split; [by destruct d; simpl in *; subst | symmetry; apply plus_none].
Qed.
Lemma runtimes_pass w d p d1 p1 :
  each (move_runtime r w (hex_of w)) (rows_of (runtime_matches station r w) (default ∅ (md_RuntimeWorkspaces d))) (d, p) = Ok (d1, p1) ->
  d1 = (let '(rt, ex) := runtime_pass w (md_RuntimeWorkspaces d, md_RuntimeExecutions d) in
        mkMigrationDB (md_State d) (md_AppWorkspaces d) (md_AppStarts d) rt ex) /\
  p1 = plus p (runtime_tally w (md_RuntimeWorkspaces d) (md_RuntimeExecutions d)).
Proof.
  unfold runtime_pass, runtime_tally. destruct (md_RuntimeWorkspaces d) as [m |] eqn:Em.
  - intros H. eapply each_runtimes in H as [-> ->]; [| done | apply rows_nodup]. rewrite pass_rows. split; [done |].
    by rewrite hits_due.
  - rewrite pass_none, due_none, count_of_none. simpl. rewrite rows_empty. intros [= <- <-].
    split; [by destruct d; simpl in *; subst | symmetry; apply plus_none].
Qed.
Lemma move_workspace_pass w d p d' p' : is_ok (normalizeHexProfileHash (nw_NewProfileHash w)) = true ->
  move_workspace schema renumber station r w (d, p) = Ok (d', p') -> d' = workspace_pass w d /\ p' = plus p (workspace_tally w d).
Proof.
  intros Hh H. unfold move_workspace in H. apply mbind_ok in H as (hex & Hhex & H).
  assert (hex = hex_of w) as -> by (unfold hex_of; by rewrite Hhex). simpl in H.
  apply mbind_ok in H as ([d1 p1] & H1 & H2). simpl in H2. apply apps_pass in H1 as [-> ->]. unfold workspace_pass, workspace_tally.
  destruct (app_pass w _) as [a st] eqn:Ea. apply runtimes_pass in H2 as [-> ->]. simpl. by rewrite plus_assoc.
Qed.

(** The workspaces in turn. *)
Fixpoint tallies (ws : list NamespaceMigrationWorkspace) (d : MigrationDB) : Progress :=
  match ws with [] => no_progress | w :: ws => plus (workspace_tally w d) (tallies ws (workspace_pass w d)) end.
Lemma workspaces_pass ws : forall d p d' p', Forall (fun w => is_ok (normalizeHexProfileHash (nw_NewProfileHash w)) = true) ws ->
  each (move_workspace schema renumber station r) ws (d, p) = Ok (d', p') ->
  (let '(a, st) := foldl (fun s w => app_pass w s) (md_AppWorkspaces d, md_AppStarts d) ws in
   let '(rt, ex) := foldl (fun s w => runtime_pass w s) (md_RuntimeWorkspaces d, md_RuntimeExecutions d) ws in
   d' = mkMigrationDB (md_State d) a st rt ex) /\ p' = plus p (tallies ws d).
Proof.
  induction ws as [| w ws IH]; intros d p d' p' Hw; cbn [each foldl tallies].
  - intros [= <- <-]. split; [by destruct d | symmetry; apply plus_none].
  - apply Forall_cons in Hw as [Hh Hw]. intros ([d1 p1] & H1 & H2)%mbind_ok.
    apply move_workspace_pass in H1 as (-> & ->); [| done]. apply (IH _ _ _ _ Hw) in H2 as [H2 ->]. rewrite plus_assoc. split; [| done].
    clear IH. unfold workspace_pass, app_pass, runtime_pass in *.
    by destruct (pass (app_matches station r) _ _ _ w _) as [a st], (pass (runtime_matches station r) _ _ _ w _) as [rt ex].
Qed.

(** The reference: the rows by the workspace that moves them, and the lines of the
    answer workspace by workspace, those of the applications first, by instance. *)
Definition tally (ws : list NamespaceMigrationWorkspace) (d : MigrationDB) : Progress :=
  mkProgress (Z.of_nat (count (fun x => bool_decide (is_Some (mover (app_matches station r) ws x))) (md_AppWorkspaces d)))
    (Z.of_nat (count (due (app_matches station r) st_InstanceID start_due ws (md_AppWorkspaces d)) (md_AppStarts d)))
    (Z.of_nat (count (fun x => bool_decide (is_Some (mover (runtime_matches station r) ws x))) (md_RuntimeWorkspaces d)))
    (Z.of_nat (count (due (runtime_matches station r) re_InstanceID execution_due ws (md_RuntimeWorkspaces d)) (md_RuntimeExecutions d)))
    (flat_map (fun w => (app_summary w <$> rows_of (app_matches station r w) (default ∅ (md_AppWorkspaces d)))
                        ++ (runtime_summary w <$> rows_of (runtime_matches station r w) (default ∅ (md_RuntimeWorkspaces d))))%list ws).

(** *** The request *)
Lemma workspaces_valid_spec l : forall seen, workspaces_valid seen l = true ->
  NoDup (nw_PVCName <$> l) /\ (forall w, w ∈ l -> nw_PVCName w ∉ seen) /\
  Forall (fun w => is_ok (normalizeHexProfileHash (nw_NewProfileHash w)) = true) l.
Proof.
  induction l as [| w l IH]; intros seen; cbn [workspaces_valid].
  - intros _. split_and!; [constructor | set_solver | constructor].
  - intros H. repeat match type of H with (if ?b then _ else _) = _ => destruct b eqn:?; [done |] end.
    apply IH in H as (Hn & Hs & Hf). bool_norm.
    match goal with H : nw_PVCName w ∉ seen |- _ => rename H into Hw end. split_and!.
    + apply NoDup_cons. split; [| done]. intros (w' & Hw' & Hin)%list_elem_of_fmap. apply (Hs w' Hin). rewrite Hw'. set_solver.
    + intros w' [-> | Hin]%elem_of_cons; [done |]. specialize (Hs w' Hin). set_solver.
    + by constructor.
Qed.
Lemma move_request_valid : ValidateNamespaceMigrationRequest r = true ->
  NoDup (nw_PVCName <$> nr_Workspaces r) /\
  Forall (fun w => is_ok (normalizeHexProfileHash (nw_NewProfileHash w)) = true) (nr_Workspaces r).
Proof.
  unfold ValidateNamespaceMigrationRequest. intros H.
  repeat match type of H with (if ?b then _ else _) = _ => destruct b; [done |] end.
  by apply workspaces_valid_spec in H as (? & _ & ?).
Qed.
Lemma same_name ws (w w' : NamespaceMigrationWorkspace) : NoDup (nw_PVCName <$> ws) -> w ∈ ws -> w' ∈ ws ->
  nw_PVCName w = nw_PVCName w' -> w = w'.
Proof.
  induction ws as [| v ws IH]; [by intros _ ?%elem_of_nil |]. intros [Hv Hn]%NoDup_cons.
  intros [-> | Hw]%elem_of_cons [-> | Hw']%elem_of_cons He; [done | | | by apply IH].
  - exfalso. apply Hv. rewrite He. by apply list_elem_of_fmap_2.
  - exfalso. apply Hv. rewrite <- He. by apply list_elem_of_fmap_2.
Qed.

Section Valid.
Hypothesis Hnames : NoDup (nw_PVCName <$> nr_Workspaces r).

Lemma names_nodup : NoDup (nr_Workspaces r).
Proof. by apply NoDup_fmap_1 in Hnames. Qed.
Lemma app_exclusive w w' x : w ∈ nr_Workspaces r -> w' ∈ nr_Workspaces r -> w' <> w ->
  app_matches station r w x = true -> app_matches station r w' (app_moved w x) = false.
Proof.
  intros Hw Hw' Hne H. apply not_true_iff_false. intros H'. apply Hne. unfold app_matches in *. simpl in H'. bool_norm.
  eapply same_name; [done | done | done | congruence].
Qed.
Lemma runtime_exclusive w w' x : w ∈ nr_Workspaces r -> w' ∈ nr_Workspaces r -> w' <> w ->
  runtime_matches station r w x = true -> runtime_matches station r w' (runtime_moved w x) = false.
Proof.
  intros Hw Hw' Hne H. apply not_true_iff_false. intros H'. apply Hne. unfold runtime_matches in *. simpl in H'. bool_norm.
  eapply same_name; [done | done | done | congruence].
Qed.
Lemma rows_kept {X} (P : NamespaceMigrationWorkspace -> X -> bool) F w w' m :
  (forall x, P w x = true -> P w' (F w x) = false /\ P w' x = false) ->
  rows_of (P w') (default ∅ (each_row (fun x => if P w x then F w x else x) m)) = rows_of (P w') (default ∅ m).
Proof.
  intros Hp. apply rows_of_ext. intros k x. destruct m as [m |]; [| done]. simpl. rewrite lookup_fmap.
  destruct (m !! k) as [y |]; simpl; [| by split; intros []]. destruct (P w y) eqn:E; [| done]. destruct (Hp y E) as [H1 H2].
  split; intros [[= <-] Hx]; congruence.
Qed.
Lemma app_apart w w' x : w ∈ nr_Workspaces r -> w' ∈ nr_Workspaces r -> w' <> w -> app_matches station r w x = true -> app_matches station r w' x = false.
Proof.
  intros Hw Hw' Hne H. apply not_true_iff_false. intros H'. apply Hne. unfold app_matches in *. bool_norm.
  eapply same_name; [done | done | done | congruence].
Qed.
Lemma runtime_apart w w' x : w ∈ nr_Workspaces r -> w' ∈ nr_Workspaces r -> w' <> w -> runtime_matches station r w x = true -> runtime_matches station r w' x = false.
Proof.
  intros Hw Hw' Hne H. apply not_true_iff_false. intros H'. apply Hne. unfold runtime_matches in *. bool_norm.
  eapply same_name; [done | done | done | congruence].
Qed.

(** Counting as the workspaces go is counting by mover. *)
Lemma tallies_sums ws d : let s := tallies ws d in
  pg_Apps s = Z.of_nat (passes_count (app_matches station r) app_moved ws (md_AppWorkspaces d)) /\
  pg_Starts s = Z.of_nat (passes_due (app_matches station r) app_moved st_InstanceID start_moved start_due ws (md_AppWorkspaces d, md_AppStarts d)) /\
  pg_Runtimes s = Z.of_nat (passes_count (runtime_matches station r) runtime_moved ws (md_RuntimeWorkspaces d)) /\
  pg_Executions s = Z.of_nat (passes_due (runtime_matches station r) runtime_moved re_InstanceID execution_moved execution_due ws
                                (md_RuntimeWorkspaces d, md_RuntimeExecutions d)).
Proof.
  revert d. induction ws as [| w ws IH]; intros d; [done |]. cbn [tallies passes_count passes_due fst snd].
  specialize (IH (workspace_pass w d)). cbv zeta in *. unfold workspace_pass, app_pass, runtime_pass, pass in IH. cbn in IH.
  unfold pass. cbn [fst snd]. destruct IH as (H1 & H2 & H3 & H4). unfold workspace_pass, app_pass, runtime_pass, pass. cbn [fst snd].
  unfold plus. cbn [pg_Apps pg_Starts pg_Runtimes pg_Executions workspace_tally plus app_tally runtime_tally].
  rewrite H1, H2, H3, H4. split_and!; lia.
Qed.
Lemma tallies_lines ws d : NoDup ws -> (forall w, w ∈ ws -> w ∈ nr_Workspaces r) ->
  pg_Summaries (tallies ws d) = pg_Summaries (tally ws d).
Proof.
  revert d. induction ws as [| w ws IH]; intros d Hnd Hin; [done |]. apply NoDup_cons in Hnd as [Hw Hnd]. cbn [tallies].
  unfold plus at 1. cbn [pg_Summaries]. rewrite IH; [| done | intros v Hv; apply Hin; by right].
  cbn [tally pg_Summaries flat_map]. f_equal. rewrite !flat_map_concat_map. f_equal. apply map_ext_in. intros v Hv. apply list_elem_of_In in Hv.
  assert (v <> w) as Hne by (by intros ->). assert (w ∈ nr_Workspaces r /\ v ∈ nr_Workspaces r) as [Hw1 Hv1] by (split; apply Hin; by (left || right)).
  unfold workspace_pass, app_pass, runtime_pass, pass. cbn [fst snd md_AppWorkspaces md_RuntimeWorkspaces].
  rewrite !rows_kept; [done | |]; intros x Hx; split; [by apply (runtime_exclusive w) | by apply (runtime_apart w) | by apply (app_exclusive w) | by apply (app_apart w)].
Qed.
Lemma tallies_total d : tallies (nr_Workspaces r) d = tally (nr_Workspaces r) d.
Proof.
  destruct (tallies_sums (nr_Workspaces r) d) as (H1 & H2 & H3 & H4). pose proof (tallies_lines _ d names_nodup (fun w Hw => Hw)) as H5.
  rewrite (passes_count_total _ _ _ _ app_exclusive names_nodup) in H1. rewrite (passes_count_total _ _ _ _ runtime_exclusive names_nodup) in H3.
  rewrite passes_due_total in H2; [| done | apply app_exclusive | apply names_nodup].
  rewrite passes_due_total in H4; [| apply execution_instance | apply runtime_exclusive | apply names_nodup].
  destruct (tallies _ d). simpl in *. by subst.
Qed.
End Valid.

(** What a move does to the database, by reference to the rows before it. *)
Definition moved_tables (d d' : MigrationDB) : Prop :=
  let ws := nr_Workspaces r in
  md_AppWorkspaces d' = each_row (moved_row (app_matches station r) app_moved ws) (md_AppWorkspaces d) /\
  md_AppStarts d' =
    each_row (moved_dependent (app_matches station r) st_InstanceID start_moved ws (md_AppWorkspaces d)) (md_AppStarts d) /\
  md_RuntimeWorkspaces d' = each_row (moved_row (runtime_matches station r) runtime_moved ws) (md_RuntimeWorkspaces d) /\
  md_RuntimeExecutions d' =
    each_row (moved_dependent (runtime_matches station r) re_InstanceID execution_moved ws (md_RuntimeWorkspaces d))
      (md_RuntimeExecutions d).
(** The installation of the application, whose organization is told. *)
Definition found (d : MigrationDB) : option Installation :=
  if sc_Installations schema then current_installation (st_DB (md_State d)) station (nr_AppID r) else None.
Definition told (d : MigrationDB) : AppState.State :=
  match found d with
  | Some i => if sc_MarkFunction schema then mark_app_state (station, i_OrganizationID i) (nr_AppID r) (md_State d) else md_State d
  | None => md_State d
  end.
(** The whole answer. *)
Definition receipt (d : MigrationDB) : NamespaceMigrationResult :=
  let p := tally (nr_Workspaces r) d in
  mkMoveResult (nr_AppID r) (from_option i_InstallationID (nr_InstallationID r) (found d)) (from_option i_State "" (found d))
    (from_option i_Revision 0 (found d)) (nr_SourceNamespace r) (nr_TargetNamespace r)
    (pg_Apps p) (pg_Starts p) (pg_Runtimes p) (pg_Executions p) (pg_Summaries p).

Lemma inspect_found d i d0 : inspect_installation schema station r d = Ok (i, d0) -> i = found d /\ d0 = with_state (told d) d.
Proof.
  unfold inspect_installation, told, found. destruct (sc_Installations schema); cbn [negb]; [| intros [= <- <-]; by destruct d].
  destruct (current_installation _ _ _) as [x |]; [| intros [= <- <-]; by destruct d].
  destruct (_ && _); [done |]. intros [= <- <-]. destruct (sc_MarkFunction schema); [done | by destruct d].
Qed.
Lemma move_passes d p d' p' : ValidateNamespaceMigrationRequest r = true ->
  each (move_workspace schema renumber station r) (nr_Workspaces r) (d, p) = Ok (d', p') ->
  moved_tables d d' /\ md_State d' = md_State d /\ p' = plus p (tally (nr_Workspaces r) d).
Proof.
  intros Hv Hm. destruct (move_request_valid Hv) as [Hn Hok].
  apply workspaces_pass in Hm as [Hd ->]; [| done]. unfold app_pass, runtime_pass in Hd.
  rewrite !passes in Hd; try done; [| apply execution_instance | by apply runtime_exclusive | by apply names_nodup
    | by apply app_exclusive | by apply names_nodup].
  subst d'. split_and!; try done. f_equal. by apply tallies_total.
Qed.

(** C8: a move is exact and whole: when it succeeds every row of both workspace
    tables is rewritten by the one workspace of the request that matches it, or kept,
    the starts and executions follow the row of their instance as it was before, the
    organization is told once and the memory is reset; and the answer is the exact
    account of it: how many rows, starts and executions were written, and one line
    for each row. When it fails nothing has changed. *)
Theorem move_is_exact pg d memory now d' memory' out :
  MigrateNamespace schema renumber station true pg r d memory now = (d', memory', out) ->
  match out with
  | Ok m =>
      moved_tables d d' /\ md_State d' = told d /\
      memory' = (fun x => ResetAppBindings x (nr_AppID r) (nr_TargetNamespace r) now) <$> memory /\ m = receipt d
  | Err _ => d' = d /\ memory' = memory
  end.
Proof.
  unfold MigrateNamespace. destruct (ValidateNamespaceMigrationRequest r) eqn:Hv; simpl; [| by intros [= <- <- <-]].
  destruct pg; [by intros [= <- <- <-] |]. destruct (migrate_body _ _ _ _ _) as [[m d1] |] eqn:E; [| by intros [= <- <- <-]].
  intros [= <- <- <-]. unfold migrate_body in E. apply mbind_ok in E as ([i d0] & Hi & E).
  apply mbind_ok in E as ([d2 p] & Hm & [= <- <-]). apply inspect_found in Hi as [-> ->].
  apply (move_passes _ _ _ _ Hv) in Hm as (Ht & Hs & ->). rewrite none_plus. split_and!; [done | done | done |].
  unfold result_of, receipt. by destruct (found d).
Qed.
End Moves.

(** ** A move *)
Module MoveSample.
#[export] Existing Instance CanonicalUuid.lib.
Definition station : string := "11111111-1111-7111-8111-111111111111".
Definition claim : string := "55555555-5555-7555-8555-555555555555".
Definition other_hash : string := "fedcba9876543210fedcba9876543210fedcba9876543210fedcba9876543210".
Definition move : NamespaceMigrationRequest :=
  mkMove "blender" "" "apps-old" "apps-new" [mkWorkspaceMove "data-1" claim other_hash ""].
Definition schema : Schema := mkSchema false false None true true.
Definition hash : string := "0123456789abcdef0123456789abcdef0123456789abcdef0123456789abcdef".
Definition here : AppWorkspace := mkAppWorkspace station "i1" hash "apps-old" "data-1" "u1" "v1" "w1" ∅.
Definition other : AppWorkspace := mkAppWorkspace station "i1" hash "apps-old" "data-2" "u2" "v2" "w2" ∅.
Definition no_state : AppState.State := AppState.mkState (mkDB ∅ ∅ ∅ ∅ ∅ ∅ ∅ ∅ []) ∅ ∅ ∅ ∅.
(** One of two rows matches; it has two starts, the other row has one. *)
Definition before : MigrationDB := mkMigrationDB no_state (Some (<[ "a" := here ]> {[ "b" := other ]}))
  (Some (<[ "s1" := mkAppStart "a" hash ∅ ]> (<[ "s2" := mkAppStart "a" hash ∅ ]> {[ "s3" := mkAppStart "b" hash ∅ ]})))
  (Some {[ "a" := mkRuntimeWorkspace station hash "apps-old" "data-1" "u1" "v1" "w1" ]})
  (Some {[ "e1" := mkRuntimeExecution "a" hash (RObject []) ]}).
Definition after : MigrationDB * option Memory * result OpError NamespaceMigrationResult :=
  MigrateNamespace schema RNumber station true None move before None 0.
End MoveSample.
Import MoveSample.

Lemma move_is_exact_witness :
  match after.2 with
  | Ok m => moved_tables schema RNumber station move before after.1.1 /\ md_State after.1.1 = told schema station move before /\
      after.1.2 = (fun x => ResetAppBindings x (nr_AppID move) (nr_TargetNamespace move) 0) <$> None /\
      m = receipt schema RNumber station move before
  | Err _ => after.1.1 = before /\ after.1.2 = None
  end.
Proof.
  apply (move_is_exact schema RNumber station move None before None 0 after.1.1 after.1.2 after.2).
  vm_compute. reflexivity.
Defined.
(** Two starts of the moved row, and the execution. *)
Example move_moved : exists m, after.2 = Ok m /\ no_AppInstanceWorkspaces m = 1 /\ no_AppInstanceStarts m = 2
  /\ no_RuntimeInstanceWorkspaces m = 1 /\ no_RuntimeInstanceExecutions m = 1 /\ length (no_Workspaces m) = 2%nat.
Proof. eexists. split_and!; vm_compute; reflexivity. Qed.
