(* ===== verification/NamespaceRewrite.v ===== *)
(** * Rewriting a stored state

    [rewriteMigratedValue] of [NamespaceMigration]: its flag is exact, and what it
    returns is settled: no member names the source namespace any more, and every
    secret is the new one. *)
From stdpp Require Import gmap list strings.
From S2P Require Import Prelude GoStd GoJson Uuid Observation Memory AppState OperationTypes Installations StrictJson IdentityFacts NamespaceMigration.
From Stdlib Require Import Ascii.
#[local] Open Scope Z_scope.

(** ** Strings without a dot *)
Section Languages.
Import Regexp RegexpFacts.

(** Every class of an expression is within [p]. *)
Fixpoint classes_in (p : ascii -> bool) (r : re) : Prop :=
  match r with
  | Class q => forall c, q c = true -> p c = true
  | Cat a b | Alt a b => classes_in p a /\ classes_in p b
  | Star a => classes_in p a
  | _ => True
  end.
Lemma lang_bytes p r s : lang r s -> classes_in p r -> all_bytes p s = true.
Proof.
  induction 1 as [| q c Hc | a b s t Ha IHa Hb IHb | a b s Ha IHa | a b s Hb IHb | | a c s t Ha IHa Hs IHs]; intros Hr; simpl in Hr.
  - done.
  - simpl. by rewrite Hr.
  - destruct Hr. rewrite all_bytes_app, IHa, IHb by done. done.
  - apply IHa, Hr.
  - apply IHb, Hr.
  - done.
  - specialize (IHa Hr). specialize (IHs Hr). by rewrite all_bytes_app, IHa, IHs.
Qed.
End Languages.

Definition dotless (s : string) : bool := all_bytes (fun c => negb (bool_decide (c = "."%char))) s.
Lemma label_dotless s : validDNSLabel s = true -> dotless s = true.
Proof.
  unfold validDNSLabel, namespaceDNSLabel. intros H. bool_norm. apply RegexpFacts.matches_lang in H0.
  eapply lang_bytes; [exact H0 |]. simpl. split_and!; try done; intros c Hc; apply negb_true_iff, bool_decide_eq_false; by intros ->.
Qed.

Lemma first_dot s t x y : dotless s = true -> dotless t = true -> s +:+ String "." x = t +:+ String "." y -> s = t.
Proof.
  revert t. induction s as [| c s IH]; intros [| d t]; simpl; intros Hs Ht; rewrite ?app_nil_str, ?app_cons_str; try done.
  - intros [= <- _]. done.
  - intros [= -> _]. done.
  - intros [= -> H]. unfold dotless in *. simpl in Hs, Ht. bool_norm. f_equal. by apply IH.
Qed.

(** A replacement shows at the first occurrence. *)
Lemma replace_shows s old new : old <> "" -> contains s old = true ->
  exists a b c, s = a +:+ old +:+ b /\ replace_all s old new = a +:+ new +:+ c.
Proof.
  intros Ho. unfold replace_all. induction s as [| x s IH]; cbn [contains replace_from].
  - rewrite orb_false_r. intros H. apply has_prefix_app in H as [t H]. destruct old; [done | by rewrite app_cons_str in H].
  - destruct (has_prefix (String x s) old) eqn:E.
    + intros _. apply has_prefix_app in E as [t Ht]. exists "", t, (replace_from (String.length old - 1) s old new). done.
    + intros H. destruct (IH H) as (a & b & c & -> & Hr). exists (String x a), b, c. rewrite Hr. by rewrite !app_cons_str.
Qed.

(** ** Values *)
Lemma raw_nested (Q : raw -> Prop) : Q RNull -> (forall b, Q (RBool b)) -> (forall t, Q (RNumber t)) -> (forall t, Q (RString t)) ->
  (forall l, Forall Q l -> Q (RArray l)) -> (forall m, Forall (fun kv => Q (snd kv)) m -> Q (RObject m)) -> forall v, Q v.
Proof.
  intros Hnull Hbool Hnum Hstr Harr Hobj. fix rec 1. intros [| b | t | t | l | m].
  - done.
  - apply Hbool.
  - apply Hnum.
  - apply Hstr.
  - apply Harr. induction l as [| v l IH]; constructor; [apply rec | exact IH].
  - apply Hobj. induction m as [| [k v] m IH]; constructor; [apply rec | exact IH].
Qed.

Section Rewrite.
Variables (source target secret : string).

(** One member of an object. *)
Definition rewrite_member (kv : string * raw) : string * raw * bool :=
  let '(k, c) := kv in
  match c with
  | RString text =>
      match rewrite_string source target secret k text with
      | Some text' => (k, RString text', true)
      | None => (k, c, false)
      end
  | _ => let '(c', b) := rewriteMigratedValue source target secret c in (k, c', b)
  end.
Lemma string_or (v : raw) : (exists t, v = RString t) \/ (forall t, v <> RString t).
Proof. destruct v; try (right; discriminate). left. by eexists. Qed.
Lemma rewrite_member_other k v : (forall t, v <> RString t) -> rewrite_member (k, v) =
  (k, fst (rewriteMigratedValue source target secret v), snd (rewriteMigratedValue source target secret v)).
Proof. intros Hn. unfold rewrite_member. destruct v; try (by destruct (rewriteMigratedValue source target secret _)). by edestruct Hn. Qed.
Lemma rewrite_object m : rewriteMigratedValue source target secret (RObject m) =
  (RObject (fst <$> (rewrite_member <$> m)), existsb snd (rewrite_member <$> m)).
Proof. done. Qed.
Lemma rewrite_array l : rewriteMigratedValue source target secret (RArray l) =
  (RArray (fst <$> (rewriteMigratedValue source target secret <$> l)),
   existsb snd (rewriteMigratedValue source target secret <$> l)).
Proof. done. Qed.

(** No member names the source namespace, and every secret is the new one. *)
Fixpoint settled (v : raw) : Prop :=
  match v with
  | RArray l => foldr (fun c rest => settled c /\ rest) True l
  | RObject m => foldr (fun kc rest =>
      ((fst kc = "namespace" -> source <> target -> snd kc <> RString source) /\
       (fst kc = "secret_uid" -> secret <> "" -> forall t, snd kc = RString t -> t = secret) /\
       settled (snd kc)) /\ rest) True m
  | _ => True
  end.

Hypothesis Hsource : validDNSLabel source = true.
Hypothesis Htarget : validDNSLabel target = true.
Hypothesis Hsecret : dotless secret = true.

Lemma rewrite_string_changes k text text' : rewrite_string source target secret k text = Some text' -> text' <> text.
Proof.
  unfold rewrite_string. intros H.
  destruct (_ && _ && _) eqn:E1 in H; [bool_norm; congruence |].
  destruct (_ && _ && _) eqn:E2 in H; [bool_norm; congruence |].
  destruct (_ && _) eqn:E3 in H; [| done]. injection H as <-. apply andb_true_iff in E3 as [Hne Hc].
  apply negb_true_iff, String.eqb_neq in Hne.
  apply (replace_shows _ _ (cluster_dns target)) in Hc as (a & b & c & -> & ->); [| done].
  intros He%app_inv_head_str. apply Hne. symmetry. unfold cluster_dns in He. rewrite !app_cons_str, !app_assoc_str in He.
  injection He as He. apply (first_dot _ _ ("svc.cluster.local" +:+ c) ("svc.cluster.local" +:+ b)) in He;
    [done | by apply label_dotless | by apply label_dotless].
Qed.

Lemma rewrite_flag v : snd (rewriteMigratedValue source target secret v) = false <-> fst (rewriteMigratedValue source target secret v) = v.
Proof.
  induction v as [| | | | l IH | m IH] using raw_nested; try done.
  - rewrite rewrite_array. simpl. induction IH as [| v l Hv Hl IHl]; csimpl; [done |]. rewrite orb_false_iff, Hv.
    split; [intros [-> H]; apply IHl in H; congruence | intros [= H1 H2]; split; [done | by apply IHl; f_equal]].
  - rewrite rewrite_object. simpl. induction IH as [| [k v] m Hv Hm IHm]; [done |].
    rewrite !fmap_cons. cbn [existsb]. rewrite orb_false_iff.
    assert (Hk : snd (rewrite_member (k, v)) = false <-> fst (rewrite_member (k, v)) = (k, v)).
    { simpl in Hv. destruct (string_or v) as [[t ->] | Hn].
      - simpl. destruct (rewrite_string source target secret k t) as [t' |] eqn:E; [| done]. simpl. split; [done |].
        intros [= ->]. by apply rewrite_string_changes in E.
      - rewrite rewrite_member_other by done. simpl. rewrite Hv. split; [by intros -> | congruence]. }
    rewrite Hk. split.
    + intros [-> H]. apply IHm in H. congruence.
    + intros [= H1 H2]. split; [done |]. apply IHm. by f_equal.
Qed.

Lemma dotless_app a b : dotless (a +:+ b) = dotless a && dotless b.
Proof. apply all_bytes_app. Qed.
Lemma dns_dots ns : dotless (cluster_dns ns) = false.
Proof. done. Qed.

(** What becomes of a string under a key. *)
Lemma rewrite_string_settles k text :
  let t := default text (rewrite_string source target secret k text) in
  (k = "namespace" -> source <> target -> t <> source) /\ (k = "secret_uid" -> secret <> "" -> t = secret).
Proof.
  unfold rewrite_string. split.
  - intros -> Hne. apply String.eqb_neq in Hne as Hne'. rewrite Hne'. simpl. rewrite andb_true_r.
    destruct (String.eqb_spec text source) as [-> |]; simpl; [done |]. destruct (contains _ _) eqn:E; simpl; [| done].
    apply (replace_shows _ _ (cluster_dns target)) in E as (a & b & c & -> & ->); [| done].
    intros He. apply label_dotless in Hsource. by rewrite <- He, !dotless_app, dns_dots, andb_false_r in Hsource.
  - intros -> Hs. simpl. apply String.eqb_neq in Hs as ->. simpl. destruct (String.eqb_spec text secret) as [-> |]; simpl; [| done].
    destruct (_ && _) eqn:E; simpl; [| done]. apply andb_true_iff in E as [_ E].
    apply (replace_shows _ _ (cluster_dns target)) in E as (a & b & c & He & _); [| done].
    by rewrite He, !dotless_app, dns_dots, andb_false_r in Hsecret.
Qed.

Lemma rewrite_settles v : settled (fst (rewriteMigratedValue source target secret v)).
Proof.
  induction v as [| | | | l IH | m IH] using raw_nested; try done.
  - rewrite rewrite_array. simpl. induction IH as [| v l Hv Hl IHl]; [done | by split].
  - rewrite rewrite_object. simpl. induction IH as [| [k v] m Hv Hm IHm]; [done |]. rewrite !fmap_cons. cbn [foldr]. split; [| done].
    destruct (string_or v) as [[t ->] | Hn].
    + destruct (rewrite_string_settles k t) as [H1 H2]. simpl.
      destruct (rewrite_string source target secret k t) as [t' |]; simpl in *; split_and!; try done.
      * intros Hk Hne [= ->]. by apply (H1 Hk Hne).
      * intros Hk Hs u [= <-]. by apply H2.
      * intros Hk Hne [= ->]. by apply (H1 Hk Hne).
      * intros Hk Hs u [= <-]. by apply H2.
    + rewrite rewrite_member_other by done. simpl. simpl in Hv.
      assert (Hk : forall t, fst (rewriteMigratedValue source target secret v) <> RString t) by (destruct v; try discriminate; by edestruct Hn).
      split_and!; [intros _ _ | intros _ _ t Ht | done]; [apply Hk | by apply Hk in Ht].
Qed.

(** Rewriting a stored state settles it: at every depth no member names the
    source namespace any more, every secret is the new one, and the flag that decides
    whether the row is written is raised exactly when the state differs. *)
Theorem rewriting_settles_the_state v :
  let out := rewriteExecutionState source target secret v in
  settled (fst out) /\ (snd out = true <-> fst out <> v).
Proof.
  simpl. split; [apply rewrite_settles |]. rewrite <- not_false_iff_true. by rewrite rewrite_flag.
Qed.
End Rewrite.

(** A replacement can make the name it removes, so a second run goes on: with the
    namespace [local] a move is not idempotent. *)
Example replaced_again :
  rewrite_string "local" "other" "" "host" ".local.svc.cluster.local.svc.cluster.local" =
    Some ".other.svc.cluster.local.svc.cluster.local" /\
  rewrite_string "local" "other" "" "host" ".other.svc.cluster.local.svc.cluster.local" =
    Some ".other.svc.cluster.other.svc.cluster.local".
Proof. vm_compute. split; reflexivity. Qed.
(** A host name in an array stays. *)
Example array_hosts_stay :
  let state := RObject [("hosts", RArray [RString "api.source.svc.cluster.local"])] in
  rewriteExecutionState "source" "target" "" state = (state, false).
Proof. vm_compute. reflexivity. Qed.

Lemma rewriting_settles_the_state_witness :
  let state := RObject [("namespace", RString "source"); ("host", RString "api.source.svc.cluster.local")] in
  let out := rewriteExecutionState "source" "target" "" state in
  settled "source" "target" "" (fst out) /\ (snd out = true <-> fst out <> state).
Proof.
  apply (rewriting_settles_the_state "source" "target" "").
  - vm_compute. reflexivity.
  - vm_compute. reflexivity.
  - vm_compute. reflexivity.
Defined.
