(* ===== verification/Telemetry.v ===== *)
(** * Telemetry: internal/telemetry

    The service reads Prometheus and Kubernetes and answers with host, GPU and
    workload measurements. A method is a program over [Reading]: the clock, one HTTP
    query, the two lists of Kubernetes. The cache is passed along explicitly; the
    mutex makes everything after the first look at it one critical section. The
    order in which Go ranges over a map is a parameter, and so are ParseQuantity and
    net/http's acceptance of a URL. A wrapped error is its outer text. *)
From stdpp Require Import gmap list strings.
From S2P Require Import Prelude GoStd GoJson GoText GoFloat GoHttp Program TelemetryTypes.
From Stdlib Require Import Ascii SpecFloat.
#[local] Open Scope list_scope.
#[local] Open Scope Z_scope.

Inductive Reading : Type -> Type :=
| Now : Reading Time                                            (* time.Now *)
| Fetch (url : string) : Reading (fetched promResponse)         (* s.httpClient.Do *)
| ListPods : Reading (result string (list RawPodItem))
| ListPodMetrics : Reading (result string (list RawPodMetricItem)).

(** resource.ParseQuantity followed by AsApproximateFloat64. *)
Class QuantityLib := parse_quantity : string -> option float64.
(** The order of [range m], and what the language says of it. *)
Class MapRange := range_map : forall A, gmap string A -> list (string * A).
Class MapRangeLaws (R : MapRange) := range_map_perm : forall A (m : gmap string A), range_map A m ≡ₚ map_to_list m.

(** A map of slices that a loop fills: [m[key] = append(m[key], x)]. *)
Definition append_at {A} (m : gmap string (list A)) (k : string) (x : A) : gmap string (list A) :=
  <[ k := default [] (m !! k) ++ [x] ]> m.
Definition group_by {A} (key : A -> string) (l : list A) : gmap string (list A) :=
  foldl (fun m x => append_at m (key x) x) ∅ l.
Definition group {A} (m : gmap string (list A)) (k : string) : list A := default [] (m !! k).

(** The fields of a pointer: nil is [None]. *)
Definition opt_ltb (c : float64) (o : option float64) : bool := match o with Some x => fltb c x | None => false end.

(** time.Parse with RFC3339Nano accepts what it accepts with RFC3339. *)
Definition ParseRFC3339Nano (s : string) : option Time := ParseRFC3339 s.

Record Service := mkService {
  sv_baseURL : string; sv_httpClient : bool; sv_k8s : bool; sv_ttl : Z;
  sv_lastGPUAt : Time; sv_cachedGPUs : option (list GPUMetric);
  sv_lastNodeAt : Time; sv_cachedNode : option NodeMetric }.
Definition NewService (baseURL : string) (ttl : Z) : Service :=
  mkService (if (baseURL =? "")%string then "http://prometheus.verdantflare-station.svc.cluster.local:9090" else baseURL)
    true false (if ttl <=? 0 then 2 * second else ttl) zero_time None zero_time None.
Definition SetKubernetes (k8s : bool) (s : Service) : Service :=
  mkService (sv_baseURL s) (sv_httpClient s) k8s (sv_ttl s) (sv_lastGPUAt s) (sv_cachedGPUs s) (sv_lastNodeAt s) (sv_cachedNode s).
Definition cache_gpus (at_ : Time) (l : list GPUMetric) (s : Service) : Service :=
  mkService (sv_baseURL s) (sv_httpClient s) (sv_k8s s) (sv_ttl s) at_ (Some l) (sv_lastNodeAt s) (sv_cachedNode s).
Definition cache_node (at_ : Time) (n : NodeMetric) (s : Service) : Service :=
  mkService (sv_baseURL s) (sv_httpClient s) (sv_k8s s) (sv_ttl s) (sv_lastGPUAt s) (sv_cachedGPUs s) at_ (Some n).

(** The loops of GetGPUs over [i] and [j]: the pass of one [i] over the rest. *)
Fixpoint exchange_pass (cur : GPUMetric) (rest : list GPUMetric) : GPUMetric * list GPUMetric :=
  match rest with
  | [] => (cur, [])
  | x :: rest' =>
      if gm_Index x <? gm_Index cur
      then let '(m, r) := exchange_pass x rest' in (m, cur :: r)
      else let '(m, r) := exchange_pass cur rest' in (m, x :: r)
  end.
Fixpoint exchange_from (n : nat) (l : list GPUMetric) : list GPUMetric :=
  match n, l with
  | S k, x :: rest => let '(m, r) := exchange_pass x rest in m :: exchange_from k r
  | _, _ => l
  end.
(** One round for each position; the last one has nothing left to compare. *)
Definition exchange_sort (l : list GPUMetric) : list GPUMetric := exchange_from (length l) l.

Section Telemetry.
Context {F : FloatLib} {H : HttpLib} {Q : QuantityLib} {R : MapRange}.
Notation reading A := (prog Reading A).

(** ** One query *)

Definition queryVector (s : Service) (promQL : string) : reading (result string promResponse) :=
  let reqURL := sv_baseURL s +:+ "/api/v1/query?query=" +:+ QueryEscape promQL in
  if negb (request_url reqURL) then mret (Err "create query request")
  else if negb (sv_httpClient s) then Panic
  else
    resp ← call (Fetch reqURL);
    mret match resp with
         | Unanswered => Err "prometheus query failed"
         | Answered status body =>
             reject ("prometheus status " +:+ format_int status) when negb (status =? 200) ;;
             match body with
             | None => Err "decode prometheus response"
             | Some parsed =>
                 reject ("prometheus status: " +:+ pq_Status parsed) when negb (pq_Status parsed =? "success")%string ;;
                 Ok parsed
             end
         end.

(** The value, and whether there is an error. *)
Definition parseValue (val : list any) : float64 * bool :=
  match val with
  | _ :: AString strVal :: _ => ParseFloat strVal
  | _ => (fzero, true)
  end.
Definition label (r : promRow) (k : string) : string := mget (pr_Metric r) k.
(** [val, _ := parseValue(r.Value)]. *)
Definition value_of (r : promRow) : float64 := fst (parseValue (pr_Value r)).
(** The rows of a query that did not fail. *)
Definition rows_of (resp : result string promResponse) : list promRow :=
  match resp with Ok d => pq_Result d | Err _ => [] end.

(** ** GPUs *)

Definition set_used (v : float64) (m : GPUMetric) : GPUMetric :=
  mkGPU (gm_Index m) (gm_Device m) (gm_ModelName m) (gm_UUID m) (gm_FreeVRAMMB m) (gm_TotalVRAMMB m) (int64_of v)
    (gm_Utilization m) (gm_TemperatureC m) (gm_PowerWatts m).
Definition set_total (v : float64) (m : GPUMetric) : GPUMetric :=
  mkGPU (gm_Index m) (gm_Device m) (gm_ModelName m) (gm_UUID m) (gm_FreeVRAMMB m) (int64_of v) (gm_UsedVRAMMB m)
    (gm_Utilization m) (gm_TemperatureC m) (gm_PowerWatts m).
Definition set_util (v : float64) (m : GPUMetric) : GPUMetric :=
  mkGPU (gm_Index m) (gm_Device m) (gm_ModelName m) (gm_UUID m) (gm_FreeVRAMMB m) (gm_TotalVRAMMB m) (gm_UsedVRAMMB m)
    v (gm_TemperatureC m) (gm_PowerWatts m).
Definition set_temp (v : float64) (m : GPUMetric) : GPUMetric :=
  mkGPU (gm_Index m) (gm_Device m) (gm_ModelName m) (gm_UUID m) (gm_FreeVRAMMB m) (gm_TotalVRAMMB m) (gm_UsedVRAMMB m)
    (gm_Utilization m) v (gm_PowerWatts m).
Definition set_power (v : float64) (m : GPUMetric) : GPUMetric :=
  mkGPU (gm_Index m) (gm_Device m) (gm_ModelName m) (gm_UUID m) (gm_FreeVRAMMB m) (gm_TotalVRAMMB m) (gm_UsedVRAMMB m)
    (gm_Utilization m) (gm_TemperatureC m) v.

Definition free_gpu (r : promRow) : GPUMetric :=
  mkGPU (atoi_value (label r "gpu")) (label r "device") (label r "modelName") (label r "UUID")
    (int64_of (value_of r)) 0 0 fzero fzero fzero.
Definition gpusMap (rows : list promRow) : gmap string GPUMetric :=
  foldl (fun m r => <[ label r "UUID" := free_gpu r ]> m) ∅ rows.
(** The rows of a further query update the GPUs that are known. *)
Definition read_into (set : float64 -> GPUMetric -> GPUMetric) (rows : list promRow) (m : gmap string GPUMetric)
    : gmap string GPUMetric :=
  foldl (fun m r => alter (set (value_of r)) (label r "UUID") m) m rows.
Definition infer_vram (m : GPUMetric) : GPUMetric :=
  let total :=
    if gm_TotalVRAMMB m =? 0 then
      if 0 <? wrap64 (gm_FreeVRAMMB m + gm_UsedVRAMMB m) then wrap64 (gm_FreeVRAMMB m + gm_UsedVRAMMB m) else 32768
    else gm_TotalVRAMMB m in
  let used :=
    if (gm_UsedVRAMMB m =? 0) && (gm_FreeVRAMMB m <? total) then wrap64 (total - gm_FreeVRAMMB m) else gm_UsedVRAMMB m in
  mkGPU (gm_Index m) (gm_Device m) (gm_ModelName m) (gm_UUID m) (gm_FreeVRAMMB m) total used
    (gm_Utilization m) (gm_TemperatureC m) (gm_PowerWatts m).

(** The cache is younger than the ttl. *)
Definition cached_gpus (s : Service) (now : Time) : option (list GPUMetric) :=
  if time_sub now (sv_lastGPUAt s) <? sv_ttl s then sv_cachedGPUs s else None.

(** Under [s.mu.Lock]. *)
Definition refreshGPUs (s : Service) : reading (Service * result string (list GPUMetric)) :=
  now ← call Now;
  match cached_gpus s now with
  | Some l => mret (s, Ok l)
  | None =>
      freeResp ← queryVector s "DCGM_FI_DEV_FB_FREE";
      match freeResp with
      | Err e => mret (s, match sv_cachedGPUs s with Some l => Ok l | None => Err e end)
      | Ok free =>
          usedResp ← queryVector s "DCGM_FI_DEV_FB_USED";
          totalResp ← queryVector s "DCGM_FI_DEV_FB_TOTAL";
          utilResp ← queryVector s "DCGM_FI_DEV_GPU_UTIL";
          tempResp ← queryVector s "DCGM_FI_DEV_GPU_TEMP";
          powerResp ← queryVector s "DCGM_FI_DEV_POWER_USAGE";
          let vram := infer_vram <$> read_into set_total (rows_of totalResp) (read_into set_used (rows_of usedResp) (gpusMap (pq_Result free))) in
          let all := read_into set_power (rows_of powerResp) (read_into set_temp (rows_of tempResp) (read_into set_util (rows_of utilResp) vram)) in
          let result := exchange_sort (snd <$> range_map _ all) in
          at_ ← call Now;
          mret (cache_gpus at_ result s, Ok result)
      end
  end.
(** The look under [s.mu.RLock] first. *)
Definition GetGPUs (s : Service) : reading (Service * result string (list GPUMetric)) :=
  now ← call Now;
  match cached_gpus s now with
  | Some l => mret (s, Ok l)
  | None => refreshGPUs s
  end.

(** ** The host *)

(** [if err == nil && len(result) > 0]: the value of the first row. *)
Definition first_value (resp : result string promResponse) : option float64 := value_of <$> head (rows_of resp).
Definition first_or_zero (resp : result string promResponse) : float64 := default fzero (first_value resp).
(** [uint64(val)] of the first row, or zero. *)
Definition first_uint (resp : result string promResponse) : Z := match first_value resp with Some v => uint64_of v | None => 0 end.
Definition hundred : float64 := of_int 100.
Definition percent (used total : Z) : float64 := fmul (fdiv (of_int used) (of_int total)) hundred.

Definition disk_of (sizes avails : list promRow) (mp : string) : option DiskMetric :=
  r ← last (List.filter (fun r => (label r "mountpoint" =? mp)%string) sizes);
  let size := uint64_of (value_of r) in
  if size =? 0 then None
  else
    let avail := match last (List.filter (fun r => (label r "mountpoint" =? mp)%string) avails) with
                 | Some a => uint64_of (value_of a) | None => 0 end in
    let used := wrapU (size - avail) in
    Some (mkDisk mp (label r "device") (label r "fstype") size avail used (percent used size)).

Definition cached_node (s : Service) (now : Time) : option NodeMetric :=
  if time_sub now (sv_lastNodeAt s) <? sv_ttl s then sv_cachedNode s else None.
Definition idle_cores : string := "count(node_cpu_seconds_total{mode=" +:+ dquote +:+ "idle" +:+ dquote +:+ "})".
Definition cpu_busy : string :=
  "100 - (avg(irate(node_cpu_seconds_total{mode=" +:+ dquote +:+ "idle" +:+ dquote +:+ "}[1m])) * 100)".
Definition filesystem (name : string) : string :=
  "node_filesystem_" +:+ name +:+ "_bytes{mountpoint=~" +:+ dquote +:+ "/|/data" +:+ dquote +:+ "}".

Definition refreshNode (s : Service) : reading (Service * NodeMetric) :=
  now ← call Now;
  match cached_node s now with
  | Some n => mret (s, n)
  | None =>
      coresResp ← queryVector s idle_cores;
      cpuResp ← queryVector s cpu_busy;
      l1 ← queryVector s "node_load1";
      l5 ← queryVector s "node_load5";
      l15 ← queryVector s "node_load15";
      totalMemResp ← queryVector s "node_memory_MemTotal_bytes";
      availMemResp ← queryVector s "node_memory_MemAvailable_bytes";
      bufResp ← queryVector s "node_memory_Buffers_bytes";
      cacheResp ← queryVector s "node_memory_Cached_bytes";
      sizesResp ← queryVector s (filesystem "size");
      availResp ← queryVector s (filesystem "avail");
      let total := first_uint totalMemResp in
      let avail := first_uint availMemResp in
      let used := if 0 <? total then wrapU (total - avail) else 0 in
      let node := mkNode
        (match first_value coresResp with Some v => if fltb fzero v then int64_of v else 24 | None => 24 end)
        (first_or_zero cpuResp) (first_or_zero l1) (first_or_zero l5) (first_or_zero l15)
        total avail used (first_uint bufResp) (first_uint cacheResp)
        (if 0 <? total then percent used total else fzero)
        (omap (disk_of (rows_of sizesResp) (rows_of availResp)) ["/data"; "/"]) in
      at_ ← call Now;
      mret (cache_node at_ node s, node)
  end.
(** GetNode never fails. *)
Definition GetNode (s : Service) : reading (Service * NodeMetric) :=
  now ← call Now;
  match cached_node s now with
  | Some n => mret (s, n)
  | None => refreshNode s
  end.

(** ** The summary *)

(** [t.Format(time.RFC3339)] leaves the fraction out. *)
Definition rfc3339_seconds (t : Time) : string := rfc3339 (t - t mod second).

Definition gib : float64 := of_int (1024 * 1024 * 1024).
Definition tera : float64 := of_int 1000000000000.

Definition GetSummary (s : Service) : reading (Service * result string ResourceSummary) :=
  '(s, gpus) ← GetGPUs s;
  match gpus with
  | Err e => mret (s, Err e)
  | Ok gpus =>
      '(s, node) ← GetNode s;
      now ← call Now;
      let sum f := foldl (fun n g => wrap64 (n + f g)) 0 gpus in
      let sumUtil := foldl (fun n g => fadd n (gm_Utilization g)) fzero gpus in
      let warned := if existsb (fun g => fltb (of_int 80) (gm_TemperatureC g)) gpus then "Warning" else "Healthy" in
      let disks := nm_StorageDisks node in
      let totalDisk := foldl (fun n d => wrapU (n + dm_TotalBytes d)) 0 disks in
      let usedDisk := foldl (fun n d => wrapU (n + dm_UsedBytes d)) 0 disks in
      mret (s, Ok (mkSummary (Z.of_nat (length gpus)) (sum gm_TotalVRAMMB) (sum gm_UsedVRAMMB) (sum gm_FreeVRAMMB)
        (if (0 <? Z.of_nat (length gpus)) then fdiv sumUtil (of_int (Z.of_nat (length gpus))) else fzero)
        (nm_CPUCores node) (nm_CPUUtilizationPercent node) (nm_CPULoad1 node)
        (fdiv (of_int (nm_MemTotalBytes node)) gib) (fdiv (of_int (nm_MemUsedBytes node)) gib) (nm_MemUsedPercent node)
        (if 0 <? totalDisk then fdiv (of_int totalDisk) tera else fzero)
        (if 0 <? totalDisk then fdiv (of_int usedDisk) tera else fzero)
        (if 0 <? totalDisk then percent usedDisk totalDisk else fzero)
        disks
        (if fltb (of_int 90) (nm_MemUsedPercent node) then "Degraded" else warned)
        (rfc3339_seconds now)))
  end.


(** [formatAge(startTime)] at [now]. *)
Definition formatAge (now : Time) (startTime : string) : string :=
  if (startTime =? "")%string then "未知"
  else match ParseRFC3339 startTime with
  | None => "未知"
  | Some t =>
      let d := time_sub now t in
      let h := Hours d in
      if fleb (of_int 24) h then
        let days := int64_of (fdiv h (of_int 24)) in
        let hours := Z.rem (int64_of h) 24 in
        if 0 <? hours then format_int days +:+ "天" +:+ format_int hours +:+ "小时" else format_int days +:+ "天"
      else if fleb (of_int 1) h then format_int (int64_of h) +:+ "小时"
      else if fleb (of_int 1) (Minutes d) then format_int (int64_of (Minutes d)) +:+ "分钟"
      else "刚刚"
  end.

(** ** The hardware of a snapshot *)

Definition snapshotQuery : string :=
  "{__name__=~" +:+ dquote
  +:+ "DCGM_FI_DEV_(FB_FREE|FB_USED|FB_TOTAL|GPU_UTIL|GPU_TEMP|POWER_USAGE)|node_(cpu_seconds_total|load1|load5|load15|memory_(MemTotal|MemAvailable|Buffers|Cached)_bytes|filesystem_(size|avail)_bytes)"
  +:+ dquote +:+ "}[35s]".

Record snapshotSeries := mkSeries {
  ss_labels : gmap string string; ss_value : float64; ss_previous : option float64; ss_at : Time; ss_before : Time }.
Definition slabel (r : snapshotSeries) (k : string) : string := mget (ss_labels r) k.

(** The value and its instant. *)
Definition snapshotSample (value : list any) : option (float64 * Time) :=
  match value with
  | [ANumber timestamp; _] =>
      let '(n, err) := parseValue value in
      if err || fltb timestamp fzero || fltb (of_int 9223372036854775) timestamp || IsNaN timestamp || IsInf timestamp
         || IsNaN n || IsInf n || fltb n fzero
      then None
      else Some (n, UnixMilli (int64_of (fmul timestamp (of_int 1000))))
  | _ => None
  end.
Definition oldest (current candidate : Time) : Time :=
  if is_zero current || time_before candidate current then candidate else current.

(** One row of the answer: a sample to show, or whether it was too old. *)
Definition series_of (now : Time) (row : promRow) : option snapshotSeries * bool :=
  match reverse (pr_Values row) with
  | [] => (None, false)
  | newest :: older =>
      match snapshotSample newest with
      | None => (None, false)
      | Some (v, at_) =>
          if time_after at_ (now + 5 * second) then (None, false)
          else if 30 * second <? time_sub now at_ then (None, true)
          else
            let '(previous, before) :=
              match older with
              | value :: _ => match snapshotSample value with Some (p, b) => (Some p, b) | None => (None, zero_time) end
              | [] => (None, zero_time)
              end in
            (Some (mkSeries (pr_Metric row) v previous at_ before), false)
      end
  end.
Definition series_key (now : Time) (row : promRow) : option (string * snapshotSeries) :=
  match fst (series_of now row) with Some x => Some (label row "__name__", x) | None => None end.
(** The map of the samples by metric name. *)
Definition seriesMap (now : Time) (rows : list promRow) : gmap string (list snapshotSeries) :=
  foldl (fun m kx => append_at m (fst kx) (snd kx)) ∅ (omap (series_key now) rows).

(** What [get] has seen of one GPU: its identity, and the oldest instant. *)
Record gpuSeen := mkSeen { gk_identity : bool; gk_Index : Z; gk_Device : string; gk_ModelName : string; gk_at : Time }.
Definition gpu_get (fields : gmap string (list snapshotSeries)) (name : string) (k : gpuSeen) : option float64 * gpuSeen :=
  match group fields ("DCGM_FI_DEV_" +:+ name) with
  | [r] =>
      match atoi (slabel r "gpu") with
      | None => (None, k)
      | Some index =>
          if index <? 0 then (None, k)
          else if gk_identity k && (negb (index =? gk_Index k) || negb (slabel r "device" =? gk_Device k)%string
                                    || negb (slabel r "modelName" =? gk_ModelName k)%string)
          then (None, k)
          else (Some (ss_value r), mkSeen true index (slabel r "device") (slabel r "modelName") (oldest (gk_at k) (ss_at r)))
      end
  | _ => (None, k)
  end.

Definition snapshot_gpu (id : string) (fields : gmap string (list snapshotSeries)) : option SnapshotGPU :=
  let k := mkSeen false 0 "" "" zero_time in
  let '(free, k) := gpu_get fields "FB_FREE" k in
  let '(used, k) := gpu_get fields "FB_USED" k in
  let '(total, k) := gpu_get fields "FB_TOTAL" k in
  let '(util, k) := gpu_get fields "GPU_UTIL" k in
  let '(temp, k) := gpu_get fields "GPU_TEMP" k in
  let '(power, k) := gpu_get fields "POWER_USAGE" k in
  let util := if opt_ltb hundred util then None else util in
  let total := match total, free, used with None, Some f, Some u => Some (fadd f u) | _, _, _ => total end in
  if is_zero (gk_at k) then None
  else Some (mkSnapshotGPU (gk_Index k) id (gk_Device k) (gk_ModelName k) (rfc3339 (gk_at k)) "fresh"
               free total used util temp power).

(** The samples of DCGM by UUID and metric. *)
Definition add_gpu_row (name : string) (byID : gmap string (gmap string (list snapshotSeries))) (r : snapshotSeries)
    : gmap string (gmap string (list snapshotSeries)) :=
  let id := slabel r "UUID" in
  if (id =? "")%string then byID else <[ id := append_at (default ∅ (byID !! id)) name r ]> byID.
Definition gpusByID (series : gmap string (list snapshotSeries)) : gmap string (gmap string (list snapshotSeries)) :=
  foldl (fun byID named => if has_prefix (fst named) "DCGM_" then foldl (add_gpu_row (fst named)) byID (snd named) else byID)
    ∅ (range_map _ series).
Definition snapshotGPUs (series : gmap string (list snapshotSeries)) : list SnapshotGPU :=
  sort_by sg_UUID (omap (fun g => snapshot_gpu (fst g) (snd g)) (range_map _ (gpusByID series))).

(** The exporters that sent anything of a node. *)
Definition node_instances (series : gmap string (list snapshotSeries)) : gset string :=
  list_to_set (flat_map (fun named => if has_prefix (fst named) "node_" then (fun r => slabel r "instance") <$> snd named else [])
                 (range_map _ series)).
(** [get(name)]: the value of a unique series, and the oldest instant. *)
Definition host_get (series : gmap string (list snapshotSeries)) (name : string) (at_ : Time) : option float64 * Time :=
  match group series name with
  | [r] => (Some (ss_value r), oldest at_ (ss_at r))
  | _ => (None, at_)
  end.

(** The loop over the processors: the oldest instant, the idle sum, whether every
    rate and every identity is known. *)
Record cpuLoop := mkCpu { cl_at : Time; cl_idle : float64; cl_rates : bool; cl_identities : bool }.
Definition rate_limit : float64 := fdiv (of_int 105) (of_int 100).
Definition cpu_rate (r : snapshotSeries) : option float64 :=
  let delta := Seconds (time_sub (ss_at r) (ss_before r)) in
  match ss_previous r with
  | None => None
  | Some previous =>
      if fleb delta fzero || fltb (of_int 30) delta || fltb (ss_value r) previous then None
      else
        let rate := fdiv (fsub (ss_value r) previous) delta in
        if fltb rate fzero || fltb rate_limit rate then None else Some rate
  end.
Fixpoint cpu_loop (rows : list (string * list snapshotSeries)) (c : cpuLoop) : cpuLoop :=
  match rows with
  | [] => c
  | (cpu, l) :: rest =>
      match l with
      | [r] =>
          if (cpu =? "")%string then mkCpu (cl_at c) (cl_idle c) (cl_rates c) false
          else
            let at_ := oldest (cl_at c) (ss_at r) in
            cpu_loop rest match cpu_rate r with
                          | None => mkCpu at_ (cl_idle c) false (cl_identities c)
                          | Some rate => mkCpu at_ (fadd (cl_idle c) (math_Min rate (of_int 1))) (cl_rates c) (cl_identities c)
                          end
      | _ => mkCpu (cl_at c) (cl_idle c) (cl_rates c) false
      end
  end.
Definition cpuRows (series : gmap string (list snapshotSeries)) : gmap string (list snapshotSeries) :=
  group_by (fun r => slabel r "cpu")
    (List.filter (fun r => (slabel r "mode" =? "idle")%string) (group series "node_cpu_seconds_total")).
(** Cores, utilization and the oldest instant. *)
Definition snapshot_cpu (series : gmap string (list snapshotSeries)) (at_ : Time) : option float64 * option float64 * Time :=
  let rows := cpuRows series in
  if bool_decide (rows = ∅) then (None, None, at_)
  else
    let c := cpu_loop (range_map _ rows) (mkCpu at_ fzero true true) in
    let n := of_int (Z.of_nat (size rows)) in
    if cl_identities c
    then (Some n, (if cl_rates c then Some (fmul (fsub (of_int 1) (fdiv (cl_idle c) n)) hundred) else None), cl_at c)
    else (None, None, cl_at c).

Definition nul : string := bytes [0].
Definition disk_key (r : snapshotSeries) : string :=
  slabel r "mountpoint" +:+ nul +:+ slabel r "device" +:+ nul +:+ slabel r "fstype".
Definition shown_mount (r : snapshotSeries) : bool :=
  (slabel r "mountpoint" =? "/")%string || (slabel r "mountpoint" =? "/data")%string.
Definition diskMap (series : gmap string (list snapshotSeries)) : gmap string (gmap string (list snapshotSeries)) :=
  foldl (fun m name =>
    foldl (fun m r => if shown_mount r then <[ disk_key r := append_at (default ∅ (m !! disk_key r)) name r ]> m else m)
      m (group series name))
    ∅ ["node_filesystem_size_bytes"; "node_filesystem_avail_bytes"].
Definition ratio (used total : float64) : option float64 :=
  if fltb fzero total then Some (fmul (fdiv used total) hundred) else None.
Definition snapshot_disk (fields : gmap string (list snapshotSeries)) (at_ : Time) : option SnapshotDisk * Time :=
  match group fields "node_filesystem_size_bytes" with
  | [r] =>
      let at_ := oldest at_ (ss_at r) in
      let disk := mkSnapshotDisk (slabel r "mountpoint") (slabel r "device") (slabel r "fstype") (Some (ss_value r)) in
      match group fields "node_filesystem_avail_bytes" with
      | [a] =>
          if fleb (ss_value a) (ss_value r) then
            let used := fsub (ss_value r) (ss_value a) in
            (Some (disk (Some (ss_value a)) (Some used) (ratio used (ss_value r))), oldest at_ (ss_at a))
          else (Some (disk None None None), at_)
      | _ => (Some (disk None None None), at_)
      end
  | _ => (None, at_)
  end.
Definition snapshot_disks (disks : list (gmap string (list snapshotSeries))) (at_ : Time) : list SnapshotDisk * Time :=
  foldl (fun acc fields =>
    let '(d, at_) := snapshot_disk fields (snd acc) in (fst acc ++ match d with Some d => [d] | None => [] end, at_)) ([], at_) disks.

Definition snapshotHost (series : gmap string (list snapshotSeries)) : option SnapshotNode :=
  let instances := node_instances series in
  if negb (size instances =? 1)%nat || bool_decide ("" ∈ instances) then None
  else
    let '(load1, at_) := host_get series "node_load1" zero_time in
    let '(load5, at_) := host_get series "node_load5" at_ in
    let '(load15, at_) := host_get series "node_load15" at_ in
    let '(total, at_) := host_get series "node_memory_MemTotal_bytes" at_ in
    let '(avail, at_) := host_get series "node_memory_MemAvailable_bytes" at_ in
    let '(buffers, at_) := host_get series "node_memory_Buffers_bytes" at_ in
    let '(cached, at_) := host_get series "node_memory_Cached_bytes" at_ in
    let used := match total, avail with
                | Some t, Some a => if fleb a t then Some (fsub t a) else None
                | _, _ => None
                end in
    let usedPercent := match used, total with Some u, Some t => ratio u t | _, _ => None end in
    let '(cores, busy, at_) := snapshot_cpu series at_ in
    let '(disks, at_) := snapshot_disks (snd <$> range_map _ (diskMap series)) at_ in
    if is_zero at_ then None
    else Some (mkSnapshotNode (rfc3339 at_) "fresh" cores busy load1 load5 load15 total avail used buffers cached usedPercent
                 (sort_by sd_Mountpoint disks)).

(** ** Workloads *)

(** A quantity that is not negative; [None] for a text that is not one. *)
Definition quantity (raw : string) : option float64 :=
  match parse_quantity raw with
  | None => None
  | Some value => if fltb value fzero || IsNaN value || IsInf value then None else Some value
  end.

Definition workloadSample (req limit unit raw : string) (sample : option RawPodMetricItem) (pod : RawPodItem) (now : Time)
    : ResourceMetric :=
  let m value at_ quality reason := mkResourceMetric value (quantity req) (quantity limit) at_ quality reason "instance_container" unit in
  match sample with
  | None => m None None "unavailable" "METRICS_UNAVAILABLE"
  | Some sample =>
      match ParseRFC3339Nano (rx_Timestamp sample), ParseRFC3339Nano (rp_CreatedAt pod), ParseDuration (rx_Window sample) with
      | Some at_, Some created, Some window =>
          if (window <? 0) || (rp_UID pod =? "")%string
             || negb (rx_UID sample =? "")%string && negb (rx_UID sample =? rp_UID pod)%string
             || time_before (at_ - window) created || time_after at_ (now + 5 * second)
          then m None None "unavailable" "SAMPLE_IDENTITY_UNVERIFIED"
          else if 30 * second <? time_sub now at_ then m None (Some (rfc3339 at_)) "stale" "SAMPLE_STALE"
          else match quantity raw with
               | None => m None (Some (rfc3339 at_)) "unavailable" "SAMPLE_INVALID"
               | Some value => m (Some value) (Some (rfc3339 at_)) "fresh" ""
               end
      | _, _, _ => m None None "unavailable" "SAMPLE_IDENTITY_UNVERIFIED"
      end
  end.

Definition sample_key (x : RawPodMetricItem) : string := rx_Namespace x +:+ "/" +:+ rx_Name x +:+ "/" +:+ rx_Container x.
Definition container_key (pod : RawPodItem) (c : RawContainer) : string :=
  rp_Namespace pod +:+ "/" +:+ rp_Name pod +:+ "/" +:+ rc_Name c.
(** The samples by container; none when the metrics cannot be read. *)
Definition byContainer (samples : result string (list RawPodMetricItem)) : gmap string (list RawPodMetricItem) :=
  match samples with Ok l => group_by sample_key l | Err _ => ∅ end.
Definition container_metric (samples : gmap string (list RawPodMetricItem)) (now : Time) (pod : RawPodItem) (c : RawContainer)
    : ContainerMetric :=
  let sample := match group samples (container_key pod c) with [x] => Some x | _ => None end in
  let usage f := match sample with Some x => f x | None => "" end in
  mkContainer (rc_Name c) (rc_Ready c) (rc_RestartCount c)
    (workloadSample (rc_CPUReq c) (rc_CPULim c) "cores" (usage rx_CPUUsage) sample pod now)
    (workloadSample (rc_MemReq c) (rc_MemLim c) "bytes" (usage rx_MemUsage) sample pod now)
    (quantity (rc_GPUReq c)) (quantity (rc_GPULim c)).
Definition shown_pod (pod : RawPodItem) : bool := has_prefix (rp_Namespace pod) "verdantflare-".

Definition snapshot_workload (samples : gmap string (list RawPodMetricItem)) (now : Time) (pod : RawPodItem) : SnapshotWorkload :=
  let name := mget (rp_Labels pod) "app.kubernetes.io/name" in
  mkSnapshotWorkload (rp_Name pod) (rp_Namespace pod) (rp_Name pod) (rp_UID pod)
    (mget (rp_Labels pod) "verdantflare.com/instance") (rp_Phase pod) (rp_CreatedAt pod)
    (if (name =? "")%string then ∅ else {[ "app.kubernetes.io/name" := name ]})
    (container_metric samples now pod <$> rp_Containers pod).
Definition snapshotWorkloads (s : Service) : reading (result string (list SnapshotWorkload)) :=
  if negb (sv_k8s s) then mret (Err "workload reader unavailable")
  else
    pods ← call ListPods;
    match pods with
    | Err e => mret (Err e)
    | Ok pods =>
        samples ← call ListPodMetrics;
        now ← call Now;
        mret (Ok (snapshot_workload (byContainer samples) now <$> List.filter shown_pod pods))
    end.

Definition GetSnapshot (s : Service) : reading (result string Snapshot) :=
  workloads ← snapshotWorkloads s;
  match workloads with
  | Err e => mret (Err e)
  | Ok workloads =>
      observed ← call Now;
      let out state gpus node := mkTelemetry 1 (rfc3339 observed) state gpus node workloads in
      if negb (sv_httpClient s) || (sv_baseURL s =? "")%string then mret (Ok (out "unavailable" [] None))
      else
        response ← queryVector s snapshotQuery;
        match response with
        | Err _ => mret (Ok (out "unavailable" [] None))
        | Ok response =>
            if negb (pq_ResultType response =? "matrix")%string then mret (Ok (out "unavailable" [] None))
            else
              now ← call Now;
              let series := seriesMap now (pq_Result response) in
              let stale := existsb (fun row => snd (series_of now row)) (pq_Result response) in
              let gpus := snapshotGPUs series in
              let node := snapshotHost series in
              let state := if (0 <? Z.of_nat (length gpus)) || bool_decide (is_Some node) then "fresh"
                           else if stale then "stale" else "unavailable" in
              mret (Ok (out state gpus node))
        end
  end.

(** ** The GPU usage of workloads *)

Definition hex_or_dash (c : ascii) : bool := is_digit c || in_range "a" "f" c || in_range "A" "F" c || byte_is "-" c.
(** ^GPU-[0-9a-fA-F-]{36}$ *)
Definition gpu_uuid : Regexp.re := Regexp.Cat (Regexp.lit "GPU-") (Regexp.times 36 (Regexp.Class hex_or_dash)).
Definition usage_limit : float64 := of_int 8796093022207.   (* math.MaxInt64/(1024*1024) *)

Definition usage_sample (now : Time) (rows : list promRow) (row : promRow) : option GPUUsageSample :=
  let id := label row "UUID" in
  if negb (length (List.filter (fun r => (label r "UUID" =? id)%string) rows) =? 1)%nat || negb (Regexp.matches gpu_uuid id) then None
  else match last (pr_Values row) with
  | Some [ANumber seconds; x] =>
      let '(value, err) := parseValue [ANumber seconds; x] in
      if err || IsNaN seconds || IsInf seconds || IsNaN value || IsInf value || fltb value fzero || fltb usage_limit value then None
      else
        let at_ := UnixMilli (int64_of (fmul seconds (of_int 1000))) in
        if time_after at_ (now + 5 * second) then None
        else if time_sub now at_ <=? 30 * second
        then Some (mkUsage id (mkResourceMetric (Some (fmul (fmul value (of_int 1024)) (of_int 1024))) None None
                                 (Some (rfc3339 at_)) "fresh" "" "exclusive_gpu" "bytes"))
        else Some (mkUsage id (mkResourceMetric None None None (Some (rfc3339 at_)) "stale" "SAMPLE_STALE" "exclusive_gpu" "bytes"))
  | _ => None
  end.
Definition gpuUsageSamples (s : Service) (now : Time) : reading (list GPUUsageSample) :=
  if negb (sv_httpClient s) || (sv_baseURL s =? "")%string then mret []
  else
    response ← queryVector s "DCGM_FI_DEV_FB_USED[35s]";
    mret match response with
         | Err _ => []
         | Ok response =>
             if negb (pq_ResultType response =? "matrix")%string then []
             else omap (usage_sample now (pq_Result response)) (pq_Result response)
         end.

(** ** The workloads with their summary *)

Definition requests_gpu (c : ContainerMetric) : bool := opt_ltb fzero (cm_GPURequest c) || opt_ltb fzero (cm_GPULimit c).
Definition active (pod : RawPodItem) : bool := (rp_Phase pod =? "Running")%string || (rp_Phase pod =? "Pending")%string.
Definition add_request (sum : float64) (o : option float64) : float64 := match o with Some x => fadd sum x | None => sum end.
(** The requests of one container. *)
Definition add_container (w : WorkloadSummary) (c : ContainerMetric) : WorkloadSummary :=
  mkWorkloadSummary (ws_TotalPods w) (ws_GPUPods w) (ws_InfraPods w)
    (add_request (ws_TotalGPURequested w) (cm_GPURequest c))
    (add_request (ws_TotalCPURequested w) (rm_Request (cm_CPU c)))
    (add_request (ws_TotalMemoryRequested w) (rm_Request (cm_Memory c))).
Definition workload_metric (samples : gmap string (list RawPodMetricItem)) (now age : Time) (pod : RawPodItem) : WorkloadMetric :=
  let containers := container_metric samples now pod <$> rp_Containers pod in
  mkWorkload (rp_Name pod) (rp_Namespace pod) (rp_Name pod) (rp_UID pod) (mget (rp_Labels pod) "verdantflare.com/instance")
    (rp_Phase pod) (formatAge age (rp_StartTime pod)) (if existsb requests_gpu containers then "gpu" else "infra")
    (mget (rp_Labels pod) "app.kubernetes.io/name") (rp_CreatedAt pod) containers.
Definition add_pod (w : WorkloadSummary) (pod : RawPodItem) (m : WorkloadMetric) : WorkloadSummary :=
  let w := if active pod then foldl add_container w (wm_Containers m) else w in
  mkWorkloadSummary (ws_TotalPods w + 1)
    (if (wm_Type m =? "gpu")%string then ws_GPUPods w + 1 else ws_GPUPods w)
    (if (wm_Type m =? "gpu")%string then ws_InfraPods w else ws_InfraPods w + 1)
    (ws_TotalGPURequested w) (ws_TotalCPURequested w) (ws_TotalMemoryRequested w).

(** The loop over the pods; [formatAge] reads the clock for each
    (a reading that a pod without a start time leaves unused). *)
Fixpoint workloads_loop (samples : gmap string (list RawPodMetricItem)) (now : Time) (pods : list RawPodItem)
    (acc : WorkloadSummary * list WorkloadMetric) : reading (WorkloadSummary * list WorkloadMetric) :=
  match pods with
  | [] => mret acc
  | pod :: rest =>
      age ← call Now;
      let m := workload_metric samples now age pod in
      workloads_loop samples now rest (add_pod (fst acc) pod m, snd acc ++ [m])
  end.
Definition GetWorkloads (s : Service) : reading (result string WorkloadsResponse) :=
  if negb (sv_k8s s) then mret (Err "workload reader unavailable")
  else
    pods ← call ListPods;
    match pods with
    | Err e => mret (Err e)
    | Ok pods =>
        observed ← call Now;
        samples ← call ListPodMetrics;
        now ← call Now;
        gpus ← gpuUsageSamples s now;
        acc ← workloads_loop (byContainer samples) now (List.filter shown_pod pods)
                (mkWorkloadSummary 0 0 0 fzero fzero fzero, []);
        mret (Ok (mkWorkloads 2 (fst acc) (snd acc) gpus (rfc3339 observed)))
    end.
End Telemetry.
