(* ===== verification/TelemetryFacts.v ===== *)
(** * What telemetry shows was measured

    Workloads: a usage value is the sample of exactly one container of exactly that
    pod, taken after the pod was created and not half a minute ago; the summary
    counts the workloads beside it. Hardware: every reading is the last sample of a
    series without a rival, every other figure what a formula makes of readings. The cache of the GPUs is used within its time or when
    Prometheus does not answer. *)
From stdpp Require Import gmap list strings sorting.
From S2P Require Import Prelude GoStd GoJson GoText GoFloat GoHttp Program TelemetryTypes Telemetry.
From Stdlib Require Import SpecFloat.
#[local] Open Scope list_scope.
#[local] Open Scope Z_scope.

(** ** Grouping *)

Lemma group_append_at {A} (m : gmap string (list A)) k x k' :
  group (append_at m k x) k' = group m k' ++ (if decide (k = k') then [x] else []).
Proof.
  unfold group, append_at. destruct (decide (k = k')) as [-> | Hne].
  - by rewrite lookup_insert_eq.
  - by rewrite lookup_insert_ne, app_nil_r.
Qed.
(** The slices of a map that a loop filled: the elements of each key, in order. *)
Lemma group_filled {A B} (key : B -> string) (val : B -> A) (l : list B) (m : gmap string (list A)) k :
  group (foldl (fun m x => append_at m (key x) (val x)) m l) k = group m k ++ (val <$> List.filter (fun x => (key x =? k)%string) l).
Proof.
  revert m. induction l as [| x l IH]; intros m; simpl; [by rewrite app_nil_r |].
  rewrite IH, group_append_at, <- app_assoc. f_equal. destruct (decide (key x = k)) as [-> | Hne].
  - by rewrite String.eqb_refl.
  - by apply String.eqb_neq in Hne as ->.
Qed.
Lemma group_by_spec {A} (key : A -> string) (l : list A) k :
  group (group_by key l) k = List.filter (fun x => (key x =? k)%string) l.
Proof. unfold group_by. rewrite (group_filled key (fun x => x)). unfold group. rewrite lookup_empty. simpl. by rewrite list_fmap_id. Qed.

Lemma list_filter_singleton {A} (p : A -> bool) l x : List.filter p l = [x] -> x ∈ l /\ p x = true.
Proof.
  intros H. assert (In x (List.filter p l)) as Hin by (rewrite H; by left). apply List.filter_In in Hin as [? ?].
  by rewrite list_elem_of_In.
Qed.

Lemma existsb_same {A} (p q : A -> bool) l : (forall x, p x = q x) -> existsb p l = existsb q l.
Proof. intros Hpq. induction l as [| x l IH]; simpl; [done |]. by rewrite Hpq, IH. Qed.

(** ** Programs *)
Section Programs.
Context {E : Type -> Type}.
(** A program extends its trace by one of its own. *)
Lemma yields_own {A} (p : prog E A) t : yields t p (fun t' a => exists t2, t' = t ++ t2 /\ runs p t2 (Some a)).
Proof.
  revert t. induction p as [a | | X e k IH]; intros t.
  - exists []. rewrite app_nil_r. split; [done | constructor].
  - done.
  - apply yields_perform. intros x. unfold yields in *. eapply ensures_mono; [| apply IH]. simpl.
    intros t' a (t2 & -> & Hr). exists (Called e (Some x) :: t2). rewrite <- app_assoc. split; [done | by constructor].
Qed.
Lemma yields_extends {A} (p : prog E A) t : yields t p (fun t' _ => exists t2, t' = t ++ t2).
Proof. unfold yields. eapply ensures_mono; [| apply yields_own]. intros t' a (t2 & -> & _). by exists t2. Qed.
End Programs.

Section Facts.
Context {F : FloatLib} {H : HttpLib} {Q : QuantityLib} {R : MapRange}.

(** ** Workloads *)

(** A usage value of [m] is the one sample of its container: unique, of this pod's
    life, with a window after its creation, not from the future and not old. *)
Record attributed (samples : list RawPodMetricItem) (now : Time) (pod : RawPodItem) (c : RawContainer)
    (usage : RawPodMetricItem -> string) (m : ResourceMetric) (v : float64) (x : RawPodMetricItem) (at_ : Time) : Prop := {
  at_fresh : rm_Quality m = "fresh" /\ rm_Reason m = "";
  at_unique : List.filter (fun y => (sample_key y =? container_key pod c)%string) samples = [x];
  at_pod : rp_UID pod <> "" /\ (rx_UID x = "" \/ rx_UID x = rp_UID pod);
  at_instant : ParseRFC3339Nano (rx_Timestamp x) = Some at_ /\ rm_SampledAt m = Some (rfc3339 at_);
  at_life : exists created window, ParseRFC3339Nano (rp_CreatedAt pod) = Some created /\ ParseDuration (rx_Window x) = Some window
            /\ 0 <= window /\ created <= at_ - window;
  at_recent : now - 30 * second <= at_ <= now + 5 * second;
  at_value : parse_quantity (usage x) = Some v /\ finite v = true /\ fltb v fzero = false }.

Lemma quantity_spec raw v : quantity raw = Some v -> parse_quantity raw = Some v /\ finite v = true /\ fltb v fzero = false.
Proof.
  unfold quantity, finite. destruct (parse_quantity raw) as [x |]; [| done].
  destruct (fltb x fzero || IsNaN x || IsInf x) eqn:E; [done |]. intros [= <-]. bool_norm. split_and!; [done | | done].
  by rewrite H1, H2.
Qed.

Lemma workloadSample_value req limit unit raw sample pod now v :
  rm_Value (workloadSample req limit unit raw sample pod now) = Some v ->
  exists x at_ created window, sample = Some x /\ quantity raw = Some v
    /\ ParseRFC3339Nano (rx_Timestamp x) = Some at_ /\ ParseRFC3339Nano (rp_CreatedAt pod) = Some created
    /\ ParseDuration (rx_Window x) = Some window /\ 0 <= window /\ rp_UID pod <> ""
    /\ (rx_UID x = "" \/ rx_UID x = rp_UID pod) /\ created <= at_ - window
    /\ now - 30 * second <= at_ <= now + 5 * second
    /\ workloadSample req limit unit raw sample pod now
       = mkResourceMetric (Some v) (quantity req) (quantity limit) (Some (rfc3339 at_)) "fresh" "" "instance_container" unit.
Proof.
  unfold workloadSample. destruct sample as [x |]; [| done].
  destruct (ParseRFC3339Nano (rx_Timestamp x)) as [at_ |] eqn:Ea; [| done].
  destruct (ParseRFC3339Nano (rp_CreatedAt pod)) as [created |] eqn:Ec; [| done].
  destruct (ParseDuration (rx_Window x)) as [window |] eqn:Ed; [| done].
  destruct (_ || _) eqn:Eid; [done |]. rewrite time_sub_ltb by (unfold second, min_int64, max_int64; lia).
  destruct (30 * second <? now - at_) eqn:Est; [done |]. destruct (quantity raw) as [w |] eqn:Eq; [| done].
  intros [= ->]. exists x, at_, created, window. unfold time_before, time_after in Eid.
  apply orb_false_iff in Eid as [Eid Ef]. apply orb_false_iff in Eid as [Eid Eb]. apply orb_false_iff in Eid as [Eid Eu].
  apply orb_false_iff in Eid as [Ew Ep].
  assert (rx_UID x = "" \/ rx_UID x = rp_UID pod) by (apply andb_false_iff in Eu as [Eu | Eu]; bool_norm; auto).
  clear Eu. bool_norm. split_and!; try done; lia.
Qed.

Lemma byContainer_group samples k :
  group (byContainer samples) k = match samples with Ok l => List.filter (fun y => (sample_key y =? k)%string) l | Err _ => [] end.
Proof. destruct samples; [apply group_by_spec | done]. Qed.

Definition samples_of (r : result string (list RawPodMetricItem)) : list RawPodMetricItem :=
  match r with Ok l => l | Err _ => [] end.
Lemma byContainer_spec samples k :
  group (byContainer samples) k = List.filter (fun y => (sample_key y =? k)%string) (samples_of samples).
Proof. rewrite byContainer_group. by destruct samples. Qed.

(** What a container of a pod is shown as. *)
Definition container_shown (samples : list RawPodMetricItem) (now : Time) (pod : RawPodItem) (c : RawContainer) (m : ContainerMetric) : Prop :=
  cm_Name m = rc_Name c /\ cm_Ready m = rc_Ready c /\ cm_Restarts m = rc_RestartCount c
  /\ rm_Request (cm_CPU m) = quantity (rc_CPUReq c) /\ rm_Limit (cm_CPU m) = quantity (rc_CPULim c)
  /\ rm_Request (cm_Memory m) = quantity (rc_MemReq c) /\ rm_Limit (cm_Memory m) = quantity (rc_MemLim c)
  /\ cm_GPURequest m = quantity (rc_GPUReq c) /\ cm_GPULimit m = quantity (rc_GPULim c)
  /\ (forall v, rm_Value (cm_CPU m) = Some v -> exists x at_, attributed samples now pod c rx_CPUUsage (cm_CPU m) v x at_)
  /\ (forall v, rm_Value (cm_Memory m) = Some v -> exists x at_, attributed samples now pod c rx_MemUsage (cm_Memory m) v x at_).

Lemma workloadSample_config req limit unit raw sample pod now :
  rm_Request (workloadSample req limit unit raw sample pod now) = quantity req
  /\ rm_Limit (workloadSample req limit unit raw sample pod now) = quantity limit.
Proof. unfold workloadSample. repeat (case_match; try done). Qed.

Lemma sample_attributed samples now pod c usage req limit unit v :
  let sample := match group (byContainer samples) (container_key pod c) with [x] => Some x | _ => None end in
  let m := workloadSample req limit unit (match sample with Some x => usage x | None => "" end) sample pod now in
  rm_Value m = Some v -> exists x at_, attributed (samples_of samples) now pod c usage m v x at_.
Proof.
  intros sample m Hv. unfold m in *. clear m.
  apply workloadSample_value in Hv as (x & at_ & created & window & Hs & Hq & Ha & Hc & Hw & H0 & Hp & Hu & Hl & Hr & ->).
  rewrite Hs in Hq. exists x, at_. unfold sample in Hs.
  assert (group (byContainer samples) (container_key pod c) = [x]) as Hg.
  { destruct (group _ _) as [| y [| ? ?]]; simplify_eq. done. }
  rewrite byContainer_spec in Hg. split; simpl; eauto using quantity_spec.
  exists created, window. split_and!; done.
Qed.

Lemma container_metric_shown samples now pod c :
  container_shown (samples_of samples) now pod c (container_metric (byContainer samples) now pod c).
Proof.
  unfold container_shown, container_metric. simpl.
  split_and!; try done; try apply workloadSample_config; intros v Hv; by apply sample_attributed in Hv.
Qed.

(** The pods that are shown, each with what it is shown as. *)
Definition pod_of (pod : RawPodItem) (name ns podname uid : string) (containers : list ContainerMetric)
    (samples : list RawPodMetricItem) (now : Time) : Prop :=
  shown_pod pod = true /\ name = rp_Name pod /\ ns = rp_Namespace pod /\ podname = rp_Name pod /\ uid = rp_UID pod
  /\ Forall2 (container_shown samples now pod) (rp_Containers pod) containers.

Lemma containers_shown samples now pod :
  Forall2 (container_shown (samples_of samples) now pod) (rp_Containers pod) (container_metric (byContainer samples) now pod <$> rp_Containers pod).
Proof. apply Forall2_fmap_r, Forall_Forall2_diag, Forall_forall. intros c _. apply container_metric_shown. Qed.

Lemma shown_pods pods : Forall (fun p => shown_pod p = true) (List.filter shown_pod pods).
Proof. apply Forall_forall. intros p Hp. rewrite list_elem_of_In in Hp. by apply List.filter_In in Hp as [_ ?]. Qed.

(** The loop over the pods with one reading of the clock each. *)
Definition add_workload (acc : WorkloadSummary * list WorkloadMetric) (pm : RawPodItem * WorkloadMetric) : WorkloadSummary * list WorkloadMetric :=
  (add_pod (fst acc) (fst pm) (snd pm), snd acc ++ [snd pm]).
Lemma workloads_loop_spec samples now pods acc t :
  yields t (workloads_loop samples now pods acc) (fun t' out => exists ages t2, t' = t ++ t2 /\ length ages = length pods
    /\ out = foldl add_workload acc (zip pods (zip_with (fun pod age => workload_metric samples now age pod) pods ages))).
Proof.
  revert t acc. induction pods as [| pod pods IH]; intros t acc.
  - apply yields_ret. exists [], []. by rewrite app_nil_r.
  - apply yields_bind_call. intros age. unfold yields in *. eapply ensures_mono; [| apply IH].
    intros t' out (ages & t2 & -> & Hl & ->). exists (age :: ages), (Called Now (Some age) :: t2).
    rewrite <- app_assoc. split_and!; [done | simpl; lia | done].
Qed.

(** Everything GetWorkloads answers, from what it read. *)
Lemma GetWorkloads_spec s t out : runs (GetWorkloads s) t (Some (Ok out)) ->
  exists pods observed samples now ages t2,
    t = Called ListPods (Some (Ok pods)) :: Called Now (Some observed) :: Called ListPodMetrics (Some samples)
        :: Called Now (Some now) :: t2
    /\ length ages = length (List.filter shown_pod pods)
    /\ (wr_Summary out, wr_Workloads out)
       = foldl add_workload (mkWorkloadSummary 0 0 0 fzero fzero fzero, [])
           (zip (List.filter shown_pod pods)
              (zip_with (fun pod age => workload_metric (byContainer samples) now age pod) (List.filter shown_pod pods) ages)).
Proof.
  intros Hr. refine (yields_runs (GetWorkloads s) (fun t o => forall out, o = Ok out -> _) t (Ok out) _ Hr out eq_refl).
  clear t out Hr. unfold GetWorkloads. destruct (negb (sv_k8s s)); [by apply yields_ret |].
  apply yields_bind_call. intros [pods | e]; [| by apply yields_ret].
  apply yields_bind_call. intros observed. apply yields_bind_call. intros samples. apply yields_bind_call. intros now.
  eapply yields_bind; [apply yields_extends |]. intros t' gpus [t2 ->].
  eapply yields_bind; [apply workloads_loop_spec |]. intros t' acc (ages & t3 & -> & Hl & ->).
  apply yields_ret. intros out [= <-]. exists pods, observed, samples, now, ages, (t2 ++ t3).
  split_and!; [by simpl | done | simpl; by destruct (foldl _ _ _)].
Qed.

Lemma add_workload_snd acc l : snd (foldl add_workload acc l) = snd acc ++ l.*2.
Proof.
  revert acc. induction l as [| pm l IH]; intros acc; simpl; [by rewrite app_nil_r |].
  rewrite IH. simpl. by rewrite <- app_assoc.
Qed.
Lemma zip_with_metrics samples now pods ages : length ages = length pods ->
  (zip pods (zip_with (fun pod age => workload_metric samples now age pod) pods ages)).*2
    = zip_with (fun pod age => workload_metric samples now age pod) pods ages.
Proof. intros Hl. apply snd_zip. rewrite length_zip_with. lia. Qed.

(** C31: the workloads that are answered are the listed pods of the station's
    namespaces, in order; a usage value of one of their containers is the only
    metrics sample under the name of that container, of that pod and no other, with
    a window after the pod's creation, at most thirty seconds old and at most five
    ahead, and a finite quantity that is not negative. *)
Theorem usage_is_attributed s t out : runs (GetWorkloads s) t (Some (Ok out)) ->
  exists pods samples now,
    Called ListPods (Some (Ok pods)) ∈ t /\ Called ListPodMetrics (Some samples) ∈ t /\ Called Now (Some now) ∈ t
    /\ Forall2 (fun pod w => pod_of pod (wm_Name w) (wm_Namespace w) (wm_PodName w) (wm_PodUID w) (wm_Containers w) (samples_of samples) now)
         (List.filter shown_pod pods) (wr_Workloads out).
Proof.
  intros (pods & observed & samples & now & ages & t2 & -> & Hl & Hout)%GetWorkloads_spec. exists pods, samples, now.
  split_and!; [set_solver.. |]. apply (f_equal snd) in Hout. rewrite add_workload_snd, zip_with_metrics in Hout by done.
  simpl in Hout. rewrite Hout. clear -Hl. pose proof (shown_pods pods) as Hs. revert ages Hl.
  induction (List.filter shown_pod pods) as [| pod l IH]; intros [| age ages]; simpl; try done.
  intros [= Hl]. inversion_clear Hs as [| ? ? Hp Hs']. constructor; [| by apply IH].
  split_and!; try done. apply containers_shown.
Qed.

(** What GetSnapshot answers, from what it read. *)
Lemma snapshotWorkloads_spec s t :
  yields t (snapshotWorkloads s) (fun t' o => forall workloads, o = Ok workloads -> exists pods samples now,
    t' = t ++ [Called ListPods (Some (Ok pods)); Called ListPodMetrics (Some samples); Called Now (Some now)]
    /\ workloads = snapshot_workload (byContainer samples) now <$> List.filter shown_pod pods).
Proof.
  unfold snapshotWorkloads. destruct (negb (sv_k8s s)); [by apply yields_ret |].
  apply yields_bind_call. intros [pods | e]; [| by apply yields_ret].
  apply yields_bind_call. intros samples. apply yields_bind_call. intros now. apply yields_ret.
  intros w [= <-]. exists pods, samples, now. by rewrite <- !app_assoc.
Qed.
Lemma GetSnapshot_workloads s t out : runs (GetSnapshot s) t (Some (Ok out)) -> exists pods samples now t2,
  t = Called ListPods (Some (Ok pods)) :: Called ListPodMetrics (Some samples) :: Called Now (Some now) :: t2
  /\ ts_Workloads out = snapshot_workload (byContainer samples) now <$> List.filter shown_pod pods.
Proof.
  intros Hr. refine (yields_runs (GetSnapshot s) (fun t o => forall out, o = Ok out -> _) t (Ok out) _ Hr out eq_refl).
  clear t out Hr. unfold GetSnapshot. eapply yields_bind; [apply snapshotWorkloads_spec |].
  intros t' [workloads | e] Hw; [| by apply yields_ret]. destruct (Hw _ eq_refl) as (pods & samples & now & -> & ->). clear Hw.
  apply yields_bind_call. intros observed.
  assert (forall t3 out, ts_Workloads out = snapshot_workload (byContainer samples) now <$> List.filter shown_pod pods ->
    yields (E := Reading) (([] ++ [Called ListPods (Some (Ok pods)); Called ListPodMetrics (Some samples); Called Now (Some now)]) ++ t3)
      (mret (Ok out)) (fun t o => forall out, o = @Ok string _ out -> exists pods samples now t2,
        t = Called ListPods (Some (Ok pods)) :: Called ListPodMetrics (Some samples) :: Called Now (Some now) :: t2
        /\ ts_Workloads out = snapshot_workload (byContainer samples) now <$> List.filter shown_pod pods)) as Hret.
  { intros t3 o Ho. apply yields_ret. intros ? [= <-]. by exists pods, samples, now, t3. }
  destruct (_ || _); [by apply Hret |].
  eapply yields_bind; [apply yields_extends |]. intros t' [response | e] [t2 ->]; rewrite <- app_assoc; [| by apply Hret].
  destruct (negb _); [by apply Hret |]. apply yields_bind_call. intros now'. rewrite <- app_assoc. by apply Hret.
Qed.

(** The same of the workloads of a snapshot. *)
Theorem snapshot_usage_is_attributed s t out : runs (GetSnapshot s) t (Some (Ok out)) ->
  exists pods samples now,
    Called ListPods (Some (Ok pods)) ∈ t /\ Called ListPodMetrics (Some samples) ∈ t /\ Called Now (Some now) ∈ t
    /\ Forall2 (fun pod w => pod_of pod (sw_Name w) (sw_Namespace w) (sw_PodName w) (sw_PodUID w) (sw_Containers w) (samples_of samples) now)
         (List.filter shown_pod pods) (ts_Workloads out).
Proof.
  intros (pods & samples & now & t2 & -> & ->)%GetSnapshot_workloads. exists pods, samples, now. split_and!; [set_solver.. |].
  apply Forall2_fmap_r, Forall_Forall2_diag. eapply Forall_impl; [apply shown_pods |].
  intros pod Hp. split_and!; try done. apply containers_shown.
Qed.

(** *** The summary *)

Definition active_workload (w : WorkloadMetric) : bool := (wm_Status w =? "Running")%string || (wm_Status w =? "Pending")%string.
Definition gpu_workload (w : WorkloadMetric) : bool := (wm_Type w =? "gpu")%string.
(** The summary of a list of workloads, in one pass per figure. *)
Definition summary_of (l : list WorkloadMetric) : WorkloadSummary :=
  let containers := flat_map wm_Containers (List.filter active_workload l) in
  let total request := foldl add_request fzero (request <$> containers) in
  mkWorkloadSummary (Z.of_nat (length l)) (Z.of_nat (length (List.filter gpu_workload l)))
    (Z.of_nat (length (List.filter (fun w => negb (gpu_workload w)) l)))
    (total cm_GPURequest) (total (fun c => rm_Request (cm_CPU c))) (total (fun c => rm_Request (cm_Memory c))).

Lemma add_containers w l :
  foldl add_container w l = mkWorkloadSummary (ws_TotalPods w) (ws_GPUPods w) (ws_InfraPods w)
    (foldl add_request (ws_TotalGPURequested w) (cm_GPURequest <$> l))
    (foldl add_request (ws_TotalCPURequested w) ((fun c => rm_Request (cm_CPU c)) <$> l))
    (foldl add_request (ws_TotalMemoryRequested w) ((fun c => rm_Request (cm_Memory c)) <$> l)).
Proof. revert w. induction l as [| c l IH]; intros w; simpl; [by destruct w | by rewrite IH]. Qed.
Lemma summary_of_snoc l w :
  summary_of (l ++ [w]) =
    let v := if active_workload w then foldl add_container (summary_of l) (wm_Containers w) else summary_of l in
    mkWorkloadSummary (ws_TotalPods v + 1)
      (if gpu_workload w then ws_GPUPods v + 1 else ws_GPUPods v) (if gpu_workload w then ws_InfraPods v else ws_InfraPods v + 1)
      (ws_TotalGPURequested v) (ws_TotalCPURequested v) (ws_TotalMemoryRequested v).
Proof.
  unfold summary_of. rewrite !List.filter_app, !length_app. simpl. rewrite flat_map_app.
  destruct (active_workload w), (gpu_workload w); simpl; rewrite ?add_containers, ?app_nil_r, ?fmap_app, ?foldl_app; simpl; f_equal; lia.
Qed.
Lemma add_workload_fst l acc : Forall (fun pm => active (fst pm) = active_workload (snd pm)) l ->
  fst acc = summary_of (snd acc) -> fst (foldl add_workload acc l) = summary_of (snd acc ++ l.*2).
Proof.
  revert acc. induction l as [| [pod m] l IH]; intros acc Hl Hacc; simpl; [by rewrite app_nil_r |].
  inversion_clear Hl as [| ? ? Ha Hl']. simpl in Ha. rewrite IH; [by simpl; rewrite <- app_assoc | done |].
  simpl. rewrite summary_of_snoc. unfold add_pod, gpu_workload. by rewrite Hacc, Ha.
Qed.

(** C34: the summary that the loop of GetWorkloads accumulates is the declarative
    summary of the workloads it answers with, and a workload counts as a gpu
    workload exactly when one of its containers requests or limits a GPU. *)
Theorem summary_describes_workloads s t out : runs (GetWorkloads s) t (Some (Ok out)) ->
  wr_Summary out = summary_of (wr_Workloads out)
  /\ forall w, w ∈ wr_Workloads out ->
       (wm_Type w = "gpu" /\ existsb requests_gpu (wm_Containers w) = true
        \/ wm_Type w = "infra" /\ existsb requests_gpu (wm_Containers w) = false).
Proof.
  intros (pods & observed & samples & now & ages & t2 & -> & Hl & Hout)%GetWorkloads_spec.
  set (l := zip _ _) in Hout.
  assert (Forall (fun pm => exists age, snd pm = workload_metric (byContainer samples) now age (fst pm)) l) as Hm.
  { unfold l. clear -Hl. revert ages Hl. induction (List.filter shown_pod pods) as [| pod ps IH]; intros [| age ages]; simpl; try done.
    intros [= Hl]. constructor; [by exists age | by apply IH]. }
  pose proof (f_equal fst Hout) as H1. pose proof (f_equal snd Hout) as H2. simpl in H1, H2.
  rewrite add_workload_snd in H2. rewrite add_workload_fst in H1; [| | done].
  - rewrite H1, H2. split; [done |]. simpl. intros w (pm & -> & Hpm)%list_elem_of_fmap.
    rewrite Forall_forall in Hm. destruct (Hm _ Hpm) as [age ->]. simpl. destruct (existsb _ _) eqn:E; [by left | by right].
  - eapply Forall_impl; [exact Hm |]. by intros [pod m] [age ->].
Qed.

(** ** The samples behind a snapshot *)

(** A row whose last value is a sample taken between half a minute ago and five
    seconds ahead. *)
Definition recent (now : Time) (row : promRow) : bool :=
  match last (pr_Values row) with
  | Some newest =>
      match snapshotSample newest with Some (_, at_) => (now - 30 * second <=? at_) && (at_ <=? now + 5 * second) | None => false end
  | None => false
  end.
(** One whose last value is a sample that is older. *)
Definition too_old (now : Time) (row : promRow) : bool :=
  match last (pr_Values row) with
  | Some newest => match snapshotSample newest with Some (_, at_) => at_ <? now - 30 * second | None => false end
  | None => false
  end.
(** What is known of a recent row: its labels, its last value and the instant of it, a
    finite number that is not negative; as the sample before it, where one is known,
    the value before the last. *)
Record measured (now : Time) (row : promRow) (r : snapshotSeries) : Prop := {
  ms_labels : ss_labels r = pr_Metric row;
  ms_newest : exists newest, last (pr_Values row) = Some newest /\ snapshotSample newest = Some (ss_value r, ss_at r);
  ms_recent : now - 30 * second <= ss_at r <= now + 5 * second;
  ms_value : finite (ss_value r) = true /\ fltb (ss_value r) fzero = false;
  ms_previous : forall p, ss_previous r = Some p <-> exists older value newest,
    pr_Values row = older ++ [value; newest] /\ snapshotSample value = Some (p, ss_before r) }.

Lemma snapshotSample_finite value n at_ : snapshotSample value = Some (n, at_) -> finite n = true /\ fltb n fzero = false.
Proof.
  unfold snapshotSample. destruct value as [| [ts | s |] [| x [|]]]; try done.
  destruct (parseValue _) as [v err]. destruct (_ || _) eqn:E; [done |]. intros [= <- _].
  repeat apply orb_false_iff in E as [E ?]. unfold finite. split; [| done].
  repeat match goal with H : _ = false |- _ => rewrite H end. done.
Qed.

Lemma series_of_measured now row :
  match fst (series_of now row) with Some r => recent now row = true /\ measured now row r | None => recent now row = false end.
Proof.
  unfold series_of, recent. rewrite <- head_reverse.
  destruct (reverse (pr_Values row)) as [| newest older] eqn:Er; [done |]. cbn [head].
  destruct (snapshotSample newest) as [[v at_] |] eqn:Es; [| done].
  destruct (time_after _ _) eqn:Ea; unfold time_after in Ea; bool_norm; [simpl; apply andb_false_iff; right; lia |].
  rewrite time_sub_ltb by (unfold second, min_int64, max_int64; lia).
  destruct (_ <? _) eqn:El; bool_norm; [simpl; apply andb_false_iff; left; lia |].
  destruct (match older with [] => _ | _ => _ end) as [q b] eqn:Eo. simpl.
  assert (pr_Values row = reverse older ++ [newest]) as Hv by (by rewrite <- reverse_cons, <- Er, reverse_involutive).
  split; [apply andb_true_iff; lia |]. split; simpl; [done | | lia | by eapply snapshotSample_finite |].
  - exists newest. by rewrite Hv, last_snoc.
  - intros p. destruct older as [| value older]; [injection Eo as <- <- | rewrite reverse_cons, <- app_assoc in Hv].
    + split; [done |]. intros (l & value & x & Hl & _). rewrite Hv in Hl. apply (f_equal length) in Hl. rewrite !length_app, length_reverse in Hl. simpl in Hl. lia.
    + split.
      * intros ->. exists (reverse older), value, newest. split; [done |]. destruct (snapshotSample value) as [[? ?] |]; congruence.
      * intros (l & value' & x & Hl & Hs). rewrite Hv in Hl. apply (app_inj_2 _ _ [value; newest] [value'; x]) in Hl as [_ [= <- <-]]; [| done].
        rewrite Hs in Eo. congruence.
Qed.

Lemma series_of_stale now row : snd (series_of now row) = too_old now row.
Proof.
  unfold series_of, too_old. rewrite <- head_reverse. destruct (reverse (pr_Values row)) as [| newest older]; [done |]. cbn [head].
  destruct (snapshotSample newest) as [[v at_] |]; [| done].
  destruct (time_after _ _) eqn:Ea; unfold time_after in Ea; bool_norm; [symmetry; apply Z.ltb_ge; unfold second in *; lia |].
  rewrite time_sub_ltb by (unfold second, min_int64, max_int64; lia).
  destruct (Z.ltb_spec (30 * second) (now - at_)), (Z.ltb_spec at_ (now - 30 * second)); try lia; [done |].
  by destruct (match older with [] => _ | _ => _ end).
Qed.
(** The samples of a metric are those of its recent rows, in their order. *)
Lemma seriesMap_measured now rows name : Forall2 (measured now)
  (List.filter (fun row => recent now row && (label row "__name__" =? name)%string) rows) (group (seriesMap now rows) name).
Proof.
  unfold seriesMap. rewrite (group_filled fst snd). unfold group. rewrite lookup_empty. cbn [from_option id app].
  induction rows as [| row rows IH]; cbn [List.filter omap list_omap]; [constructor |]. unfold series_key at 1.
  pose proof (series_of_measured now row) as Hm. destruct (fst (series_of now row)) as [r |]; [destruct Hm as [-> Hm] | rewrite Hm; exact IH].
  cbn [andb List.filter fst]. destruct (label row "__name__" =? name)%string; [| exact IH]. by constructor.
Qed.
Lemma series_measured now rows name r : r ∈ group (seriesMap now rows) name -> now - 30 * second <= ss_at r.
Proof.
  intros Hin. pose proof (seriesMap_measured now rows name) as Hm.
  apply list_elem_of_lookup in Hin as [i Hi]. destruct (Forall2_lookup_r _ _ _ _ _ Hm Hi) as (row & _ & Hr). apply (ms_recent _ _ _ Hr).
Qed.

(** *** The oldest instant *)

(** [b] is [a], or the instant of a sample and not after [a]; no instant is zero. *)
Definition aged (ats : Time -> Prop) (a b : Time) : Prop := (b = a \/ ats b /\ 0 < b) /\ (0 < a -> b <= a).
Lemma aged_refl ats a : aged ats a a.
Proof. split; [by left | lia]. Qed.
Lemma aged_trans ats a b c : 0 <= a -> aged ats a b -> aged ats b c -> aged ats a c.
Proof. intros Ha [[-> | [Hb ?]] Hab] [[-> | [Hc ?]] Hbc]; split; auto; lia. Qed.
Lemma aged_nonneg ats a b : aged ats a b -> 0 <= a -> 0 <= b.
Proof. intros [[-> | [_ ?]] _]; lia. Qed.
Lemma aged_pos ats a b : aged ats a b -> 0 < a -> 0 < b <= a.
Proof. intros [[-> | [_ ?]] Hab]; [lia |]. intros Ha. specialize (Hab Ha). lia. Qed.
Lemma oldest_aged (ats : Time -> Prop) a c : ats c -> 0 < c -> 0 <= a -> aged ats a (oldest a c) /\ 0 < oldest a c <= c.
Proof.
  intros Hc Hp Ha. unfold oldest, is_zero, time_before, aged.
  destruct (Z.eqb_spec a 0), (Z.ltb_spec c a); simpl; split_and!; auto; lia.
Qed.

(** *** GPUs *)

(** The samples of DCGM of one card, by metric. *)
Lemma add_gpu_rows name rows byID id n : id <> "" ->
  group (default ∅ (foldl (add_gpu_row name) byID rows !! id)) n
  = group (default ∅ (byID !! id)) n ++ (if decide (name = n) then List.filter (fun r => (slabel r "UUID" =? id)%string) rows else []).
Proof.
  intros Hid. revert byID. induction rows as [| r rows IH]; intros byID; simpl; [destruct (decide _); by rewrite app_nil_r |].
  rewrite IH. unfold add_gpu_row at 1. destruct (String.eqb_spec (slabel r "UUID") "") as [He | He].
  - rewrite He. destruct (String.eqb_spec "" id); [congruence | done].
  - destruct (String.eqb_spec (slabel r "UUID") id) as [-> | Hne].
    + rewrite lookup_insert_eq. simpl. rewrite group_append_at, <- app_assoc. by destruct (decide _).
    + by rewrite lookup_insert_ne.
Qed.
Definition dcgm_of (id n : string) (named : string * list snapshotSeries) : list snapshotSeries :=
  if decide (fst named = n) then List.filter (fun r => (slabel r "UUID" =? id)%string) (snd named) else [].
Lemma gpusByID_fold l byID id n : id <> "" -> has_prefix n "DCGM_" = true ->
  group (default ∅ (foldl (fun byID named => if has_prefix (fst named) "DCGM_" then foldl (add_gpu_row (fst named)) byID (snd named) else byID) byID l !! id)) n
  = group (default ∅ (byID !! id)) n ++ flat_map (dcgm_of id n) l.
Proof.
  intros Hid Hn. revert byID. induction l as [| [m rows] l IH]; intros byID; cbn [foldl fst snd flat_map]; [by rewrite app_nil_r |].
  rewrite IH. unfold dcgm_of at 2. cbn [fst snd]. destruct (has_prefix m "DCGM_") eqn:Em.
  - rewrite add_gpu_rows by done. by rewrite <- app_assoc.
  - destruct (decide (m = n)) as [-> | _]; [congruence | done].
Qed.

(** A loop over the entries of a map that looks at one key. *)
Lemma flat_map_none {A B} (f : A -> list B) l : (forall x, x ∈ l -> f x = []) -> flat_map f l = [].
Proof.
  induction l as [| x l IH]; intros Hf; [done |]. simpl. rewrite Hf by (by left). apply IH. intros y Hy. apply Hf. by right.
Qed.
Lemma flat_map_range {A B} `{!MapRangeLaws R} (m : gmap string A) (f : string * A -> list B) k :
  (forall k' x, k' <> k -> f (k', x) = []) -> flat_map f (range_map A m) ≡ₚ match m !! k with Some x => f (k, x) | None => [] end.
Proof.
  intros Hf. rewrite (Permutation_flat_map f (range_map_perm A m)). destruct (m !! k) as [x |] eqn:Ek.
  - rewrite <- (insert_delete_id m k x Ek).
    rewrite (Permutation_flat_map f (map_to_list_insert (delete k m) k x (lookup_delete_eq m k))). simpl.
    rewrite flat_map_none; [by rewrite app_nil_r |]. intros [k' y] Hin%elem_of_map_to_list. apply Hf.
    intros ->. by rewrite lookup_delete_eq in Hin.
  - rewrite flat_map_none; [done |]. intros [k' y] Hin%elem_of_map_to_list. apply Hf. intros ->. congruence.
Qed.

Section Hardware.
Context `{!MapRangeLaws R} (series : gmap string (list snapshotSeries)).

Lemma gpu_fields id n : id <> "" -> has_prefix n "DCGM_" = true ->
  group (default ∅ (gpusByID series !! id)) n ≡ₚ List.filter (fun r => (slabel r "UUID" =? id)%string) (group series n).
Proof.
  intros Hid Hn. unfold gpusByID. rewrite gpusByID_fold by done. rewrite lookup_empty. simpl.
  rewrite (flat_map_range series (dcgm_of id n) n).
  - unfold group, dcgm_of. simpl. destruct (series !! n); simpl; [by rewrite decide_True | done].
  - intros k' x Hk. unfold dcgm_of. simpl. by rewrite decide_False.
Qed.
Lemma add_gpu_row_named name byID r : "" ∉ dom byID -> "" ∉ dom (add_gpu_row name byID r).
Proof.
  intros Hb. unfold add_gpu_row. destruct (String.eqb_spec (slabel r "UUID") ""); [done |].
  rewrite dom_insert. intros [Heq%elem_of_singleton | ?]%elem_of_union; [congruence | done].
Qed.
Lemma gpusByID_named : "" ∉ dom (gpusByID series).
Proof.
  unfold gpusByID. assert (forall l byID, "" ∉ dom byID -> "" ∉ dom (foldl (fun (byID : gmap string (gmap string (list snapshotSeries))) named =>
    if has_prefix (fst named) "DCGM_" then foldl (add_gpu_row (fst named)) byID (snd named) else byID) byID l)) as Hl.
  { induction l as [| [m rows] l IH]; intros byID Hb; cbn [foldl fst snd]; [done |]. apply IH. destruct (has_prefix m "DCGM_"); [| done].
    clear -Hb. revert byID Hb. induction rows as [| r rows IH]; intros byID Hb; simpl; [done |]. by apply IH, add_gpu_row_named. }
  apply Hl. by rewrite dom_empty.
Qed.

(** The one sample of a field of a card. *)
Definition card_sample (id field : string) (r : snapshotSeries) : Prop :=
  List.filter (fun r => (slabel r "UUID" =? id)%string) (group series ("DCGM_FI_DEV_" +:+ field)) = [r].
(** A sample that names this card: its index, device and model. *)
Definition speaks_of (index : Z) (device model : string) (r : snapshotSeries) : Prop :=
  atoi (slabel r "gpu") = Some index /\ 0 <= index /\ slabel r "device" = device /\ slabel r "modelName" = model.
(** A field that was asked for is answered exactly by the sample that is used. *)
Definition reads (used : list (string * snapshotSeries)) (fo : string * option float64) : Prop :=
  forall v, snd fo = Some v <-> exists r, (fst fo, r) ∈ used /\ v = ss_value r.
Lemma reads_cons used field r : (forall x, (field, x) ∉ used) -> reads ((field, r) :: used) (field, Some (ss_value r)).
Proof.
  intros Hn v. split; simpl.
  - intros [= <-]. exists r. split; [by left | done].
  - intros (x & [Heq | Hx]%elem_of_cons & ->); [congruence | by destruct (Hn x)].
Qed.
Lemma reads_none used field : (forall x, (field, x) ∉ used) -> reads used (field, None).
Proof. intros Hn v. split; [done |]. intros (x & Hx & _). by destruct (Hn x). Qed.
Lemma reads_on used field r fo : fst fo <> field -> reads used fo -> reads ((field, r) :: used) fo.
Proof.
  intros Hne Hr v. rewrite (Hr v). split; intros (x & Hx & ->); exists x; (split; [| done]); [by right |].
  by apply elem_of_cons in Hx as [Heq | ?]; [congruence |].
Qed.
(** What [get] has used so far, of the fields it has been asked for: every sole
    sample of the card under one identity, and the oldest instant among them. *)
Record seen_inv (id : string) (asked : list (string * option float64)) (k : gpuSeen) (used : list (string * snapshotSeries)) : Prop := {
  si_used : forall field r, (field, r) ∈ used -> field ∈ asked.*1 /\ card_sample id field r
            /\ speaks_of (gk_Index k) (gk_Device k) (gk_ModelName k) r /\ gk_at k <= ss_at r;
  si_all : forall field r index device model, field ∈ asked.*1 -> card_sample id field r -> speaks_of index device model r ->
           used = [] \/ speaks_of (gk_Index k) (gk_Device k) (gk_ModelName k) r -> (field, r) ∈ used;
  si_reads : Forall (reads used) asked;
  si_identity : gk_identity k = negb (bool_decide (used = []));
  si_at : used = [] /\ gk_at k = 0 \/ 0 < gk_at k /\ exists field r, (field, r) ∈ used /\ gk_at k = ss_at r }.

(** Every instant of the series is one of a clock. *)
Context (Hpos : forall name r, r ∈ group series name -> 0 < ss_at r).

Lemma card_sample_in id field r : card_sample id field r -> r ∈ group series ("DCGM_FI_DEV_" +:+ field) /\ slabel r "UUID" = id.
Proof. intros [Hin He]%list_filter_singleton. by bool_norm. Qed.
Lemma card_sample_only id field r r' : card_sample id field r -> card_sample id field r' -> r = r'.
Proof. unfold card_sample. congruence. Qed.
Lemma dcgm_prefix field : has_prefix ("DCGM_FI_DEV_" +:+ field) "DCGM_" = true.
Proof. done. Qed.
Lemma speaks_as i d m i' d' m' r : speaks_of i d m r -> speaks_of i' d' m' r -> i = i' /\ d = d' /\ m = m'.
Proof. intros (H1 & _ & H2 & H3) (H4 & _ & H5 & H6). split_and!; congruence. Qed.

Lemma seen_start id : seen_inv id [] (mkSeen false 0 "" "" zero_time) [].
Proof. split; [by intros ? ? ?%elem_of_nil | by intros ? ? ? ? ? ?%elem_of_nil | done | done | by left]. Qed.
Lemma seen_fresh id asked k used field : seen_inv id asked k used -> field ∉ asked.*1 -> forall r, (field, r) ∉ used.
Proof. intros Hk Hf r Hin. by apply (si_used _ _ _ _ Hk) in Hin as [? _]. Qed.
(** A field that has no sample of this card. *)
Lemma seen_skip id asked k used field : seen_inv id asked k used -> field ∉ asked.*1 ->
  (forall r index device model, card_sample id field r -> speaks_of index device model r ->
     used = [] \/ speaks_of (gk_Index k) (gk_Device k) (gk_ModelName k) r -> False) ->
  seen_inv id ((field, None) :: asked) k used.
Proof.
  intros Hk Hf Hno. pose proof (seen_fresh _ _ _ _ _ Hk Hf) as Hn. destruct Hk as [Hu Ha Hr Hi Ht]. split; simpl; [| | | done | done].
  - intros f r Hin. destruct (Hu f r Hin) as [? ?]. split; [by right | done].
  - intros f r i d m [-> | Hq]%elem_of_cons Hc Hs Hk; [by destruct (Hno r i d m) | by eapply Ha].
  - constructor; [by apply reads_none | done].
Qed.
(** A field that has one. *)
Lemma seen_take id asked k used field r index : seen_inv id asked k used -> field ∉ asked.*1 -> card_sample id field r ->
  speaks_of index (slabel r "device") (slabel r "modelName") r ->
  (used = [] \/ index = gk_Index k /\ slabel r "device" = gk_Device k /\ slabel r "modelName" = gk_ModelName k) ->
  seen_inv id ((field, Some (ss_value r)) :: asked)
    (mkSeen true index (slabel r "device") (slabel r "modelName") (oldest (gk_at k) (ss_at r))) ((field, r) :: used).
Proof.
  intros Hk Hnf Hf Hs Hsame. pose proof (seen_fresh _ _ _ _ _ Hk Hnf) as Hn. destruct Hk as [Hu Ha Hrd Hi Ht].
  destruct (card_sample_in id field r Hf) as [Hin _]. pose proof (Hpos _ _ Hin) as Hr.
  assert (0 <= gk_at k) as Hk by (destruct Ht as [[_ ->] | [? _]]; lia).
  destruct (oldest_aged (fun t => t = ss_at r) (gk_at k) (ss_at r) eq_refl Hr Hk) as [[Ho1 Ho2] Ho3]. split; simpl.
  - intros f x [Heq | Hin']%elem_of_cons; [injection Heq as -> ->; split_and!; [by left | done | done | lia] |].
    destruct (Hu _ _ Hin') as (Hq & Hc & Hx & Hle). destruct Hsame as [-> | (-> & -> & ->)]; [by apply elem_of_nil in Hin' |].
    split_and!; [by right | done | done |]. destruct Ht as [[-> _] | [Hp _]]; [by apply elem_of_nil in Hin' |]. specialize (Ho2 Hp). lia.
  - intros f x i d m [-> | Hq]%elem_of_cons Hc Hx Hsp; [rewrite (card_sample_only _ _ _ _ Hc Hf); by left |]. right.
    destruct Hsp as [? | Hsp]; [done |]. eapply Ha; eauto. destruct Hsame as [-> | (E1 & E2 & E3)]; [by left | right]. by rewrite <- E1, <- E2, <- E3.
  - constructor; [by apply reads_cons |]. rewrite Forall_forall in Hrd |- *. intros fo Hfo. apply reads_on; [| by apply Hrd].
    intros <-. by apply Hnf, list_elem_of_fmap_2.
  - done.
  - right. split; [lia |]. destruct Ho1 as [He | [He _]].
    + destruct Ht as [[-> H0] | (Hp & f' & r' & Hin' & He')]; [lia |]. exists f', r'. split; [by right | congruence].
    + exists field, r. split; [by left | done].
Qed.
Lemma gpu_get_inv id asked k used field : id <> "" -> field ∉ asked.*1 -> seen_inv id asked k used ->
  let '(o, k') := gpu_get (default ∅ (gpusByID series !! id)) field k in exists used', seen_inv id ((field, o) :: asked) k' used'.
Proof.
  intros Hid Hnf Hk. unfold gpu_get. pose proof (gpu_fields id ("DCGM_FI_DEV_" +:+ field) Hid (dcgm_prefix field)) as Hf.
  pose proof (fun Hno => ex_intro (seen_inv id ((field, None) :: asked) k) used (seen_skip _ _ _ _ _ Hk Hnf Hno)) as Hskip.
  destruct (group _ _) as [| r [| r1 l]].
  - apply Hskip. intros x i d m Hc. symmetry in Hf. apply Permutation_nil_r in Hf. unfold card_sample in Hc. by rewrite Hf in Hc.
  - symmetry in Hf. apply Permutation_singleton_r in Hf. change (card_sample id field r) in Hf.
    assert (forall x i d m, card_sample id field x -> speaks_of i d m x -> speaks_of i d m r) as Hone
      by (intros x i d m Hc; by rewrite (card_sample_only _ _ _ _ Hc Hf)).
    destruct (atoi (slabel r "gpu")) as [index |] eqn:Ei.
    2: { apply Hskip. intros x i d m Hc Hs. destruct (Hone _ _ _ _ Hc Hs) as [? _]. congruence. }
    destruct (index <? 0) eqn:En; bool_norm.
    { apply Hskip. intros x i d m Hc Hs. destruct (Hone _ _ _ _ Hc Hs) as (? & ? & _). assert (i = index) by congruence. lia. }
    destruct (gk_identity k && _) eqn:Eid; rewrite (si_identity _ _ _ _ Hk) in Eid.
    + apply Hskip. apply andb_true_iff in Eid as [Eid Ene]. rewrite negb_true_iff, bool_decide_eq_false in Eid.
      intros x i d m Hc _ [Hno | Hs]; [done |]. destruct (Hone _ _ _ _ Hc Hs) as (Hx & _ & Hd & Hm).
      assert (index = gk_Index k) as -> by congruence. by rewrite Z.eqb_refl, Hd, Hm, !String.eqb_refl in Ene.
    + exists ((field, r) :: used). apply seen_take; try done. destruct (decide (used = [])) as [| Hne]; [by left | right].
      rewrite bool_decide_false in Eid by done. simpl in Eid. apply orb_false_iff in Eid as [Eid E3]. apply orb_false_iff in Eid as [E1 E2].
      by bool_norm.
  - apply Hskip. intros x i d m Hc. unfold card_sample in Hc. rewrite Hc in Hf. apply Permutation_length in Hf. done.
Qed.

(** The reading of a field of a card that is shown: the card's only sample of it,
    under the identity that is shown. *)
Definition card_reads (g : SnapshotGPU) (field : string) (r : snapshotSeries) : Prop :=
  card_sample (sg_UUID g) field r /\ speaks_of (sg_Index g) (sg_Device g) (sg_ModelName g) r.
Definition card_fields : list string := ["FB_FREE"; "FB_USED"; "FB_TOTAL"; "GPU_UTIL"; "GPU_TEMP"; "POWER_USAGE"].
(** A card as it is shown: each figure is the reading of its field, utilization only
    up to a hundred, total memory the sum of the others when it is not read itself;
    the instant shown is the oldest of the readings. *)
Record gpu_shown (g : SnapshotGPU) : Prop := {
  gw_uuid : sg_UUID g <> "" /\ sg_Quality g = "fresh";
  gw_at : exists at_, sg_SampledAt g = rfc3339 at_ /\ (forall field r, field ∈ card_fields -> card_reads g field r -> at_ <= ss_at r)
          /\ exists field r, field ∈ card_fields /\ card_reads g field r /\ at_ = ss_at r;
  gw_free : forall v, sg_FreeVRAMMB g = Some v <-> exists r, card_reads g "FB_FREE" r /\ v = ss_value r;
  gw_usedvram : forall v, sg_UsedVRAMMB g = Some v <-> exists r, card_reads g "FB_USED" r /\ v = ss_value r;
  gw_util : forall v, sg_Utilization g = Some v <-> exists r, card_reads g "GPU_UTIL" r /\ v = ss_value r /\ fltb hundred v = false;
  gw_temp : forall v, sg_TemperatureC g = Some v <-> exists r, card_reads g "GPU_TEMP" r /\ v = ss_value r;
  gw_power : forall v, sg_PowerWatts g = Some v <-> exists r, card_reads g "POWER_USAGE" r /\ v = ss_value r;
  gw_total : forall v, sg_TotalVRAMMB g = Some v <-> (exists r, card_reads g "FB_TOTAL" r /\ v = ss_value r)
             \/ (forall r, ~ card_reads g "FB_TOTAL" r)
                /\ exists f u, sg_FreeVRAMMB g = Some f /\ sg_UsedVRAMMB g = Some u /\ v = fadd f u }.

Ltac listed := apply list_elem_of_In; simpl; tauto.
Ltac next_field field :=
  match goal with Hk : seen_inv ?id ?asked ?k ?used |- context [gpu_get ?fs field ?k] =>
    pose proof (gpu_get_inv id asked k used field ltac:(assumption) ltac:(set_solver) Hk) as Hget; clear Hk;
    destruct (gpu_get fs field k) as [? ?]; destruct Hget as [? Hk]
  end.
Lemma snapshot_gpu_shown id : id <> "" ->
  match snapshot_gpu id (default ∅ (gpusByID series !! id)) with
  | Some g => sg_UUID g = id /\ gpu_shown g
  | None => forall field r index device model, field ∈ card_fields -> card_sample id field r -> ~ speaks_of index device model r
  end.
Proof.
  intros Hid. unfold snapshot_gpu. pose proof (seen_start id) as Hk.
  next_field "FB_FREE". next_field "FB_USED". next_field "FB_TOTAL". next_field "GPU_UTIL". next_field "GPU_TEMP". next_field "POWER_USAGE".
  match goal with Hk : seen_inv _ _ ?k0 ?u |- _ => set (final := u) in *; set (k := k0) in *; destruct Hk as [Hu Ha Hr Hi Ht] end.
  assert (forall field, field ∈ card_fields -> field ∈ (["POWER_USAGE"; "GPU_TEMP"; "GPU_UTIL"; "FB_TOTAL"; "FB_USED"; "FB_FREE"] : list string)) as Hfields
    by (intros f; unfold card_fields; set_solver).
  destruct (is_zero (gk_at k)) eqn:Ez; unfold is_zero in Ez; bool_norm.
  - destruct Ht as [[Hnil _] | [? _]]; [| lia]. intros f r i d m Hf Hc Hs.
    pose proof (Ha f r i d m (Hfields f Hf) Hc Hs (or_introl Hnil)) as Hin. rewrite Hnil in Hin. by apply elem_of_nil in Hin.
  - split; [done |]. destruct Ht as [[_ ?] | [_ Ht]]; [done |]. clear Hi.
    match goal with |- gpu_shown ?x => set (card := x) end.
    assert (forall f r, (f, r) ∈ final <-> f ∈ card_fields /\ card_reads card f r) as Hiff.
    { intros f r. split.
      - intros Hin. destruct (Hu f r Hin) as (Hf & ? & ? & _). split; [| done]. unfold card_fields. set_solver +Hf.
      - intros (Hf & Hc & Hs). eapply Ha; [by apply Hfields | done | exact Hs | by right]. }
    assert (forall f o, f ∈ card_fields -> reads final (f, o) -> forall v, o = Some v <-> exists r, card_reads card f r /\ v = ss_value r) as Hshow.
    { intros f o' Hf Ho v. rewrite (Ho v). simpl. setoid_rewrite Hiff. naive_solver. }
    rewrite !Forall_cons in Hr. destruct Hr as (R6 & R5 & R4 & R3 & R2 & R1 & _).
    pose proof (Hshow "FB_FREE" _ ltac:(listed) R1) as E1. pose proof (Hshow "FB_USED" _ ltac:(listed) R2) as E2.
    pose proof (Hshow "FB_TOTAL" _ ltac:(listed) R3) as E3. pose proof (Hshow "GPU_UTIL" _ ltac:(listed) R4) as E4.
    pose proof (Hshow "GPU_TEMP" _ ltac:(listed) R5) as E5. pose proof (Hshow "POWER_USAGE" _ ltac:(listed) R6) as E6.
    clear R1 R2 R3 R4 R5 R6. split; simpl; try done.
    + exists (gk_at k). split_and!; [done | |].
      * intros f r Hf Hrd. eapply Hu, Hiff. by split.
      * destruct Ht as (f & r & Hin & ?). apply Hiff in Hin as [? ?]. by exists f, r.
    + intros v. specialize (E4 v). destruct (opt_ltb hundred _) eqn:Eu.
      * split; [done |]. intros (r & Hc & -> & Hle).
        assert (exists x, card_reads card "GPU_UTIL" x /\ ss_value r = ss_value x) as Hx by (by exists r).
        apply E4 in Hx. by rewrite Hx in Eu; simpl in Eu; congruence.
      * rewrite E4. split; [| naive_solver]. intros (r & Hc & ->). exists r. split_and!; [done | done |].
        assert (exists x, card_reads card "GPU_UTIL" x /\ ss_value r = ss_value x) as Hx by (by exists r).
        apply E4 in Hx. by rewrite Hx in Eu.
    + intros v. destruct o1 as [t |].
      * rewrite E3. split; [by left |]. intros [? | [Hno _]]; [done |]. destruct (proj1 (E3 t) eq_refl) as (r & Hc & _). by destruct (Hno r).
      * split.
        -- intros Ho. right. split; [intros r Hc; pose proof (proj2 (E3 (ss_value r)) (ex_intro _ r (conj Hc eq_refl))); done |].
           repeat (case_match; try done). simplify_eq. by eexists _, _.
        -- intros [Ht' | (_ & f & u & -> & -> & ->)]; [by apply E3 in Ht' | done].
Qed.

Lemma snapshotGPUs_shown : StronglySorted (fun a b => str_le (sg_UUID a) (sg_UUID b)) (snapshotGPUs series) /\ NoDup (sg_UUID <$> snapshotGPUs series)
  /\ (forall g, g ∈ snapshotGPUs series -> gpu_shown g)
  /\ forall id field r index device model, id <> "" -> field ∈ card_fields -> card_sample id field r -> speaks_of index device model r ->
       exists g, g ∈ snapshotGPUs series /\ sg_UUID g = id.
Proof.
  unfold snapshotGPUs. set (l := omap _ _).
  assert (forall id fields g, (id, fields) ∈ range_map _ (gpusByID series) -> snapshot_gpu id fields = Some g ->
    sg_UUID g = id /\ gpu_shown g) as Hone.
  { intros id fields g Hin Hg. rewrite (range_map_perm _ (gpusByID series)) in Hin. apply elem_of_map_to_list in Hin.
    pose proof (snapshot_gpu_shown id) as Hs. rewrite Hin in Hs. simpl in Hs. rewrite Hg in Hs. apply Hs.
    intros ->. apply gpusByID_named. by eapply elem_of_dom_2. }
  split; [apply sort_by_sorted | split_and!].
  - rewrite sort_by_perm. unfold l. clear l.
    assert (NoDup (range_map _ (gpusByID series)).*1) as Hnd
      by (rewrite (range_map_perm _ (gpusByID series)); apply NoDup_fst_map_to_list).
    induction (range_map _ (gpusByID series)) as [| [id fields] rest IH]; [constructor |]. simpl in *.
    apply NoDup_cons in Hnd as [Hni Hnd]. specialize (IH (fun i f g Hin => Hone i f g (list_elem_of_further _ _ _ Hin)) Hnd).
    destruct (snapshot_gpu id fields) as [g |] eqn:Eg; [| done]. simpl. constructor; [| done].
    intros (g' & Heq & Hin)%list_elem_of_fmap. apply list_elem_of_omap in Hin as ([id' fields'] & Hin & Hg'). simpl in Hg'.
    destruct (Hone _ _ _ (list_elem_of_here _ _) Eg) as [E1 _].
    destruct (Hone _ _ _ (list_elem_of_further _ _ _ Hin) Hg') as [E2 _].
    apply Hni, list_elem_of_fmap. exists (id', fields'). split; [simpl; congruence | done].
  - intros g. rewrite elem_of_sort_by. intros ([id fields] & Hin & Hg)%list_elem_of_omap. by destruct (Hone _ _ _ Hin Hg) as [_ ?].
  - intros id field r i d m Hid Hf Hc Hs. pose proof (snapshot_gpu_shown id Hid) as Hg.
    assert (is_Some (gpusByID series !! id)) as [fields Hl].
    { destruct (gpusByID series !! id) as [x |] eqn:El; [done |].
      pose proof (gpu_fields id ("DCGM_FI_DEV_" +:+ field) Hid (dcgm_prefix field)) as Hp. rewrite El in Hp. simpl in Hp.
      unfold group in Hp at 1. rewrite lookup_empty in Hp. unfold card_sample in Hc. rewrite Hc in Hp. apply Permutation_length in Hp. done. }
    rewrite Hl in Hg. simpl in Hg. destruct (snapshot_gpu id fields) as [g |] eqn:Eg; [| by destruct (Hg _ _ _ _ _ Hf Hc Hs)].
    exists g. split; [| by destruct Hg]. apply elem_of_sort_by. unfold l. apply list_elem_of_omap. exists (id, fields). split; [| done].
    rewrite (range_map_perm _ (gpusByID series)). by apply elem_of_map_to_list.
Qed.

(** *** The host *)

Definition instants (t : Time) : Prop := exists name r, r ∈ group series name /\ t = ss_at r.
(** The only sample of a list. *)
Definition only (l : list snapshotSeries) : option snapshotSeries := match l with [r] => Some r | _ => None end.
(** What is read of a metric of the host: the value of its only series. *)
Definition host_reading (name : string) : option float64 := ss_value <$> only (group series name).
(** No sample of a list is older than [at_]. *)
Definition dates (at_ : Time) (l : list snapshotSeries) : Prop := forall r, r ∈ l -> at_ <= ss_at r.
Definition read_samples (name : string) : list snapshotSeries := option_list (only (group series name)).

Lemma instant_aged a name r : 0 <= a -> r ∈ group series name -> aged instants a (oldest a (ss_at r)) /\ 0 < oldest a (ss_at r) <= ss_at r.
Proof. intros Ha Hr. apply oldest_aged; [by exists name, r | by eapply Hpos | done]. Qed.
(** [b] is the instant after samples that were read from [a] on. *)
Definition reached (a : Time) (l : list snapshotSeries) (b : Time) : Prop := aged instants a b /\ forall r, r ∈ l -> 0 < b <= ss_at r.
Lemma reached_nil a : reached a [] a.
Proof. split; [apply aged_refl | by intros ? ?%elem_of_nil]. Qed.
Lemma reached_one a name r : 0 <= a -> r ∈ group series name -> reached a [r] (oldest a (ss_at r)).
Proof. intros Ha Hr. destruct (instant_aged a name r Ha Hr). split; [done |]. by intros x ->%list_elem_of_singleton. Qed.
Lemma reached_app a l b l' c : 0 <= a -> reached a l b -> reached b l' c -> reached a (l ++ l') c.
Proof.
  intros Ha [Hab Hl] [Hbc Hl']. split; [by eapply aged_trans |]. intros r [Hr | Hr]%elem_of_app; [| by apply Hl'].
  specialize (Hl r Hr). destruct (aged_pos _ _ _ Hbc); lia.
Qed.
Lemma reached_nonneg a l b : 0 <= a -> reached a l b -> 0 <= b.
Proof. intros Ha [Hab _]. by eapply aged_nonneg. Qed.
Lemma reached_dates a l b : reached a l b -> dates b l.
Proof. intros [_ Hl] r Hr. by apply Hl. Qed.
Lemma host_get_shown name a : 0 <= a -> reached a (read_samples name) (snd (host_get series name a))
  /\ fst (host_get series name a) = host_reading name.
Proof.
  intros Ha. unfold host_get, host_reading, read_samples. destruct (group series name) as [| r [| ? ?]] eqn:Eg; simpl; try (split; [apply reached_nil | done]).
  split; [| done]. apply (reached_one a name); [done |]. rewrite Eg. by left.
Qed.

(** The processors: the idle samples, one for each under its label. *)
Definition idle (r : snapshotSeries) : bool := (slabel r "mode" =? "idle")%string.
Definition idle_samples : list snapshotSeries := List.filter idle (group series "node_cpu_seconds_total").
Definition cpu_samples (cpu : string) : list snapshotSeries := List.filter (fun r => (slabel r "cpu" =? cpu)%string) idle_samples.
Definition identified : Prop := forall r, r ∈ idle_samples -> slabel r "cpu" <> "" /\ cpu_samples (slabel r "cpu") = [r].
(** The share of its time a processor idled between its last two samples: they are
    at most thirty seconds apart, the counter did not go back, and the share is at
    most five percent over one. *)
Definition idle_rate (r : snapshotSeries) (rate : float64) : Prop :=
  exists previous delta, ss_previous r = Some previous /\ delta = Seconds (time_sub (ss_at r) (ss_before r))
  /\ fleb delta fzero = false /\ fltb (of_int 30) delta = false /\ fltb (ss_value r) previous = false
  /\ rate = fdiv (fsub (ss_value r) previous) delta
  /\ fltb rate fzero = false /\ fltb (fdiv (of_int 105) (of_int 100)) rate = false.
(** A hundred times what the mean share, each counted up to one, leaves of one. *)
Definition utilization (rates : list float64) : float64 :=
  fmul (fsub (of_int 1) (fdiv (foldl (fun sum rate => fadd sum (math_Min rate (of_int 1))) fzero rates)
                              (of_int (Z.of_nat (length rates))))) (of_int 100).

Lemma cpu_rate_spec r rate : cpu_rate r = Some rate <-> idle_rate r rate.
Proof.
  unfold cpu_rate, idle_rate, rate_limit. destruct (ss_previous r) as [p |].
  2: { split; [done |]. by intros (? & ? & ? & _). }
  split.
  - destruct (_ || _) eqn:E; [done |]. destruct (_ || _) eqn:E2 in |- *; [done |]. intros [= <-].
    repeat apply orb_false_iff in E as [E ?]. apply orb_false_iff in E2 as [? ?]. by eexists _, _.
  - intros (? & ? & [= <-] & -> & H1 & H2 & H3 & -> & H4 & H5). by rewrite H1, H2, H3, H4, H5.
Qed.

Definition one_row (r : snapshotSeries) : string * list snapshotSeries := (slabel r "cpu", [r]).
(** The loop over rows of one sample each. *)
Lemma cpu_loop_singles rs c : Forall (fun r => slabel r "cpu" <> "") rs -> cpu_loop (one_row <$> rs) c
  = mkCpu (foldl (fun t r => oldest t (ss_at r)) (cl_at c) rs)
      (foldl (fun sum rate => fadd sum (math_Min rate (of_int 1))) (cl_idle c) (omap cpu_rate rs))
      (cl_rates c && forallb (fun r => bool_decide (is_Some (cpu_rate r))) rs) (cl_identities c).
Proof.
  revert c. induction rs as [| r rs IH]; intros c Hn; cbn [fmap list_fmap cpu_loop one_row foldl omap list_omap forallb].
  - rewrite andb_true_r. by destruct c.
  - apply Forall_cons in Hn as [Hr Hn]. apply String.eqb_neq in Hr as ->. rewrite IH by done.
    destruct (cpu_rate r) as [rate |]; simpl; [done |]. by rewrite andb_false_r.
Qed.
Lemma reached_fold rs a name : 0 <= a -> (forall r, r ∈ rs -> r ∈ group series name) -> reached a rs (foldl (fun t r => oldest t (ss_at r)) a rs).
Proof.
  revert a. induction rs as [| r rs IH]; intros a Ha Hin; simpl; [apply reached_nil |].
  pose proof (reached_one a name r Ha (Hin r ltac:(by left))) as H1. apply (reached_app a [r] _ rs _ Ha H1).
  apply IH; [by eapply reached_nonneg | intros x Hx; apply Hin; by right].
Qed.
(** The loop identifies every processor only over such rows. *)
Lemma cpu_loop_identified rows c : (forall cpu l r, (cpu, l) ∈ rows -> r ∈ l -> slabel r "cpu" = cpu /\ r ∈ group series "node_cpu_seconds_total") ->
  0 <= cl_at c -> aged instants (cl_at c) (cl_at (cpu_loop rows c))
  /\ (cl_identities (cpu_loop rows c) = true -> exists rs, rows = one_row <$> rs /\ Forall (fun r => slabel r "cpu" <> "") rs).
Proof.
  revert c. induction rows as [| [cpu l] rows IH]; intros c Hin Ha; simpl; [split; [apply aged_refl | by exists []] |].
  destruct l as [| r [| ? ?]]; try (split; [apply aged_refl | done]).
  destruct (String.eqb_spec cpu "") as [| Hne]; [split; [apply aged_refl | done] |].
  destruct (Hin cpu [r] r) as [Hl Hr]; [by left.. |]. destruct (instant_aged (cl_at c) _ r Ha Hr) as [Hag Hpo].
  match goal with |- context [cpu_loop rows ?x] => set (c' := x) end.
  assert (cl_at c' = oldest (cl_at c) (ss_at r)) as E by (unfold c'; by destruct (cpu_rate r)).
  destruct (IH c') as [H1 H2]; [intros ? ? ? ?; eapply Hin; by right | lia |]. rewrite E in H1. split; [by eapply aged_trans |].
  intros (rs & -> & Hrs)%H2. exists (r :: rs). split; [subst cpu; done |].
  constructor; [congruence | done].
Qed.

Lemma cpuRows_group cpu : group (cpuRows series) cpu = cpu_samples cpu.
Proof. apply (group_by_spec (fun r => slabel r "cpu")). Qed.
Lemma cpuRows_full cpu l : cpuRows series !! cpu = Some l -> l = cpu_samples cpu /\ l <> [].
Proof.
  intros Hl. split; [rewrite <- cpuRows_group; unfold group; by rewrite Hl |]. revert cpu l Hl. unfold cpuRows, group_by.
  generalize (List.filter (fun r => (slabel r "mode" =? "idle")%string) (group series "node_cpu_seconds_total")). intros rs.
  assert (map_Forall (fun _ l => l <> []) (∅ : gmap string (list snapshotSeries))) as H0 by apply map_Forall_empty.
  revert H0. generalize (∅ : gmap string (list snapshotSeries)).
  induction rs as [| r rs IH]; intros m Hm cpu l Hl; cbn [foldl] in Hl; [by eapply Hm |]. refine (IH _ _ cpu l Hl).
  apply map_Forall_insert_2; [by intros [_ ?]%app_nil | done].
Qed.
Lemma idle_in r : r ∈ idle_samples <-> r ∈ group series "node_cpu_seconds_total" /\ idle r = true.
Proof. unfold idle_samples. by rewrite !list_elem_of_In, List.filter_In. Qed.
Lemma cpu_in cpu r : r ∈ cpu_samples cpu <-> r ∈ idle_samples /\ slabel r "cpu" = cpu.
Proof. unfold cpu_samples. by rewrite !list_elem_of_In, List.filter_In, String.eqb_eq. Qed.
Lemma cpuRows_in r : r ∈ idle_samples -> cpuRows series !! slabel r "cpu" = Some (cpu_samples (slabel r "cpu")).
Proof.
  intros Hr. pose proof (cpuRows_group (slabel r "cpu")) as Hg. unfold group in Hg. destruct (_ !! _) as [l |]; simpl in Hg; [by subst |].
  assert (r ∈ cpu_samples (slabel r "cpu")) as Hin by (by apply cpu_in). rewrite <- Hg in Hin. by apply elem_of_nil in Hin.
Qed.
Lemma cpu_rows_of cpu l r : (cpu, l) ∈ range_map _ (cpuRows series) -> r ∈ l -> slabel r "cpu" = cpu /\ r ∈ group series "node_cpu_seconds_total".
Proof.
  rewrite (range_map_perm _ (cpuRows series)). intros [-> _]%elem_of_map_to_list%cpuRows_full [Hr ?]%cpu_in. by apply idle_in in Hr as [? _].
Qed.
(** Processors are identified when the rows of the loop hold one sample each. *)
Lemma singles_identified : identified -> exists rs, range_map _ (cpuRows series) = one_row <$> rs /\ Forall (fun r => slabel r "cpu" <> "") rs.
Proof.
  intros Hid. assert (Forall (fun row => exists r, row = one_row r /\ slabel r "cpu" <> "") (range_map _ (cpuRows series))) as Hall.
  { rewrite (range_map_perm _ (cpuRows series)). apply Forall_forall. intros [cpu l] [-> Hne]%elem_of_map_to_list%cpuRows_full.
    destruct (cpu_samples cpu) as [| r l] eqn:El; [done |].
    destruct (proj1 (cpu_in cpu r)) as [Hr <-]; [rewrite El; by left |]. destruct (Hid r Hr) as [? Hs]. rewrite El in Hs.
    exists r. unfold one_row. by rewrite Hs. }
  induction Hall as [| row rows (r & -> & Hr) _ (rs & -> & Hrs)]; [by exists [] |]. exists (r :: rs). split; [done | by constructor].
Qed.
Lemma singles_perm rs : range_map _ (cpuRows series) = one_row <$> rs -> Forall (fun r => slabel r "cpu" <> "") rs ->
  identified /\ rs ≡ₚ idle_samples.
Proof.
  intros Hrs Hn. assert (identified) as Hid.
  { intros r Hr. assert ((slabel r "cpu", cpu_samples (slabel r "cpu")) ∈ one_row <$> rs) as (x & Heq & Hx)%list_elem_of_fmap.
    { rewrite <- Hrs, (range_map_perm _ (cpuRows series)). by apply elem_of_map_to_list, cpuRows_in. }
    unfold one_row in Heq. injection Heq as Hl Hc. rewrite Forall_forall in Hn. split; [rewrite Hl; by apply Hn |].
    assert (r ∈ cpu_samples (slabel r "cpu")) as Hin by (by apply cpu_in). rewrite Hc in Hin |- *.
    by apply list_elem_of_singleton in Hin as ->. }
  split; [done |]. apply NoDup_Permutation.
  - apply (NoDup_fmap_1 (fun r => slabel r "cpu")). change (fun r => slabel r "cpu") with (fst ∘ one_row). rewrite list_fmap_compose, <- Hrs.
    rewrite (range_map_perm _ (cpuRows series)). apply NoDup_fst_map_to_list.
  - clear -Hid. unfold identified, cpu_samples in Hid. induction idle_samples as [| x l IH]; [constructor |]. constructor.
    + intros Hx. destruct (Hid x) as [_ Hs]; [by left |]. simpl in Hs. rewrite String.eqb_refl in Hs. injection Hs as Hs.
      assert (x ∈ List.filter (fun r => (slabel r "cpu" =? slabel x "cpu")%string) l) as Hin
        by (rewrite list_elem_of_In, List.filter_In, String.eqb_refl, <- list_elem_of_In; done).
      rewrite Hs in Hin. by apply elem_of_nil in Hin.
    + apply IH. intros r Hr. destruct (Hid r) as [? Hs]; [by right |]. split; [done |]. simpl in Hs.
      destruct (String.eqb_spec (slabel x "cpu") (slabel r "cpu")); [| done]. injection Hs as -> Hs.
      assert (r ∈ List.filter (fun y => (slabel y "cpu" =? slabel r "cpu")%string) l) as Hin
        by (rewrite list_elem_of_In, List.filter_In, String.eqb_refl, <- list_elem_of_In; done).
      rewrite Hs in Hin. by apply elem_of_nil in Hin.
  - intros r. split.
    + intros Hr. destruct (cpu_rows_of (slabel r "cpu") [r] r) as [_ _]; [rewrite Hrs; by apply (list_elem_of_fmap_2 one_row) | by left |].
      assert ((slabel r "cpu", [r]) ∈ range_map _ (cpuRows series)) as Hin by (rewrite Hrs; by apply (list_elem_of_fmap_2 one_row)).
      rewrite (range_map_perm _ (cpuRows series)) in Hin. apply elem_of_map_to_list, cpuRows_full in Hin as [Hs _].
      assert (r ∈ cpu_samples (slabel r "cpu")) as Hc by (rewrite <- Hs; by left). by apply cpu_in in Hc as [? _].
    + intros Hr. destruct (Hid r Hr) as [_ Hs]. assert ((slabel r "cpu", [r]) ∈ one_row <$> rs) as (x & Heq & Hx)%list_elem_of_fmap.
      { rewrite <- Hrs, (range_map_perm _ (cpuRows series)). apply elem_of_map_to_list. rewrite <- Hs. by apply cpuRows_in. }
      unfold one_row in Heq. by injection Heq as _ ->.
Qed.

(** What the processors show. *)
Record cpus_shown (cores busy : option float64) : Prop := {
  cs_cores : forall v, cores = Some v <-> idle_samples <> [] /\ identified /\ v = of_int (Z.of_nat (length idle_samples));
  cs_busy : forall v, busy = Some v -> is_Some cores
            /\ exists rs rates, rs ≡ₚ idle_samples /\ Forall2 idle_rate rs rates /\ v = utilization rates;
  cs_known : is_Some cores -> (forall r, r ∈ idle_samples -> exists rate, idle_rate r rate) -> is_Some busy }.
Lemma rates_of rs : forallb (fun r => bool_decide (is_Some (cpu_rate r))) rs = true <-> Forall2 idle_rate rs (omap cpu_rate rs).
Proof.
  induction rs as [| r rs IH]; simpl; [by split |]. rewrite andb_true_iff, bool_decide_eq_true, IH.
  destruct (cpu_rate r) as [rate |] eqn:Er; simpl.
  - rewrite Forall2_cons, <- cpu_rate_spec. naive_solver.
  - split; [by intros [[? ?] _] |]. intros (rate & ? & Hr%cpu_rate_spec & _)%Forall2_cons_inv_l. congruence.
Qed.
Lemma snapshot_cpu_shown a : 0 <= a -> let '(cores, busy, b) := snapshot_cpu series a in
  reached a (if cores then idle_samples else []) b /\ cpus_shown cores busy.
Proof.
  intros Ha. unfold snapshot_cpu. case_bool_decide as Hempty.
  - assert (idle_samples = []) as Hnil.
    { destruct idle_samples as [| r l] eqn:El; [done |]. assert (r ∈ idle_samples) as Hr%cpuRows_in by (rewrite El; by left).
      by rewrite Hempty, lookup_empty in Hr. }
    split; [apply reached_nil |]. split; [| done | by intros [? ?]]. intros v. split; [done |]. by intros [? _].
  - destruct (cpu_loop_identified (range_map _ (cpuRows series)) (mkCpu a fzero true true) cpu_rows_of Ha) as [Hag Hid].
    destruct (cl_identities (cpu_loop _ _)) eqn:Ei.
    + destruct (Hid eq_refl) as (rs & Hrs & Hn). destruct (singles_perm rs Hrs Hn) as [Hident Hp].
      rewrite Hrs, cpu_loop_singles in Hag |- * by done. simpl in *.
      assert (Z.of_nat (size (cpuRows series)) = Z.of_nat (length idle_samples)) as ->
        by (rewrite <- Hp, <- length_map_to_list, <- (range_map_perm _ (cpuRows series)), Hrs, length_fmap; done).
      assert (rs <> []) as Hne.
      { intros ->. apply Hempty. apply map_to_list_empty_iff. pose proof (range_map_perm _ (cpuRows series)) as Hq. rewrite Hrs in Hq.
        by apply Permutation_nil_l in Hq. }
      split; [| split].
      * assert (forall r, r ∈ rs -> r ∈ group series "node_cpu_seconds_total") as Hin by (intros x Hx; rewrite Hp in Hx; by apply idle_in in Hx as [? _]).
        destruct (reached_fold rs a _ Ha Hin) as [? Hd]. split; [done |]. intros r Hr. apply Hd. by rewrite Hp.
      * intros v. split; [| by intros (_ & _ & ->)]. intros [= <-]. split_and!; try done. intros Hnil. rewrite Hnil in Hp.
        by apply Permutation_nil_r in Hp.
      * intros v. destruct (forallb _ _) eqn:Er; [| done]. intros [= <-]. split; [done |]. exists rs, (omap cpu_rate rs).
        apply rates_of in Er as Hf. split_and!; [done | done |]. unfold utilization. by rewrite <- (Forall2_length _ _ _ Hf), (Permutation_length Hp).
      * intros _ Hall. replace (forallb _ rs) with true; [done |]. symmetry. apply forallb_forall. intros r Hr. apply bool_decide_eq_true.
        destruct (Hall r) as [rate Hrate%cpu_rate_spec]; [rewrite <- Hp; by apply list_elem_of_In | by exists rate].
    + split; [split; [done | by intros ? ?%elem_of_nil] |]. split; [| done | by intros [? ?]]. intros v. split; [done |].
      intros (_ & (rs & Hrs & Hn)%singles_identified & _). rewrite Hrs, cpu_loop_singles in Ei by done. done.
Qed.

(** The disks: samples by mount point, device and type. *)
Definition disk_samples (key name : string) : list snapshotSeries :=
  List.filter (fun r => shown_mount r && (disk_key r =? key)%string) (group series name).
Definition add_disk_row (name : string) (m : gmap string (gmap string (list snapshotSeries))) (r : snapshotSeries)
    : gmap string (gmap string (list snapshotSeries)) :=
  if shown_mount r then <[ disk_key r := append_at (default ∅ (m !! disk_key r)) name r ]> m else m.
Lemma add_disk_rows name rows m key n :
  group (default ∅ (foldl (add_disk_row name) m rows !! key)) n
  = group (default ∅ (m !! key)) n ++ (if decide (name = n) then List.filter (fun r => shown_mount r && (disk_key r =? key)%string) rows else []).
Proof.
  revert m. induction rows as [| r rows IH]; intros m; cbn [foldl List.filter]; [destruct (decide _); by rewrite app_nil_r |].
  rewrite IH. unfold add_disk_row. destruct (shown_mount r); [| done]. cbn [andb].
  destruct (String.eqb_spec (disk_key r) key) as [-> | Hne].
  - rewrite lookup_insert_eq. cbn [from_option id]. rewrite group_append_at, <- app_assoc. by destruct (decide _).
  - by rewrite lookup_insert_ne.
Qed.
Lemma diskMap_group key name : name = "node_filesystem_size_bytes" \/ name = "node_filesystem_avail_bytes" ->
  group (default ∅ (diskMap series !! key)) name = disk_samples key name.
Proof.
  intros Hn. change (diskMap series) with
    (foldl (add_disk_row "node_filesystem_avail_bytes")
       (foldl (add_disk_row "node_filesystem_size_bytes") ∅ (group series "node_filesystem_size_bytes"))
       (group series "node_filesystem_avail_bytes")).
  rewrite !add_disk_rows, lookup_empty. unfold group at 1. cbn [from_option id]. rewrite lookup_empty. cbn [from_option id].
  destruct Hn as [-> | ->]; [rewrite (decide_True (P := _ = _)), decide_False by done | rewrite decide_False, decide_True by done];
    by rewrite ?app_nil_r.
Qed.

(** The disks that are shown: those with one size sample. Of what is left of it,
    the only sample that is not above the size. *)
Definition sized (r : snapshotSeries) : Prop := shown_mount r = true /\ disk_samples (disk_key r) "node_filesystem_size_bytes" = [r].
Definition available (r : snapshotSeries) : option snapshotSeries :=
  match only (disk_samples (disk_key r) "node_filesystem_avail_bytes") with
  | Some a => if fleb (ss_value a) (ss_value r) then Some a else None
  | None => None
  end.
(** The figures of a disk. *)
Definition disk_figures (r : snapshotSeries) (d : SnapshotDisk) : Prop :=
  sd_Mountpoint d = slabel r "mountpoint" /\ sd_Device d = slabel r "device" /\ sd_FSType d = slabel r "fstype"
  /\ sd_TotalBytes d = Some (ss_value r)
  /\ match available r with
     | Some a => sd_AvailBytes d = Some (ss_value a) /\ sd_UsedBytes d = Some (fsub (ss_value r) (ss_value a))
         /\ sd_UsedPercent d = if fltb fzero (ss_value r)
                               then Some (fmul (fdiv (fsub (ss_value r) (ss_value a)) (ss_value r)) (of_int 100)) else None
     | None => sd_AvailBytes d = None /\ sd_UsedBytes d = None /\ sd_UsedPercent d = None
     end.
Definition disk_used (r : snapshotSeries) : list snapshotSeries := r :: option_list (available r).

Lemma disk_in key name r : r ∈ disk_samples key name -> r ∈ group series name /\ shown_mount r = true /\ disk_key r = key.
Proof. unfold disk_samples. rewrite !list_elem_of_In, List.filter_In, andb_true_iff, String.eqb_eq. tauto. Qed.
Lemma snapshot_disk_shown key fields a : diskMap series !! key = Some fields -> 0 <= a -> let '(d, b) := snapshot_disk fields a in
  match d with
  | Some d => exists r, sized r /\ disk_key r = key /\ disk_figures r d /\ reached a (disk_used r) b
  | None => (forall r, sized r -> disk_key r <> key) /\ b = a
  end.
Proof.
  intros Hk Ha.
  pose proof (diskMap_group key "node_filesystem_size_bytes" ltac:(by left)) as Hs.
  pose proof (diskMap_group key "node_filesystem_avail_bytes" ltac:(by right)) as Hv.
  rewrite Hk in Hs, Hv. cbn [from_option id] in Hs, Hv. unfold snapshot_disk. rewrite Hs, Hv. clear Hs Hv.
  destruct (disk_samples key "node_filesystem_size_bytes") as [| r [| ? ?]] eqn:Es;
    try (split; [intros x [_ Hx] <-; congruence | done]).
  destruct (disk_in key "node_filesystem_size_bytes" r) as (Hr & Hp & <-); [rewrite Es; by left |].
  pose proof (reached_one a _ r Ha Hr) as H1. assert (sized r) as Hz by done.
  assert (available r = available r) as Ea by done. unfold available in Ea at 2.
  destruct (disk_samples (disk_key r) "node_filesystem_avail_bytes") as [| x [| ? ?]] eqn:Ev; cbn [only] in Ea;
    try (exists r; unfold disk_figures, disk_used; rewrite Ea; by split_and!).
  destruct (fleb (ss_value x) (ss_value r)) eqn:Ef; exists r; unfold disk_figures, disk_used; rewrite Ea; [| by split_and!].
  split_and!; try done.
  destruct (disk_in (disk_key r) "node_filesystem_avail_bytes" x) as [Hx _]; [rewrite Ev; by left |].
  apply (reached_app a [r] _ [x] _ Ha H1), (reached_one _ _ _ (reached_nonneg _ _ _ Ha H1) Hx).
Qed.
Lemma snapshot_disks_shown l acc a : (forall key fields, (key, fields) ∈ l -> diskMap series !! key = Some fields) -> 0 <= a ->
  let '(disks, b) := foldl (fun acc fields => let '(d, at_) := snapshot_disk fields (snd acc) in
                        (fst acc ++ match d with Some d => [d] | None => [] end, at_)) (acc, a) l.*2 in
  exists rs new, disks = acc ++ new /\ Forall2 disk_figures rs new /\ reached a (flat_map disk_used rs) b
    /\ (forall r, r ∈ rs <-> sized r /\ disk_key r ∈ l.*1) /\ disk_key <$> rs `sublist_of` l.*1.
Proof.
  revert acc a. induction l as [| [key fields] l IH]; intros acc a Hl Ha; cbn [foldl fmap list_fmap fst snd].
  - exists [], []. rewrite app_nil_r. split_and!; [done | done | apply reached_nil | | done]. intros r. set_solver.
  - pose proof (snapshot_disk_shown key fields a (Hl _ _ (list_elem_of_here _ _)) Ha) as Hd. destruct (snapshot_disk fields a) as [d b].
    pose proof (fun Hb acc' => IH acc' b (fun k f Hf => Hl k f (list_elem_of_further _ _ _ Hf)) Hb) as IH'. clear IH. destruct d as [d |].
    + destruct Hd as (r & Hz & <- & Hf & H1). specialize (IH' (reached_nonneg _ _ _ Ha H1) (acc ++ [d])). destruct (foldl _ _ _) as [disks e].
      destruct IH' as (rs & new & -> & Hfs & H2 & Hin & Hsub). exists (r :: rs), (d :: new). rewrite <- app_assoc. split_and!; try done.
      * by constructor.
      * by apply (reached_app a (disk_used r) b).
      * intros x. rewrite !elem_of_cons, Hin. split; [intros [-> | [? ?]]; auto |]. intros [Hx [Heq | ?]]; [left | by right].
        destruct Hx as [_ Hx], Hz as [_ Hz]. rewrite Heq in Hx. congruence.
      * simpl. by constructor.
    + destruct Hd as [Hno ->]. specialize (IH' Ha (acc ++ [])). destruct (foldl _ _ _) as [disks e].
      destruct IH' as (rs & new & -> & Hfs & H2 & Hin & Hsub). exists rs, new. rewrite app_nil_r. split_and!; try done; [| by constructor].
      intros x. rewrite Hin, elem_of_cons. split; [tauto |]. intros [Hx [Heq | ?]]; [by destruct (Hno x) | done].
Qed.
Lemma sized_known r : sized r -> is_Some (diskMap series !! disk_key r).
Proof.
  intros [_ Hr]. pose proof (diskMap_group (disk_key r) "node_filesystem_size_bytes" ltac:(by left)) as Hg.
  destruct (diskMap series !! disk_key r); [done |]. rewrite Hr in Hg. unfold group in Hg. simpl in Hg. by rewrite lookup_empty in Hg.
Qed.
(** The disks of the host: each sized one once, under its mount point. *)
Definition disks_shown (disks : list SnapshotDisk) (rs : list snapshotSeries) : Prop :=
  NoDup rs /\ (forall r, r ∈ rs <-> sized r) /\ Forall2 disk_figures rs disks
  /\ StronglySorted (fun a b => str_le (sd_Mountpoint a) (sd_Mountpoint b)) disks.
Lemma snapshot_disks_all a : 0 <= a -> let '(disks, b) := snapshot_disks (snd <$> range_map _ (diskMap series)) a in
  exists rs, disks_shown (sort_by sd_Mountpoint disks) rs /\ reached a (flat_map disk_used rs) b.
Proof.
  intros Ha. pose proof (snapshot_disks_shown (range_map _ (diskMap series)) [] a) as Hd. unfold snapshot_disks.
  destruct (foldl _ _ _) as [disks b]. destruct Hd as (rs & new & -> & Hf & Hr & Hin & Hsub); [| done |].
  { intros key fields Hkf. rewrite (range_map_perm _ (diskMap series)) in Hkf. by apply elem_of_map_to_list in Hkf. }
  simpl. assert (forall r, r ∈ rs <-> sized r) as Hall.
  { intros r. rewrite Hin. split; [by intros [? _] |]. intros Hz. split; [done |]. destruct (sized_known r Hz) as [f Hf'].
    apply list_elem_of_fmap. exists (disk_key r, f). split; [done |]. rewrite (range_map_perm _ (diskMap series)). by apply elem_of_map_to_list. }
  assert (NoDup rs) as Hnd.
  { apply (NoDup_fmap_1 disk_key). eapply sublist_NoDup; [| exact Hsub]. rewrite (range_map_perm _ (diskMap series)).
    apply NoDup_fst_map_to_list. }
  assert (new ≡ₚ sort_by sd_Mountpoint new) as Hp by (by rewrite sort_by_perm).
  destruct (Permutation_Forall2 Hp (proj2 (Forall2_flip _ _ _) Hf)) as (rs' & Hp' & Hf').
  exists rs'. split; [split_and!; [by rewrite <- Hp' | intros r; by rewrite <- Hp' | by apply Forall2_flip | apply sort_by_sorted] |].
  destruct Hr as [? Hr]. split; [done |]. intros r Hx. apply Hr. by rewrite Hp'.
Qed.

Lemma snapshotHost_instances r name instance : node_instances series = {[ instance ]} -> has_prefix name "node_" = true ->
  r ∈ group series name -> slabel r "instance" = instance.
Proof.
  intros Hi Hn Hr. assert (slabel r "instance" ∈ node_instances series) as Hin; [| rewrite Hi in Hin; by apply elem_of_singleton in Hin].
  unfold node_instances. apply elem_of_list_to_set.
  rewrite list_elem_of_In, in_flat_map. unfold group in Hr. destruct (series !! name) as [l |] eqn:El; [| by apply elem_of_nil in Hr].
  exists (name, l). split; [| cbn [fst snd]; rewrite Hn; apply list_elem_of_In, list_elem_of_fmap; by exists r].
  apply list_elem_of_In. rewrite (range_map_perm _ series). by apply elem_of_map_to_list.
Qed.

(** The host as it is shown, dated [at_]: by one exporter; no sample that a figure
    rests on is older. *)
Definition host_metrics : list string :=
  ["node_load1"; "node_load5"; "node_load15"; "node_memory_MemTotal_bytes"; "node_memory_MemAvailable_bytes";
   "node_memory_Buffers_bytes"; "node_memory_Cached_bytes"].
Record host_shown (n : SnapshotNode) (at_ : Time) : Prop := {
  hw_instance : exists instance, instance <> "" /\ forall name r, has_prefix name "node_" = true -> r ∈ group series name -> slabel r "instance" = instance;
  hw_at : sh_Quality n = "fresh" /\ sh_SampledAt n = rfc3339 at_ /\ instants at_;
  hw_read : forall name, name ∈ host_metrics -> dates at_ (read_samples name);
  hw_load1 : sh_CPULoad1 n = host_reading "node_load1";
  hw_load5 : sh_CPULoad5 n = host_reading "node_load5";
  hw_load15 : sh_CPULoad15 n = host_reading "node_load15";
  hw_total : sh_MemTotalBytes n = host_reading "node_memory_MemTotal_bytes";
  hw_avail : sh_MemAvailableBytes n = host_reading "node_memory_MemAvailable_bytes";
  hw_buffers : sh_MemBuffersBytes n = host_reading "node_memory_Buffers_bytes";
  hw_cached : sh_MemCachedBytes n = host_reading "node_memory_Cached_bytes";
  hw_used : forall v, sh_MemUsedBytes n = Some v <-> exists t a, sh_MemTotalBytes n = Some t /\ sh_MemAvailableBytes n = Some a
            /\ fleb a t = true /\ v = fsub t a;
  hw_percent : forall v, sh_MemUsedPercent n = Some v <-> exists u t, sh_MemUsedBytes n = Some u /\ sh_MemTotalBytes n = Some t
               /\ fltb fzero t = true /\ v = fmul (fdiv u t) (of_int 100);
  hw_cpus : cpus_shown (sh_CPUCores n) (sh_CPUUtilizationPercent n) /\ (is_Some (sh_CPUCores n) -> dates at_ idle_samples);
  hw_disks : exists rs, disks_shown (sh_StorageDisks n) rs /\ forall r, r ∈ rs -> dates at_ (disk_used r) }.

Ltac next_reading name :=
  match goal with Hall : reached zero_time ?l ?a |- context [host_get series name ?a] =>
    let Hget := fresh "Hget" in let Hval := fresh "Hval" in
    destruct (host_get_shown name a (reached_nonneg _ _ _ (Z.le_refl 0 : 0 <= zero_time) Hall)) as [Hget Hval];
    destruct (host_get series name a) as [? ?]; cbn [fst snd] in Hget, Hval;
    apply (reached_app _ _ _ _ _ (Z.le_refl 0 : 0 <= zero_time) Hall) in Hget; clear Hall
  end.
Lemma difference_shown (total avail : option float64) v :
  match total, avail with Some t, Some a => if fleb a t then Some (fsub t a) else None | _, _ => None end = Some v
  <-> exists t a, total = Some t /\ avail = Some a /\ fleb a t = true /\ v = fsub t a.
Proof.
  clear. split.
  - destruct total as [t |], avail as [a |]; try done. destruct (fleb a t) eqn:E; [| done]. intros [= <-]. by exists t, a.
  - by intros (t & a & -> & -> & -> & ->).
Qed.
Lemma ratio_shown (used total : option float64) v :
  match used, total with Some u, Some t => ratio u t | _, _ => None end = Some v
  <-> exists u t, used = Some u /\ total = Some t /\ fltb fzero t = true /\ v = fmul (fdiv u t) (of_int 100).
Proof.
  clear. unfold ratio. split.
  - destruct used as [u |], total as [t |]; try done. destruct (fltb fzero t) eqn:E; [| done]. intros [= <-]. by exists u, t.
  - by intros (u & t & -> & -> & -> & ->).
Qed.
Ltac among H :=
  match type of H with
  | _ ∈ ?l => repeat match goal with
                     | |- _ ∈ _ ++ l => apply elem_of_app; right; exact H
                     | |- _ ∈ _ ++ _ => apply elem_of_app; left
                     end
  end.
Lemma snapshotHost_shown n : snapshotHost series = Some n -> exists at_, host_shown n at_.
Proof.
  unfold snapshotHost. destruct (_ || _) eqn:Ei; [done |]. pose proof (reached_nil zero_time) as Hall.
  next_reading "node_load1". next_reading "node_load5". next_reading "node_load15". next_reading "node_memory_MemTotal_bytes".
  next_reading "node_memory_MemAvailable_bytes". next_reading "node_memory_Buffers_bytes". next_reading "node_memory_Cached_bytes".
  pose proof (reached_nonneg _ _ _ (Z.le_refl 0 : 0 <= zero_time) Hget) as H0. pose proof (snapshot_cpu_shown t5 H0) as Hcpu.
  destruct (snapshot_cpu series t5) as [[cores busy] t6]. destruct Hcpu as [Hc Hcpus].
  pose proof (reached_app _ _ _ _ _ (Z.le_refl 0 : 0 <= zero_time) Hget Hc) as H6. clear Hget Hc H0.
  pose proof (snapshot_disks_all t6 (reached_nonneg _ _ _ (Z.le_refl 0 : 0 <= zero_time) H6)) as Hdisks.
  destruct (snapshot_disks _ _) as [disks b]. destruct Hdisks as (rs & Hdisks & Hd).
  pose proof (reached_app _ _ _ _ _ (Z.le_refl 0 : 0 <= zero_time) H6 Hd) as [Haged Hdates]. clear H6 Hd.
  destruct (is_zero b) eqn:Ez; [done |]. intros [= <-]. exists b.
  apply orb_false_iff in Ei as [Ei1 Ei2]. apply negb_false_iff, Nat.eqb_eq in Ei1. apply bool_decide_eq_false in Ei2.
  apply size_1_elem_of in Ei1 as [instance Hi]. apply leibniz_equiv in Hi. split; simpl; try done.
  - exists instance. split; [intros ->; apply Ei2; rewrite Hi; set_solver |]. intros name r. by apply snapshotHost_instances.
  - split_and!; [done | done |]. destruct Haged as [[Hb | [Hb _]] _]; [by rewrite Hb in Ez | done].
  - intros name Hname r Hr. apply Hdates. unfold host_metrics in Hname.
    repeat (apply elem_of_cons in Hname as [-> | Hname]; [among Hr |]). by apply elem_of_nil in Hname.
  - apply difference_shown.
  - apply ratio_shown.
  - split; [done |]. intros [c ->] r Hr. apply Hdates. among Hr.
  - exists rs. split; [done |]. intros r Hr x Hx. apply Hdates. apply elem_of_app. right. apply list_elem_of_In, in_flat_map.
    exists r. by rewrite <- !list_elem_of_In.
Qed.
End Hardware.

(** ** The hardware of a snapshot *)

Definition query_url (s : Service) (promQL : string) : string := sv_baseURL s +:+ "/api/v1/query?query=" +:+ QueryEscape promQL.
Lemma queryVector_spec s promQL t : yields t (queryVector s promQL) (fun t' o =>
  (exists t2, t' = t ++ t2) /\ forall d, o = Ok d -> t' = t ++ [Called (Fetch (query_url s promQL)) (Some (Answered 200 (Some d)))]
                                              /\ pq_Status d = "success").
Proof.
  unfold queryVector. destruct (negb (request_url _)); [apply yields_ret; split; [by exists []; rewrite app_nil_r | done] |].
  destruct (negb (sv_httpClient s)); [done |]. apply yields_bind_call. intros resp. apply yields_ret. split; [by eexists |].
  intros d Hd. destruct resp as [| status body]; [done |]. destruct (negb (status =? 200)) eqn:Es; [done |].
  destruct body as [parsed |]; [| done]. destruct (negb (pq_Status parsed =? "success")%string) eqn:Ep; [done |].
  injection Hd as <-. bool_norm. by subst.
Qed.

Lemma queryVector_failed s promQL t : yields t (queryVector s promQL) (fun t' o => forall e, o = Err e ->
  request_url (query_url s promQL) = false
  \/ exists a, t' = t ++ [Called (Fetch (query_url s promQL)) (Some a)] /\ forall d, a = Answered 200 (Some d) -> pq_Status d <> "success").
Proof.
  unfold queryVector. destruct (request_url _) eqn:Eu; cbn [negb]; [| apply yields_ret; by left].
  destruct (negb (sv_httpClient s)); [done |]. apply yields_bind_call. intros resp. apply yields_ret. intros e He. right. exists resp.
  split; [done |]. intros d ->. cbn in He. destruct (pq_Status d =? "success")%string eqn:Es; [done |]. by apply String.eqb_neq in Es.
Qed.
(** Every hardware figure of a snapshot was measured: [series] are the samples of the
    recent rows of Prometheus' answer, by metric; the cards and the host are shown
    from them, each card that can be; and the state says whether there are any. *)
Record hardware_measured (now : Time) (rows : list promRow) (out : Snapshot) : Prop := {
  hm_samples : forall name, Forall2 (measured now)
    (List.filter (fun row => recent now row && (label row "__name__" =? name)%string) rows) (group (seriesMap now rows) name);
  hm_order : StronglySorted (fun a b => str_le (sg_UUID a) (sg_UUID b)) (ts_GPUs out) /\ NoDup (sg_UUID <$> ts_GPUs out);
  hm_gpus : forall g, g ∈ ts_GPUs out -> gpu_shown (seriesMap now rows) g;
  hm_cards : forall id field r index device model, id <> "" -> field ∈ card_fields -> card_sample (seriesMap now rows) id field r ->
             speaks_of index device model r -> exists g, g ∈ ts_GPUs out /\ sg_UUID g = id;
  hm_node : forall n, ts_Node out = Some n -> exists at_, host_shown (seriesMap now rows) n at_;
  hm_state : ts_HardwareState out = "fresh" /\ (ts_GPUs out <> [] \/ is_Some (ts_Node out))
             \/ ts_HardwareState out = (if existsb (too_old now) rows then "stale" else "unavailable") /\ ts_GPUs out = [] /\ ts_Node out = None }.
(** Prometheus is not to be asked, or does not answer with a matrix. *)
Definition unanswered (s : Service) (t : list (called Reading)) : Prop :=
  sv_httpClient s = false \/ sv_baseURL s = "" \/ request_url (query_url s snapshotQuery) = false
  \/ exists a, Called (Fetch (query_url s snapshotQuery)) (Some a) ∈ t
       /\ forall d, a = Answered 200 (Some d) -> pq_Status d = "success" -> pq_ResultType d <> "matrix".

(** The readings of the clock are after [d]. *)
Definition clock_after (d : Z) (c : called Reading) : Prop :=
  match c with
  | Called e o => match e in Reading X return option X -> Prop with
                  | Now => fun o => match o with Some n => d < n | None => True end
                  | _ => fun _ => True
                  end o
  end.

(** C32: a snapshot shows no hardware because Prometheus is not to be asked or does not
    answer with a matrix, or every figure in it was measured: the samples
    are the last values of the recent rows of Prometheus' answer, finite and not
    negative; a figure of a card is the card's only sample of the metric, under one
    identity; the host is shown only when a single exporter speaks of it, and its
    figures are the only samples of their metrics, the used memory and disk space and
    the percentages what the stated formulas make of those, the processor time the
    share that the last two idle samples of every processor leave; the instant shown
    with a card or with the host is the oldest of its samples', or not after any of
    them; and the state says whether there is any hardware. *)
Theorem snapshot_hardware_is_measured `{!MapRangeLaws R} s t out : runs (GetSnapshot s) t (Some (Ok out)) ->
  Forall (clock_after (30 * second)) t ->
  unanswered s t /\ ts_HardwareState out = "unavailable" /\ ts_GPUs out = [] /\ ts_Node out = None
  \/ exists now d, Called Now (Some now) ∈ t
       /\ Called (Fetch (query_url s snapshotQuery)) (Some (Answered 200 (Some d))) ∈ t /\ hardware_measured now (pq_Result d) out.
Proof.
  intros Hr. refine (yields_runs (GetSnapshot s) (fun t o => forall out, o = Ok out -> _) t (Ok out) _ Hr out eq_refl).
  clear t out Hr. unfold GetSnapshot. eapply yields_bind; [apply yields_extends |].
  intros t1 [workloads | e] _; [| by apply yields_ret]. apply yields_bind_call. intros observed.
  destruct (_ || _) eqn:Ec.
  { apply yields_ret. intros ? [= <-] _. left. split; [| done]. apply orb_true_iff in Ec as [Ec | Ec]; bool_norm; [by left | by right; left]. }
  eapply yields_bind; [apply (yields_and _ _ _ _ (queryVector_spec _ _ _) (queryVector_failed _ _ _)) |].
  intros t2 [d | e] [[_ Hd] He].
  2: { apply yields_ret. intros ? [= <-] _. left. split; [| done]. right. right.
       destruct (He e eq_refl) as [? | (a & -> & Ha)]; [by left | right]. exists a. split; [set_solver |]. intros d -> Hs. by destruct (Ha d). }
  destruct (Hd d eq_refl) as [-> _]. clear Hd He. destruct (negb (pq_ResultType d =? "matrix")%string) eqn:Em.
  { apply yields_ret. intros ? [= <-] _. left. split; [| done]. do 3 right. exists (Answered 200 (Some d)). split; [set_solver |].
    intros ? [= <-] _. bool_norm. done. }
  apply yields_bind_call. intros now. apply yields_ret.
  intros out [= <-] Hclock. right. exists now, d. split_and!; [set_solver.. |].
  assert (30 * second < now) as Hnow by (apply Forall_app in Hclock as [_ Hclock]; by inversion_clear Hclock). clear Hclock.
  assert (forall name r, r ∈ group (seriesMap now (pq_Result d)) name -> 0 < ss_at r) as Hpos
    by (intros name r Hin; apply series_measured in Hin; lia).
  destruct (snapshotGPUs_shown _ Hpos) as (H1 & H2 & H3 & H4).
  split; simpl; try done; [apply seriesMap_measured | by apply snapshotHost_shown |].
  set (gpus := snapshotGPUs _). set (node := snapshotHost _).
  assert ((0 <? Z.of_nat (length gpus)) || bool_decide (is_Some node) = true <-> gpus <> [] \/ is_Some node) as Hf.
  { rewrite orb_true_iff, bool_decide_eq_true, Z.ltb_lt. destruct gpus; simpl; split; intros [? | ?]; auto; try done; left; (done || lia). }
  destruct ((0 <? Z.of_nat (length gpus)) || bool_decide (is_Some node)); [left; split; [done | by apply Hf] |]. right. split.
  - rewrite (existsb_same _ _ _ (series_of_stale now)). by destruct (existsb _ _).
  - clearbody gpus node. split.
    + destruct gpus as [| g l]; [done |]. assert (false = true) by (apply Hf; by left). done.
    + destruct node as [n |]; [| done]. assert (false = true) by (apply Hf; by right). done.
Qed.

(** ** The cards of GetGPUs *)

Definition by_index (a b : GPUMetric) : Prop := gm_Index a <= gm_Index b.
Lemma exchange_pass_spec cur rest : let '(m, r) := exchange_pass cur rest in
  m :: r ≡ₚ cur :: rest /\ Forall (by_index m) (cur :: rest).
Proof.
  revert cur. induction rest as [| x rest IH]; intros cur; simpl; [split; [done | by repeat constructor; unfold by_index] |].
  destruct (gm_Index x <? gm_Index cur) eqn:E; bool_norm.
  - specialize (IH x). destruct (exchange_pass x rest) as [m r]. destruct IH as [Hp Hm]. split.
    + etrans; [apply perm_swap |]. by apply perm_skip.
    + inversion_clear Hm as [| ? ? Hx Hr]. unfold by_index in *. repeat constructor; [lia | done | done].
  - specialize (IH cur). destruct (exchange_pass cur rest) as [m r]. destruct IH as [Hp Hm]. split.
    + etrans; [apply perm_swap |]. etrans; [by apply perm_skip | apply perm_swap].
    + inversion_clear Hm as [| ? ? Hx Hr]. unfold by_index in *. repeat constructor; [lia | lia | done].
Qed.
Lemma exchange_from_spec n l : (length l <= n)%nat -> exchange_from n l ≡ₚ l /\ StronglySorted by_index (exchange_from n l).
Proof.
  revert l. induction n as [| n IH]; intros [| x l] Hn; [by split; [| apply SSorted_nil] | | by split; [| apply SSorted_nil] |].
  { simpl in Hn. lia. }
  simpl in Hn |- *.
  pose proof (exchange_pass_spec x l) as Hx. destruct (exchange_pass x l) as [m r]. destruct Hx as [Hp Hm].
  destruct (IH r) as [Hr Hs]. { apply Permutation_length in Hp. simpl in Hp. lia. }
  split; [by rewrite Hr, Hp |]. constructor; [done |]. rewrite Hr. rewrite <- Hp in Hm. by inversion_clear Hm.
Qed.
(** The exchange sort of the code sorts. *)
Lemma exchange_sort_spec l : exchange_sort l ≡ₚ l /\ StronglySorted by_index (exchange_sort l).
Proof. by apply exchange_from_spec. Qed.

(** The row of the FREE query that a card is made from: the last one of its UUID. *)
Definition card_row (rows : list promRow) (u : string) : option promRow :=
  last (List.filter (fun r => (label r "UUID" =? u)%string) rows).
Definition card_of (r : promRow) (g : GPUMetric) : Prop :=
  gm_Index g = atoi_value (label r "gpu") /\ gm_Device g = label r "device" /\ gm_ModelName g = label r "modelName"
  /\ gm_UUID g = label r "UUID" /\ gm_FreeVRAMMB g = int64_of (value_of r).
Definition cards (rows : list promRow) (m : gmap string GPUMetric) : Prop :=
  forall u, match m !! u, card_row rows u with Some g, Some r => card_of r g | None, None => True | _, _ => False end.

Lemma gpusMap_cards rows : cards rows (gpusMap rows).
Proof.
  unfold cards, gpusMap, card_row. induction rows as [| r rows IH] using rev_ind; intros u; [cbn [foldl]; by rewrite lookup_empty |].
  rewrite foldl_app, List.filter_app. cbn [foldl List.filter]. specialize (IH u).
  destruct (String.eqb_spec (label r "UUID") u) as [<- | Hne].
  - rewrite lookup_insert_eq, last_snoc. done.
  - by rewrite lookup_insert_ne, app_nil_r.
Qed.
Lemma cards_alter rows (set : float64 -> GPUMetric -> GPUMetric) v u m : (forall r g, card_of r g -> card_of r (set v g)) -> cards rows m -> cards rows (alter (set v) u m).
Proof.
  intros Hs Hm u'. specialize (Hm u'). destruct (decide (u = u')) as [-> | Hne]; [rewrite lookup_alter_eq | by rewrite lookup_alter_ne].
  destruct (m !! u'); simpl; [| done]. destruct (card_row rows u'); [by apply Hs | done].
Qed.
Lemma cards_read rows (set : float64 -> GPUMetric -> GPUMetric) rows' m : (forall v r g, card_of r g -> card_of r (set v g)) -> cards rows m -> cards rows (read_into set rows' m).
Proof. intros Hs. unfold read_into. revert m. induction rows' as [| r l IH]; intros m Hm; simpl; [done |]. apply IH, cards_alter; auto. Qed.
Definition has_total (m : gmap string GPUMetric) : Prop := map_Forall (fun _ g => gm_TotalVRAMMB g <> 0) m.
Lemma total_read (set : float64 -> GPUMetric -> GPUMetric) rows m : (forall v g, gm_TotalVRAMMB (set v g) = gm_TotalVRAMMB g) -> has_total m -> has_total (read_into set rows m).
Proof.
  intros Hs. unfold read_into. revert m. induction rows as [| r l IH]; intros m Hm; simpl; [done |]. apply IH.
  intros u g. rewrite lookup_alter_Some. intros [(<- & x & Hx & ->) | [_ Hg]]; [rewrite Hs; by eapply Hm | by eapply Hm].
Qed.
Lemma infer_total g : gm_TotalVRAMMB (infer_vram g) <> 0.
Proof.
  unfold infer_vram. simpl. destruct (gm_TotalVRAMMB g =? 0) eqn:E; bool_norm; [| done].
  destruct (0 <? _) eqn:E2; bool_norm; lia.
Qed.

(** Fresh cards: one per UUID of the FREE rows, in the order of their index. *)
Record fresh_cards (rows : list promRow) (l : list GPUMetric) : Prop := {
  fc_sorted : StronglySorted by_index l;
  fc_unique : NoDup (gm_UUID <$> l);
  fc_card : forall g, g ∈ l -> exists r, card_row rows (gm_UUID g) = Some r /\ card_of r g /\ gm_TotalVRAMMB g <> 0;
  fc_all : forall r, r ∈ rows -> label r "UUID" ∈ gm_UUID <$> l }.

Lemma fresh_cards_of `{!MapRangeLaws R} rows m : cards rows m -> has_total m -> fresh_cards rows (exchange_sort (snd <$> range_map _ m)).
Proof.
  intros Hm Ht. destruct (exchange_sort_spec (snd <$> range_map _ m)) as [Hp Hs].
  assert (forall u g, m !! u = Some g -> gm_UUID g = u /\ exists r, card_row rows u = Some r /\ card_of r g) as Hone.
  { intros u g Hg. specialize (Hm u). rewrite Hg in Hm. destruct (card_row rows u) as [r |] eqn:Er; [| done]. split; [| by exists r].
    destruct Hm as (_ & _ & _ & -> & _). unfold card_row in Er. apply last_Some_elem_of in Er.
    rewrite list_elem_of_In, List.filter_In in Er. destruct Er. by bool_norm. }
  assert (forall g, g ∈ exchange_sort (snd <$> range_map _ m) <-> exists u, m !! u = Some g) as Hin.
  { intros g. rewrite Hp, (range_map_perm _ m), list_elem_of_fmap. split.
    - intros ([u x] & -> & Hx%elem_of_map_to_list). by exists u.
    - intros [u Hu%elem_of_map_to_list]. by exists (u, g). }
  split; [done | | |].
  - rewrite Hp, (range_map_perm _ m), <- list_fmap_compose.
    rewrite (list_fmap_ext _ fst); [apply NoDup_fst_map_to_list |]. intros i [u g] Hi. simpl.
    apply list_elem_of_lookup_2, elem_of_map_to_list in Hi. by apply Hone in Hi as [? _].
  - intros g [u Hu]%Hin. destruct (Hone u g Hu) as (<- & r & Hr & Hc). exists r. split_and!; [done | done | by eapply Ht].
  - intros r Hr. specialize (Hm (label r "UUID")). destruct (m !! label r "UUID") as [g |] eqn:Eg.
    + destruct (Hone _ _ Eg) as [<- _]. apply list_elem_of_fmap. exists g. split; [done | apply Hin; by eexists].
    + exfalso. destruct (card_row rows (label r "UUID")) eqn:Er; [done |]. unfold card_row in Er. apply last_None in Er.
      assert (In r (List.filter (fun x => (label x "UUID" =? label r "UUID")%string) rows)) as Hf
        by (apply List.filter_In; rewrite String.eqb_refl; by rewrite <- list_elem_of_In). by rewrite Er in Hf.
Qed.

(** The last reading of the clock. *)
Definition read_last (t : list (called Reading)) (now : Time) : Prop := exists t0, t = t0 ++ [Called Now (Some now)].
(** The query of the free memory failed last. *)
Definition free_failed (s : Service) (t : list (called Reading)) (e : string) : Prop :=
  exists t0 t2, t = t0 ++ t2 /\ runs (queryVector s "DCGM_FI_DEV_FB_FREE") t2 (Some (Err e)).
(** What GetGPUs answers: the cache while it is young or when Prometheus fails, an
    error when it fails and nothing was ever cached, otherwise fresh cards. *)
Definition gpus_answer (s : Service) (t : list (called Reading)) (s' : Service) (r : result string (list GPUMetric)) : Prop :=
  match r with
  | Err e => s' = s /\ sv_cachedGPUs s = None /\ free_failed s t e
  | Ok l =>
      s' = s /\ sv_cachedGPUs s = Some l
        /\ ((exists now, read_last t now /\ time_sub now (sv_lastGPUAt s) < sv_ttl s) \/ exists e, free_failed s t e)
      \/ exists now d, read_last t now /\ s' = cache_gpus now l s
           /\ Called (Fetch (query_url s "DCGM_FI_DEV_FB_FREE")) (Some (Answered 200 (Some d))) ∈ t /\ fresh_cards (pq_Result d) l
  end.

Lemma cards_of_answers d used total util temp power : exists m, cards (pq_Result d) m /\ has_total m /\
  m = read_into set_power (rows_of power) (read_into set_temp (rows_of temp) (read_into set_util (rows_of util)
        (infer_vram <$> read_into set_total (rows_of total) (read_into set_used (rows_of used) (gpusMap (pq_Result d)))))).
Proof.
  eexists. split; [| split; [| reflexivity]].
  - do 3 (apply cards_read; [done |]). assert (cards (pq_Result d) (read_into set_total (rows_of total) (read_into set_used (rows_of used) (gpusMap (pq_Result d))))) as Hc
      by (do 2 (apply cards_read; [done |]); apply gpusMap_cards).
    intros u. specialize (Hc u). rewrite lookup_fmap. by destruct (_ !! u), (card_row _ u).
  - do 3 (apply total_read; [done |]). intros u g. rewrite lookup_fmap_Some. intros (x & <- & _). apply infer_total.
Qed.

Lemma cached_gpus_spec s now l : cached_gpus s now = Some l -> sv_cachedGPUs s = Some l /\ time_sub now (sv_lastGPUAt s) < sv_ttl s.
Proof. unfold cached_gpus. destruct (_ <? _) eqn:E; [| done]. by bool_norm. Qed.

(** The critical section, in any state it finds. *)
Lemma refreshGPUs_spec `{!MapRangeLaws R} s t : yields t (refreshGPUs s) (fun t' o => gpus_answer s t' (fst o) (snd o)).
Proof.
  unfold refreshGPUs. apply yields_bind_call. intros now. destruct (cached_gpus s now) as [l |] eqn:Ec.
  { apply yields_ret. apply cached_gpus_spec in Ec as [? ?]. left. split_and!; [done | done | left; exists now; split; [by eexists | done]]. }
  clear Ec. eapply yields_bind; [apply (yields_and _ _ _ _ (queryVector_spec s "DCGM_FI_DEV_FB_FREE" _) (yields_own _ _)) |].
  intros t1 [d | e] [[_ Hd] (t2 & -> & Hr)].
  - destruct (Hd d eq_refl) as [-> _]. clear Hd Hr.
    eapply yields_bind; [apply yields_extends |]. intros t3 used [x2 ->]. eapply yields_bind; [apply yields_extends |]. intros t4 total [x3 ->].
    eapply yields_bind; [apply yields_extends |]. intros t5 util [x4 ->]. eapply yields_bind; [apply yields_extends |]. intros t6 temp [x5 ->].
    eapply yields_bind; [apply yields_extends |]. intros t7 power [x6 ->]. apply yields_bind_call. intros at_. apply yields_ret.
    right. exists at_, d. destruct (cards_of_answers d used total util temp power) as (m & Hc & Hm & Heq). split_and!.
    + by eexists.
    + done.
    + set_solver.
    + cbn [snd]. rewrite <- Heq. by apply fresh_cards_of.
  - assert (free_failed s ((t ++ [Called Now (Some now)]) ++ t2) e) as Hf by (by eexists _, _).
    apply yields_ret. cbn [fst snd]. destruct (sv_cachedGPUs s) eqn:Ec; [| by split_and!]. left. split_and!; [done | done | by right; eexists].
Qed.

(** C33: GetGPUs answers with its cache only while that is younger than the ttl or
    when Prometheus fails; with an error only when Prometheus fails and nothing was
    ever cached; otherwise with one card per UUID Prometheus reported, sorted by
    index, of known total memory, and caches exactly that at the time it read last. *)
Theorem gpus_are_cached_or_fresh `{!MapRangeLaws R} s t s' r : runs (GetGPUs s) t (Some (s', r)) -> gpus_answer s t s' r.
Proof.
  intros Hr. refine (yields_runs (GetGPUs s) (fun t o => gpus_answer s t (fst o) (snd o)) t (s', r) _ Hr). clear t s' r Hr.
  unfold GetGPUs. apply yields_bind_call. intros now. destruct (cached_gpus s now) as [l |] eqn:Ec; [| apply refreshGPUs_spec].
  apply yields_ret. apply cached_gpus_spec in Ec as [? ?]. left. split_and!; [done | done | left; exists now; split; [by eexists | done]].
Qed.

(** ** The host of GetNode *)

(** The memory and the disks of a fresh node. *)
Record node_figures (n : NodeMetric) : Prop := {
  nf_used : nm_MemUsedBytes n = (if 0 <? nm_MemTotalBytes n then wrapU (nm_MemTotalBytes n - nm_MemAvailableBytes n) else 0);
  nf_percent : nm_MemUsedPercent n = (if 0 <? nm_MemTotalBytes n then percent (nm_MemUsedBytes n) (nm_MemTotalBytes n) else fzero);
  nf_disks : forall d, d ∈ nm_StorageDisks n -> dm_TotalBytes d <> 0 /\ dm_UsedBytes d = wrapU (dm_TotalBytes d - dm_AvailBytes d)
             /\ dm_UsedPercent d = percent (dm_UsedBytes d) (dm_TotalBytes d) /\ (dm_Mountpoint d = "/data" \/ dm_Mountpoint d = "/");
  nf_mounts : NoDup (dm_Mountpoint <$> nm_StorageDisks n) }.

Lemma disk_of_figures sizes avails mp d : disk_of sizes avails mp = Some d ->
  dm_Mountpoint d = mp /\ dm_TotalBytes d <> 0 /\ dm_UsedBytes d = wrapU (dm_TotalBytes d - dm_AvailBytes d)
  /\ dm_UsedPercent d = percent (dm_UsedBytes d) (dm_TotalBytes d).
Proof.
  unfold disk_of. intros (r & _ & Hd)%bind_Some. destruct (uint64_of (value_of r) =? 0) eqn:E; [done |]. injection Hd as <-. bool_norm. by split_and!.
Qed.
Lemma disks_of_mounts sizes avails mps :
  NoDup mps -> NoDup (dm_Mountpoint <$> omap (disk_of sizes avails) mps).
Proof.
  intros Hn. induction Hn as [| mp mps Hni Hn IH]; [constructor |]. simpl.
  destruct (disk_of sizes avails mp) as [d |] eqn:Ed; [| done]. simpl. constructor; [| done].
  intros (d' & Heq & (mp' & Hin & Hd')%list_elem_of_omap)%list_elem_of_fmap.
  apply disk_of_figures in Ed as [E1 _]. apply disk_of_figures in Hd' as [E2 _]. congruence.
Qed.

Lemma refreshNode_spec s t : yields t (refreshNode s) (fun t' o => exists now, read_last t' now /\
  (fst o = s /\ sv_cachedNode s = Some (snd o) /\ time_sub now (sv_lastNodeAt s) < sv_ttl s
   \/ fst o = cache_node now (snd o) s /\ node_figures (snd o))).
Proof.
  unfold refreshNode. apply yields_bind_call. intros now. unfold cached_node.
  destruct (if time_sub _ _ <? _ then _ else _) as [n |] eqn:Ec.
  { apply yields_ret. exists now. split; [by eexists | left]. destruct (_ <? _) eqn:E; [by bool_norm | done]. }
  clear Ec. do 11 (eapply yields_bind; [apply yields_extends |]; intros ? ? [? ->]).
  apply yields_bind_call. intros at_. apply yields_ret. exists at_. split; [by eexists | right]. split; [done |].
  cbn [snd]. split; cbn [nm_MemUsedBytes nm_MemTotalBytes nm_MemAvailableBytes nm_MemUsedPercent nm_StorageDisks].
  - done.
  - by destruct (0 <? _).
  - intros d (mp & Hin & Hd)%list_elem_of_omap. apply disk_of_figures in Hd as (-> & ? & ? & ?). split_and!; try done. set_solver.
  - apply disks_of_mounts. repeat constructor; set_solver.
Qed.
(** The answer of GetNode: the cache while it is young, or fresh figures. *)
Theorem node_is_cached_or_fresh s t s' n : runs (GetNode s) t (Some (s', n)) -> exists now, read_last t now /\
  (s' = s /\ sv_cachedNode s = Some n /\ time_sub now (sv_lastNodeAt s) < sv_ttl s
   \/ s' = cache_node now n s /\ node_figures n).
Proof.
  intros Hr. refine (yields_runs (GetNode s) (fun t o => exists now, read_last t now /\
    (fst o = s /\ sv_cachedNode s = Some (snd o) /\ time_sub now (sv_lastNodeAt s) < sv_ttl s
     \/ fst o = cache_node now (snd o) s /\ node_figures (snd o))) t (s', n) _ Hr). clear t s' n Hr.
  unfold GetNode. apply yields_bind_call. intros now. destruct (cached_node s now) as [n |] eqn:Ec; [| apply refreshNode_spec].
  apply yields_ret. exists now. split; [by eexists | left]. unfold cached_node in Ec. destruct (_ <? _) eqn:E; [by bool_norm | done].
Qed.
End Facts.

(** ** A concrete station *)
Module TelemetrySample.
#[export] Instance sample_floats : FloatLib := {|
  ParseFloat s := match atoi s with Some n => (of_int n, false) | None => (fzero, true) end;
  ParseDuration s := if (s =? "15s")%string then Some (15 * second) else None;
  wild_int64 _ := 0; wild_uint64 _ := 0 |}.
#[export] Instance sample_http : HttpLib := {| media_type _ := None; url_parse _ := None; request_url _ := true |}.
#[export] Instance sample_quantity : QuantityLib := fun s => of_int <$> atoi s.
#[export] Instance sample_range : MapRange := fun A m => map_to_list m.
#[export] Instance sample_range_laws : MapRangeLaws sample_range.
Proof. intros A m. reflexivity. Qed.

Definition now : Time := default 0 (ParseRFC3339 "2026-07-14T08:00:30Z").
Definition pod : RawPodItem :=
  mkRawPod "u-1" "cam-0" "verdantflare-apps" "n" "Running" "2026-07-14T07:00:00Z" "2026-07-14T07:00:00Z"
    {[ "app.kubernetes.io/name" := "cam" ]} [mkRawContainer "main" "2" "4" "100" "200" "1" "" true 0].
Definition sample : RawPodMetricItem := mkRawMetric "" "cam-0" "verdantflare-apps" "main" "2026-07-14T08:00:20Z" "15s" "1" "64".
Definition value (seconds : Z) (n : string) : list any := [ANumber (of_int seconds); AString n].
(** 2026-07-14T08:00:20Z *)
Definition sampled : Z := 1784016020.
Definition row (labels : list (string * string)) (n : string) : promRow :=
  mkRow (list_to_map labels) (value sampled n) [value (sampled - 15) n; value sampled n].
Definition card_labels (name : string) : list (string * string) :=
  [("__name__", name); ("UUID", "GPU-0"); ("gpu", "0"); ("device", "nvidia0"); ("modelName", "T4")].
Definition disk_labels (name : string) : list (string * string) :=
  [("__name__", name); ("instance", "h:9100"); ("mountpoint", "/"); ("device", "sda"); ("fstype", "ext4")].
Definition matrix : promResponse := mkProm "success" "matrix"
  [row (card_labels "DCGM_FI_DEV_FB_FREE") "1000"; row (card_labels "DCGM_FI_DEV_FB_USED") "24";
   row [("__name__", "node_load1"); ("instance", "h:9100")] "3";
   mkRow (list_to_map [("__name__", "node_cpu_seconds_total"); ("instance", "h:9100"); ("mode", "idle"); ("cpu", "0")])
     (value (sampled - 1) "109") [value (sampled - 16) "100"; value (sampled - 1) "109"];
   row (disk_labels "node_filesystem_size_bytes") "1000"; row (disk_labels "node_filesystem_avail_bytes") "250"].
(** Prometheus: one card, and a host whose available memory cannot be read. *)
Definition answer (s : Service) (url : string) : fetched promResponse :=
  if (url =? query_url s snapshotQuery)%string then Answered 200 (Some matrix)
  else if (url =? query_url s "DCGM_FI_DEV_FB_FREE")%string
  then Answered 200 (Some (mkProm "success" "vector" [row (card_labels "DCGM_FI_DEV_FB_FREE") "1000"]))
  else if (url =? query_url s "node_memory_MemTotal_bytes")%string
  then Answered 200 (Some (mkProm "success" "vector" [row [] "1000"]))
  else Answered 503 None.
Definition world (s : Service) : handler Reading unit := fun X e w =>
  (w, match e in Reading X return option X with
      | Now => Some now
      | Fetch url => Some (answer s url)
      | ListPods => Some (Ok [pod])
      | ListPodMetrics => Some (Ok [sample])
      end).
Definition station : Service := SetKubernetes true (NewService "http://p" 0).
Definition trace {A} (p : prog Reading A) : list (called Reading) := snd (fst (interp (world station) p tt)).
Definition workloads : WorkloadsResponse :=
  match snd (interp (world station) (GetWorkloads station) tt) with
  | Some (Ok out) => out | _ => mkWorkloads 0 (mkWorkloadSummary 0 0 0 fzero fzero fzero) [] [] "" end.
Definition snapshot : Snapshot :=
  match snd (interp (world station) (GetSnapshot station) tt) with
  | Some (Ok out) => out | _ => mkTelemetry 0 "" "" [] None [] end.
Definition cards_answer : Service * result string (list GPUMetric) :=
  default (station, Err "") (snd (interp (world station) (GetGPUs station) tt)).
Definition node_answer : Service * NodeMetric :=
  default (station, mkNode 0 fzero fzero fzero fzero 0 0 0 0 0 fzero []) (snd (interp (world station) (GetNode station) tt)).

Lemma runs_here {A} (p : prog Reading A) a : snd (interp (world station) p tt) = Some a -> runs p (trace p) (Some a).
Proof. intros <-. apply interp_runs. Qed.
End TelemetrySample.

Section TelemetryWitness.
Import TelemetrySample.

(** A usage of one core is shown, fresh, beside the configuration. *)
Example workloads_shown :
  (fun w => (wm_PodUID w, wm_Type w, (fun c => (rm_Value (cm_CPU c), rm_Quality (cm_CPU c), rm_SampledAt (cm_CPU c))) <$> wm_Containers w))
    <$> wr_Workloads workloads = [("u-1", "gpu", [(Some (of_int 1), "fresh", Some "2026-07-14T08:00:20Z")])]
  /\ ws_TotalPods (wr_Summary workloads) = 1 /\ ws_TotalMemoryRequested (wr_Summary workloads) = of_int 100.
Proof. split_and!; vm_compute; reflexivity. Qed.
Example snapshot_shown :
  ts_HardwareState snapshot = "fresh" /\ (fun g => (sg_UUID g, sg_TotalVRAMMB g, sg_SampledAt g)) <$> ts_GPUs snapshot
    = [("GPU-0", Some (of_int 1024), "2026-07-14T08:00:20Z")] /\ (sh_CPULoad1 <$> ts_Node snapshot) = Some (Some (of_int 3)).
Proof. split_and!; vm_compute; reflexivity. Qed.
(** The processor idled nine of its last fifteen seconds; it was sampled a second
    before the rest, and dates the host; three quarters of the disk are used. *)
Example host_of_snapshot :
  (fun n => (sh_SampledAt n, sh_CPUCores n, sh_CPUUtilizationPercent n, sd_UsedPercent <$> sh_StorageDisks n)) <$> ts_Node snapshot
  = Some ("2026-07-14T08:00:19Z", Some (of_int 1), Some (utilization [fdiv (of_int 9) (of_int 15)]), [Some (of_int 75)]).
Proof. vm_compute. reflexivity. Qed.
(** A query that fails is shown as full memory, and degrades the station. *)
Example lost_memory_query_degrades :
  nm_MemAvailableBytes (snd node_answer) = 0 /\ nm_MemUsedBytes (snd node_answer) = 1000
  /\ (su_Status <$> match snd (interp (world station) (GetSummary station) tt) with Some (_, Ok u) => Some u | _ => None end) = Some "Degraded".
Proof. split_and!; vm_compute; reflexivity. Qed.

Lemma usage_is_attributed_witness : exists pods samples n,
    Called ListPods (Some (Ok pods)) ∈ trace (GetWorkloads station) /\ Called ListPodMetrics (Some samples) ∈ trace (GetWorkloads station)
    /\ Called Now (Some n) ∈ trace (GetWorkloads station)
    /\ Forall2 (fun pod w => pod_of pod (wm_Name w) (wm_Namespace w) (wm_PodName w) (wm_PodUID w) (wm_Containers w) (samples_of samples) n)
         (List.filter shown_pod pods) (wr_Workloads workloads).
Proof. apply (usage_is_attributed station). apply runs_here. vm_compute. reflexivity. Defined.
Lemma snapshot_hardware_is_measured_witness :
  unanswered station (trace (GetSnapshot station)) /\ ts_HardwareState snapshot = "unavailable" /\ ts_GPUs snapshot = [] /\ ts_Node snapshot = None
  \/ exists n d, Called Now (Some n) ∈ trace (GetSnapshot station)
       /\ Called (Fetch (query_url station snapshotQuery)) (Some (Answered 200 (Some d))) ∈ trace (GetSnapshot station)
       /\ hardware_measured n (pq_Result d) snapshot.
Proof.
  apply (snapshot_hardware_is_measured station); [apply runs_here; vm_compute; reflexivity |].
  vm_compute. repeat constructor.
Defined.
Lemma summary_describes_workloads_witness : wr_Summary workloads = summary_of (wr_Workloads workloads)
  /\ forall w, w ∈ wr_Workloads workloads ->
       (wm_Type w = "gpu" /\ existsb requests_gpu (wm_Containers w) = true
        \/ wm_Type w = "infra" /\ existsb requests_gpu (wm_Containers w) = false).
Proof. apply (summary_describes_workloads station (trace (GetWorkloads station))). apply runs_here. vm_compute. reflexivity. Defined.
Lemma gpus_are_cached_or_fresh_witness :
  gpus_answer station (trace (GetGPUs station)) (fst cards_answer) (snd cards_answer) /\ is_ok (snd cards_answer) = true.
Proof. split; [apply gpus_are_cached_or_fresh; apply runs_here; vm_compute; reflexivity | vm_compute; reflexivity]. Defined.
Lemma node_is_cached_or_fresh_witness : exists now, read_last (trace (GetNode station)) now /\
  (fst node_answer = station /\ sv_cachedNode station = Some (snd node_answer) /\ time_sub now (sv_lastNodeAt station) < sv_ttl station
   \/ fst node_answer = cache_node now (snd node_answer) station /\ node_figures (snd node_answer)).
Proof. apply node_is_cached_or_fresh. apply runs_here. vm_compute. reflexivity. Defined.
End TelemetryWitness.
